(** * Chadsembler: a shallow embedding of the assembler and its virtual machine

    The development follows the layout of the Python sources under
    [Chadsembler/imports]: one module per Python module, the definitions
    carrying the names of the methods they embed.  The first half of the
    file holds the embedding, the second half the properties.

    Conventions.
    - A Python [int] is a [Z]; a Python [str] is a [string] whose characters
      are bytes, so the embedding covers ASCII (and Latin-1) source text.
    - A Python [dict] whose iteration order is never observed by the
      embedded code (the VM memory pool, the configuration table) is a
      [gmap]; a [dict] whose insertion order is observed (the instruction
      pools, the symbol tables) is an association list updated in place.
    - A method that may raise returns a [result]: [Ok v] or [Raise e],
      where [e] names the Python exception or the [sys.exit] ending the run.
    - An index into a list that is only read ([tokens[i]], [source[i]]) is
      carried as the suffix that starts at that index; an index into a list
      that is edited while it is walked stays an index.
    - A [while] loop without a structural measure runs on fuel and answers
      [OutOfFuel] when the fuel runs out; the properties then show how much
      fuel is enough. *)

From Stdlib Require Import ZArith Lia Ascii String List.
From stdpp Require Import base option gmap strings list fin_maps pretty.

Local Open Scope Z_scope.

(** ** Error messages and Python exceptions as values

    Every stage formats its errors as
    [f"{kind} found in line {row} at position {column}: {text}"]; the
    embedding keeps the four parts apart.  The parser has one message
    without a position. *)

Inductive message : Type :=
  | Located (kind : string) (row column : Z) (text : string)
  | Plain (text : string).

(** [Abort errors] is a stage printing its accumulated errors and calling
    [sys.exit(-1)]; [SysExit] and [SysExitMsg] are the VM's [sys.exit]. *)
Inductive pyerr : Type :=
  | IndexError
  | KeyError
  | ValueError
  | TypeError
  | AttributeError
  | EOFError
  | Abort (errors : list message)
  | SysExit (code : Z)
  | SysExitMsg (text : string).

Inductive result (A : Type) : Type :=
  | Ok (a : A)
  | Raise (e : pyerr)
  | OutOfFuel.

Arguments Ok {A} a.
Arguments Raise {A} e.
Arguments OutOfFuel {A}.

Definition rbind {A B : Type} (r : result A) (k : A -> result B) : result B :=
  match r with
  | Ok a => k a
  | Raise e => Raise e
  | OutOfFuel => OutOfFuel
  end.

Notation "x <-- r ;; k" := (rbind r (fun x => k))
  (at level 100, r at next level, right associativity).

(** [d[k]] on a [gmap]: a missing key raises [KeyError]. *)
Definition getitem {K V : Type} `{Countable K} (d : gmap K V) (k : K)
    : result V :=
  match d !! k with
  | Some v => Ok v
  | None => Raise KeyError
  end.

(** ** The fragment of Python's [str] the sources use *)

Module PyStr.

(** [len(s)] *)
Definition len (s : string) : Z := Z.of_nat (String.length s).

(** [c * n]: repetition; a count below one gives the empty string. *)
Fixpoint repeat_nat (c : string) (n : nat) : string :=
  match n with
  | O => EmptyString
  | S n' => c +:+ repeat_nat c n'
  end.

Definition repeat (c : string) (n : Z) : string := repeat_nat c (Z.to_nat n).

(** [s[0]] *)
Definition first (s : string) : result string :=
  match s with
  | EmptyString => Raise IndexError
  | String c _ => Ok (String c EmptyString)
  end.

(** [s[1]] *)
Definition second (s : string) : result string :=
  match s with
  | String _ (String c _) => Ok (String c EmptyString)
  | _ => Raise IndexError
  end.

(** [s[1:]] *)
Definition tail (s : string) : string :=
  match s with
  | EmptyString => EmptyString
  | String _ s' => s'
  end.

(** [s[-1]] *)
Fixpoint last (s : string) : result string :=
  match s with
  | EmptyString => Raise IndexError
  | String c EmptyString => Ok (String c EmptyString)
  | String _ s' => last s'
  end.

(** [s[:-1]] *)
Fixpoint init (s : string) : string :=
  match s with
  | EmptyString => EmptyString
  | String _ EmptyString => EmptyString
  | String c s' => String c (init s')
  end.

(** [s[a:b]] for [0 <= a], the only form the sources use; like Python's
    slices it is cut at the end of the string and never raises. *)
Definition slice (s : string) (a b : Z) : string :=
  String.substring (Z.to_nat a) (Z.to_nat (b - a)) s.

(** [s[n:]] *)
Fixpoint drop (n : nat) (s : string) : string :=
  match n, s with
  | O, _ => s
  | S n', String _ s' => drop n' s'
  | S _, EmptyString => EmptyString
  end.

(** [c in chars] for a single character [c]. *)
Fixpoint mem (c : ascii) (chars : string) : bool :=
  match chars with
  | EmptyString => false
  | String d chars' => if Ascii.eqb c d then true else mem c chars'
  end.

(** [s.upper()] on ASCII letters. *)
Definition upper_char (c : ascii) : ascii :=
  let n := nat_of_ascii c in
  if (Nat.leb 97 n && Nat.leb n 122)%bool then ascii_of_nat (n - 32) else c.

Fixpoint upper (s : string) : string :=
  match s with
  | EmptyString => EmptyString
  | String c s' => String (upper_char c) (upper s')
  end.

Definition is_digit (c : ascii) : bool := mem c "1234567890".

(** The value of a string of decimal digits read left to right. *)
Fixpoint digits_acc (acc : Z) (s : string) : result Z :=
  match s with
  | EmptyString => Ok acc
  | String c s' =>
      if is_digit c
      then digits_acc (10 * acc + (Z.of_nat (nat_of_ascii c) - 48)) s'
      else Raise ValueError
  end.

Definition digits (s : string) : result Z :=
  match s with
  | EmptyString => Raise ValueError
  | _ => digits_acc 0 s
  end.

(** [int(s)]: an optional sign and decimal digits, [ValueError] otherwise.
    (CPython also strips blanks and allows underscores between digits.) *)
Definition int (s : string) : result Z :=
  match s with
  | String "+" s' => digits s'
  | String "-" s' => v <-- digits s' ;; Ok (- v)
  | _ => digits s
  end.

End PyStr.

(** ** Insertion-ordered dictionaries

    [set] overwrites the value of a key that is present and leaves it at
    its place, and appends a new key at the end, as Python's [dict] does. *)

Module PyDict.

Section Dict.
Context {V : Type}.

Fixpoint get (d : list (string * V)) (k : string) : option V :=
  match d with
  | [] => None
  | (k', v) :: d' => if String.eqb k k' then Some v else get d' k
  end.

Fixpoint set (d : list (string * V)) (k : string) (v : V)
    : list (string * V) :=
  match d with
  | [] => [(k, v)]
  | (k', v') :: d' =>
      if String.eqb k k' then (k', v) :: d' else (k', v') :: set d' k v
  end.

Definition keys (d : list (string * V)) : list string := map fst d.

Definition contains (d : list (string * V)) (k : string) : bool :=
  match get d k with
  | Some _ => true
  | None => false
  end.

(** [d[k]] *)
Definition getitem (d : list (string * V)) (k : string) : result V :=
  match get d k with
  | Some v => Ok v
  | None => Raise KeyError
  end.

End Dict.

End PyDict.

(** [x in container] for a tuple of strings. *)
Definition str_in (x : string) (container : list string) : bool :=
  existsb (String.eqb x) container.

(** ** binarystring.py *)

Module BinaryString.

(** The binary digits of a positive number, most significant first. *)
Fixpoint pos_digits (p : positive) : string :=
  match p with
  | xH => "1"
  | xO p' => pos_digits p' +:+ "0"
  | xI p' => pos_digits p' +:+ "1"
  end.

(** [bin(k)[2:]] for a non-negative [k]. *)
Definition bin (k : Z) : string :=
  match k with
  | Zpos p => pos_digits p
  | _ => "0"
  end.

(** [int(s, 2)] on a string of binary digits.  The empty string and any
    character other than ['0'] and ['1'] raise [ValueError].  (CPython also
    accepts a sign, a [0b] prefix, underscores and surrounding blanks; no
    string built by the sources has them.) *)
Fixpoint int2_acc (acc : Z) (s : string) : result Z :=
  match s with
  | EmptyString => Ok acc
  | String c s' =>
      if Ascii.eqb c "0" then int2_acc (2 * acc) s'
      else if Ascii.eqb c "1" then int2_acc (2 * acc + 1) s'
      else Raise ValueError
  end.

Definition int2 (s : string) : result Z :=
  match s with
  | EmptyString => Raise ValueError
  | _ => int2_acc 0 s
  end.

Definition toBinary (denaryNumber : Z) : string :=
  bin (Z.abs denaryNumber).

Definition numberOfBits (denaryNumber : Z) : Z :=
  PyStr.len (toBinary denaryNumber).

Definition padBinary (binaryString : string) (padNumber : Z)
    (padValue : string) : string :=
  PyStr.repeat padValue padNumber +:+ binaryString.

Definition unsignedInteger (denaryValue numberOfBits : Z) : string :=
  let numberOfBits := if numberOfBits <? 1 then 1 else numberOfBits in
  let binaryAsString := toBinary (denaryValue mod 2 ^ numberOfBits) in
  padBinary binaryAsString (numberOfBits - PyStr.len binaryAsString) "0".

Definition signedInteger (denaryValue numberOfBits : Z) : string :=
  let numberOfBits := if numberOfBits <? 2 then 2 else numberOfBits in
  let signBit := if denaryValue <? 0 then "1" else "0" in
  let denaryValue :=
    if denaryValue <? 0 then Z.abs denaryValue else denaryValue in
  let binaryAsString := toBinary (denaryValue mod 2 ^ (numberOfBits - 1)) in
  signBit +:+
    padBinary binaryAsString (numberOfBits - PyStr.len binaryAsString - 1) "0".

Definition readUnsignedInteger (unsignedInteger : string) : result Z :=
  int2 unsignedInteger.

Definition readSignedInteger (signedInteger : string) : result Z :=
  c <-- PyStr.first signedInteger ;;
  let sign := if String.eqb c "0" then 1 else -1 in
  v <-- int2 (PyStr.tail signedInteger) ;;
  Ok (sign * v).

(** *** Shift instructions

    Each returns [(carryBit, newValue)]; the two circular shifts without
    carry return the new value alone. *)

Definition logicalShiftLeft (binaryString : string)
    : result (string * string) :=
  c <-- PyStr.first binaryString ;;
  Ok (c, PyStr.tail binaryString +:+ "0").

Definition logicalShiftRight (binaryString : string)
    : result (string * string) :=
  c <-- PyStr.last binaryString ;;
  Ok (c, "0" +:+ PyStr.init binaryString).

Definition arithmeticShiftLeft (binaryString : string)
    : result (string * string) :=
  c <-- PyStr.second binaryString ;;
  m <-- PyStr.first binaryString ;;
  Ok (c, PyStr.tail binaryString +:+ m).

Definition arithmeticShiftRight (binaryString : string)
    : result (string * string) :=
  c <-- PyStr.last binaryString ;;
  m <-- PyStr.first binaryString ;;
  Ok (c, m +:+ PyStr.init binaryString).

Definition circularShiftLeft (binaryString : string) : result string :=
  m <-- PyStr.first binaryString ;;
  Ok (PyStr.tail binaryString +:+ m).

Definition circularShiftRight (binaryString : string) : result string :=
  l <-- PyStr.last binaryString ;;
  Ok (l +:+ PyStr.init binaryString).

Definition circularShiftLeftWithCarry (binaryString carryBit : string)
    : result (string * string) :=
  c <-- PyStr.first binaryString ;;
  k <-- PyStr.last carryBit ;;
  Ok (c, PyStr.tail binaryString +:+ k).

Definition circularShiftRightWithCarry (binaryString carryBit : string)
    : result (string * string) :=
  c <-- PyStr.last binaryString ;;
  k <-- PyStr.last carryBit ;;
  Ok (c, k +:+ PyStr.init binaryString).

End BinaryString.

(** ** keywords.py *)

Module KeyWords.

Definition HLT : string := "HLT".
Definition ADD : string := "ADD".
Definition SUB : string := "SUB".
Definition STA : string := "STA".
Definition NOP : string := "NOP".
Definition LDA : string := "LDA".
Definition BRA : string := "BRA".
Definition BRZ : string := "BRZ".
Definition BRP : string := "BRP".
Definition INP : string := "INP".
Definition OUT : string := "OUT".
Definition OUTC : string := "OUTC".
Definition OUTB : string := "OUTB".
Definition AND : string := "AND".
Definition OR : string := "OR".
Definition NOT : string := "NOT".
Definition XOR : string := "XOR".
Definition LSL : string := "LSL".
Definition LSR : string := "LSR".
Definition ASL : string := "ASL".
Definition ASR : string := "ASR".
Definition CSL : string := "CSL".
Definition CSR : string := "CSR".
Definition CSLC : string := "CSLC".
Definition CSRC : string := "CSRC".
Definition CALL : string := "CALL".
Definition RET : string := "RET".

Definition INSTRUCTION_SET : list (string * Z) :=
  [ (HLT, 0); (ADD, 1); (SUB, 2); (STA, 3); (NOP, 4); (LDA, 5); (BRA, 6);
    (BRZ, 7); (BRP, 8); (INP, 9); (OUT, 10); (OUTC, 11); (OUTB, 12);
    (AND, 13); (OR, 14); (NOT, 15); (XOR, 16); (LSL, 17); (LSR, 18);
    (ASL, 19); (ASR, 20); (CSL, 21); (CSR, 22); (CSLC, 23); (CSRC, 24);
    (CALL, 25); (RET, 26) ].

(** The inverse dictionary, from opcode to instruction. *)
Definition OPCODE_TO_INSTRUCTION (opcode : Z) : option string :=
  fst <$> List.find (fun kv => snd kv =? opcode) INSTRUCTION_SET.

Definition NUMBER_OF_INSTRUCTIONS : Z := Z.of_nat (length INSTRUCTION_SET).

Definition NUMBER_OF_INSTRUCTION_OPERANDS : list (string * Z) :=
  [ (HLT, 0); (NOP, 0); (RET, 0);
    (INP, 1); (OUT, 1); (OUTC, 1); (OUTB, 1); (CALL, 1);
    (ADD, 2); (SUB, 2); (STA, 2); (LDA, 2); (BRA, 2); (BRZ, 2); (BRP, 2);
    (AND, 2); (OR, 2); (NOT, 2); (XOR, 2); (LSL, 2); (LSR, 2); (ASL, 2);
    (ASR, 2); (CSL, 2); (CSR, 2); (CSLC, 2); (CSRC, 2) ].

Definition DATA_FLOW_INSTRUCTIONS : list string := [STA; INP].
Definition EXPLICIT_SINGLE_OPERAND_INSTRUCTIONS : list string := [CALL].
Definition BRANCH_INSTRUCTIONS : list string := [BRA; BRZ; BRP].
Definition CALL_INSTRUCTIONS : list string := [CALL].
Definition INPUT_INSTRUCTIONS : list string := [INP].

Definition DAT : string := "DAT".
Definition ASSEMBLY_DIRECTIVES : list (string * Z) := [ (DAT, 0) ].

Definition IMMEDIATE_ADDRESSING_MODE : string := "#".
Definition DIRECT_ADDRESSING_MODE : string := "@".
Definition INDIRECT_ADDRESSING_MODE : string := ">".
Definition REGISTER_ADDRESSING_MODE : string := "%".

Definition ADDRESSING_MODE_CHARACTERS : string :=
  IMMEDIATE_ADDRESSING_MODE +:+ DIRECT_ADDRESSING_MODE +:+
  INDIRECT_ADDRESSING_MODE +:+ REGISTER_ADDRESSING_MODE.

Definition NUMBER_OF_ADDRESSING_MODES : Z :=
  PyStr.len ADDRESSING_MODE_CHARACTERS.

Definition ADDRESSING_MODES : list (string * string) :=
  [ ("IMMEDIATE", IMMEDIATE_ADDRESSING_MODE);
    ("DIRECT", DIRECT_ADDRESSING_MODE);
    ("INDIRECT", INDIRECT_ADDRESSING_MODE);
    ("REGISTER", REGISTER_ADDRESSING_MODE);
    (IMMEDIATE_ADDRESSING_MODE, IMMEDIATE_ADDRESSING_MODE);
    (DIRECT_ADDRESSING_MODE, DIRECT_ADDRESSING_MODE);
    (INDIRECT_ADDRESSING_MODE, INDIRECT_ADDRESSING_MODE);
    (REGISTER_ADDRESSING_MODE, REGISTER_ADDRESSING_MODE) ].

Definition ADDRESSING_MODE_TO_OPCODE : list (string * Z) :=
  [ (REGISTER_ADDRESSING_MODE, 0); (INDIRECT_ADDRESSING_MODE, 1);
    (DIRECT_ADDRESSING_MODE, 2); (IMMEDIATE_ADDRESSING_MODE, 3) ].

Definition GENERAL_PURPOSE_REGISTER : list (string * string) :=
  [ ("REGISTER", "REG"); ("REG", "REG"); ("R", "REG") ].

Definition ACCUMULATOR : string := "ACC".
Definition RETURN_REGISTER : string := "RR".
Definition FLAGS_REGISTER : string := "FR".
Definition PROGRAM_COUNTER : string := "PC".

Definition SPECIAL_PURPOSE_REGISTERS : list (string * string) :=
  [ ("ACCUMULATOR", ACCUMULATOR); (ACCUMULATOR, ACCUMULATOR);
    ("RETURNREGISTER", RETURN_REGISTER); (RETURN_REGISTER, RETURN_REGISTER);
    ("FLAGSREGISTER", FLAGS_REGISTER); (FLAGS_REGISTER, FLAGS_REGISTER);
    ("PROGRAMCOUNTER", PROGRAM_COUNTER); (PROGRAM_COUNTER, PROGRAM_COUNTER) ].

Definition SPECIAL_PURPOSE_REGISTERS_OFFSET : list (string * Z) :=
  [ (ACCUMULATOR, 1); (PROGRAM_COUNTER, 2); (RETURN_REGISTER, 3);
    (FLAGS_REGISTER, 4) ].

Definition NUMBER_OF_SPECIAL_PURPOSE_REGISTERS : Z :=
  Z.of_nat (length SPECIAL_PURPOSE_REGISTERS_OFFSET).

(** [SPECIAL_PURPOSE_REGISTERS_OFFSET[register]] for the three registers
    the VM addresses by name. *)
Definition PROGRAM_COUNTER_OFFSET : Z :=
  default 0 (PyDict.get SPECIAL_PURPOSE_REGISTERS_OFFSET PROGRAM_COUNTER).
Definition RETURN_REGISTER_OFFSET : Z :=
  default 0 (PyDict.get SPECIAL_PURPOSE_REGISTERS_OFFSET RETURN_REGISTER).
Definition FLAGS_REGISTER_OFFSET : Z :=
  default 0 (PyDict.get SPECIAL_PURPOSE_REGISTERS_OFFSET FLAGS_REGISTER).

Definition OPERAND_SEPERATOR_CHARACTERS : string := ",".
Definition BLOCK_SCOPE_CHARACTERS : string := "{}".
Definition LEFT_SCOPE_CHARACTERS : string := "{".
Definition RIGHT_SCOPE_CHARACTERS : string := "}".

(** Blank, tab and vertical tab. *)
Definition WHITE_SPACE_CHARACTERS : string :=
  String " " (String "009" (String "011" EmptyString)).

(** Line feed, carriage return and form feed. *)
Definition LINE_BREAK_CHARACTERS : string :=
  String "010" (String "013" (String "012" EmptyString)).

Definition BEGINNING_OF_LABEL_CHARACTERS : string :=
  "abcdefghijklmnopqrstuvwxyzABCDEFGHIJKLMNOPQRSTUVWXYZ_".
Definition LABEL_CHARACTERS : string :=
  "abcdefghijklmnopqrstuvwxyzABCDEFGHIJKLMNOPQRSTUVWXYZ_1234567890".
Definition VALUE_CHARACTERS : string := "1234567890".
Definition VALUE_SIGNS : string := "+-".
Definition BEGINNING_OF_VALUE_CHARACTERS : string := "+-1234567890".

End KeyWords.

(** ** defaults.py *)

Module Defaults.

Definition convertToCasing (uncasedString : string) : string :=
  PyStr.upper uncasedString.

Definition DIRECTIVE_PREFIX : string := "!".
Definition COMMENT_PREFIX : string := ";".
Definition TOKEN_DELIMITER : string := "=".
Definition GLOBAL_INSTRUCTION_POOL_IDENTIFIER : string := ".MAIN".
Definition DEFAULT_VARIABLE_VALUE : string := "0".
Definition LINE_BREAK_SYMBOL : string := "/".
Definition INSTRUCTION_SEPERATOR_SYMBOL : string := ",".
Definition MEMORY_CONFIGURATION_OPTION : string := "MEMORY".
Definition REGISTERS_CONFIGURATION_OPTION : string := "REGISTERS".
Definition CLOCK_CONFIGURATION_OPTION : string := "CLOCK".

End Defaults.

(** ** machineoperations.py

    The operations share the VM's memory pool (the same [dict] object), so
    the pool lives here and the VM reaches it through its
    [MachineOperations] instance.  Standard input is the list of lines still
    to be read, standard output the list of things printed so far. *)

(** What a resolved source operand may be: an [int], the raw bit string
    [OUTB] prints, or the [None] a resolver returns when no addressing mode
    matches. *)
Inductive pyval : Type :=
  | PInt (z : Z)
  | PStr (s : string)
  | PNone.

Inductive printed : Type :=
  | Line (v : pyval)
  | Char (codepoint : Z)
  | Prompt
  | Banner.

Definition as_int (v : pyval) : result Z :=
  match v with
  | PInt z => Ok z
  | _ => Raise TypeError
  end.

Module MachineOperations.

Record t : Type := mk {
  memoryPool : gmap Z string;
  totalNumberOfBits : Z;
  numberOfGeneralPurposeRegisters : Z;
  stdin : list string;
  stdout : list printed
}.

Definition with_pool (m : t) (pool : gmap Z string) : t :=
  mk pool (totalNumberOfBits m) (numberOfGeneralPurposeRegisters m)
     (stdin m) (stdout m).

Definition print (m : t) (p : printed) : t :=
  mk (memoryPool m) (totalNumberOfBits m) (numberOfGeneralPurposeRegisters m)
     (stdin m) (stdout m ++ [p]).

Definition programCounterAddress (m : t) : Z :=
  (KeyWords.PROGRAM_COUNTER_OFFSET + numberOfGeneralPurposeRegisters m) * -1.

Definition returnRegisterAddress (m : t) : Z :=
  (KeyWords.RETURN_REGISTER_OFFSET + numberOfGeneralPurposeRegisters m) * -1.

Definition flagRegisterAddress (m : t) : Z :=
  (KeyWords.FLAGS_REGISTER_OFFSET + numberOfGeneralPurposeRegisters m) * -1.

Definition HLT (m : t) (sourceOperand : pyval) (destinationOperand : Z)
    : result t :=
  Raise (SysExit 0).

(** [ADD], [SUB], [AND], [OR] and [XOR] differ in the operator alone. *)
Definition arithmetic (op : Z -> Z -> Z) (m : t) (sourceOperand : pyval)
    (destinationOperand : Z) : result t :=
  cell <-- getitem (memoryPool m) destinationOperand ;;
  old <-- BinaryString.readSignedInteger cell ;;
  src <-- as_int sourceOperand ;;
  let newValue := op old src in
  Ok (with_pool m
        (<[destinationOperand :=
             BinaryString.signedInteger newValue (totalNumberOfBits m)]>
           (memoryPool m))).

Definition ADD := arithmetic Z.add.
Definition SUB := arithmetic Z.sub.
Definition AND := arithmetic Z.land.
Definition OR := arithmetic Z.lor.
Definition XOR := arithmetic Z.lxor.

Definition STA (m : t) (sourceOperand : pyval) (destinationOperand : Z)
    : result t :=
  cell <-- getitem (memoryPool m) destinationOperand ;;
  src <-- as_int sourceOperand ;;
  Ok (with_pool m (<[src := cell]> (memoryPool m))).

Definition NOP (m : t) (sourceOperand : pyval) (destinationOperand : Z)
    : result t :=
  Ok m.

Definition LDA (m : t) (sourceOperand : pyval) (destinationOperand : Z)
    : result t :=
  src <-- as_int sourceOperand ;;
  Ok (with_pool m
        (<[destinationOperand :=
             BinaryString.signedInteger src (totalNumberOfBits m)]>
           (memoryPool m))).

Definition branch (m : t) (sourceOperand : pyval) : result t :=
  src <-- as_int sourceOperand ;;
  Ok (with_pool m
        (<[programCounterAddress m :=
             BinaryString.signedInteger src (totalNumberOfBits m)]>
           (memoryPool m))).

Definition BRA (m : t) (sourceOperand : pyval) (destinationOperand : Z)
    : result t :=
  branch m sourceOperand.

Definition BRZ (m : t) (sourceOperand : pyval) (destinationOperand : Z)
    : result t :=
  cell <-- getitem (memoryPool m) destinationOperand ;;
  v <-- BinaryString.readSignedInteger cell ;;
  if v =? 0 then branch m sourceOperand else Ok m.

Definition BRP (m : t) (sourceOperand : pyval) (destinationOperand : Z)
    : result t :=
  cell <-- getitem (memoryPool m) destinationOperand ;;
  v <-- BinaryString.readSignedInteger cell ;;
  if -1 <? v then branch m sourceOperand else Ok m.

(** [int(input(...))]: a line that is no integer ends the run with the
    runtime error message, no line at all is Python's [EOFError]. *)
Definition INP (m : t) (sourceOperand : pyval) (destinationOperand : Z)
    : result t :=
  match stdin m with
  | [] => Raise EOFError
  | line :: rest =>
      let m := mk (memoryPool m) (totalNumberOfBits m)
                  (numberOfGeneralPurposeRegisters m) rest
                  (stdout m ++ [Prompt]) in
      match PyStr.int line with
      | Ok terminalInput =>
          src <-- as_int sourceOperand ;;
          Ok (with_pool m
                (<[src := BinaryString.signedInteger terminalInput
                            (totalNumberOfBits m)]> (memoryPool m)))
      | Raise ValueError =>
          Raise (SysExitMsg
            "Runtime Error: Non-inferrable integer value passed in as input")
      | Raise e => Raise e
      | OutOfFuel => OutOfFuel
      end
  end.

Definition OUT (m : t) (sourceOperand : pyval) (destinationOperand : Z)
    : result t :=
  Ok (print m (Line sourceOperand)).

Definition OUTC (m : t) (sourceOperand : pyval) (destinationOperand : Z)
    : result t :=
  src <-- as_int sourceOperand ;;
  if (0 <=? src) && (src <? 1114112)
  then Ok (print m (Char src))
  else Raise ValueError.

Definition OUTB (m : t) (sourceOperand : pyval) (destinationOperand : Z)
    : result t :=
  Ok (print m (Line sourceOperand)).

Definition NOT (m : t) (sourceOperand : pyval) (destinationOperand : Z)
    : result t :=
  src <-- as_int sourceOperand ;;
  let newValue := Z.lnot src in
  Ok (with_pool m
        (<[destinationOperand :=
             BinaryString.unsignedInteger newValue (totalNumberOfBits m)]>
           (memoryPool m))).

(** [for count in range(n): newFlagValue, newValue = step(newValue, newFlagValue)] *)
Fixpoint shiftLoop (step : string -> string -> result (string * string))
    (n : nat) (newFlagValue newValue : string) : result (string * string) :=
  match n with
  | O => Ok (newFlagValue, newValue)
  | S n' =>
      fv <-- step newValue newFlagValue ;;
      shiftLoop step n' (fst fv) (snd fv)
  end.

(** The body shared by [LSL], [LSR], [ASL], [ASR], [CSLC] and [CSRC], which
    differ in the shift primitive alone. *)
Definition carryShift (step : string -> string -> result (string * string))
    (m : t) (sourceOperand : pyval) (destinationOperand : Z) : result t :=
  flagCell <-- getitem (memoryPool m) (flagRegisterAddress m) ;;
  newFlagValue <-- PyStr.last flagCell ;;
  newValue <-- getitem (memoryPool m) destinationOperand ;;
  count <-- as_int sourceOperand ;;
  fv <-- shiftLoop step (Z.to_nat count) newFlagValue newValue ;;
  let pool :=
    <[flagRegisterAddress m :=
        BinaryString.padBinary (fst fv) (totalNumberOfBits m - 1) "0"]>
      (memoryPool m) in
  Ok (with_pool m (<[destinationOperand := snd fv]> pool)).

Definition LSL := carryShift (fun v _ => BinaryString.logicalShiftLeft v).
Definition LSR := carryShift (fun v _ => BinaryString.logicalShiftRight v).
Definition ASL := carryShift (fun v _ => BinaryString.arithmeticShiftLeft v).
Definition ASR := carryShift (fun v _ => BinaryString.arithmeticShiftRight v).
Definition CSLC := carryShift BinaryString.circularShiftLeftWithCarry.
Definition CSRC := carryShift BinaryString.circularShiftRightWithCarry.

Fixpoint circularLoop (step : string -> result string) (n : nat)
    (newValue : string) : result string :=
  match n with
  | O => Ok newValue
  | S n' => v <-- step newValue ;; circularLoop step n' v
  end.

Definition circularShift (step : string -> result string) (m : t)
    (sourceOperand : pyval) (destinationOperand : Z) : result t :=
  newValue <-- getitem (memoryPool m) destinationOperand ;;
  count <-- as_int sourceOperand ;;
  v <-- circularLoop step (Z.to_nat count) newValue ;;
  Ok (with_pool m (<[destinationOperand := v]> (memoryPool m))).

Definition CSL := circularShift BinaryString.circularShiftLeft.
Definition CSR := circularShift BinaryString.circularShiftRight.

Definition CALL (m : t) (sourceOperand : pyval) (destinationOperand : Z)
    : result t :=
  pc <-- getitem (memoryPool m) (programCounterAddress m) ;;
  let pool := <[returnRegisterAddress m := pc]> (memoryPool m) in
  src <-- as_int sourceOperand ;;
  Ok (with_pool m
        (<[programCounterAddress m :=
             BinaryString.signedInteger src (totalNumberOfBits m)]> pool)).

Definition RET (m : t) (sourceOperand : pyval) (destinationOperand : Z)
    : result t :=
  rr <-- getitem (memoryPool m) (returnRegisterAddress m) ;;
  Ok (with_pool m (<[programCounterAddress m := rr]> (memoryPool m))).

Definition instructionMapping (opcode : Z)
    : option (t -> pyval -> Z -> result t) :=
  match opcode with
  | 0 => Some HLT | 1 => Some ADD | 2 => Some SUB | 3 => Some STA
  | 4 => Some NOP | 5 => Some LDA | 6 => Some BRA | 7 => Some BRZ
  | 8 => Some BRP | 9 => Some INP | 10 => Some OUT | 11 => Some OUTC
  | 12 => Some OUTB | 13 => Some AND | 14 => Some OR | 15 => Some NOT
  | 16 => Some XOR | 17 => Some LSL | 18 => Some LSR | 19 => Some ASL
  | 20 => Some ASR | 21 => Some CSL | 22 => Some CSR | 23 => Some CSLC
  | 24 => Some CSRC | 25 => Some CALL | 26 => Some RET
  | _ => None
  end.

End MachineOperations.

(** ** virtualmachine.py

    [time.sleep] between two instructions is not modelled: it changes no
    state the embedding keeps. *)

Module VirtualMachine.

Record t : Type := mk {
  configurationTable : gmap string Z;
  chadsemblyByteCode : list string;
  numberOfMachineOperationBits : Z;
  numberOfAddressingModeBits : Z;
  numberOfOperandBits : Z;
  totalNumberOfInstructionBits : Z;
  machineOperations : MachineOperations.t
}.

Definition memoryPool (vm : t) : gmap Z string :=
  MachineOperations.memoryPool (machineOperations vm).

Definition with_machine (vm : t) (m : MachineOperations.t) : t :=
  mk (configurationTable vm) (chadsemblyByteCode vm)
     (numberOfMachineOperationBits vm) (numberOfAddressingModeBits vm)
     (numberOfOperandBits vm) (totalNumberOfInstructionBits vm) m.

Definition with_pool (vm : t) (pool : gmap Z string) : t :=
  with_machine vm (MachineOperations.with_pool (machineOperations vm) pool).

(** [{index: defaultValue for index in range(n)}] and then one cell per
    register, general and special purpose, under the negated number. *)
Definition generateMemoryPool (configurationTable : gmap string Z)
    (numberOfOperandBits totalNumberOfInstructionBits : Z)
    : result (gmap string Z * gmap Z string) :=
  let defaultValue := PyStr.repeat "0" totalNumberOfInstructionBits in
  let numberOfMemoryAddresses := 2 ^ (numberOfOperandBits - 1) in
  let configurationTable :=
    <[Defaults.MEMORY_CONFIGURATION_OPTION := numberOfMemoryAddresses]>
      configurationTable in
  registers <-- getitem configurationTable
                  Defaults.REGISTERS_CONFIGURATION_OPTION ;;
  let totalNumberOfRegisters :=
    registers + KeyWords.NUMBER_OF_SPECIAL_PURPOSE_REGISTERS in
  let memoryPool : gmap Z string :=
    foldl (fun pool index => <[index := defaultValue]> pool) ∅
          (seqZ 0 numberOfMemoryAddresses) in
  let memoryPool :=
    foldl (fun pool register => <[register * -1 := defaultValue]> pool)
          memoryPool (reverse (seqZ 1 totalNumberOfRegisters)) in
  Ok (configurationTable, memoryPool).

(** The constructor. *)
Definition init (configurationTable : gmap string Z)
    (chadsemblyByteCode : list string)
    (numberOfMachineOperationBits numberOfAddressingModeBits
       numberOfOperandBits totalNumberOfInstructionBits : Z)
    (stdin : list string) : result t :=
  cp <-- generateMemoryPool configurationTable numberOfOperandBits
           totalNumberOfInstructionBits ;;
  registers <-- getitem configurationTable
                  Defaults.REGISTERS_CONFIGURATION_OPTION ;;
  Ok (mk (fst cp) chadsemblyByteCode numberOfMachineOperationBits
         numberOfAddressingModeBits numberOfOperandBits
         totalNumberOfInstructionBits
         (MachineOperations.mk (snd cp) totalNumberOfInstructionBits
            registers stdin [])).

Definition loader (vm : t) : result t :=
  let numberOfChadsemblyInstructions :=
    Z.of_nat (length (chadsemblyByteCode vm)) in
  numberOfMemoryLocations <-- getitem (configurationTable vm)
                                Defaults.MEMORY_CONFIGURATION_OPTION ;;
  if numberOfMemoryLocations <? numberOfChadsemblyInstructions
  then Raise (SysExitMsg
    "Runtime Error: Cannot load all instructions and any variables into memory")
  else
    Ok (with_pool vm
          (foldl (fun pool ic => <[fst ic := snd ic]> pool) (memoryPool vm)
             (zip (seqZ 0 numberOfChadsemblyInstructions)
                  (chadsemblyByteCode vm)))).

Definition REGISTER_MODE : Z :=
  default 0 (PyDict.get KeyWords.ADDRESSING_MODE_TO_OPCODE
               KeyWords.REGISTER_ADDRESSING_MODE).
Definition INDIRECT_MODE : Z :=
  default 0 (PyDict.get KeyWords.ADDRESSING_MODE_TO_OPCODE
               KeyWords.INDIRECT_ADDRESSING_MODE).
Definition DIRECT_MODE : Z :=
  default 0 (PyDict.get KeyWords.ADDRESSING_MODE_TO_OPCODE
               KeyWords.DIRECT_ADDRESSING_MODE).
Definition IMMEDIATE_MODE : Z :=
  default 0 (PyDict.get KeyWords.ADDRESSING_MODE_TO_OPCODE
               KeyWords.IMMEDIATE_ADDRESSING_MODE).

Definition resolveForValue (vm : t) (addressingMode operandValue : Z)
    : result pyval :=
  if addressingMode =? DIRECT_MODE then
    cell <-- getitem (memoryPool vm) operandValue ;;
    v <-- BinaryString.readSignedInteger cell ;;
    Ok (PInt v)
  else if addressingMode =? INDIRECT_MODE then
    cell <-- getitem (memoryPool vm) operandValue ;;
    a <-- BinaryString.readSignedInteger cell ;;
    cell' <-- getitem (memoryPool vm) a ;;
    v <-- BinaryString.readSignedInteger cell' ;;
    Ok (PInt v)
  else if addressingMode =? REGISTER_MODE then
    cell <-- getitem (memoryPool vm) (operandValue * -1) ;;
    v <-- BinaryString.readSignedInteger cell ;;
    Ok (PInt v)
  else if addressingMode =? IMMEDIATE_MODE then
    Ok (PInt operandValue)
  else Ok PNone.

Definition resolveForAddress (vm : t) (addressingMode operandValue : Z)
    : result pyval :=
  if addressingMode =? INDIRECT_MODE then
    cell <-- getitem (memoryPool vm) operandValue ;;
    v <-- BinaryString.readSignedInteger cell ;;
    Ok (PInt v)
  else if addressingMode =? REGISTER_MODE then
    Ok (PInt (operandValue * -1))
  else Ok (PInt operandValue).

Definition resolveForBinary (vm : t) (addressingMode operandValue : Z)
    : result pyval :=
  if addressingMode =? DIRECT_MODE then
    cell <-- getitem (memoryPool vm) operandValue ;;
    Ok (PStr cell)
  else if addressingMode =? INDIRECT_MODE then
    cell <-- getitem (memoryPool vm) operandValue ;;
    a <-- BinaryString.readSignedInteger cell ;;
    cell' <-- getitem (memoryPool vm) a ;;
    Ok (PStr cell')
  else if addressingMode =? REGISTER_MODE then
    cell <-- getitem (memoryPool vm) (operandValue * -1) ;;
    Ok (PStr cell)
  else if addressingMode =? IMMEDIATE_MODE then
    Ok (PStr (BinaryString.signedInteger operandValue
                (totalNumberOfInstructionBits vm)))
  else Ok PNone.

Definition inContainers (targetValue : string)
    (containers : list (list string)) : bool :=
  existsb (str_in targetValue) containers.

Definition resolveSourceOperand (vm : t)
    (machineOperation addressingMode sourceOperand : Z) : result pyval :=
  match KeyWords.OPCODE_TO_INSTRUCTION machineOperation with
  | None => Raise (SysExitMsg
      "Runtime Error: The opcode does not map to any machine operation")
  | Some chadsemblyInstruction =>
      if inContainers chadsemblyInstruction
           [KeyWords.DATA_FLOW_INSTRUCTIONS; KeyWords.BRANCH_INSTRUCTIONS;
            KeyWords.CALL_INSTRUCTIONS]
      then resolveForAddress vm addressingMode sourceOperand
      else if String.eqb chadsemblyInstruction KeyWords.OUTB
      then resolveForBinary vm addressingMode sourceOperand
      else resolveForValue vm addressingMode sourceOperand
  end.

Definition resolveDestinationOperand (destinationOperand : Z) : Z :=
  destinationOperand * -1.

Definition executeMachineOperation (vm : t) (machineOperation : Z)
    (sourceOperand : pyval) (destinationOperand : Z) : result t :=
  match MachineOperations.instructionMapping machineOperation with
  | None => Raise KeyError
  | Some operation =>
      m <-- operation (machineOperations vm) sourceOperand
              destinationOperand ;;
      Ok (with_machine vm m)
  end.

Definition programCounterAddress (vm : t) : result Z :=
  registers <-- getitem (configurationTable vm)
                  Defaults.REGISTERS_CONFIGURATION_OPTION ;;
  Ok ((registers + KeyWords.PROGRAM_COUNTER_OFFSET) * -1).

Definition executeInstruction (vm : t) (chadsemblyInstruction : string)
    : result t :=
  programCounterAddress <-- programCounterAddress vm ;;
  pcCell <-- getitem (memoryPool vm) programCounterAddress ;;
  pc <-- BinaryString.readSignedInteger pcCell ;;
  let vm :=
    with_pool vm
      (<[programCounterAddress :=
           BinaryString.signedInteger (pc + 1)
             (totalNumberOfInstructionBits vm)]> (memoryPool vm)) in
  let offset0 := numberOfMachineOperationBits vm in
  machineOperation <-- BinaryString.readUnsignedInteger
                         (PyStr.slice chadsemblyInstruction 0 offset0) ;;
  let offset1 := offset0 + numberOfAddressingModeBits vm in
  addressingMode <-- BinaryString.readUnsignedInteger
                       (PyStr.slice chadsemblyInstruction offset0 offset1) ;;
  let offset2 := offset1 + numberOfOperandBits vm in
  sourceOperand <-- BinaryString.readSignedInteger
                      (PyStr.slice chadsemblyInstruction offset1 offset2) ;;
  let offset3 := offset2 + numberOfOperandBits vm in
  destinationOperand <-- BinaryString.readSignedInteger
                           (PyStr.slice chadsemblyInstruction offset2 offset3) ;;
  sourceOperand <-- resolveSourceOperand vm machineOperation addressingMode
                      sourceOperand ;;
  let destinationOperand := resolveDestinationOperand destinationOperand in
  executeMachineOperation vm machineOperation sourceOperand
    destinationOperand.

(** The fetch-decode-execute loop of [run]: [Ok] is the loop ending because
    its guard became false. *)
Fixpoint run_loop (fuel : nat) (programCounterAddress : Z)
    (numberOfMemoryAddresses : Z) (vm : t) : result t :=
  pcCell <-- getitem (memoryPool vm) programCounterAddress ;;
  pc <-- BinaryString.readSignedInteger pcCell ;;
  if pc <? numberOfMemoryAddresses then
    match fuel with
    | O => OutOfFuel
    | S fuel' =>
        pcCell <-- getitem (memoryPool vm) programCounterAddress ;;
        programCounter <-- BinaryString.readUnsignedInteger pcCell ;;
        instruction <-- getitem (memoryPool vm) programCounter ;;
        vm <-- executeInstruction vm instruction ;;
        run_loop fuel' programCounterAddress numberOfMemoryAddresses vm
    end
  else Ok vm.

Definition run (fuel : nat) (vm : t) : result t :=
  vm <-- loader vm ;;
  let vm := with_machine vm
              (MachineOperations.print (machineOperations vm) Banner) in
  programCounterAddress <-- programCounterAddress vm ;;
  numberOfMemoryAddresses <-- getitem (configurationTable vm)
                                Defaults.MEMORY_CONFIGURATION_OPTION ;;
  _ <-- getitem (configurationTable vm) Defaults.CLOCK_CONFIGURATION_OPTION ;;
  run_loop fuel programCounterAddress numberOfMemoryAddresses vm.

End VirtualMachine.

(** ** untypedtoken.py, typedtoken.py, operand.py *)

Module UntypedToken.

Record t : Type := mk {
  tokenValue : string;
  row : Z;
  column : Z
}.

End UntypedToken.

Module TypedToken.

(** The token types, the integers 0 to 10 of the source in that order. *)
Inductive kind : Type :=
  | END
  | INSTRUCTION
  | ADDRESSING_MODE
  | VALUE
  | REGISTER
  | LABEL
  | SEPERATOR
  | LEFT_BRACE
  | RIGHT_BRACE
  | ASSEMBLY_DIRECTIVE
  | INVALID.

Definition kind_eqb (a b : kind) : bool :=
  match a, b with
  | END, END | INSTRUCTION, INSTRUCTION | ADDRESSING_MODE, ADDRESSING_MODE
  | VALUE, VALUE | REGISTER, REGISTER | LABEL, LABEL | SEPERATOR, SEPERATOR
  | LEFT_BRACE, LEFT_BRACE | RIGHT_BRACE, RIGHT_BRACE
  | ASSEMBLY_DIRECTIVE, ASSEMBLY_DIRECTIVE | INVALID, INVALID => true
  | _, _ => false
  end.

Definition kind_in (a : kind) (kinds : list kind) : bool :=
  existsb (kind_eqb a) kinds.

Definition INTEGER_TO_TOKEN (k : kind) : string :=
  match k with
  | END => "End Of Statement"
  | INSTRUCTION => "Instruction"
  | ADDRESSING_MODE => "Addressing Mode"
  | VALUE => "Value"
  | REGISTER => "Register"
  | LABEL => "Label"
  | SEPERATOR => "Instruction Seperator"
  | RIGHT_BRACE => "Right Curly Brace"
  | LEFT_BRACE => "Left Curly Brace"
  | ASSEMBLY_DIRECTIVE => "Assembly Directive"
  | INVALID => "Invalid Token"
  end.

Record t : Type := mk {
  tokenType : kind;
  tokenValue : string;
  row : Z;
  column : Z
}.

Definition is_kind (k : kind) (token : t) : bool := kind_eqb (tokenType token) k.

End TypedToken.

Module Operand.

Record t : Type := mk {
  addressingMode : TypedToken.t;
  operandValue : TypedToken.t
}.

End Operand.

(** ** symboltableentry.py, symboltable.py, instructionpool.py

    An entry is reached through its table alone, so assigning to a field of
    an entry is writing the changed entry back under its key.  [labelType]
    stays an integer: the parser inserts new labels with the type [-1].
    [labelValue] is an integer; the one string the source stores there, the
    default initialiser ["0"], is kept as the integer it is read back as. *)

Module SymbolTable.

Definition BRANCH_LABEL : Z := 1.
Definition VARIABLE_LABEL : Z := 2.
Definition PROCEDURE_LABEL : Z := 3.

Record SymbolTableEntry : Type := mkEntry {
  labelIdentifier : string;
  labelValue : Z;
  labelType : Z
}.

Definition t : Type := list (string * SymbolTableEntry).

Definition empty : t := [].

Definition insert (table : t) (labelIdentifier : string)
    (labelValue labelType : Z) : t :=
  PyDict.set table (Defaults.convertToCasing labelIdentifier)
    (mkEntry labelIdentifier labelValue labelType).

(** [None] is the source's [Defaults.NULL]. *)
Definition get (table : t) (targetLabelIdentifier : string)
    : option SymbolTableEntry :=
  PyDict.get table (Defaults.convertToCasing targetLabelIdentifier).

Definition getLabels (table : t) : list string := PyDict.keys table.

(** [table.get(label).labelType = ...; table.get(label).labelValue = ...] *)
Definition assign (table : t) (label : string) (labelValue labelType : Z)
    : t :=
  match get table label with
  | Some entry =>
      PyDict.set table (Defaults.convertToCasing label)
        (mkEntry (labelIdentifier entry) labelValue labelType)
  | None => table
  end.

End SymbolTable.

Module InstructionPool.

Record t : Type := mk {
  poolIdentifier : string;
  tokenStream : list TypedToken.t;
  symbolTable : SymbolTable.t
}.

Definition with_tokens (pool : t) (tokens : list TypedToken.t) : t :=
  mk (poolIdentifier pool) tokens (symbolTable pool).

Definition with_symbols (pool : t) (table : SymbolTable.t) : t :=
  mk (poolIdentifier pool) (tokenStream pool) table.

End InstructionPool.

(** [l[i]] and [l.pop()] on Python lists. *)
Definition list_item {A : Type} (l : list A) (i : nat) : result A :=
  match l !! i with
  | Some a => Ok a
  | None => Raise IndexError
  end.

Definition list_pop {A : Type} (l : list A) : result (A * list A) :=
  match reverse l with
  | [] => Raise IndexError
  | a :: l' => Ok (a, reverse l')
  end.

(** ** lexer.py

    The scan carries the rest of the source text from [currentIndex] on; the
    lexer's attributes that change during the scan (the token stream, the
    recorded errors and the position tracker) are the [state]. *)

Module Lexer.

Record state : Type := mkState {
  generatedStreamOfTokens : list TypedToken.t;
  lexingErrors : list message;
  row : Z;
  column : Z
}.

Definition recordLexingError (errors : list message) (errorRow errorColumn : Z)
    (typeOfError errorMessage : string) : list message :=
  errors ++ [Located typeOfError errorRow errorColumn errorMessage].

Fixpoint skipOverComment (rest : string) (column : Z) : string * Z :=
  match rest with
  | EmptyString => (rest, column)
  | String c rest' =>
      if PyStr.mem c KeyWords.LINE_BREAK_CHARACTERS then (rest, column)
      else skipOverComment rest' (column + 1)
  end.

Definition generateEndToken (tokenSubstring : string) (tokenRow tokenColumn : Z)
    : TypedToken.t :=
  TypedToken.mk TypedToken.END tokenSubstring tokenRow tokenColumn.

Definition generateBlockScopeToken (tokenSubstring : ascii)
    (tokenRow tokenColumn : Z) : TypedToken.t :=
  if PyStr.mem tokenSubstring KeyWords.LEFT_SCOPE_CHARACTERS
  then TypedToken.mk TypedToken.LEFT_BRACE (String tokenSubstring EmptyString)
         tokenRow tokenColumn
  else TypedToken.mk TypedToken.RIGHT_BRACE (String tokenSubstring EmptyString)
         tokenRow tokenColumn.

Definition generateInstructionSeperatorToken (tokenSubstring : string)
    (tokenRow tokenColumn : Z) : TypedToken.t :=
  TypedToken.mk TypedToken.SEPERATOR tokenSubstring tokenRow tokenColumn.

Definition generateAddressingModeToken (tokenSubstring : string)
    (tokenRow tokenColumn : Z) : result TypedToken.t :=
  symbol <-- PyDict.getitem KeyWords.ADDRESSING_MODES tokenSubstring ;;
  Ok (TypedToken.mk TypedToken.ADDRESSING_MODE symbol tokenRow tokenColumn).

(** The loop over the characters of a label or value, recording an error
    for each character outside [allowed]. *)
Fixpoint checkCharacters (allowed typeOfError prefix : string)
    (tokenSubstring : string) (tokenRow tokenColumnCopy : Z)
    (errors : list message) : list message :=
  match tokenSubstring with
  | EmptyString => errors
  | String character rest =>
      let errors :=
        if PyStr.mem character allowed then errors
        else recordLexingError errors tokenRow tokenColumnCopy typeOfError
               (prefix +:+ String character "`") in
      checkCharacters allowed typeOfError prefix rest tokenRow
        (tokenColumnCopy + 1) errors
  end.

Definition generateLabelToken (tokenSubstring : string)
    (tokenRow tokenColumn : Z) (errors : list message)
    : result (TypedToken.t * list message) :=
  match tokenSubstring with
  | EmptyString => Raise IndexError
  | String c0 _ =>
      let errors :=
        if PyStr.mem c0 KeyWords.BEGINNING_OF_LABEL_CHARACTERS then errors
        else recordLexingError errors tokenRow tokenColumn
               "Invalid Label Error"
               ("Non-value character found `" +:+ String c0 "`") in
      let errors :=
        checkCharacters KeyWords.LABEL_CHARACTERS "Invalid Label Error"
          "Non-label character found `" tokenSubstring tokenRow tokenColumn
          errors in
      Ok (TypedToken.mk TypedToken.LABEL tokenSubstring tokenRow tokenColumn,
          errors)
  end.

Definition generateValueToken (tokenSubstring : string)
    (tokenRow tokenColumn : Z) (errors : list message)
    : result (TypedToken.t * list message) :=
  match tokenSubstring with
  | EmptyString => Raise IndexError
  | String c0 rest =>
      let errors :=
        if PyStr.mem c0 KeyWords.BEGINNING_OF_VALUE_CHARACTERS then errors
        else recordLexingError errors tokenRow tokenColumn
               "Invalid Value Error"
               ("Non-label character found `" +:+ String c0 "`") in
      let tokenColumnCopy := tokenColumn in
      let signed := PyStr.mem c0 KeyWords.VALUE_SIGNS in
      let valueTokenSign := if signed then String c0 EmptyString else "+" in
      let tokenSubstring := if signed then rest else tokenSubstring in
      let errors :=
        match tokenSubstring with
        | EmptyString =>
            recordLexingError errors tokenRow tokenColumnCopy
              "Invalid Value Error"
              "Empty value found, only the sign was specified"
        | _ => errors
        end in
      let errors :=
        checkCharacters KeyWords.VALUE_CHARACTERS "Invalid Value Error"
          "Non-value character found `" tokenSubstring tokenRow
          tokenColumnCopy errors in
      Ok (TypedToken.mk TypedToken.VALUE (valueTokenSign +:+ tokenSubstring)
            tokenRow tokenColumn,
          errors)
  end.

(** The keyword before the trailing digits of [s], and those digits.  The
    source walks an index down from the end while it reads a digit; on a
    string of digits alone the index runs past the front and the read
    raises, which is the [None] answer here. *)
Fixpoint splitTrailingDigits (s : string) : option (string * string) :=
  match s with
  | EmptyString => None
  | String c s' =>
      match splitTrailingDigits s' with
      | Some (keyword, suffix) => Some (String c keyword, suffix)
      | None =>
          if PyStr.is_digit c then None
          else Some (String c EmptyString, s')
      end
  end.

Definition determineTypeOfRegisterKeyword (tokenSubstring : string)
    : result string :=
  match splitTrailingDigits tokenSubstring with
  | None => Raise IndexError
  | Some (keywordSubstring, integerSuffixSubstring) =>
      if PyDict.contains KeyWords.GENERAL_PURPOSE_REGISTER keywordSubstring
         && negb (String.eqb integerSuffixSubstring EmptyString)
      then Ok integerSuffixSubstring
      else Ok EmptyString
  end.

Definition determineTokenType (tokenSubstring : string) : TypedToken.kind :=
  if PyDict.contains KeyWords.INSTRUCTION_SET tokenSubstring
  then TypedToken.INSTRUCTION
  else if PyDict.contains KeyWords.SPECIAL_PURPOSE_REGISTERS tokenSubstring
  then TypedToken.REGISTER
  else if PyDict.contains KeyWords.ADDRESSING_MODES tokenSubstring
  then TypedToken.ADDRESSING_MODE
  else if PyDict.contains KeyWords.ASSEMBLY_DIRECTIVES tokenSubstring
  then TypedToken.ASSEMBLY_DIRECTIVE
  else TypedToken.LABEL.

Definition tokenTerminatingCharacters (commentPrefix : ascii) : string :=
  KeyWords.WHITE_SPACE_CHARACTERS +:+ KeyWords.LINE_BREAK_CHARACTERS +:+
  KeyWords.OPERAND_SEPERATOR_CHARACTERS +:+ KeyWords.BLOCK_SCOPE_CHARACTERS +:+
  KeyWords.ADDRESSING_MODE_CHARACTERS +:+ String commentPrefix EmptyString.

Fixpoint takeUntil (terminators : string) (rest : string) : string :=
  match rest with
  | EmptyString => EmptyString
  | String c rest' =>
      if PyStr.mem c terminators then EmptyString
      else String c (takeUntil terminators rest')
  end.

Definition getTokenSubstring (commentPrefix : ascii) (rest : string) : string :=
  Defaults.convertToCasing
    (takeUntil (tokenTerminatingCharacters commentPrefix) rest).

Definition append (st : state) (token : TypedToken.t) : state :=
  mkState (generatedStreamOfTokens st ++ [token]) (lexingErrors st)
    (row st) (column st).

Definition processTokenSubstring (tokenSubstring : string) (st : state)
    (tokenRow tokenColumn : Z) : result state :=
  match tokenSubstring with
  | EmptyString => Raise IndexError
  | String c0 _ =>
      if PyStr.mem c0 KeyWords.BEGINNING_OF_VALUE_CHARACTERS then
        te <-- generateValueToken tokenSubstring (row st) (column st)
                 (lexingErrors st) ;;
        Ok (mkState (generatedStreamOfTokens st ++ [fst te]) (snd te)
              (row st) (column st))
      else
        isGeneralPurposeRegister <-- determineTypeOfRegisterKeyword
                                       tokenSubstring ;;
        if negb (String.eqb isGeneralPurposeRegister EmptyString)
        then Ok (append st (TypedToken.mk TypedToken.REGISTER
                              isGeneralPurposeRegister tokenRow tokenColumn))
        else
          let typeOfToken := determineTokenType tokenSubstring in
          match typeOfToken with
          | TypedToken.ADDRESSING_MODE =>
              symbol <-- PyDict.getitem KeyWords.ADDRESSING_MODES
                           tokenSubstring ;;
              Ok (append st (TypedToken.mk typeOfToken symbol tokenRow
                               tokenColumn))
          | TypedToken.LABEL =>
              te <-- generateLabelToken tokenSubstring tokenRow tokenColumn
                       (lexingErrors st) ;;
              Ok (mkState (generatedStreamOfTokens st ++ [fst te]) (snd te)
                    (row st) (column st))
          | _ =>
              Ok (append st (TypedToken.mk typeOfToken tokenSubstring
                               tokenRow tokenColumn))
          end
  end.

Definition lastIsEnd (tokens : list TypedToken.t) : result bool :=
  match last tokens with
  | None => Raise IndexError
  | Some token => Ok (TypedToken.is_kind TypedToken.END token)
  end.

(** The [while currentIndex < sourceCodeLength] loop. *)
Fixpoint tokenise_loop (fuel : nat) (commentPrefix : ascii) (rest : string)
    (st : state) : result state :=
  match rest with
  | EmptyString => Ok st
  | String currentCharacter rest' =>
      match fuel with
      | O => OutOfFuel
      | S fuel' =>
          if Ascii.eqb currentCharacter commentPrefix then
            let rc := skipOverComment rest (column st) in
            tokenise_loop fuel' commentPrefix (fst rc)
              (mkState (generatedStreamOfTokens st) (lexingErrors st)
                 (row st) (snd rc))
          else if PyStr.mem currentCharacter KeyWords.WHITE_SPACE_CHARACTERS then
            tokenise_loop fuel' commentPrefix rest'
              (mkState (generatedStreamOfTokens st) (lexingErrors st)
                 (row st) (column st + 1))
          else if PyStr.mem currentCharacter KeyWords.LINE_BREAK_CHARACTERS then
            let tokens := generatedStreamOfTokens st in
            let tokens :=
              match last tokens with
              | Some token =>
                  if negb (TypedToken.is_kind TypedToken.END token)
                  then tokens ++ [generateEndToken Defaults.LINE_BREAK_SYMBOL
                                    (row st) (column st)]
                  else tokens
              | None => tokens
              end in
            tokenise_loop fuel' commentPrefix rest'
              (mkState tokens (lexingErrors st) (row st + 1) 1)
          else if PyStr.mem currentCharacter KeyWords.BLOCK_SCOPE_CHARACTERS then
            tokenise_loop fuel' commentPrefix rest'
              (mkState
                 (generatedStreamOfTokens st ++
                    [generateBlockScopeToken currentCharacter (row st)
                       (column st)])
                 (lexingErrors st) (row st) (column st + 1))
          else if PyStr.mem currentCharacter
                    KeyWords.OPERAND_SEPERATOR_CHARACTERS then
            tokenise_loop fuel' commentPrefix rest'
              (mkState
                 (generatedStreamOfTokens st ++
                    [generateInstructionSeperatorToken
                       Defaults.INSTRUCTION_SEPERATOR_SYMBOL (row st)
                       (column st)])
                 (lexingErrors st) (row st) (column st + 1))
          else if PyStr.mem currentCharacter
                    KeyWords.ADDRESSING_MODE_CHARACTERS then
            token <-- generateAddressingModeToken
                        (String currentCharacter EmptyString) (row st)
                        (column st) ;;
            tokenise_loop fuel' commentPrefix rest'
              (mkState (generatedStreamOfTokens st ++ [token])
                 (lexingErrors st) (row st) (column st + 1))
          else
            let tokenSubstring := getTokenSubstring commentPrefix rest in
            let tokenSubstringLength := String.length tokenSubstring in
            st <-- processTokenSubstring tokenSubstring st (row st)
                     (column st) ;;
            tokenise_loop fuel' commentPrefix
              (PyStr.drop tokenSubstringLength rest)
              (mkState (generatedStreamOfTokens st) (lexingErrors st)
                 (row st) (column st + Z.of_nat tokenSubstringLength))
      end
  end.

Definition tokeniseSourceCode (fuel : nat) (commentPrefix : ascii)
    (sourceCode : string) : result state :=
  st <-- tokenise_loop fuel commentPrefix sourceCode (mkState [] [] 1 1) ;;
  match sourceCode with
  | EmptyString => Ok st
  | _ =>
      isEnd <-- lastIsEnd (generatedStreamOfTokens st) ;;
      if negb isEnd
      then Ok (append st (generateEndToken "/" (row st) (column st)))
      else Ok st
  end.

Definition getLexingErrors (errors : list message) : result unit :=
  match errors with
  | [] => Ok tt
  | _ => Raise (Abort errors)
  end.

(** [Lexer(sourceCode, commentPrefix).lex()]; the fuel is the length of the
    source, one unit per iteration of the scan. *)
Definition lex (sourceCode commentPrefix : string)
    : result (list TypedToken.t) :=
  match commentPrefix with
  | EmptyString => Raise IndexError
  | String commentPrefix _ =>
      match sourceCode with
      | EmptyString => Ok []
      | _ =>
          st <-- tokeniseSourceCode (String.length sourceCode) commentPrefix
                   sourceCode ;;
          _ <-- getLexingErrors (lexingErrors st) ;;
          Ok (generatedStreamOfTokens st)
      end
  end.

End Lexer.

(** ** parser.py

    The pre-parse and the split into instruction pools read the token stream
    without changing it and carry the rest of the stream from
    [currentIndex] on.  The symbol-table pass deletes variable declarations
    from the stream it walks and keeps the index. *)

Module Parser.

Import TypedToken.

Definition pools : Type := list (string * InstructionPool.t).

Definition generateParsingErrorMessageFromContext (firstToken secondToken : t)
    : string :=
  if is_kind END firstToken
  then "Statement cannot begin with " +:+
       INTEGER_TO_TOKEN (tokenType secondToken)
  else INTEGER_TO_TOKEN (tokenType secondToken) +:+ " - `" +:+
       tokenValue secondToken +:+ "` was found after " +:+
       INTEGER_TO_TOKEN (tokenType firstToken) +:+ " - `" +:+
       tokenValue firstToken +:+ "`".

Definition recordParsingError (errors : list message)
    (firstToken secondToken : t) : list message :=
  errors ++
    [Located "Invalid Syntax Error: Unexpected token" (row secondToken)
       (column secondToken)
       (generateParsingErrorMessageFromContext firstToken secondToken)].

(** A token type outside the ten cases leaves the [match] without a value,
    and the membership test on [None] raises. *)
Definition generateNextValidToken (currentToken : t) : result (list kind) :=
  match tokenType currentToken with
  | END => Ok [END; INSTRUCTION; LABEL; RIGHT_BRACE; LEFT_BRACE]
  | INSTRUCTION =>
      Ok [END; ADDRESSING_MODE; VALUE; REGISTER; LABEL; RIGHT_BRACE]
  | ADDRESSING_MODE => Ok [VALUE; REGISTER; LABEL]
  | VALUE | REGISTER => Ok [END; SEPERATOR; RIGHT_BRACE; LEFT_BRACE]
  | LABEL =>
      Ok [END; SEPERATOR; INSTRUCTION; RIGHT_BRACE; LEFT_BRACE;
          ASSEMBLY_DIRECTIVE]
  | SEPERATOR => Ok [ADDRESSING_MODE; VALUE; REGISTER; LABEL]
  | RIGHT_BRACE | LEFT_BRACE => Ok [END]
  | ASSEMBLY_DIRECTIVE => Ok [END; VALUE]
  | INVALID => Raise TypeError
  end.

(** [previousBlockScopeToken] is [None] for the source's [NULL]. *)
Definition validateBlockScopeToken (currentToken : t)
    (previousBlockScopeToken : option t) (errors : list message)
    : option t * list message :=
  match tokenType currentToken with
  | LEFT_BRACE =>
      match previousBlockScopeToken with
      | None => (Some currentToken, errors)
      | Some _ =>
          (previousBlockScopeToken,
           errors ++
             [Located "Invalid Syntax Error" (row currentToken)
                (column currentToken)
                "Cannot open new block scope until previous one was closed"])
      end
  | RIGHT_BRACE =>
      match previousBlockScopeToken with
      | None =>
          (previousBlockScopeToken,
           errors ++
             [Located "Invalid Syntax Error" (row currentToken)
                (column currentToken)
                "Attempting to close a block scope when no block scope was opened to begin with"])
      | Some _ => (None, errors)
      end
  | _ => (previousBlockScopeToken, errors)
  end.

Fixpoint preparse_loop (rest : list t) (previousToken : t)
    (previousBlockScopeToken : option t) (errors : list message)
    : result (option t * list message) :=
  match rest with
  | [] => Ok (previousBlockScopeToken, errors)
  | currentToken :: rest' =>
      nextValidTokens <-- generateNextValidToken previousToken ;;
      let se :=
        validateBlockScopeToken currentToken previousBlockScopeToken errors in
      let errors :=
        if negb (kind_in (tokenType currentToken) nextValidTokens)
        then recordParsingError (snd se) previousToken currentToken
        else snd se in
      preparse_loop rest' currentToken (fst se) errors
  end.

Definition preparse (streamOfTokens : list t) : result (list message) :=
  se <-- preparse_loop streamOfTokens (mk END "/" (-1) (-1)) None [] ;;
  match fst se with
  | None => Ok (snd se)
  | Some previousBlockScopeToken =>
      Ok (snd se ++
            [Located "Invalid Syntax Error" (row previousBlockScopeToken)
               (column previousBlockScopeToken)
               "Block scope was opened but never closed"])
  end.

Definition getParsingErrors (errors : list message) : result unit :=
  match errors with
  | [] => Ok tt
  | _ => Raise (Abort errors)
  end.

(** The loop of [getProcedureTokens]: the tokens up to the right brace, and
    the rest of the stream after that brace. *)
Fixpoint getProcedureTokens_loop (rest : list t) (procedureTokens : list t)
    : result (list t * list t) :=
  match rest with
  | [] => Raise IndexError
  | currentToken :: rest' =>
      if is_kind RIGHT_BRACE currentToken
      then Ok (procedureTokens, rest')
      else getProcedureTokens_loop rest' (procedureTokens ++ [currentToken])
  end.

Definition getProcedureTokens (rest : list t) (procedureLabelToken : t)
    (instructionPools : pools) : result (pools * list t) :=
  tr <-- getProcedureTokens_loop rest [] ;;
  Ok (PyDict.set instructionPools (tokenValue procedureLabelToken)
        (InstructionPool.mk (tokenValue procedureLabelToken) (fst tr)
           SymbolTable.empty),
      snd tr).

(** The loop of [getInstructionPools] over the rest of the stream, with the
    token stream of the global pool and the pools found so far. *)
Fixpoint getInstructionPools_loop (fuel : nat) (rest : list t)
    (globalTokens : list t) (instructionPools : pools)
    : result (list t * pools) :=
  match rest with
  | [] => Ok (globalTokens, instructionPools)
  | currentToken :: rest' =>
      match fuel with
      | O => OutOfFuel
      | S fuel' =>
          match tokenType currentToken with
          | LEFT_BRACE =>
              popped <-- list_pop globalTokens ;;
              popped <-- (if is_kind END (fst popped)
                          then list_pop (snd popped)
                          else Ok popped) ;;
              pr <-- getProcedureTokens (drop 1 rest') (fst popped)
                       instructionPools ;;
              getInstructionPools_loop fuel' (drop 1 (snd pr)) (snd popped)
                (fst pr)
          | _ =>
              getInstructionPools_loop fuel' rest'
                (globalTokens ++ [currentToken]) instructionPools
          end
      end
  end.

Definition getInstructionPools (streamOfTokens : list t)
    : result (list t * pools) :=
  getInstructionPools_loop (length streamOfTokens) streamOfTokens [] [].

Definition parseLabel (labelToken : t) (table : SymbolTable.t)
    (labelContext : kind) (errors : list message)
    : SymbolTable.t * list message :=
  match SymbolTable.get table (tokenValue labelToken) with
  | None => (SymbolTable.insert table (tokenValue labelToken) (-1) (-1), errors)
  | Some labelSymbol =>
      let labelType := SymbolTable.labelType labelSymbol in
      match labelContext with
      | INSTRUCTION =>
          if labelType =? SymbolTable.BRANCH_LABEL then
            (table,
             errors ++ [Located "Branch Label Error" (row labelToken)
                          (column labelToken) "Duplicate branch label found"])
          else if labelType =? SymbolTable.VARIABLE_LABEL then
            (table,
             errors ++ [Located "Branch Label Error" (row labelToken)
                          (column labelToken)
                          "Attempting to redeclare a variable label to a branch label"])
          else if labelType =? SymbolTable.PROCEDURE_LABEL then
            (table, errors ++ [Plain "CANNOT REDECLARE PROCEDURE LABEL"])
          else (table, errors)
      | ASSEMBLY_DIRECTIVE =>
          if labelType =? SymbolTable.BRANCH_LABEL then
            (table,
             errors ++ [Located "Variable Label Error" (row labelToken)
                          (column labelToken)
                          "Attempting to redeclare a branch label to a variable label"])
          else if labelType =? SymbolTable.PROCEDURE_LABEL then
            (table,
             errors ++ [Located "Variable Label Error" (row labelToken)
                          (column labelToken)
                          "Attempting to redeclare a procedure label to a variable label"])
          else (table, errors)
      | _ => (table, errors)
      end
  end.

(** [while tokenStream[beginningIndex].tokenType != END: tokenStream.pop(beginningIndex)] *)
Fixpoint dropStatement (rest : list t) : result (list t) :=
  match rest with
  | [] => Raise IndexError
  | token :: rest' =>
      if is_kind END token then Ok rest else dropStatement rest'
  end.

Definition removeVariable (beginningIndex : nat) (tokenStream : list t)
    : result (list t) :=
  rest <-- dropStatement (drop beginningIndex tokenStream) ;;
  Ok (take beginningIndex tokenStream ++ rest).

Definition updateSymbolTableFromLabel (currentIndex : nat)
    (instructionPool : InstructionPool.t) (indexedInstructionCount : Z)
    (errors : list message) : result (InstructionPool.t * list message) :=
  let tokenStream := InstructionPool.tokenStream instructionPool in
  tokenAfter <-- list_item tokenStream (currentIndex + 1) ;;
  if kind_in (tokenType tokenAfter) [ASSEMBLY_DIRECTIVE; INSTRUCTION] then
    labelToken <-- list_item tokenStream currentIndex ;;
    let te :=
      parseLabel labelToken (InstructionPool.symbolTable instructionPool)
        (tokenType tokenAfter) errors in
    match tokenType tokenAfter with
    | ASSEMBLY_DIRECTIVE =>
        valueToken <-- list_item tokenStream (currentIndex + 2) ;;
        labelValue <-- (if is_kind VALUE valueToken
                        then PyStr.int (tokenValue valueToken)
                        else PyStr.int Defaults.DEFAULT_VARIABLE_VALUE) ;;
        let table :=
          SymbolTable.assign (fst te) (tokenValue labelToken) labelValue
            SymbolTable.VARIABLE_LABEL in
        tokenStream <-- removeVariable currentIndex tokenStream ;;
        Ok (InstructionPool.mk (InstructionPool.poolIdentifier instructionPool)
              tokenStream table,
            snd te)
    | _ =>
        let table :=
          SymbolTable.assign (fst te) (tokenValue labelToken)
            indexedInstructionCount SymbolTable.BRANCH_LABEL in
        Ok (InstructionPool.with_symbols instructionPool table, snd te)
    end
  else Ok (instructionPool, errors).

(** The loop of [updateInstructionPoolSymbolTable]; the length of the
    stream is read again at each turn. *)
Fixpoint updateInstructionPoolSymbolTable_loop (fuel : nat)
    (currentIndex : nat) (indexedInstructionCount : Z)
    (instructionPool : InstructionPool.t) (errors : list message)
    : result (InstructionPool.t * list message) :=
  match InstructionPool.tokenStream instructionPool !! currentIndex with
  | None => Ok (instructionPool, errors)
  | Some token =>
      match fuel with
      | O => OutOfFuel
      | S fuel' =>
          match tokenType token with
          | LABEL =>
              pe <-- updateSymbolTableFromLabel currentIndex instructionPool
                       indexedInstructionCount errors ;;
              updateInstructionPoolSymbolTable_loop fuel' (S currentIndex)
                indexedInstructionCount (fst pe) (snd pe)
          | END =>
              updateInstructionPoolSymbolTable_loop fuel' (S currentIndex)
                (indexedInstructionCount + 1) instructionPool errors
          | _ =>
              updateInstructionPoolSymbolTable_loop fuel' (S currentIndex)
                indexedInstructionCount instructionPool errors
          end
      end
  end.

Definition updateInstructionPoolSymbolTable
    (instructionPool : InstructionPool.t) (errors : list message)
    : result (InstructionPool.t * list message) :=
  updateInstructionPoolSymbolTable_loop
    (length (InstructionPool.tokenStream instructionPool)) 0 0
    instructionPool errors.

(** The second loop of [updateSymbolTables], over the keys of the pools. *)
Fixpoint updateProcedurePools (keys : list string) (instructionPools : pools)
    (errors : list message) : result (pools * list message) :=
  match keys with
  | [] => Ok (instructionPools, errors)
  | key :: keys' =>
      pool <-- PyDict.getitem instructionPools key ;;
      pe <-- updateInstructionPoolSymbolTable pool errors ;;
      updateProcedurePools keys' (PyDict.set instructionPools key (fst pe))
        (snd pe)
  end.

Definition updateSymbolTables (instructionPools : pools)
    (globalInstructionPool : InstructionPool.t) (errors : list message)
    : result (pools * InstructionPool.t * list message) :=
  let table :=
    foldl (fun table instructionPool =>
             SymbolTable.insert table instructionPool (-1)
               SymbolTable.PROCEDURE_LABEL)
      (InstructionPool.symbolTable globalInstructionPool)
      (PyDict.keys instructionPools) in
  ge <-- updateInstructionPoolSymbolTable
           (InstructionPool.with_symbols globalInstructionPool table) errors ;;
  pe <-- updateProcedurePools (PyDict.keys instructionPools) instructionPools
           (snd ge) ;;
  Ok (fst pe, fst ge, snd pe).

(** What [parse] does between its two calls of [getParsingErrors]: the
    pools, the global pool and the errors of the second round. *)
Definition splitAndClassify (streamOfTokens : list t)
    : result (pools * InstructionPool.t * list message) :=
  gp <-- getInstructionPools streamOfTokens ;;
  updateSymbolTables (snd gp)
    (InstructionPool.mk Defaults.GLOBAL_INSTRUCTION_POOL_IDENTIFIER (fst gp)
       SymbolTable.empty)
    [].

Definition parse (streamOfTokens : list t)
    : result (pools * InstructionPool.t) :=
  errors <-- preparse streamOfTokens ;;
  _ <-- getParsingErrors errors ;;
  pge <-- splitAndClassify streamOfTokens ;;
  _ <-- getParsingErrors (snd pge) ;;
  Ok (fst pge).

End Parser.

(** ** semanticanalyser.py: the analysis of one operand

    The analyser's attribute that changes is its list of errors; each
    method takes it and returns it with the errors it recorded. *)

Module SemanticAnalyser.

Definition recordSemanticAnalysisError (errors : list message)
    (errorRow errorColumn : Z) (typeOfError errorMessage : string)
    : list message :=
  errors ++ [Located typeOfError errorRow errorColumn errorMessage].

Definition analyseProcedureOperand (globalInstructionPool : InstructionPool.t)
    (procedureOperand : Operand.t) (instructionPool : InstructionPool.t)
    (errors : list message) : list message :=
  let value := Operand.operandValue procedureOperand in
  let labelSymbol :=
    match SymbolTable.get (InstructionPool.symbolTable instructionPool)
            (TypedToken.tokenValue value) with
    | None =>
        SymbolTable.get (InstructionPool.symbolTable globalInstructionPool)
          (TypedToken.tokenValue value)
    | Some labelSymbol => Some labelSymbol
    end in
  match labelSymbol with
  | None =>
      recordSemanticAnalysisError errors (TypedToken.row value)
        (TypedToken.column value) "Invalid Procedure Call Error"
        "Attempting to call a non-existent procedure"
  | Some _ => errors
  end.

Definition analyseVariableOperand (globalInstructionPool : InstructionPool.t)
    (variableOperand : Operand.t) (instructionPool : InstructionPool.t)
    (errors : list message) : list message :=
  let value := Operand.operandValue variableOperand in
  let localLabelSymbol :=
    SymbolTable.get (InstructionPool.symbolTable instructionPool)
      (TypedToken.tokenValue value) in
  let globalLabelSymbol :=
    SymbolTable.get (InstructionPool.symbolTable globalInstructionPool)
      (TypedToken.tokenValue value) in
  match localLabelSymbol, globalLabelSymbol with
  | None, None =>
      recordSemanticAnalysisError errors (TypedToken.row value)
        (TypedToken.column value) "Invalid Label Error"
        "Attempting to use an undeclared label as a variable"
  | None, Some labelSymbol | Some labelSymbol, _ =>
      if SymbolTable.labelType labelSymbol =? SymbolTable.BRANCH_LABEL then
        recordSemanticAnalysisError errors (TypedToken.row value)
          (TypedToken.column value) "Invalid Label Error"
          "Attempting to use a branch label as an instruction operand"
      else if SymbolTable.labelType labelSymbol
                =? SymbolTable.PROCEDURE_LABEL then
        recordSemanticAnalysisError errors (TypedToken.row value)
          (TypedToken.column value) "Invalid Label Error"
          "Attempting to use a procedure label as an instruction operand"
      else errors
  end.

Definition analyseRegisterOperand (registerOperand : Operand.t)
    (errors : list message) : list message :=
  let mode := Operand.addressingMode registerOperand in
  let value := Operand.operandValue registerOperand in
  let errors :=
    if negb (String.eqb (TypedToken.tokenValue mode)
               KeyWords.REGISTER_ADDRESSING_MODE)
    then recordSemanticAnalysisError errors (TypedToken.row mode)
           (TypedToken.column mode) "Invalid Addressing Mode Error"
           "Non-register addressing mode paired with a register"
    else errors in
  if String.eqb (TypedToken.tokenValue value) "0"
  then recordSemanticAnalysisError errors (TypedToken.row value)
         (TypedToken.column value) "Invalid Register Error"
         "Cannot access general purpose register 0"
  else errors.

Definition analyseBranchOperand (branchOperand : Operand.t)
    (instructionPool : InstructionPool.t) (errors : list message)
    : list message :=
  let mode := Operand.addressingMode branchOperand in
  let value := Operand.operandValue branchOperand in
  if String.eqb (TypedToken.tokenValue mode) KeyWords.DIRECT_ADDRESSING_MODE
     && TypedToken.is_kind TypedToken.LABEL value
  then
    match SymbolTable.get (InstructionPool.symbolTable instructionPool)
            (TypedToken.tokenValue value) with
    | None =>
        recordSemanticAnalysisError errors (TypedToken.row value)
          (TypedToken.column value) "Invalid Branch Error"
          "Attempting to branch to non-existent location"
    | Some _ => errors
    end
  else
    let errors :=
      if negb (String.eqb (TypedToken.tokenValue mode)
                 KeyWords.DIRECT_ADDRESSING_MODE)
      then recordSemanticAnalysisError errors (TypedToken.row value)
             (TypedToken.column value) "Invalid Addressing Mode Error"
             "Source operand in branch instruction must be addressed in DIRECT mode"
      else errors in
    if negb (TypedToken.is_kind TypedToken.LABEL value)
    then recordSemanticAnalysisError errors (TypedToken.row value)
           (TypedToken.column value) "Invalid Operand Error"
           "Source operand in branch instruction must be a branch label"
    else errors.

Definition analyseCallInstruction (globalInstructionPool : InstructionPool.t)
    (callInstructionOperand : Operand.t) (instructionPool : InstructionPool.t)
    (errors : list message) : list message :=
  let mode := Operand.addressingMode callInstructionOperand in
  let value := Operand.operandValue callInstructionOperand in
  if TypedToken.is_kind TypedToken.LABEL value then
    let labelSymbol :=
      match SymbolTable.get (InstructionPool.symbolTable instructionPool)
              (TypedToken.tokenValue value) with
      | None =>
          SymbolTable.get (InstructionPool.symbolTable globalInstructionPool)
            (TypedToken.tokenValue value)
      | Some labelSymbol => Some labelSymbol
      end in
    match labelSymbol with
    | None =>
        recordSemanticAnalysisError errors (TypedToken.row value)
          (TypedToken.column value) "Invalid Procedure Error"
          "Attempting to call non-existent procedure"
    | Some labelSymbol =>
        if negb (SymbolTable.labelType labelSymbol
                   =? SymbolTable.PROCEDURE_LABEL)
        then recordSemanticAnalysisError errors (TypedToken.row value)
               (TypedToken.column value) "Invalid Operands Error"
               "Call instruction operand must be a procedure label"
        else if negb (String.eqb (TypedToken.tokenValue mode)
                        KeyWords.DIRECT_ADDRESSING_MODE)
        then recordSemanticAnalysisError errors (TypedToken.row mode)
               (TypedToken.column mode) "Invalid Addressing Mode Error"
               "Call instruction operand must be a procedure label addressed in direct addressing mode"
        else analyseProcedureOperand globalInstructionPool
               callInstructionOperand instructionPool errors
    end
  else
    recordSemanticAnalysisError errors (TypedToken.row value)
      (TypedToken.column value) "Invalid Operands Error"
      "Call instruction operand must be a label".

Definition analyseAddressingMode (instructionOperand : Operand.t)
    (errors : list message) : list message :=
  let mode := Operand.addressingMode instructionOperand in
  let value := Operand.operandValue instructionOperand in
  if String.eqb (TypedToken.tokenValue mode) KeyWords.REGISTER_ADDRESSING_MODE
     && negb (TypedToken.is_kind TypedToken.REGISTER value)
  then recordSemanticAnalysisError errors (TypedToken.row value)
         (TypedToken.column value) "Invalid Operand Error"
         "Non-register paired with register addressing mode"
  else errors.

Definition analyseOperand (globalInstructionPool : InstructionPool.t)
    (instructionOperand : Operand.t) (operandNumber : Z)
    (instructionPool : InstructionPool.t) (errors : list message)
    : list message :=
  let value := Operand.operandValue instructionOperand in
  let errors := analyseAddressingMode instructionOperand errors in
  if operandNumber =? 2 then
    if TypedToken.is_kind TypedToken.REGISTER value
    then analyseRegisterOperand instructionOperand errors
    else recordSemanticAnalysisError errors (TypedToken.row value)
           (TypedToken.column value) "Invalid Operand Error"
           "Second operand must be a register"
  else
    match TypedToken.tokenType value with
    | TypedToken.LABEL =>
        analyseVariableOperand globalInstructionPool instructionOperand
          instructionPool errors
    | TypedToken.REGISTER => analyseRegisterOperand instructionOperand errors
    | _ => errors
    end.

(** *** The analysis of an instruction

    [getOperand] inserts the default tokens into the token stream of the
    pool it is given; the methods that call it take the pool and the list
    of errors and return both. *)

(** The loop of [countNumberOfOperands] over the stream from
    [beginningOfOperands] on. *)
Fixpoint countNumberOfOperands_loop (rest : list TypedToken.t)
    (numberOfOperands : Z) : result Z :=
  match rest with
  | [] => Raise IndexError
  | token :: rest' =>
      if TypedToken.is_kind TypedToken.END token then Ok numberOfOperands
      else
        countNumberOfOperands_loop rest'
          (if TypedToken.kind_in (TypedToken.tokenType token)
                [TypedToken.VALUE; TypedToken.REGISTER; TypedToken.LABEL]
           then numberOfOperands + 1
           else numberOfOperands)
  end.

Definition countNumberOfOperands (beginningOfOperands : nat)
    (instructionPool : InstructionPool.t) : result Z :=
  countNumberOfOperands_loop
    (drop beginningOfOperands (InstructionPool.tokenStream instructionPool))
    0.

(** [l.insert(i, x)] for [0 <= i]: at the end when [i] is past it. *)
Definition list_insert {A : Type} (i : nat) (x : A) (l : list A) : list A :=
  take i l ++ x :: drop i l.

(** [l[i - 1]] for [0 <= i]: the last element when [i] is [0]. *)
Definition list_item_before {A : Type} (l : list A) (i : nat) : result A :=
  match i with
  | O =>
      match last l with
      | Some a => Ok a
      | None => Raise IndexError
      end
  | S j => list_item l j
  end.

(** [getOperand], with [rest] the stream from [beginningOfOperand] on: the
    call on a SEPERATOR token is the call on the next index. *)
Fixpoint getOperand_from (rest : list TypedToken.t)
    (beginningOfOperand : nat) (instructionPool : InstructionPool.t)
    : result (Operand.t * InstructionPool.t) :=
  let tokenStream := InstructionPool.tokenStream instructionPool in
  let operandAt (tokenStream : list TypedToken.t) (index : nat) :=
    mode <-- list_item tokenStream index ;;
    value <-- list_item tokenStream (index + 1) ;;
    Ok (Operand.mk mode value,
        InstructionPool.with_tokens instructionPool tokenStream) in
  match rest with
  | [] => Raise IndexError
  | operandToken :: rest' =>
      let row := TypedToken.row operandToken in
      let column := TypedToken.column operandToken in
      match TypedToken.tokenType operandToken with
      | TypedToken.SEPERATOR =>
          getOperand_from rest' (S beginningOfOperand) instructionPool
      | TypedToken.END =>
          let tokenStream :=
            list_insert beginningOfOperand
              (TypedToken.mk TypedToken.REGISTER KeyWords.ACCUMULATOR row
                 column) tokenStream in
          let tokenStream :=
            list_insert beginningOfOperand
              (TypedToken.mk TypedToken.ADDRESSING_MODE
                 KeyWords.REGISTER_ADDRESSING_MODE row column) tokenStream in
          previous <-- list_item_before tokenStream beginningOfOperand ;;
          if TypedToken.kind_in (TypedToken.tokenType previous)
               [TypedToken.REGISTER; TypedToken.LABEL; TypedToken.VALUE]
          then
            let tokenStream :=
              list_insert beginningOfOperand
                (TypedToken.mk TypedToken.SEPERATOR
                   Defaults.INSTRUCTION_SEPERATOR_SYMBOL row column)
                tokenStream in
            operandAt tokenStream (beginningOfOperand + 1)%nat
          else operandAt tokenStream beginningOfOperand
      | TypedToken.REGISTER | TypedToken.LABEL | TypedToken.VALUE =>
          let tokenStream :=
            list_insert beginningOfOperand
              (TypedToken.mk TypedToken.ADDRESSING_MODE
                 KeyWords.DIRECT_ADDRESSING_MODE row column) tokenStream in
          operandAt tokenStream beginningOfOperand
      | _ => operandAt tokenStream beginningOfOperand
      end
  end.

Definition getOperand (beginningOfOperand : nat)
    (instructionPool : InstructionPool.t)
    : result (Operand.t * InstructionPool.t) :=
  getOperand_from
    (drop beginningOfOperand (InstructionPool.tokenStream instructionPool))
    beginningOfOperand instructionPool.

Definition analyseOutputInstruction
    (globalInstructionPool : InstructionPool.t)
    (outputInstructionOperand : Operand.t)
    (instructionPool : InstructionPool.t) (errors : list message)
    : list message :=
  match TypedToken.tokenType
          (Operand.operandValue outputInstructionOperand) with
  | TypedToken.LABEL =>
      analyseVariableOperand globalInstructionPool outputInstructionOperand
        instructionPool errors
  | TypedToken.REGISTER =>
      analyseRegisterOperand outputInstructionOperand errors
  | _ => errors
  end.

Definition analyseInputInstruction (inputInstructionOperand : Operand.t)
    (errors : list message) : list message :=
  let mode := Operand.addressingMode inputInstructionOperand in
  if negb (String.eqb (TypedToken.tokenValue mode)
             KeyWords.REGISTER_ADDRESSING_MODE)
  then recordSemanticAnalysisError errors (TypedToken.row mode)
         (TypedToken.column mode) "Invalid Addressing Mode Error"
         "Input instruction operand must be addressed in register addressing mode"
  else analyseRegisterOperand inputInstructionOperand errors.

Definition analyseSingleOperandInstruction
    (globalInstructionPool : InstructionPool.t)
    (singleOperandInstruction : TypedToken.t) (beginningOfOperands : nat)
    (instructionPool : InstructionPool.t) (errors : list message)
    : result (InstructionPool.t * list message) :=
  first <-- list_item (InstructionPool.tokenStream instructionPool)
              beginningOfOperands ;;
  let instruction := TypedToken.tokenValue singleOperandInstruction in
  if TypedToken.is_kind TypedToken.END first
     && str_in instruction KeyWords.EXPLICIT_SINGLE_OPERAND_INSTRUCTIONS
  then
    Ok (instructionPool,
        recordSemanticAnalysisError errors
          (TypedToken.row singleOperandInstruction)
          (TypedToken.column singleOperandInstruction)
          "Invalid Operands Error"
          ("Operand must explicitly be present for a " +:+ instruction
           +:+ " instruction"))
  else
    op <-- getOperand beginningOfOperands instructionPool ;;
    let instructionOperand := fst op in
    let instructionPool := snd op in
    let errors := analyseAddressingMode instructionOperand errors in
    if str_in instruction [KeyWords.OUT; KeyWords.OUTC; KeyWords.OUTB]
    then Ok (instructionPool,
             analyseOutputInstruction globalInstructionPool
               instructionOperand instructionPool errors)
    else if String.eqb instruction KeyWords.CALL
    then Ok (instructionPool,
             analyseCallInstruction globalInstructionPool
               instructionOperand instructionPool errors)
    else if String.eqb instruction KeyWords.INP
    then Ok (instructionPool,
             analyseInputInstruction instructionOperand errors)
    else Ok (instructionPool, errors).

(** The two calls of [getOperand] that open the analysis of every double
    operand instruction. *)
Definition getOperands (beginningOfOperands : nat)
    (instructionPool : InstructionPool.t)
    : result (Operand.t * Operand.t * InstructionPool.t) :=
  source <-- getOperand beginningOfOperands instructionPool ;;
  destination <-- getOperand (beginningOfOperands + 2) (snd source) ;;
  Ok (fst source, fst destination, snd destination).

Definition analyseBranchInstruction
    (globalInstructionPool : InstructionPool.t) (beginningOfOperands : nat)
    (instructionPool : InstructionPool.t) (errors : list message)
    : result (InstructionPool.t * list message) :=
  operands <-- getOperands beginningOfOperands instructionPool ;;
  let sourceOperand := fst (fst operands) in
  let destinationOperand := snd (fst operands) in
  let instructionPool := snd operands in
  let errors := analyseBranchOperand sourceOperand instructionPool errors in
  Ok (instructionPool,
      analyseOperand globalInstructionPool destinationOperand 2
        instructionPool errors).

Definition analyseGenericDoubleOperandInstruction
    (globalInstructionPool : InstructionPool.t) (beginningOfOperands : nat)
    (instructionPool : InstructionPool.t) (errors : list message)
    : result (InstructionPool.t * list message) :=
  operands <-- getOperands beginningOfOperands instructionPool ;;
  let sourceOperand := fst (fst operands) in
  let destinationOperand := snd (fst operands) in
  let instructionPool := snd operands in
  let errors :=
    analyseOperand globalInstructionPool sourceOperand 1 instructionPool
      errors in
  Ok (instructionPool,
      analyseOperand globalInstructionPool destinationOperand 2
        instructionPool errors).

Definition analyseDataFlowInstruction
    (globalInstructionPool : InstructionPool.t) (beginningOfOperands : nat)
    (instructionPool : InstructionPool.t) (errors : list message)
    : result (InstructionPool.t * list message) :=
  operands <-- getOperands beginningOfOperands instructionPool ;;
  let sourceOperand := fst (fst operands) in
  let destinationOperand := snd (fst operands) in
  let instructionPool := snd operands in
  let mode := Operand.addressingMode sourceOperand in
  let errors :=
    if String.eqb (TypedToken.tokenValue mode)
         KeyWords.IMMEDIATE_ADDRESSING_MODE
    then recordSemanticAnalysisError errors (TypedToken.row mode)
           (TypedToken.column mode) "Invalid Addressing Mode Error"
           "Cannot address a data flow instruction in immediate mode"
    else errors in
  let errors :=
    analyseOperand globalInstructionPool sourceOperand 1 instructionPool
      errors in
  Ok (instructionPool,
      analyseOperand globalInstructionPool destinationOperand 2
        instructionPool errors).

Definition analyseDoubleOperandInstruction
    (globalInstructionPool : InstructionPool.t)
    (doubleOperandInstruction : TypedToken.t) (beginningOfOperands : nat)
    (instructionPool : InstructionPool.t) (errors : list message)
    : result (InstructionPool.t * list message) :=
  first <-- list_item (InstructionPool.tokenStream instructionPool)
              beginningOfOperands ;;
  let instruction := TypedToken.tokenValue doubleOperandInstruction in
  if TypedToken.is_kind TypedToken.END first
  then
    Ok (instructionPool,
        recordSemanticAnalysisError errors
          (TypedToken.row doubleOperandInstruction)
          (TypedToken.column doubleOperandInstruction)
          "Invalid Operands Error"
          "The SOURCE operand for any double operand instruction must be explicitly stated")
  else if str_in instruction KeyWords.BRANCH_INSTRUCTIONS
  then analyseBranchInstruction globalInstructionPool beginningOfOperands
         instructionPool errors
  else if str_in instruction KeyWords.DATA_FLOW_INSTRUCTIONS
  then analyseDataFlowInstruction globalInstructionPool beginningOfOperands
         instructionPool errors
  else analyseGenericDoubleOperandInstruction globalInstructionPool
         beginningOfOperands instructionPool errors.

Definition analyseInstruction (globalInstructionPool : InstructionPool.t)
    (beginningOfInstruction : nat) (instructionPool : InstructionPool.t)
    (errors : list message) : result (InstructionPool.t * list message) :=
  chadsemblyInstruction <--
    list_item (InstructionPool.tokenStream instructionPool)
      beginningOfInstruction ;;
  numberOfOperands <--
    countNumberOfOperands beginningOfInstruction instructionPool ;;
  maximumOperandsForInstruction <--
    PyDict.getitem KeyWords.NUMBER_OF_INSTRUCTION_OPERANDS
      (TypedToken.tokenValue chadsemblyInstruction) ;;
  if maximumOperandsForInstruction <? numberOfOperands
  then
    Ok (instructionPool,
        recordSemanticAnalysisError errors
          (TypedToken.row chadsemblyInstruction)
          (TypedToken.column chadsemblyInstruction)
          "Invalid Operands Error"
          (pretty numberOfOperands
           +:+ " operands given for instruction that accepts, at most, "
           +:+ pretty maximumOperandsForInstruction +:+ " operands"))
  else if maximumOperandsForInstruction =? 1
  then analyseSingleOperandInstruction globalInstructionPool
         chadsemblyInstruction (beginningOfInstruction + 1) instructionPool
         errors
  else if maximumOperandsForInstruction =? 2
  then analyseDoubleOperandInstruction globalInstructionPool
         chadsemblyInstruction (beginningOfInstruction + 1) instructionPool
         errors
  else Ok (instructionPool, errors).






End SemanticAnalyser.

(** ** codegenerator.py: the instruction format and the operands *)

Module CodeGenerator.

Definition numberOfMachineOperationBits : Z :=
  BinaryString.numberOfBits KeyWords.NUMBER_OF_INSTRUCTIONS.

Definition numberOfAddressingModeBits : Z :=
  BinaryString.numberOfBits KeyWords.NUMBER_OF_ADDRESSING_MODES.

Definition calculateNumberOfOperandBits (configurationTable : gmap string Z)
    : result Z :=
  registers <-- getitem configurationTable
                  Defaults.REGISTERS_CONFIGURATION_OPTION ;;
  let numberOfRegisters :=
    registers + KeyWords.NUMBER_OF_SPECIAL_PURPOSE_REGISTERS in
  numberOfMemoryAddresses <-- getitem configurationTable
                                Defaults.MEMORY_CONFIGURATION_OPTION ;;
  let operandBits :=
    if numberOfRegisters <? numberOfMemoryAddresses
    then BinaryString.numberOfBits numberOfMemoryAddresses
    else BinaryString.numberOfBits numberOfRegisters in
  Ok (operandBits + 1).

(** The widths the constructor computes, as [generateCode] returns them:
    machine operation, addressing mode, operand and whole instruction. *)
Record widths : Type := mkWidths {
  machineOperationBits : Z;
  addressingModeBits : Z;
  operandBits : Z;
  totalNumberOfInstructionBits : Z
}.

Definition init (configurationTable : gmap string Z) : result widths :=
  numberOfOperandBits <-- calculateNumberOfOperandBits configurationTable ;;
  Ok (mkWidths numberOfMachineOperationBits numberOfAddressingModeBits
        numberOfOperandBits
        (numberOfMachineOperationBits + numberOfAddressingModeBits
         + 2 * numberOfOperandBits)).

Fixpoint wrapAround (fuel : nat) (lowerBound upperBound value : Z)
    : result Z :=
  if upperBound <? value then
    match fuel with
    | O => OutOfFuel
    | S fuel' =>
        wrapAround fuel' lowerBound upperBound
          ((lowerBound - 1) + (value - upperBound))
    end
  else Ok value.

Definition resolveLabel (globalInstructionPool : InstructionPool.t)
    (labelToken : TypedToken.t) (instructionPool : InstructionPool.t)
    : result Z :=
  match SymbolTable.get (InstructionPool.symbolTable instructionPool)
          (TypedToken.tokenValue labelToken) with
  | Some labelSymbol => Ok (SymbolTable.labelValue labelSymbol)
  | None =>
      match SymbolTable.get
              (InstructionPool.symbolTable globalInstructionPool)
              (TypedToken.tokenValue labelToken) with
      | Some labelSymbol => Ok (SymbolTable.labelValue labelSymbol)
      | None => Raise AttributeError
      end
  end.

Definition resolveValue (valueToken : TypedToken.t) : result Z :=
  PyStr.int (TypedToken.tokenValue valueToken).

(** The wrap loop runs on as many units of fuel as the register number. *)
Definition resolveRegister (numberOfGeneralPurposeRegisters : Z)
    (registerToken : TypedToken.t) : result Z :=
  if PyDict.contains KeyWords.SPECIAL_PURPOSE_REGISTERS
       (TypedToken.tokenValue registerToken)
  then
    offset <-- PyDict.getitem KeyWords.SPECIAL_PURPOSE_REGISTERS_OFFSET
                 (TypedToken.tokenValue registerToken) ;;
    Ok (numberOfGeneralPurposeRegisters + offset)
  else
    value <-- PyStr.int (TypedToken.tokenValue registerToken) ;;
    wrapAround (Z.to_nat value) 1 numberOfGeneralPurposeRegisters value.

Definition resolveOperand (numberOfGeneralPurposeRegisters : Z)
    (globalInstructionPool : InstructionPool.t) (operandToken : Operand.t)
    (instructionPool : InstructionPool.t) : result pyval :=
  let value := Operand.operandValue operandToken in
  match TypedToken.tokenType value with
  | TypedToken.LABEL =>
      v <-- resolveLabel globalInstructionPool value instructionPool ;;
      Ok (PInt v)
  | TypedToken.VALUE => v <-- resolveValue value ;; Ok (PInt v)
  | TypedToken.REGISTER =>
      v <-- resolveRegister numberOfGeneralPurposeRegisters value ;;
      Ok (PInt v)
  | _ => Ok PNone
  end.

Definition convertToChadsemblyMachineCode (w : widths)
    (numberOfGeneralPurposeRegisters : Z)
    (globalInstructionPool : InstructionPool.t)
    (chadsemblyInstruction : TypedToken.t)
    (sourceOperand destinationOperand : Operand.t)
    (instructionPool : InstructionPool.t) : result string :=
  instructionOpcode <-- PyDict.getitem KeyWords.INSTRUCTION_SET
                          (TypedToken.tokenValue chadsemblyInstruction) ;;
  addressingModeOpcode <-- PyDict.getitem KeyWords.ADDRESSING_MODE_TO_OPCODE
                             (TypedToken.tokenValue
                                (Operand.addressingMode sourceOperand)) ;;
  let formatted :=
    BinaryString.unsignedInteger instructionOpcode (machineOperationBits w)
    +:+ BinaryString.unsignedInteger addressingModeOpcode
          (addressingModeBits w) in
  sourceOperandValue <-- rbind (resolveOperand numberOfGeneralPurposeRegisters
                                  globalInstructionPool sourceOperand
                                  instructionPool) as_int ;;
  let formatted :=
    formatted +:+ BinaryString.signedInteger sourceOperandValue
                    (operandBits w) in
  destinationOperandValue <-- rbind (resolveOperand
                                       numberOfGeneralPurposeRegisters
                                       globalInstructionPool
                                       destinationOperand instructionPool)
                                as_int ;;
  Ok (formatted +:+ BinaryString.signedInteger destinationOperandValue
                      (operandBits w)).

(** *** The layout of the program

    The methods below change the symbol tables of the pools (the entry of a
    label is reached through its table, and assigning to its [labelValue]
    writes the entry back), the dictionary of variable promises and the
    list of generated words; each takes what it changes and returns it. *)



Definition countNumberOfInstructions (instructionPool : InstructionPool.t)
    : Z :=
  foldl (fun numberOfInstructions token =>
           if TypedToken.is_kind TypedToken.INSTRUCTION token
           then numberOfInstructions + 1
           else numberOfInstructions)
    0 (InstructionPool.tokenStream instructionPool).








(** [Operand(TypedToken(4, '%', -1, -1), TypedToken(3, '0', -1, -1))]:
    the types 4 and 3 are REGISTER and VALUE. *)
Definition defaultOperand : Operand.t :=
  Operand.mk (TypedToken.mk TypedToken.REGISTER "%" (-1) (-1))
             (TypedToken.mk TypedToken.VALUE "0" (-1) (-1)).

(** The table of operand counts holds 0, 1 and 2 alone; on another count
    the [match] of the source has no case and the method answers [None],
    the [PNone] of the last branch. *)
Definition generateChadsemblyInstruction (w : widths)
    (numberOfGeneralPurposeRegisters : Z)
    (globalInstructionPool : InstructionPool.t) (beginningOfInstruction : nat)
    (instructionPool : InstructionPool.t) : result (option string) :=
  let tokenStream := InstructionPool.tokenStream instructionPool in
  chadsemblyInstruction <-- list_item tokenStream beginningOfInstruction ;;
  numberOfInstructionOperands <--
    PyDict.getitem KeyWords.NUMBER_OF_INSTRUCTION_OPERANDS
      (TypedToken.tokenValue chadsemblyInstruction) ;;
  let convert sourceOperand destinationOperand :=
    instruction <-- convertToChadsemblyMachineCode w
                      numberOfGeneralPurposeRegisters globalInstructionPool
                      chadsemblyInstruction sourceOperand destinationOperand
                      instructionPool ;;
    Ok (Some instruction) in
  if numberOfInstructionOperands =? 0 then
    convert defaultOperand defaultOperand
  else if numberOfInstructionOperands =? 1 then
    mode <-- list_item tokenStream (beginningOfInstruction + 1) ;;
    value <-- list_item tokenStream (beginningOfInstruction + 2) ;;
    convert (Operand.mk mode value) defaultOperand
  else if numberOfInstructionOperands =? 2 then
    mode <-- list_item tokenStream (beginningOfInstruction + 1) ;;
    value <-- list_item tokenStream (beginningOfInstruction + 2) ;;
    mode' <-- list_item tokenStream (beginningOfInstruction + 4) ;;
    value' <-- list_item tokenStream (beginningOfInstruction + 5) ;;
    convert (Operand.mk mode value) (Operand.mk mode' value')
  else Ok None.






End CodeGenerator.

(** ** argumentprocessor.py

    The processor's attributes that change are the list of errors, the
    position tracker and the configuration table. *)

Module ArgumentProcessor.

Record state : Type := mkState {
  configuration : gmap string Z;
  processingErrors : list message;
  row : Z;
  column : Z
}.

Definition recordError (errors : list message) (errorRow errorColumn : Z)
    (typeOfError errorMessage : string) : list message :=
  errors ++ [Located typeOfError errorRow errorColumn errorMessage].

Definition getErrors (errors : list message) : result unit :=
  match errors with
  | [] => Ok tt
  | _ => Raise (Abort errors)
  end.

(** The inner loop of [getTokens]: the run of characters up to the next
    terminating character, and the rest after the run. *)
Fixpoint takeRun (terminators : string) (rest : string) : string * string :=
  match rest with
  | EmptyString => (EmptyString, rest)
  | String c rest' =>
      if PyStr.mem c terminators then (EmptyString, rest)
      else let rr := takeRun terminators rest' in (String c (fst rr), snd rr)
  end.

Fixpoint getTokens (fuel : nat) (rest : string)
    (substringTerminatingCharacters : string) (row column : Z)
    (generatedStreamOfTokens : list UntypedToken.t)
    : result (list UntypedToken.t * Z) :=
  match rest with
  | EmptyString => Ok (generatedStreamOfTokens, column)
  | String c rest' =>
      match fuel with
      | O => OutOfFuel
      | S fuel' =>
          if negb (PyStr.mem c substringTerminatingCharacters) then
            let rr := takeRun substringTerminatingCharacters rest in
            let length := PyStr.len (fst rr) in
            let column := column + length in
            getTokens fuel' (snd rr) substringTerminatingCharacters row column
              (generatedStreamOfTokens ++
                 [UntypedToken.mk (Defaults.convertToCasing (fst rr)) row
                    (column - length)])
          else
            getTokens fuel' rest' substringTerminatingCharacters row
              (column + 1) generatedStreamOfTokens
      end
  end.

Definition tokeniseArgument (directivePrefix tokenDelimiter : ascii)
    (currentArgument : string) (row column : Z)
    : result (list UntypedToken.t * Z) :=
  match currentArgument with
  | EmptyString => Ok ([], column)
  | String c0 rest =>
      let substringTerminatingCharacters :=
        KeyWords.LINE_BREAK_CHARACTERS +:+ KeyWords.WHITE_SPACE_CHARACTERS +:+
        String tokenDelimiter EmptyString in
      if Ascii.eqb c0 directivePrefix
      then getTokens (String.length rest) rest substringTerminatingCharacters
             row (column + 1) []
      else getTokens (String.length currentArgument) currentArgument
             substringTerminatingCharacters row column []
  end.

Definition isValidNumberOfTokens (streamOfTokens : list UntypedToken.t)
    (errors : list message) : bool * list message :=
  match streamOfTokens with
  | [] => (false, errors)
  | [token] =>
      (false,
       recordError errors (UntypedToken.row token) (UntypedToken.column token)
         "Syntax Error" "A Key : Value pair was not found")
  | [_; _] => (true, errors)
  | token :: _ =>
      (false,
       recordError errors (UntypedToken.row token) 0 "Syntax Error"
         "Should only contain a single Key : Value pair")
  end.

Definition isValidConfigurationOption (table : gmap string Z)
    (configurationOption : UntypedToken.t) (errors : list message)
    : bool * list message :=
  match table !! UntypedToken.tokenValue configurationOption with
  | None =>
      (false,
       recordError errors (UntypedToken.row configurationOption)
         (UntypedToken.column configurationOption) "Unknown Option Error"
         "Option is not recognised")
  | Some _ => (true, errors)
  end.

Definition containsNoSign (configurationValue : UntypedToken.t)
    (errors : list message) : result (bool * list message) :=
  match UntypedToken.tokenValue configurationValue with
  | EmptyString => Raise IndexError
  | String "+" _ =>
      Ok (false,
          recordError errors (UntypedToken.row configurationValue)
            (UntypedToken.column configurationValue) "Invalid Value Error"
            "Do not specify the sign of a configuration value")
  | String "-" _ =>
      Ok (false,
          recordError errors (UntypedToken.row configurationValue)
            (UntypedToken.column configurationValue) "Invalid Value Error"
            "A configuration value must be a non-negative, denary integer")
  | _ => Ok (true, errors)
  end.

Fixpoint isValidConfigurationValue_loop (tokenValue : string)
    (row currentPositionCopy : Z) (isValidConfigurationValue : bool)
    (errors : list message) : bool * list message :=
  match tokenValue with
  | EmptyString => (isValidConfigurationValue, errors)
  | String character rest =>
      let ord := Z.of_nat (nat_of_ascii character) in
      if negb ((47 <? ord) && (ord <? 58))
      then isValidConfigurationValue_loop rest row (currentPositionCopy + 1)
             false
             (recordError errors row currentPositionCopy "Invalid Value Error"
                "Value must only contain integers")
      else isValidConfigurationValue_loop rest row (currentPositionCopy + 1)
             isValidConfigurationValue errors
  end.

Definition isValidConfigurationValue
    (unvalidatedConfigurationValueToken : UntypedToken.t)
    (errors : list message) : bool * list message :=
  isValidConfigurationValue_loop
    (UntypedToken.tokenValue unvalidatedConfigurationValueToken)
    (UntypedToken.row unvalidatedConfigurationValueToken)
    (UntypedToken.column unvalidatedConfigurationValueToken) true errors.

Definition updateSystemConfigurationTable (minimumValuesTable : gmap string Z)
    (targetConfigurationOptionToken targetConfigurationValueToken
       : UntypedToken.t)
    (table : gmap string Z) (errors : list message)
    : result (gmap string Z * list message) :=
  configurationValueAsInteger <--
    PyStr.int (UntypedToken.tokenValue targetConfigurationValueToken) ;;
  minimumConfigurationValue <--
    getitem minimumValuesTable
      (UntypedToken.tokenValue targetConfigurationOptionToken) ;;
  if configurationValueAsInteger <? minimumConfigurationValue then
    Ok (table,
        recordError errors (UntypedToken.row targetConfigurationValueToken)
          (UntypedToken.column targetConfigurationValueToken)
          "Minimum Value Error" "Value is below the minimum")
  else
    Ok (<[UntypedToken.tokenValue targetConfigurationOptionToken :=
            configurationValueAsInteger]> table,
        errors).

Definition parseTokenStream (minimumValuesTable : gmap string Z)
    (streamOfTokens : list UntypedToken.t) (table : gmap string Z)
    (errors : list message) : result (gmap string Z * list message) :=
  let ve := isValidNumberOfTokens streamOfTokens errors in
  if negb (fst ve) then Ok (table, snd ve)
  else
    match streamOfTokens with
    | [configurationOption; configurationValue] =>
        let oe := isValidConfigurationOption table configurationOption
                    (snd ve) in
        if negb (fst oe) then Ok (table, snd oe)
        else
          se <-- containsNoSign configurationValue (snd oe) ;;
          if negb (fst se) then Ok (table, snd se)
          else
            let ie := isValidConfigurationValue configurationValue (snd se) in
            if negb (fst ie) then Ok (table, snd ie)
            else updateSystemConfigurationTable minimumValuesTable
                   configurationOption configurationValue table (snd ie)
    | _ => Raise ValueError
    end.

Fixpoint argumentProcess_loop (directivePrefix tokenDelimiter : ascii)
    (minimumValuesTable : gmap string Z) (listOfArguments : list string)
    (st : state) : result state :=
  match listOfArguments with
  | [] => Ok st
  | argument :: rest =>
      tc <-- tokeniseArgument directivePrefix tokenDelimiter argument
               (row st) (column st) ;;
      te <-- parseTokenStream minimumValuesTable (fst tc)
               (configuration st) (processingErrors st) ;;
      argumentProcess_loop directivePrefix tokenDelimiter minimumValuesTable
        rest (mkState (fst te) (snd te) (row st + 1) 1)
  end.

Definition argumentProcess (listOfArguments : list string)
    (directivePrefix tokenDelimiter : string)
    (systemConfigurationTable minimumValuesTable : gmap string Z)
    : result (gmap string Z) :=
  match directivePrefix, tokenDelimiter with
  | String directivePrefix _, String tokenDelimiter _ =>
      st <-- argumentProcess_loop directivePrefix tokenDelimiter
               minimumValuesTable listOfArguments
               (mkState systemConfigurationTable [] 1 1) ;;
      _ <-- getErrors (processingErrors st) ;;
      Ok (configuration st)
  | _, _ => Raise IndexError
  end.

End ArgumentProcessor.

(** ** position.py, preprocessor.py

    The preprocessor cuts the directives out of the source text while it
    walks it.  The walk carries the text before [currentIndex], which stays
    in the source, and the text from [currentIndex] on; its attributes that
    change are the list of extracted directives, the list of their
    positions and the position tracker. *)

Module Preprocessor.

(** [Position.advancePosition] *)
Definition advancePosition (row column : Z) (currentCharacter : ascii)
    (resetValue : Z) : Z * Z :=
  if PyStr.mem currentCharacter KeyWords.LINE_BREAK_CHARACTERS
  then (row + 1, resetValue)
  else (row, column + 1).

Record state : Type := mkState {
  listOfArguments : list string;
  listOfParallelPositions : list (Z * Z);
  row : Z;
  column : Z
}.

(** The comment from [rest] on, and the text after it. *)
Fixpoint skipOverComment (rest : string) : string * string :=
  match rest with
  | EmptyString => (EmptyString, rest)
  | String c rest' =>
      if PyStr.mem c KeyWords.LINE_BREAK_CHARACTERS then (EmptyString, rest)
      else let cr := skipOverComment rest' in (String c (fst cr), snd cr)
  end.

(** The directive that starts with the first character of the text, and
    the text that is left when the directive is removed. *)
Definition getPreprocessorDirective (commentPrefix directivePrefix : ascii)
    (prefix : ascii) (rest : string) : string * string :=
  let preprocessorDirectiveTerminatingCharacters :=
    KeyWords.LINE_BREAK_CHARACTERS +:+ String commentPrefix EmptyString
    +:+ String directivePrefix EmptyString in
  let dr :=
    ArgumentProcessor.takeRun preprocessorDirectiveTerminatingCharacters
      rest in
  (String prefix (fst dr), snd dr).

(** The loop of [extractPreprocessorDirectives]: [kept] is the source
    before [currentIndex], [rest] the source from it on. *)
Fixpoint extract_loop (fuel : nat) (commentPrefix directivePrefix : ascii)
    (kept rest : string) (st : state) : result (string * state) :=
  match rest with
  | EmptyString => Ok (kept, st)
  | String c rest' =>
      match fuel with
      | O => OutOfFuel
      | S fuel' =>
          let krs :=
            if Ascii.eqb c commentPrefix then
              let cr := skipOverComment rest in
              (kept +:+ fst cr, snd cr, st)
            else if Ascii.eqb c directivePrefix then
              let dr :=
                getPreprocessorDirective commentPrefix directivePrefix c
                  rest' in
              (kept, snd dr,
               mkState (listOfArguments st ++ [fst dr])
                 (listOfParallelPositions st ++ [(row st, column st)])
                 (row st) (column st))
            else (kept, rest, st) in
          let kept := fst (fst krs) in
          let st := snd krs in
          match snd (fst krs) with
          | EmptyString => Ok (kept, st)
          | String current rest'' =>
              let position :=
                advancePosition (row st) (column st) current 1 in
              extract_loop fuel' commentPrefix directivePrefix
                (kept +:+ String current EmptyString) rest''
                (mkState (listOfArguments st) (listOfParallelPositions st)
                   (fst position) (snd position))
          end
      end
  end.

Definition extractPreprocessorDirectives (commentPrefix directivePrefix : ascii)
    (sourceCode : string) : result (string * state) :=
  extract_loop (String.length sourceCode) commentPrefix directivePrefix
    EmptyString sourceCode (mkState [] [] 1 1).



End Preprocessor.

(** ** The configurations and formulas the claims speak of *)

(** A configuration table with the three recognised options. *)
Definition configuration (memory registers clock : Z) : gmap string Z :=
  <[Defaults.MEMORY_CONFIGURATION_OPTION := memory]>
    (<[Defaults.REGISTERS_CONFIGURATION_OPTION := registers]>
       (<[Defaults.CLOCK_CONFIGURATION_OPTION := clock]> ∅)).

(** The instruction width as the specification words it:
    [W = M + A + 2 O] with [M = ceil(log2 27)], [A = ceil(log2 4)] and
    [O = ceil(log2 (max (m, g + 4))) + 1]. *)
Definition specified_instruction_width (memory registers : Z) : Z :=
  Z.log2_up 27 + Z.log2_up 4
  + 2 * (Z.log2_up (Z.max memory (registers + 4)) + 1).

(** The register wrap rule in the closed form the specification gives:
    [lo + ((v - lo) mod (hi - lo + 1))]. *)
Definition specified_wrap (lowerBound upperBound value : Z) : Z :=
  lowerBound + (value - lowerBound) mod (upperBound - lowerBound + 1).

(** A shift primitive, given a cell of two characters or more and a carry
    of one character, returns a carry of one character and a cell of the
    same length. *)
Definition carry_step (step : string -> string -> result (string * string))
    : Prop :=
  forall value flag,
    2 <= PyStr.len value -> PyStr.len flag = 1 ->
    exists carry value',
      step value flag = Ok (carry, value')
      /\ PyStr.len carry = 1 /\ PyStr.len value' = PyStr.len value.

(** The six carry-writing shift instructions with their primitives. *)
Definition carry_shift_instructions
    : list ((MachineOperations.t -> pyval -> Z -> result MachineOperations.t)
            * (string -> string -> result (string * string))) :=
  [ (MachineOperations.LSL, fun v _ => BinaryString.logicalShiftLeft v);
    (MachineOperations.LSR, fun v _ => BinaryString.logicalShiftRight v);
    (MachineOperations.ASL, fun v _ => BinaryString.arithmeticShiftLeft v);
    (MachineOperations.ASR, fun v _ => BinaryString.arithmeticShiftRight v);
    (MachineOperations.CSLC, BinaryString.circularShiftLeftWithCarry);
    (MachineOperations.CSRC, BinaryString.circularShiftRightWithCarry) ].

(** A machine of width 8 with four general-purpose registers, so that the
    Flags register is the cell [-8]; register 1 holds [10000001]. *)
Definition shift_machine (flags : string) : MachineOperations.t :=
  MachineOperations.mk (<[-8 := flags]> (<[-1 := "10000001"]> ∅)) 8 4 [] [].

(** ** A program that makes the program counter negative

    The one-line program [LDA #-1, %PC], assembled for the default
    configuration of 100 memory cells and 10 registers and loaded into a
    fresh machine. *)

Definition token (kind : TypedToken.kind) (tokenValue : string)
    : TypedToken.t :=
  TypedToken.mk kind tokenValue 1 1.

Definition empty_pool : InstructionPool.t :=
  InstructionPool.mk Defaults.GLOBAL_INSTRUCTION_POOL_IDENTIFIER []
    SymbolTable.empty.

Definition negative_pc_instruction (w : CodeGenerator.widths)
    : result string :=
  CodeGenerator.convertToChadsemblyMachineCode w 10 empty_pool
    (token TypedToken.INSTRUCTION "LDA")
    (Operand.mk (token TypedToken.ADDRESSING_MODE "#")
                (token TypedToken.VALUE "-1"))
    (Operand.mk (token TypedToken.ADDRESSING_MODE "%")
                (token TypedToken.REGISTER "PC"))
    empty_pool.

Definition negative_pc_machine : result VirtualMachine.t :=
  w <-- CodeGenerator.init (configuration 100 10 0) ;;
  instruction <-- negative_pc_instruction w ;;
  VirtualMachine.init (configuration 100 10 0) [instruction]
    (CodeGenerator.machineOperationBits w)
    (CodeGenerator.addressingModeBits w)
    (CodeGenerator.operandBits w)
    (CodeGenerator.totalNumberOfInstructionBits w) [].

(** The machine after it has loaded the program and executed its first
    instruction. *)
Definition negative_pc_after_first_instruction : result VirtualMachine.t :=
  vm <-- negative_pc_machine ;;
  vm <-- VirtualMachine.loader vm ;;
  instruction <-- getitem (VirtualMachine.memoryPool vm) 0 ;;
  VirtualMachine.executeInstruction vm instruction.

(** ** The source texts the properties are evaluated on *)

Definition newline : string := String "010" EmptyString.

(** A label alone on its line, then a labelled instruction. *)
Definition bare_label_source : string :=
  "A" +:+ newline +:+ "B HLT" +:+ newline.

(** [countNumberOfInstructions] of codegenerator.py: the number of
    instructions the code generator lays out for a token stream. *)
Definition countNumberOfInstructions (tokenStream : list TypedToken.t) : Z :=
  Z.of_nat
    (length (filter (fun token =>
                       TypedToken.is_kind TypedToken.INSTRUCTION token = true)
               tokenStream)).

(** A variable, a branch to it, and two procedures, the first of which
    branches to the second. *)
Definition branch_source : string :=
  "X DAT 5" +:+ newline +:+ "BRA X" +:+ newline +:+
  "P {" +:+ newline +:+ "BRA Q" +:+ newline +:+ "}" +:+ newline +:+
  "Q {" +:+ newline +:+ "RET" +:+ newline +:+ "}" +:+ newline.

(** The operand [@ label] the analyser is given for a bare label. *)
Definition direct_label (label : string) : Operand.t :=
  Operand.mk (token TypedToken.ADDRESSING_MODE KeyWords.DIRECT_ADDRESSING_MODE)
             (token TypedToken.LABEL label).

(** The pools of [branch_source] after parsing. *)
Definition branch_pools : result (Parser.pools * InstructionPool.t) :=
  tokens <-- Lexer.lex branch_source Defaults.COMMENT_PREFIX ;;
  Parser.parse tokens.

(** ** The text of a procedure definition in a token stream

    The procedure label, an optional END token (a line break before the
    brace), the left brace and the token after it, the body, the right
    brace and the token after it. *)

Record procedure_text : Type := mkProcedureText {
  text_label : TypedToken.t;
  text_separator : list TypedToken.t;
  text_left_brace : TypedToken.t;
  text_after_left_brace : TypedToken.t;
  text_body : list TypedToken.t;
  text_right_brace : TypedToken.t;
  text_after_right_brace : TypedToken.t
}.

Definition tokens_of (d : procedure_text) : list TypedToken.t :=
  (text_label d :: text_separator d)
  ++ text_left_brace d :: text_after_left_brace d :: text_body d
  ++ [text_right_brace d; text_after_right_brace d].

Definition no_kind (kind : TypedToken.kind) (tokens : list TypedToken.t)
    : Prop :=
  Forall (fun token => TypedToken.is_kind kind token = false) tokens.

Definition optional_end (tokens : list TypedToken.t) : Prop :=
  tokens = []
  \/ exists token,
       tokens = [token] /\ TypedToken.is_kind TypedToken.END token = true.

(** [d] is the text of a definition of the procedure [name]. *)
Definition defines (name : string) (d : procedure_text) : Prop :=
  TypedToken.is_kind TypedToken.LABEL (text_label d) = true
  /\ TypedToken.tokenValue (text_label d) = name
  /\ optional_end (text_separator d)
  /\ TypedToken.is_kind TypedToken.LEFT_BRACE (text_left_brace d) = true
  /\ no_kind TypedToken.RIGHT_BRACE (text_body d)
  /\ TypedToken.is_kind TypedToken.RIGHT_BRACE (text_right_brace d) = true.

(** A source that defines the procedure [P] twice. *)
Definition redefinition_source : string :=
  "CALL P" +:+ newline +:+
  "P {" +:+ newline +:+ "OUT" +:+ newline +:+ "RET" +:+ newline +:+ "}"
  +:+ newline +:+ "HLT" +:+ newline +:+
  "P" +:+ newline +:+ "{" +:+ newline +:+ "RET" +:+ newline +:+ "}"
  +:+ newline.

(** The two definitions of [P] in [redefinition_source] and the tokens
    around them, written without their positions. *)
Definition earlier_definition : procedure_text :=
  mkProcedureText (token TypedToken.LABEL "P") []
    (token TypedToken.LEFT_BRACE "{") (token TypedToken.END "/")
    [token TypedToken.INSTRUCTION "OUT"; token TypedToken.END "/";
     token TypedToken.INSTRUCTION "RET"; token TypedToken.END "/"]
    (token TypedToken.RIGHT_BRACE "}") (token TypedToken.END "/").

Definition later_definition : procedure_text :=
  mkProcedureText (token TypedToken.LABEL "P") [token TypedToken.END "/"]
    (token TypedToken.LEFT_BRACE "{") (token TypedToken.END "/")
    [token TypedToken.INSTRUCTION "RET"; token TypedToken.END "/"]
    (token TypedToken.RIGHT_BRACE "}") (token TypedToken.END "/").

Definition before_definitions : list TypedToken.t :=
  [token TypedToken.INSTRUCTION "CALL"; token TypedToken.LABEL "P";
   token TypedToken.END "/"].

Definition between_definitions : list TypedToken.t :=
  [token TypedToken.INSTRUCTION "HLT"; token TypedToken.END "/"].

Definition redefinition_tokens : list TypedToken.t :=
  before_definitions ++ tokens_of earlier_definition
  ++ between_definitions ++ tokens_of later_definition ++ [].

(** A token without its position. *)
Definition unplaced (token : TypedToken.t) : TypedToken.kind * string :=
  (TypedToken.tokenType token, TypedToken.tokenValue token).

(** ** Token streams made of global tokens and procedure definitions

    A site is a definition with the tokens of the global pool that stand
    before it; a stream is a list of sites and the global tokens after the
    last of them. *)







(** ** Token streams without two END tokens in a row *)

Fixpoint no_double_end (tokens : list TypedToken.t) : bool :=
  match tokens with
  | a :: (b :: _) as rest =>
      negb (TypedToken.is_kind TypedToken.END a
            && TypedToken.is_kind TypedToken.END b)
      && no_double_end rest
  | _ => true
  end.

(** The last token is an END token; [false] on the empty stream. *)
Definition ends_with_end (tokens : list TypedToken.t) : bool :=
  match last tokens with
  | Some token => TypedToken.is_kind TypedToken.END token
  | None => false
  end.

(** ** Fuel

    [out_of_fuel r] tells that a loop of the model ran out of its fuel
    before the loop of the source would have ended. *)

Definition out_of_fuel {A : Type} (r : result A) : bool :=
  match r with
  | OutOfFuel => true
  | _ => false
  end.

(** ** Source texts without a token

    [blank commentPrefix inComment sourceCode]: the text holds white space,
    line breaks and comments only; [inComment] tells that the text starts
    inside a comment, which runs up to the next line break. *)

Fixpoint blank (commentPrefix : ascii) (inComment : bool)
    (sourceCode : string) : bool :=
  match sourceCode with
  | EmptyString => true
  | String c rest =>
      if inComment then
        blank commentPrefix
          (negb (PyStr.mem c KeyWords.LINE_BREAK_CHARACTERS)) rest
      else if Ascii.eqb c commentPrefix then blank commentPrefix true rest
      else if PyStr.mem c KeyWords.WHITE_SPACE_CHARACTERS
              || PyStr.mem c KeyWords.LINE_BREAK_CHARACTERS
      then blank commentPrefix false rest
      else false
  end.

(** ** Streams of tokens that declare no label

    [declares_nothing tokens follower]: no LABEL token of [tokens] stands
    before an assembly directive or an instruction, the two places where the
    parser enters a label into the symbol table; every LABEL token has a
    token after it.  [follower] is the token after the last one of
    [tokens], if there is one. *)

Fixpoint declares_nothing (tokens : list TypedToken.t)
    (follower : option TypedToken.t) : bool :=
  match tokens with
  | [] => true
  | current :: rest =>
      (negb (TypedToken.is_kind TypedToken.LABEL current)
       || match (match rest with
                 | after :: _ => Some after
                 | [] => follower
                 end) with
          | Some after =>
              negb (TypedToken.kind_in (TypedToken.tokenType after)
                      [TypedToken.ASSEMBLY_DIRECTIVE; TypedToken.INSTRUCTION])
          | None => false
          end)
      && declares_nothing rest follower
  end.

(** The number of END tokens of a stream. *)
Fixpoint countEndTokens (tokens : list TypedToken.t) : Z :=
  match tokens with
  | [] => 0
  | current :: rest =>
      (if TypedToken.is_kind TypedToken.END current then 1 else 0)
      + countEndTokens rest
  end.

(** ** Words

    [is_binary s]: every character of [s] is ['0'] or ['1'].  [bit b] is
    the character of a binary digit. *)

Fixpoint is_binary (s : string) : bool :=
  match s with
  | EmptyString => true
  | String c s' => (Ascii.eqb c "0" || Ascii.eqb c "1") && is_binary s'
  end.

Definition bit (b : Z) : string := if b =? 0 then "0" else "1".

(** [word W cell]: the cell holds exactly [W] binary digits; [words W pool]:
    every cell of the memory pool does. *)

Definition word (W : Z) (cell : string) : Prop :=
  PyStr.len cell = W /\ is_binary cell = true.

Definition words (W : Z) (pool : gmap Z string) : Prop :=
  map_Forall (fun _ cell => word W cell) pool.

(** ** A small machine

    Words of 8 digits, four general-purpose registers (so the Program
    Counter is the cell [-6], the Return Register [-7] and the Flags
    register [-8]) and four memory cells.  Register 1 holds [-1], register
    2 holds 5, the Program Counter 2. *)

Definition small_machine : MachineOperations.t :=
  MachineOperations.mk
    (list_to_map
       [ (-8, "00000000"); (-7, "00000000"); (-6, "00000010");
         (-5, "00000000"); (-4, "00000000"); (-3, "00000000");
         (-2, "00000101"); (-1, "10000001");
         (0, "00000000"); (1, "00000000"); (2, "00000000");
         (3, "00000000") ])
    8 4 [] [].

(** The five instructions that combine the destination with the source
    operand, with their operators. *)
Definition arithmetic_instructions
    : list ((MachineOperations.t -> pyval -> Z -> result MachineOperations.t)
            * (Z -> Z -> Z)) :=
  [ (MachineOperations.ADD, Z.add); (MachineOperations.SUB, Z.sub);
    (MachineOperations.AND, Z.land); (MachineOperations.OR, Z.lor);
    (MachineOperations.XOR, Z.lxor) ].

(** A shift primitive that takes a word and a carry digit to a word and a
    carry digit. *)
Definition word_step (W : Z)
    (step : string -> string -> result (string * string)) : Prop :=
  forall value flag,
    word W value -> word 1 flag ->
    exists carry value',
      step value flag = Ok (carry, value')
      /\ word 1 carry /\ word W value'.

(** The machine [m'] has the widths of [m], and all its cells are words. *)
Definition keeps_words (m m' : MachineOperations.t) : Prop :=
  words (MachineOperations.totalNumberOfBits m)
    (MachineOperations.memoryPool m')
  /\ MachineOperations.totalNumberOfBits m'
     = MachineOperations.totalNumberOfBits m
  /\ MachineOperations.numberOfGeneralPurposeRegisters m'
     = MachineOperations.numberOfGeneralPurposeRegisters m.

(** What a machine operation may answer on a pool of words: a machine whose
    cells are words again, or one of the exceptions that do not come from
    reading a cell.  [chr] in [OUTC] is the one place left that raises
    [ValueError]. *)
Definition word_outcome (opcode : Z) (m : MachineOperations.t)
    (r : result MachineOperations.t) : Prop :=
  match r with
  | Ok m' => keeps_words m m'
  | Raise IndexError => False
  | Raise ValueError =>
      Some opcode = PyDict.get KeyWords.INSTRUCTION_SET KeyWords.OUTC
  | Raise _ => True
  | OutOfFuel => False
  end.

(** What a number reads back as after it was written as a signed word of
    [bits] digits: its magnitude is reduced modulo [2 ^ (bits - 1)], its
    sign is kept. *)
Definition sign_magnitude_wrap (bits x : Z) : Z :=
  Z.sgn x * (Z.abs x mod 2 ^ (bits - 1)).

(** ** An instruction of the default configuration

    [LDA #-1, %PC] with the widths of 100 memory cells and 10 registers:
    5 + 3 + 8 + 8 digits. *)

Definition default_widths : CodeGenerator.widths :=
  CodeGenerator.mkWidths 5 3 8 24.

Definition load_immediate (value register : string)
    : result string :=
  CodeGenerator.convertToChadsemblyMachineCode default_widths 10
    (InstructionPool.mk Defaults.GLOBAL_INSTRUCTION_POOL_IDENTIFIER []
       SymbolTable.empty)
    (TypedToken.mk TypedToken.INSTRUCTION "LDA" 1 1)
    (Operand.mk (TypedToken.mk TypedToken.ADDRESSING_MODE "#" 1 5)
                (TypedToken.mk TypedToken.VALUE value 1 6))
    (Operand.mk (TypedToken.mk TypedToken.ADDRESSING_MODE "%" 1 10)
                (TypedToken.mk TypedToken.REGISTER register 1 11))
    (InstructionPool.mk Defaults.GLOBAL_INSTRUCTION_POOL_IDENTIFIER []
       SymbolTable.empty).

(** A virtual machine whose instruction format has room for every field
    ([M], [A] of one digit or more, [O] of two or more, [W = M + A + 2 O]),
    whose operations work at the width [W], and whose cells are all words
    of [W] digits. *)
Definition vm_words (vm : VirtualMachine.t) : Prop :=
  1 <= VirtualMachine.numberOfMachineOperationBits vm
  /\ 1 <= VirtualMachine.numberOfAddressingModeBits vm
  /\ 2 <= VirtualMachine.numberOfOperandBits vm
  /\ VirtualMachine.totalNumberOfInstructionBits vm
     = VirtualMachine.numberOfMachineOperationBits vm
       + VirtualMachine.numberOfAddressingModeBits vm
       + 2 * VirtualMachine.numberOfOperandBits vm
  /\ MachineOperations.totalNumberOfBits (VirtualMachine.machineOperations vm)
     = VirtualMachine.totalNumberOfInstructionBits vm
  /\ words (VirtualMachine.totalNumberOfInstructionBits vm)
       (VirtualMachine.memoryPool vm).

(** [vm'] has the format, the configuration and the program of [vm]. *)
Definition same_format (vm vm' : VirtualMachine.t) : Prop :=
  VirtualMachine.configurationTable vm' = VirtualMachine.configurationTable vm
  /\ VirtualMachine.chadsemblyByteCode vm'
     = VirtualMachine.chadsemblyByteCode vm
  /\ VirtualMachine.numberOfMachineOperationBits vm'
     = VirtualMachine.numberOfMachineOperationBits vm
  /\ VirtualMachine.numberOfAddressingModeBits vm'
     = VirtualMachine.numberOfAddressingModeBits vm
  /\ VirtualMachine.numberOfOperandBits vm'
     = VirtualMachine.numberOfOperandBits vm
  /\ VirtualMachine.totalNumberOfInstructionBits vm'
     = VirtualMachine.totalNumberOfInstructionBits vm.

(** What the execution of one instruction word may answer on such a
    machine: [ValueError] comes from [OUTC] alone, whose opcode the first
    field of the word then holds. *)
Definition instruction_outcome (vm : VirtualMachine.t)
    (chadsemblyInstruction : string) (r : result VirtualMachine.t) : Prop :=
  match r with
  | Ok vm' => vm_words vm' /\ same_format vm vm'
  | Raise IndexError => False
  | Raise ValueError =>
      exists opcode,
        BinaryString.readUnsignedInteger
          (PyStr.slice chadsemblyInstruction 0
             (VirtualMachine.numberOfMachineOperationBits vm)) = Ok opcode
        /\ Some opcode = PyDict.get KeyWords.INSTRUCTION_SET KeyWords.OUTC
  | Raise _ => True
  | OutOfFuel => False
  end.

(** What a run may answer: it never indexes a string out of its bounds. *)
Definition run_outcome (vm : VirtualMachine.t)
    (r : result VirtualMachine.t) : Prop :=
  match r with
  | Ok vm' => vm_words vm' /\ same_format vm vm'
  | Raise IndexError => False
  | _ => True
  end.

(** An ASCII letter, of either case. *)
Definition is_letter (c : ascii) : bool :=
  let n := nat_of_ascii c in
  (Nat.leb 65 n && Nat.leb n 90) || (Nat.leb 97 n && Nat.leb n 122).

(** No character of [chars] is a letter. *)
Fixpoint no_letters (chars : string) : bool :=
  match chars with
  | EmptyString => true
  | String c chars' => negb (is_letter c) && no_letters chars'
  end.





(** ** A statement of two operands in a token stream

    The instruction, the source operand with its addressing mode or without
    one, a separator and the destination operand or neither, and the END
    token. *)
Record statement : Type := mkStatement {
  statementInstruction : TypedToken.t;
  statementSource : option TypedToken.t * TypedToken.t;
  statementDestination :
    option (TypedToken.t * (option TypedToken.t * TypedToken.t));
  statementEnd : TypedToken.t
}.

Definition operand_text (operand : option TypedToken.t * TypedToken.t)
    : list TypedToken.t :=
  match fst operand with
  | Some mode => [mode; snd operand]
  | None => [snd operand]
  end.

Definition statement_text (s : statement) : list TypedToken.t :=
  statementInstruction s
  :: operand_text (statementSource s)
  ++ match statementDestination s with
     | Some (seperator, operand) => seperator :: operand_text operand
     | None => []
     end
  ++ [statementEnd s].

Definition well_formed_operand (operand : option TypedToken.t * TypedToken.t)
    : bool :=
  match fst operand with
  | Some mode => TypedToken.is_kind TypedToken.ADDRESSING_MODE mode
  | None => true
  end
  && TypedToken.kind_in (TypedToken.tokenType (snd operand))
       [TypedToken.REGISTER; TypedToken.LABEL; TypedToken.VALUE].

Definition well_formed_statement (s : statement) : bool :=
  well_formed_operand (statementSource s)
  && match statementDestination s with
     | Some (seperator, operand) =>
         TypedToken.is_kind TypedToken.SEPERATOR seperator
         && well_formed_operand operand
     | None => true
     end
  && TypedToken.is_kind TypedToken.END (statementEnd s).

(** The operand with the direct addressing mode when it has none. *)
Definition completed (operand : option TypedToken.t * TypedToken.t)
    : Operand.t :=
  let value := snd operand in
  Operand.mk
    (match fst operand with
     | Some mode => mode
     | None =>
         TypedToken.mk TypedToken.ADDRESSING_MODE
           KeyWords.DIRECT_ADDRESSING_MODE (TypedToken.row value)
           (TypedToken.column value)
     end)
    value.

(** The separator and the destination operand of the statement, the
    accumulator in register mode when the statement has none. *)
Definition destination_of (s : statement) : TypedToken.t * Operand.t :=
  match statementDestination s with
  | Some (seperator, operand) => (seperator, completed operand)
  | None =>
      let row := TypedToken.row (statementEnd s) in
      let column := TypedToken.column (statementEnd s) in
      (TypedToken.mk TypedToken.SEPERATOR
         Defaults.INSTRUCTION_SEPERATOR_SYMBOL row column,
       Operand.mk
         (TypedToken.mk TypedToken.ADDRESSING_MODE
            KeyWords.REGISTER_ADDRESSING_MODE row column)
         (TypedToken.mk TypedToken.REGISTER KeyWords.ACCUMULATOR row column))
  end.

(** The statement after the analysis: seven tokens. *)
Definition analysed_text (s : statement) : list TypedToken.t :=
  let source := completed (statementSource s) in
  let destination := destination_of s in
  [statementInstruction s;
   Operand.addressingMode source; Operand.operandValue source;
   fst destination;
   Operand.addressingMode (snd destination);
   Operand.operandValue (snd destination);
   statementEnd s].
(** The statement [ADD 5]: no addressing mode, no destination. *)
Definition add_statement : statement :=
  mkStatement (TypedToken.mk TypedToken.INSTRUCTION "ADD" 1 1)
    (None, TypedToken.mk TypedToken.VALUE "+5" 1 5) None
    (TypedToken.mk TypedToken.END "/" 1 6).


(** The number a declaration gives to its variable: the value after the
    directive, the default [0] when there is none. *)
Definition declared_value (value : option TypedToken.t) : result Z :=
  match value with
  | Some valueToken => PyStr.int (TypedToken.tokenValue valueToken)
  | None => PyStr.int Defaults.DEFAULT_VARIABLE_VALUE
  end.

(** The tokens of a declaration before its END token. *)
Definition declaration_text (label directive : TypedToken.t)
    (value : option TypedToken.t) : list TypedToken.t :=
  label :: directive :: match value with
                        | Some valueToken => [valueToken]
                        | None => []
                        end.

(** The number of line-break characters of a text. *)
Fixpoint line_breaks (text : string) : nat :=
  match text with
  | EmptyString => 0%nat
  | String c text' =>
      ((if PyStr.mem c KeyWords.LINE_BREAK_CHARACTERS then 1 else 0)
       + line_breaks text')%nat
  end.

(** No character of [text] is one of [chars]. *)
Fixpoint free_of (chars text : string) : bool :=
  match text with
  | EmptyString => true
  | String c text' => negb (PyStr.mem c chars) && free_of chars text'
  end.

(** A directive as the preprocessor cuts it out: the directive prefix and a
    text without line break, comment prefix and directive prefix. *)
Definition directive_shape (commentPrefix directivePrefix : ascii)
    (directive : string) : Prop :=
  exists body,
    directive = String directivePrefix body
    /\ free_of (KeyWords.LINE_BREAK_CHARACTERS
                +:+ String commentPrefix EmptyString
                +:+ String directivePrefix EmptyString) body = true.

(** [cut_out sourceCode directives positions kept]: the source is made of
    texts and of the directives, in their order; [kept] is the texts
    without the directives, and the row of the position of a directive is
    the number of its line in the source. *)
Inductive cut_out : string -> list string -> list (Z * Z) -> string -> Prop :=
  | cut_nil : cut_out EmptyString [] [] EmptyString
  | cut_text (sourceCode : string) (directives : list string)
      (positions : list (Z * Z)) (kept text : string) :
      cut_out sourceCode directives positions kept ->
      cut_out (sourceCode +:+ text) directives positions (kept +:+ text)
  | cut_directive (sourceCode : string) (directives : list string)
      (positions : list (Z * Z)) (kept directive : string) (column : Z) :
      cut_out sourceCode directives positions kept ->
      cut_out (sourceCode +:+ directive) (directives ++ [directive])
        (positions ++ [(1 + Z.of_nat (line_breaks sourceCode), column)])
        kept.

(** * Properties *)

(** ** Strings *)

Lemma str_app_nil_l (t : string) : EmptyString +:+ t = t.
Proof. reflexivity. Qed.

Lemma str_app_cons (c : ascii) (s t : string) :
  String c s +:+ t = String c (s +:+ t).
Proof. reflexivity. Qed.

Lemma str_length_app (s t : string) :
  String.length (s +:+ t) = (String.length s + String.length t)%nat.
Proof.
  induction s as [|c s IH]; [reflexivity |].
  rewrite str_app_cons. simpl. now rewrite IH.
Qed.

Lemma str_app_nil_r (s : string) : s +:+ EmptyString = s.
Proof.
  induction s as [|c s IH]; [reflexivity |].
  now rewrite str_app_cons, IH.
Qed.

Lemma str_app_assoc (s t u : string) : (s +:+ t) +:+ u = s +:+ t +:+ u.
Proof.
  induction s as [|c s IH]; [reflexivity |].
  now rewrite !str_app_cons, IH.
Qed.

Lemma repeat_nat_S (c : ascii) (n : nat) :
  PyStr.repeat_nat (String c EmptyString) (S n)
  = String c (PyStr.repeat_nat (String c EmptyString) n).
Proof. reflexivity. Qed.

Lemma length_repeat_nat (c : ascii) (n : nat) :
  String.length (PyStr.repeat_nat (String c EmptyString) n) = n.
Proof.
  induction n as [|n IH]; [reflexivity |].
  rewrite repeat_nat_S. simpl. now rewrite IH.
Qed.

Lemma len_repeat (c : ascii) (n : Z) :
  0 <= n -> PyStr.len (PyStr.repeat (String c EmptyString) n) = n.
Proof.
  intros Hn. unfold PyStr.len, PyStr.repeat. rewrite length_repeat_nat. lia.
Qed.

Lemma len_app (s t : string) :
  PyStr.len (s +:+ t) = PyStr.len s + PyStr.len t.
Proof. unfold PyStr.len. rewrite str_length_app. lia. Qed.

Lemma len_nonneg (s : string) : 0 <= PyStr.len s.
Proof. unfold PyStr.len. lia. Qed.

Lemma app_char_not_nil (s : string) (c : ascii) :
  s +:+ String c EmptyString <> EmptyString.
Proof. destruct s; discriminate. Qed.

Lemma last_app_char (s : string) (c : ascii) :
  PyStr.last (s +:+ String c EmptyString) = Ok (String c EmptyString).
Proof.
  induction s as [|d s IH]; [reflexivity |].
  rewrite str_app_cons. simpl.
  destruct (s +:+ String c EmptyString) eqn:E; [| exact IH].
  now apply app_char_not_nil in E.
Qed.

Lemma init_app_char (s : string) (c : ascii) :
  PyStr.init (s +:+ String c EmptyString) = s.
Proof.
  induction s as [|d s IH]; [reflexivity |].
  rewrite str_app_cons. simpl.
  destruct (s +:+ String c EmptyString) eqn:E.
  - now apply app_char_not_nil in E.
  - now rewrite IH.
Qed.

(** ** Binary strings: reading back what was written *)

Lemma int2_acc_app (s t : string) (acc : Z) :
  BinaryString.int2_acc acc (s +:+ t)
  = rbind (BinaryString.int2_acc acc s)
          (fun a => BinaryString.int2_acc a t).
Proof.
  revert acc. induction s as [|c s IH]; intros acc; [reflexivity |].
  rewrite str_app_cons. simpl.
  destruct (Ascii.eqb c "0"); [apply IH |].
  destruct (Ascii.eqb c "1"); [apply IH | reflexivity].
Qed.

Lemma int2_acc_zeros (n : nat) (s : string) :
  BinaryString.int2_acc 0 (PyStr.repeat_nat "0" n +:+ s)
  = BinaryString.int2_acc 0 s.
Proof.
  induction n as [|n IH]; [reflexivity |].
  rewrite repeat_nat_S, str_app_cons. simpl. exact IH.
Qed.

Lemma int2_acc_pos_digits (p : positive) :
  BinaryString.int2_acc 0 (BinaryString.pos_digits p) = Ok (Zpos p).
Proof.
  induction p as [p IH | p IH |]; simpl; [| | reflexivity];
    rewrite int2_acc_app, IH; simpl; f_equal; lia.
Qed.

Lemma int2_acc_bin (k : Z) :
  0 <= k -> BinaryString.int2_acc 0 (BinaryString.bin k) = Ok k.
Proof.
  intros Hk. destruct k as [|p|p]; [reflexivity | | lia].
  apply int2_acc_pos_digits.
Qed.

Lemma pos_digits_length (p : positive) (n : nat) :
  Zpos p < 2 ^ Z.of_nat n ->
  (String.length (BinaryString.pos_digits p) <= n)%nat.
Proof.
  revert n. induction p as [p IH | p IH |]; intros n Hp; simpl.
  - destruct n as [|n]; [simpl in Hp; lia |].
    rewrite str_length_app. simpl.
    assert (Zpos p < 2 ^ Z.of_nat n).
    { rewrite Nat2Z.inj_succ, Z.pow_succ_r in Hp by lia. lia. }
    specialize (IH n H). lia.
  - destruct n as [|n]; [simpl in Hp; lia |].
    rewrite str_length_app. simpl.
    assert (Zpos p < 2 ^ Z.of_nat n).
    { rewrite Nat2Z.inj_succ, Z.pow_succ_r in Hp by lia. lia. }
    specialize (IH n H). lia.
  - destruct n as [|n]; [simpl in Hp; lia | simpl; lia].
Qed.

Lemma bin_len (k n : Z) :
  1 <= n -> 0 <= k < 2 ^ n -> PyStr.len (BinaryString.bin k) <= n.
Proof.
  intros Hn Hk. unfold PyStr.len.
  destruct k as [|p|p]; simpl; [lia | | lia].
  assert (H : (String.length (BinaryString.pos_digits p) <= Z.to_nat n)%nat).
  { apply pos_digits_length. rewrite Z2Nat.id by lia. lia. }
  lia.
Qed.

Lemma pos_digits_not_nil (p : positive) :
  BinaryString.pos_digits p <> EmptyString.
Proof. destruct p; simpl; try apply app_char_not_nil; discriminate. Qed.

Lemma bin_not_nil (k : Z) : BinaryString.bin k <> EmptyString.
Proof.
  destruct k; simpl; try discriminate; apply pos_digits_not_nil.
Qed.

Lemma int2_padded (k pad : Z) :
  0 <= k ->
  BinaryString.int2 (BinaryString.padBinary (BinaryString.bin k) pad "0")
  = Ok k.
Proof.
  intros Hk. unfold BinaryString.padBinary, PyStr.repeat.
  assert (Hv : BinaryString.int2_acc 0
                 (PyStr.repeat_nat "0" (Z.to_nat pad) +:+ BinaryString.bin k)
               = Ok k).
  { rewrite int2_acc_zeros. now apply int2_acc_bin. }
  unfold BinaryString.int2.
  destruct (PyStr.repeat_nat "0" (Z.to_nat pad) +:+ BinaryString.bin k) eqn:E;
    [| exact Hv].
  destruct (Z.to_nat pad); [| discriminate].
  now apply bin_not_nil in E.
Qed.

(** The magnitude part of a signed string reads back as the magnitude. *)
Lemma readSignedInteger_sign_magnitude (sign : ascii) (k pad : Z) :
  0 <= k ->
  BinaryString.readSignedInteger
    (String sign EmptyString
       +:+ BinaryString.padBinary (BinaryString.bin k) pad "0")
  = Ok ((if Ascii.eqb sign "0" then 1 else -1) * k).
Proof.
  intros Hk. rewrite str_app_cons, str_app_nil_l.
  unfold BinaryString.readSignedInteger. simpl PyStr.first.
  simpl PyStr.tail. simpl rbind.
  rewrite int2_padded by assumption. simpl.
  destruct (Ascii.eqb sign "0"); reflexivity.
Qed.

(** C1. For every integer [n] and every width [W >= 2], reading back the
    signed encoding of [n] gives [n] reduced modulo [2^(W-1)] with its sign
    kept: [sign(n) * (|n| mod 2^(W-1))]; a negative zero reads as zero. *)
Theorem readSignedInteger_signedInteger (n W : Z) :
  2 <= W ->
  BinaryString.readSignedInteger (BinaryString.signedInteger n W)
  = Ok (Z.sgn n * (Z.abs n mod 2 ^ (W - 1))).
Proof.
  intros HW. unfold BinaryString.signedInteger.
  replace (W <? 2) with false by (symmetry; apply Z.ltb_ge; lia).
  assert (Hpow : 0 < 2 ^ (W - 1)) by (apply Z.pow_pos_nonneg; lia).
  unfold BinaryString.toBinary.
  destruct (n <? 0) eqn:Hn.
  - apply Z.ltb_lt in Hn.
    pose proof (Z.mod_pos_bound (Z.abs n) (2 ^ (W - 1)) Hpow) as Hb.
    rewrite (Z.abs_eq (Z.abs n mod 2 ^ (W - 1))) by lia.
    rewrite (readSignedInteger_sign_magnitude "1") by lia.
    simpl Ascii.eqb. cbv iota.
    rewrite (Z.sgn_neg n) by lia. reflexivity.
  - apply Z.ltb_ge in Hn.
    pose proof (Z.mod_pos_bound n (2 ^ (W - 1)) Hpow) as Hb.
    rewrite (Z.abs_eq (n mod 2 ^ (W - 1))) by lia.
    rewrite (readSignedInteger_sign_magnitude "0") by lia.
    simpl Ascii.eqb. cbv iota.
    rewrite (Z.abs_eq n) by lia.
    destruct (Z.eq_dec n 0) as [-> | Hne].
    + rewrite Z.mod_0_l by lia. reflexivity.
    + rewrite (Z.sgn_pos n) by lia. reflexivity.
Qed.

Lemma readSignedInteger_signedInteger_witness :
  2 <= 8 /\
  BinaryString.readSignedInteger (BinaryString.signedInteger (-261) 8)
  = Ok (Z.sgn (-261) * (Z.abs (-261) mod 2 ^ (8 - 1))).
Proof.
  split; [lia |].
  apply (readSignedInteger_signedInteger (-261) 8). lia.
Defined.

(** ** The register wrap rule *)

Lemma wrapAround_in_range (fuel : nat) (lowerBound upperBound value : Z) :
  value <= upperBound ->
  CodeGenerator.wrapAround fuel lowerBound upperBound value = Ok value.
Proof.
  intros H. destruct fuel; simpl;
    replace (upperBound <? value) with false
      by (symmetry; apply Z.ltb_ge; lia); reflexivity.
Qed.

Lemma wrapAround_step (fuel : nat) (lowerBound upperBound value : Z) :
  upperBound < value ->
  CodeGenerator.wrapAround (S fuel) lowerBound upperBound value
  = CodeGenerator.wrapAround fuel lowerBound upperBound
      ((lowerBound - 1) + (value - upperBound)).
Proof.
  intros H. simpl.
  replace (upperBound <? value) with true
    by (symmetry; apply Z.ltb_lt; lia).
  reflexivity.
Qed.

(** The loop takes [(v - 1) / G] turns. *)
Lemma wrapAround_registers (G : Z) (fuel : nat) :
  1 <= G ->
  forall v, 1 <= v -> (v - 1) / G <= Z.of_nat fuel ->
  CodeGenerator.wrapAround fuel 1 G v = Ok (1 + (v - 1) mod G).
Proof.
  intros HG. induction fuel as [|fuel IH]; intros v Hv Hfuel.
  - assert (Hsmall : v - 1 < G).
    { destruct (Z_lt_ge_dec (v - 1) G) as [Hlt | Hge]; [exact Hlt |].
      assert (1 <= (v - 1) / G).
      { apply Z.div_le_lower_bound; lia. }
      simpl in Hfuel. lia. }
    rewrite wrapAround_in_range by lia.
    rewrite Z.mod_small by lia. f_equal. lia.
  - destruct (Z_lt_ge_dec G v) as [Hgt | Hle].
    + rewrite wrapAround_step by exact Hgt.
      replace (1 - 1 + (v - G)) with (v - G) by lia.
      assert (Hdiv : (v - G - 1) / G = (v - 1) / G - 1).
      { replace (v - G - 1) with (v - 1 + (-1) * G) by lia.
        rewrite Z.div_add by lia. lia. }
      assert (Hmod : (v - G - 1) mod G = (v - 1) mod G).
      { replace (v - G - 1) with (v - 1 + (-1) * G) by lia.
        apply Z.mod_add. lia. }
      rewrite IH by lia. now rewrite Hmod.
    + rewrite wrapAround_in_range by lia.
      rewrite Z.mod_small by lia. f_equal. lia.
Qed.

(** C7. For every positive [v] and every register count [G >= 1] the wrap
    loop called with the bounds [1] and [G] ends, within [(v - 1) / G]
    turns, on [1 + ((v - 1) mod G)], a value of [1 .. G]; this is the closed
    form [lo + ((v - lo) mod (hi - lo + 1))] of the specification. *)
Theorem wrapAround_closed_form (v G : Z) (fuel : nat) :
  1 <= v -> 1 <= G -> (v - 1) / G <= Z.of_nat fuel ->
  CodeGenerator.wrapAround fuel 1 G v = Ok (1 + (v - 1) mod G)
  /\ 1 <= 1 + (v - 1) mod G <= G
  /\ 1 + (v - 1) mod G = specified_wrap 1 G v.
Proof.
  intros Hv HG Hfuel. split; [| split].
  - now apply wrapAround_registers.
  - pose proof (Z.mod_pos_bound (v - 1) G ltac:(lia)). lia.
  - unfold specified_wrap. f_equal. f_equal. lia.
Qed.

Lemma wrapAround_closed_form_witness :
  1 <= 25 /\ 1 <= 10 /\ (25 - 1) / 10 <= Z.of_nat 2 /\
  CodeGenerator.wrapAround 2 1 10 25 = Ok (1 + (25 - 1) mod 10).
Proof.
  assert (H1 : 1 <= 25) by lia.
  assert (H2 : 1 <= 10) by lia.
  assert (H3 : (25 - 1) / 10 <= Z.of_nat 2) by (vm_compute; discriminate).
  split; [exact H1 |]. split; [exact H2 |]. split; [exact H3 |].
  exact (proj1 (wrapAround_closed_form 25 10 2 H1 H2 H3)).
Defined.

(** The register numbers the code generator resolves: the wrap loop of
    [resolveRegister] has fuel enough whenever there is a register. *)
Lemma resolveRegister_general_purpose (G v : Z) (registerToken : TypedToken.t) :
  1 <= G -> 1 <= v ->
  PyDict.contains KeyWords.SPECIAL_PURPOSE_REGISTERS
    (TypedToken.tokenValue registerToken) = false ->
  PyStr.int (TypedToken.tokenValue registerToken) = Ok v ->
  CodeGenerator.resolveRegister G registerToken = Ok (1 + (v - 1) mod G).
Proof.
  intros HG Hv Hspecial Hint. unfold CodeGenerator.resolveRegister.
  rewrite Hspecial, Hint. simpl.
  apply wrapAround_registers; try lia.
  rewrite Z2Nat.id by lia.
  assert ((v - 1) / G <= v - 1).
  { apply Z.div_le_upper_bound; try lia. nia. }
  lia.
Qed.

(** ** The instruction format *)

Lemma pos_digits_size (p : positive) :
  PyStr.len (BinaryString.pos_digits p) = Zpos (Pos.size p).
Proof.
  induction p as [p IH | p IH |]; simpl; [| | reflexivity];
    rewrite len_app, IH; unfold PyStr.len; simpl; lia.
Qed.

(** [numberOfBits] is the bit length of its argument: one more than the
    floor of its binary logarithm. *)
Lemma numberOfBits_log2 (n : Z) :
  0 <= n -> BinaryString.numberOfBits n = Z.log2 n + 1.
Proof.
  intros Hn. unfold BinaryString.numberOfBits, BinaryString.toBinary.
  rewrite Z.abs_eq by lia.
  destruct n as [|p|p]; [reflexivity | | lia].
  simpl BinaryString.bin. rewrite pos_digits_size.
  destruct p as [p | p |]; simpl; lia.
Qed.

Lemma configuration_registers (memory registers clock : Z) :
  getitem (configuration memory registers clock)
    Defaults.REGISTERS_CONFIGURATION_OPTION = Ok registers.
Proof.
  unfold getitem, configuration.
  rewrite lookup_insert_ne by discriminate.
  now rewrite lookup_insert_eq.
Qed.

Lemma configuration_memory (memory registers clock : Z) :
  getitem (configuration memory registers clock)
    Defaults.MEMORY_CONFIGURATION_OPTION = Ok memory.
Proof. unfold getitem, configuration. now rewrite lookup_insert_eq. Qed.

Lemma calculateNumberOfOperandBits_max (memory registers clock : Z) :
  CodeGenerator.calculateNumberOfOperandBits
    (configuration memory registers clock)
  = Ok (BinaryString.numberOfBits (Z.max memory (registers + 4)) + 1).
Proof.
  unfold CodeGenerator.calculateNumberOfOperandBits.
  rewrite configuration_registers. simpl rbind.
  rewrite configuration_memory. simpl rbind.
  change KeyWords.NUMBER_OF_SPECIAL_PURPOSE_REGISTERS with 4.
  destruct (registers + 4 <? memory) eqn:E.
  - apply Z.ltb_lt in E. now rewrite Z.max_l by lia.
  - apply Z.ltb_ge in E. now rewrite Z.max_r by lia.
Qed.

(** C4, as the code has it.  For every configuration with [g >= 0]
    general-purpose registers and [m] memory cells, the widths the code
    generator computes satisfy [W = M + A + 2 O], where each width is a bit
    length, one more than the floor of a binary logarithm:
    [M = floor(log2 27) + 1 = 5], [A = floor(log2 4) + 1 = 3] and
    [O = floor(log2 (max (m, g + 4))) + 1 + 1], the last unit being the
    sign bit. *)
Theorem instruction_width_bit_lengths (m g clock : Z) :
  0 <= g ->
  exists w,
    CodeGenerator.init (configuration m g clock) = Ok w
    /\ CodeGenerator.machineOperationBits w = Z.log2 27 + 1
    /\ CodeGenerator.machineOperationBits w = 5
    /\ CodeGenerator.addressingModeBits w = Z.log2 4 + 1
    /\ CodeGenerator.addressingModeBits w = 3
    /\ CodeGenerator.operandBits w = Z.log2 (Z.max m (g + 4)) + 1 + 1
    /\ CodeGenerator.totalNumberOfInstructionBits w
       = CodeGenerator.machineOperationBits w
         + CodeGenerator.addressingModeBits w
         + 2 * CodeGenerator.operandBits w.
Proof.
  intros Hg. unfold CodeGenerator.init.
  rewrite calculateNumberOfOperandBits_max. simpl rbind.
  eexists. split; [reflexivity |]. simpl.
  rewrite numberOfBits_log2 by lia.
  repeat split; reflexivity.
Qed.

Lemma instruction_width_bit_lengths_witness :
  0 <= 10 /\
  exists w,
    CodeGenerator.init (configuration 100 10 0) = Ok w
    /\ CodeGenerator.totalNumberOfInstructionBits w
       = CodeGenerator.machineOperationBits w
         + CodeGenerator.addressingModeBits w
         + 2 * CodeGenerator.operandBits w.
Proof.
  assert (Hg : 0 <= 10) by lia.
  split; [exact Hg |].
  destruct (instruction_width_bit_lengths 100 10 0 Hg)
    as (w & Hinit & _ & _ & _ & _ & _ & Htotal).
  exists w. split; [exact Hinit | exact Htotal].
Defined.

(** C4, as the specification words it, fails on the default configuration
    of 100 memory cells and 10 registers: the code generator's width is 24,
    the formula with ceilings gives 23 (two bits suffice for four addressing
    modes, the code spends three). *)
Lemma instruction_width_counterexample :
  exists w,
    CodeGenerator.init (configuration 100 10 0) = Ok w
    /\ CodeGenerator.totalNumberOfInstructionBits w = 24
    /\ specified_instruction_width 100 10 = 23
    /\ CodeGenerator.totalNumberOfInstructionBits w
       <> specified_instruction_width 100 10.
Proof.
  eexists. split; [reflexivity |]. vm_compute.
  repeat split; discriminate.
Qed.

(** ** The number of tokens of a configuration argument *)

Lemma app_singleton_neq {A : Type} (l : list A) (a : A) : l ++ [a] <> l.
Proof.
  intros H. apply (f_equal (@length A)) in H.
  rewrite length_app in H. simpl in H. lia.
Qed.

(** C8, as the code has it.  The token-count check records a "Syntax Error"
    exactly when the argument yields one token or three or more; it records
    nothing for no token at all (the argument is skipped) and for two
    tokens, and it lets the argument through exactly when there are two. *)
Theorem isValidNumberOfTokens_spec
    (streamOfTokens : list UntypedToken.t) (errors : list message) :
  let outcome :=
    ArgumentProcessor.isValidNumberOfTokens streamOfTokens errors in
  (fst outcome = true <-> length streamOfTokens = 2%nat)
  /\ (snd outcome = errors
      <-> length streamOfTokens = 0%nat \/ length streamOfTokens = 2%nat)
  /\ (length streamOfTokens = 1%nat \/ (3 <= length streamOfTokens)%nat ->
      exists errorRow errorColumn text,
        snd outcome
        = errors ++ [Located "Syntax Error" errorRow errorColumn text]).
Proof.
  destruct streamOfTokens as [|t1 [|t2 [|t3 rest]]]; simpl.
  - repeat split; try discriminate; try lia; auto.
  - repeat split; try discriminate; try lia.
    + intros H. now apply app_singleton_neq in H.
    + intros _. unfold ArgumentProcessor.recordError. eauto.
  - repeat split; try discriminate; try lia; auto.
  - repeat split; try discriminate; try lia.
    + intros H. now apply app_singleton_neq in H.
    + intros _. unfold ArgumentProcessor.recordError. eauto.
Qed.

(** C8, as the specification words it, fails on an argument without a
    token: the lone delimiter [=] tokenises to nothing, and the check
    records no error for it. *)
Lemma isValidNumberOfTokens_counterexample :
  ArgumentProcessor.tokeniseArgument "!" "=" "=" 1 1 = Ok ([], 2)
  /\ ArgumentProcessor.isValidNumberOfTokens [] [] = (false, [])
  /\ ArgumentProcessor.parseTokenStream ∅ [] (configuration 100 10 0) []
     = Ok (configuration 100 10 0, []).
Proof. repeat split. Qed.

(** ** The shift instructions and the Flags register *)

Lemma len_cons (c : ascii) (s : string) :
  PyStr.len (String c s) = 1 + PyStr.len s.
Proof. unfold PyStr.len. simpl. lia. Qed.

Lemma len_nil : PyStr.len EmptyString = 0.
Proof. reflexivity. Qed.

Lemma len_one (s : string) :
  PyStr.len s = 1 -> exists c, s = String c EmptyString.
Proof.
  destruct s as [|c [|d s]]; unfold PyStr.len; simpl; intros H;
    [lia | eauto | lia].
Qed.

Lemma first_ok (s : string) :
  1 <= PyStr.len s ->
  exists c, PyStr.first s = Ok (String c EmptyString)
            /\ PyStr.len (PyStr.tail s) = PyStr.len s - 1.
Proof.
  destruct s as [|c s]; [rewrite len_nil; lia |].
  intros _. exists c. split; [reflexivity |]. simpl. rewrite len_cons. lia.
Qed.

Lemma second_ok (s : string) :
  2 <= PyStr.len s -> exists c, PyStr.second s = Ok (String c EmptyString).
Proof.
  destruct s as [|c [|d s]]; rewrite ?len_cons, ?len_nil; try lia.
  intros _. now exists d.
Qed.

Lemma last_ok (s : string) :
  1 <= PyStr.len s ->
  exists c, PyStr.last s = Ok (String c EmptyString)
            /\ PyStr.len (PyStr.init s) = PyStr.len s - 1.
Proof.
  induction s as [|c s IH]; [rewrite len_nil; lia |].
  intros _. destruct s as [|d s].
  - exists c. split; reflexivity.
  - destruct IH as (e & Hlast & Hinit); [rewrite len_cons; pose proof (len_nonneg s); lia |].
    exists e. split; [exact Hlast |].
    change (PyStr.init (String c (String d s)))
      with (String c (PyStr.init (String d s))).
    rewrite !len_cons in *. lia.
Qed.

Lemma logicalShiftLeft_step :
  carry_step (fun v _ => BinaryString.logicalShiftLeft v).
Proof.
  intros v f Hv _. unfold BinaryString.logicalShiftLeft.
  destruct (first_ok v) as (c & -> & Ht); [lia |].
  simpl. eexists _, _. split; [reflexivity |].
  rewrite len_app, Ht, !len_cons, len_nil. lia.
Qed.

Lemma logicalShiftRight_step :
  carry_step (fun v _ => BinaryString.logicalShiftRight v).
Proof.
  intros v f Hv _. unfold BinaryString.logicalShiftRight.
  destruct (last_ok v) as (c & -> & Ht); [lia |].
  simpl. eexists _, _. split; [reflexivity |].
  rewrite len_app, Ht, !len_cons, len_nil. lia.
Qed.

Lemma arithmeticShiftLeft_step :
  carry_step (fun v _ => BinaryString.arithmeticShiftLeft v).
Proof.
  intros v f Hv _. unfold BinaryString.arithmeticShiftLeft.
  destruct (second_ok v) as (c & ->); [lia |].
  destruct (first_ok v) as (d & -> & Ht); [lia |].
  simpl. eexists _, _. split; [reflexivity |].
  rewrite len_app, Ht, !len_cons, len_nil. lia.
Qed.

Lemma arithmeticShiftRight_step :
  carry_step (fun v _ => BinaryString.arithmeticShiftRight v).
Proof.
  intros v f Hv _. unfold BinaryString.arithmeticShiftRight.
  destruct (last_ok v) as (c & -> & Ht); [lia |].
  destruct (first_ok v) as (d & -> & _); [lia |].
  simpl. eexists _, _. split; [reflexivity |].
  rewrite len_app, Ht, !len_cons, len_nil. lia.
Qed.

Lemma circularShiftLeftWithCarry_step :
  carry_step BinaryString.circularShiftLeftWithCarry.
Proof.
  intros v f Hv Hf. unfold BinaryString.circularShiftLeftWithCarry.
  destruct (first_ok v) as (c & -> & Ht); [lia |].
  destruct (len_one f Hf) as (k & ->).
  simpl. eexists _, _. split; [reflexivity |].
  rewrite len_app, Ht, !len_cons, len_nil. lia.
Qed.

Lemma circularShiftRightWithCarry_step :
  carry_step BinaryString.circularShiftRightWithCarry.
Proof.
  intros v f Hv Hf. unfold BinaryString.circularShiftRightWithCarry.
  destruct (last_ok v) as (c & -> & Ht); [lia |].
  destruct (len_one f Hf) as (k & ->).
  simpl. eexists _, _. split; [reflexivity |].
  rewrite len_app, Ht, !len_cons, len_nil. lia.
Qed.

Lemma shiftLoop_ok (step : string -> string -> result (string * string)) :
  carry_step step ->
  forall (n : nat) (flag value : string),
    PyStr.len flag = 1 -> 2 <= PyStr.len value ->
    exists carry value',
      MachineOperations.shiftLoop step n flag value = Ok (carry, value')
      /\ PyStr.len carry = 1 /\ PyStr.len value' = PyStr.len value.
Proof.
  intros Hstep. induction n as [|n IH]; intros flag value Hf Hv.
  - exists flag, value. simpl. auto.
  - destruct (Hstep value flag Hv Hf) as (c & v' & Hs & Hc & Hv').
    destruct (IH c v' Hc ltac:(lia)) as (c2 & v2 & Hl & Hc2 & Hv2).
    exists c2, v2. simpl. rewrite Hs. simpl. rewrite Hl.
    repeat split; [assumption | lia].
Qed.

Lemma carry_shift_instructions_steps operation step :
  In (operation, step) carry_shift_instructions ->
  operation = MachineOperations.carryShift step /\ carry_step step.
Proof.
  unfold carry_shift_instructions. simpl.
  intros [H | [H | [H | [H | [H | [H | []]]]]]];
    injection H as <- <-; (split; [reflexivity |]).
  - apply logicalShiftLeft_step.
  - apply logicalShiftRight_step.
  - apply arithmeticShiftLeft_step.
  - apply arithmeticShiftRight_step.
  - apply circularShiftLeftWithCarry_step.
  - apply circularShiftRightWithCarry_step.
Qed.

(** C3, as the code has it.  Let a carry-writing shift instruction (LSL,
    LSR, ASL, ASR, CSLC, CSRC) run with any shift count on a destination
    other than the Flags register, in a machine of width [W >= 2] whose
    Flags cell is not empty and whose destination cell has two characters
    or more.  Then it succeeds, the Flags cell afterwards is the final
    carry bit (the carry out of the last shift, or the old Flags bit when
    nothing is shifted) left-padded with [W - 1] characters ['0'], so the
    carry is its last character, and the Flags cell is [W] characters long,
    as long as every other cell. *)
Theorem carry_shift_flags operation step (m : MachineOperations.t)
    (sourceOperand destinationOperand : Z) (flagCell value : string) :
  In (operation, step) carry_shift_instructions ->
  2 <= MachineOperations.totalNumberOfBits m ->
  MachineOperations.memoryPool m !! MachineOperations.flagRegisterAddress m
    = Some flagCell ->
  1 <= PyStr.len flagCell ->
  MachineOperations.memoryPool m !! destinationOperand = Some value ->
  2 <= PyStr.len value ->
  destinationOperand <> MachineOperations.flagRegisterAddress m ->
  exists m' oldFlag carry newValue flags,
    operation m (PInt sourceOperand) destinationOperand = Ok m'
    /\ PyStr.last flagCell = Ok oldFlag
    /\ MachineOperations.shiftLoop step (Z.to_nat sourceOperand) oldFlag value
       = Ok (carry, newValue)
    /\ PyStr.len carry = 1
    /\ MachineOperations.memoryPool m'
         !! MachineOperations.flagRegisterAddress m = Some flags
    /\ flags
       = PyStr.repeat "0" (MachineOperations.totalNumberOfBits m - 1)
         +:+ carry
    /\ PyStr.last flags = Ok carry
    /\ PyStr.len flags = MachineOperations.totalNumberOfBits m
    /\ MachineOperations.memoryPool m' !! destinationOperand = Some newValue
    /\ PyStr.len newValue = PyStr.len value.
Proof.
  intros Hin HW Hflag Hflen Hdst Hvlen Hne.
  destruct (carry_shift_instructions_steps _ _ Hin) as [-> Hstep].
  destruct (last_ok flagCell Hflen) as (f0 & Hlast & _).
  destruct (shiftLoop_ok step Hstep (Z.to_nat sourceOperand)
              (String f0 EmptyString) value) as (carry & nv & Hloop & Hc & Hnv);
    [reflexivity | exact Hvlen |].
  destruct (len_one carry Hc) as (k & ->).
  unfold MachineOperations.carryShift, getitem.
  rewrite Hflag. simpl rbind. rewrite Hlast. simpl rbind.
  rewrite Hdst. simpl rbind. rewrite Hloop. simpl rbind.
  eexists _, _, _, _, _. split; [reflexivity |].
  split; [reflexivity |]. split; [exact Hloop |].
  split; [exact Hc |]. simpl MachineOperations.memoryPool.
  split.
  { rewrite lookup_insert_ne by exact Hne. apply lookup_insert_eq. }
  unfold BinaryString.padBinary. simpl fst. simpl snd.
  split; [reflexivity |]. split; [apply last_app_char |].
  split.
  { rewrite len_app, len_repeat, len_cons, len_nil by lia. lia. }
  split; [apply lookup_insert_eq | exact Hnv].
Qed.

Lemma carry_shift_flags_witness :
  2 <= MachineOperations.totalNumberOfBits (shift_machine "00000000")
  /\ -1 <> MachineOperations.flagRegisterAddress (shift_machine "00000000")
  /\ exists m' flags,
       MachineOperations.LSL (shift_machine "00000000") (PInt 1) (-1) = Ok m'
       /\ MachineOperations.memoryPool m' !! (-8) = Some flags
       /\ flags = "00000001"
       /\ PyStr.len flags = 8.
Proof.
  assert (HW : 2 <= MachineOperations.totalNumberOfBits
                      (shift_machine "00000000")) by (simpl; lia).
  assert (Hne : -1 <> MachineOperations.flagRegisterAddress
                        (shift_machine "00000000")) by discriminate.
  split; [exact HW |]. split; [exact Hne |].
  destruct (carry_shift_flags MachineOperations.LSL
              (fun v _ => BinaryString.logicalShiftLeft v)
              (shift_machine "00000000") 1 (-1) "00000000" "10000001"
              (or_introl eq_refl) HW eq_refl ltac:(vm_compute; discriminate)
              eq_refl ltac:(vm_compute; discriminate) Hne)
    as (m' & oldFlag & carry & newValue & flags & Hrun & Hold & Hloop & _
        & Hflags & Heq & _ & Hlen & _).
  exists m', flags. split; [exact Hrun |]. split; [exact Hflags |].
  split; [| exact Hlen].
  vm_compute in Hold. injection Hold as <-.
  vm_compute in Hloop. injection Hloop as <- <-.
  exact Heq.
Defined.

(** C3, as the specification words it, fails twice.  After [LSL #1] on
    register 1 of a machine of width 8 the Flags cell has 8 characters, not
    7.  And when the destination is the Flags register itself, the shifted
    value is written over the carry: [LSR #1] on Flags [00000001] shifts the
    1 out as the carry and leaves [00000000] in the Flags cell. *)
Lemma carry_shift_flags_counterexample :
  (exists m' flags,
     MachineOperations.LSL (shift_machine "00000000") (PInt 1) (-1) = Ok m'
     /\ MachineOperations.memoryPool m'
          !! MachineOperations.flagRegisterAddress m' = Some flags
     /\ PyStr.len flags = 8
     /\ PyStr.len flags <> MachineOperations.totalNumberOfBits m' - 1)
  /\ (exists m' flags,
        MachineOperations.LSR (shift_machine "00000001") (PInt 1) (-8) = Ok m'
        /\ MachineOperations.shiftLoop
             (fun v _ => BinaryString.logicalShiftRight v) 1 "1" "00000001"
           = Ok ("1", "00000000")
        /\ MachineOperations.memoryPool m'
             !! MachineOperations.flagRegisterAddress m' = Some flags
        /\ PyStr.last flags = Ok "0").
Proof.
  split.
  - eexists _, _. split; [reflexivity |]. split; [reflexivity |].
    split; [reflexivity | discriminate].
  - eexists _, _. split; [reflexivity |]. split; [reflexivity |].
    split; reflexivity.
Qed.

(** ** The fetch-decode-execute loop *)

Lemma run_loop_unfold (fuel : nat) (address cells : Z) (vm : VirtualMachine.t) :
  VirtualMachine.run_loop (S fuel) address cells vm
  = (pcCell <-- getitem (VirtualMachine.memoryPool vm) address ;;
     pc <-- BinaryString.readSignedInteger pcCell ;;
     if pc <? cells then
       pcCell <-- getitem (VirtualMachine.memoryPool vm) address ;;
       programCounter <-- BinaryString.readUnsignedInteger pcCell ;;
       instruction <-- getitem (VirtualMachine.memoryPool vm) programCounter ;;
       vm <-- VirtualMachine.executeInstruction vm instruction ;;
       VirtualMachine.run_loop fuel address cells vm
     else Ok vm).
Proof. reflexivity. Qed.

(** The loop ends cleanly, whatever the fuel, as soon as the signed reading
    of the program counter is no memory address. *)
Lemma run_loop_stops (fuel : nat) (address cells pc : Z)
    (vm : VirtualMachine.t) (cell : string) :
  VirtualMachine.memoryPool vm !! address = Some cell ->
  BinaryString.readSignedInteger cell = Ok pc ->
  cells <= pc ->
  VirtualMachine.run_loop fuel address cells vm = Ok vm.
Proof.
  intros Hcell Hpc Hge.
  destruct fuel; simpl; unfold getitem; rewrite Hcell; simpl;
    rewrite Hpc; simpl;
    replace (pc <? cells) with false by (symmetry; apply Z.ltb_ge; lia);
    reflexivity.
Qed.

(** The guard reads the program counter signed, the fetch reads it
    unsigned: when the signed reading passes the guard and the unsigned
    reading is no key of the pool, the fetch raises. *)
Lemma run_loop_key_error (fuel : nat) (address cells pc index : Z)
    (vm : VirtualMachine.t) (cell : string) :
  VirtualMachine.memoryPool vm !! address = Some cell ->
  BinaryString.readSignedInteger cell = Ok pc ->
  pc < cells ->
  BinaryString.readUnsignedInteger cell = Ok index ->
  VirtualMachine.memoryPool vm !! index = None ->
  VirtualMachine.run_loop (S fuel) address cells vm = Raise KeyError.
Proof.
  intros Hcell Hpc Hlt Hindex Hnone.
  rewrite run_loop_unfold. unfold getitem. rewrite Hcell. simpl.
  rewrite Hpc. simpl.
  replace (pc <? cells) with true by (symmetry; apply Z.ltb_lt; lia).
  rewrite Hindex. simpl. now rewrite Hnone.
Qed.

Lemma int2_acc_from (s : string) (acc : Z) :
  BinaryString.int2_acc acc s
  = rbind (BinaryString.int2_acc 0 s)
          (fun k => Ok (acc * 2 ^ PyStr.len s + k)).
Proof.
  revert acc. induction s as [|c s IH]; intros acc.
  - simpl. rewrite len_nil. f_equal. lia.
  - simpl. rewrite len_cons.
    assert (Hpow : 2 ^ (1 + PyStr.len s) = 2 * 2 ^ PyStr.len s).
    { rewrite Z.pow_add_r by (pose proof (len_nonneg s); lia). lia. }
    destruct (Ascii.eqb c "0").
    + rewrite (IH (2 * acc)). change (2 * 0) with 0.
      destruct (BinaryString.int2_acc 0 s); simpl; [| reflexivity..].
      f_equal. rewrite Hpow. lia.
    + destruct (Ascii.eqb c "1"); [| reflexivity].
      rewrite (IH (2 * acc + 1)), (IH (2 * 0 + 1)).
      destruct (BinaryString.int2_acc 0 s); simpl; [| reflexivity..].
      f_equal. rewrite Hpow. lia.
Qed.

Lemma int2_acc_nonneg (s : string) (acc k : Z) :
  0 <= acc -> BinaryString.int2_acc acc s = Ok k -> 0 <= k.
Proof.
  revert acc. induction s as [|c s IH]; intros acc Hacc H; simpl in H.
  - injection H as <-. exact Hacc.
  - destruct (Ascii.eqb c "0"); [apply (IH (2 * acc)); [lia | exact H] |].
    destruct (Ascii.eqb c "1"); [| discriminate].
    apply (IH (2 * acc + 1)); [lia | exact H].
Qed.

(** A cell whose sign bit is set reads as a non-positive number signed, and
    as [2^(W-1)] or more unsigned. *)
Lemma sign_bit_readings (bits : string) (k : Z) :
  BinaryString.int2 bits = Ok k ->
  0 <= k
  /\ BinaryString.readSignedInteger (String "1" bits) = Ok (- k)
  /\ BinaryString.readUnsignedInteger (String "1" bits)
     = Ok (2 ^ PyStr.len bits + k).
Proof.
  intros H.
  assert (Hacc : BinaryString.int2_acc 0 bits = Ok k).
  { destruct bits; [discriminate | exact H]. }
  split; [apply (int2_acc_nonneg bits 0 k); [lia | exact Hacc] |].
  split.
  - unfold BinaryString.readSignedInteger. simpl. rewrite H. simpl.
    f_equal; lia.
  - unfold BinaryString.readUnsignedInteger, BinaryString.int2.
    simpl. rewrite int2_acc_from, Hacc. simpl. f_equal; lia.
Qed.

(** Whatever the fuel, a program counter with its sign bit set is fetched
    from a key the pool does not have. *)
Lemma run_loop_sign_bit (fuel : nat) (address cells k : Z)
    (vm : VirtualMachine.t) (bits : string) :
  VirtualMachine.memoryPool vm !! address = Some (String "1" bits) ->
  BinaryString.int2 bits = Ok k ->
  0 < cells ->
  (forall index, 2 ^ PyStr.len bits <= index ->
                 VirtualMachine.memoryPool vm !! index = None) ->
  VirtualMachine.run_loop (S fuel) address cells vm = Raise KeyError.
Proof.
  intros Hcell Hbits Hcells Hkeys.
  destruct (sign_bit_readings bits k Hbits) as (Hk & Hsigned & Hunsigned).
  apply (run_loop_key_error fuel address cells (- k)
           (2 ^ PyStr.len bits + k) vm (String "1" bits));
    try assumption; [lia |].
  apply Hkeys. lia.
Qed.

(** C2, evaluated on the code.  The program [LDA #-1, %PC], assembled and
    loaded for the default configuration (128 memory cells, width 24),
    leaves [100000000000000000000001] in the program counter, the cell
    [-12].  Its unsigned reading, 8388609, is far beyond the cell count, so
    the claim has the loop stop cleanly there; but the guard of the loop
    reads the cell signed, as [-1], lets the loop go on, and the fetch at
    key 8388609 raises [KeyError]: so does the whole run. *)
Theorem run_negative_program_counter :
  exists vm2 cell,
    negative_pc_after_first_instruction = Ok vm2
    /\ VirtualMachine.memoryPool vm2 !! (-12) = Some cell
    /\ cell = "100000000000000000000001"
    /\ BinaryString.readUnsignedInteger cell = Ok 8388609
    /\ 2 ^ (VirtualMachine.numberOfOperandBits vm2 - 1) = 128
    /\ 128 <= 8388609
    /\ BinaryString.readSignedInteger cell = Ok (-1)
    /\ (forall fuel,
          VirtualMachine.run_loop (S fuel) (-12) 128 vm2 = Raise KeyError)
    /\ rbind negative_pc_machine (VirtualMachine.run 2) = Raise KeyError.
Proof.
  assert (Hfacts :
    rbind negative_pc_after_first_instruction
      (fun vm2 => Ok (VirtualMachine.memoryPool vm2 !! (-12),
                      VirtualMachine.memoryPool vm2 !! 8388609,
                      VirtualMachine.numberOfOperandBits vm2))
    = Ok (Some "100000000000000000000001", None, 8))
    by (vm_compute; reflexivity).
  destruct negative_pc_after_first_instruction as [vm2| |];
    simpl in Hfacts; try discriminate.
  injection Hfacts as Hcell Hnone Hbits.
  exists vm2, "100000000000000000000001".
  split; [reflexivity |]. split; [exact Hcell |]. split; [reflexivity |].
  split; [reflexivity |]. split; [rewrite Hbits; reflexivity |].
  split; [lia |]. split; [reflexivity |].
  split; [| vm_compute; reflexivity].
  intros fuel.
  apply (run_loop_key_error fuel (-12) 128 (-1) 8388609 vm2
           "100000000000000000000001");
    [exact Hcell | reflexivity | lia | reflexivity | exact Hnone].
Qed.

(** ** The label counter of the parser *)

Lemma get_set {V : Type} (d : list (string * V)) (k k' : string) (v : V) :
  PyDict.get (PyDict.set d k v) k'
  = if String.eqb k' k then Some v else PyDict.get d k'.
Proof.
  induction d as [|[k0 v0] d IH]; simpl; [reflexivity |].
  destruct (String.eqb k k0) eqn:Hk; simpl.
  - apply String.eqb_eq in Hk. subst k0.
    destruct (String.eqb k' k); reflexivity.
  - rewrite IH. destruct (String.eqb k' k0) eqn:Hk0; [| reflexivity].
    apply String.eqb_eq in Hk0. subst k0.
    rewrite String.eqb_sym in Hk. now rewrite Hk.
Qed.

(** The source [A] / [B HLT], where the label [A] stands alone on its
    line, passes the lexer and the pre-parse without error; the
    classification pass enters [B] as a BRANCH label with the value 1, while
    no instruction stands before it: the code generator lays [HLT] out at
    index 0. *)
Lemma bare_label_example :
  exists tokens pools globalInstructionPool,
    Lexer.lex bare_label_source Defaults.COMMENT_PREFIX = Ok tokens
    /\ TypedToken.tokenType <$> tokens
       = [TypedToken.LABEL; TypedToken.END; TypedToken.LABEL;
          TypedToken.INSTRUCTION; TypedToken.END]
    /\ Parser.preparse tokens = Ok []
    /\ Parser.splitAndClassify tokens = Ok (pools, globalInstructionPool, [])
    /\ InstructionPool.tokenStream globalInstructionPool = tokens
    /\ SymbolTable.get (InstructionPool.symbolTable globalInstructionPool) "B"
       = Some (SymbolTable.mkEntry "B" 1 SymbolTable.BRANCH_LABEL)
    /\ countNumberOfInstructions (take 2 tokens) = 0.
Proof.
  eexists _, _, _.
  split; [vm_compute; reflexivity |].
  repeat split; vm_compute; reflexivity.
Qed.

(** The classification pass walks over tokens that declare no label
    without a change of the pool; its counter goes up by one at every END
    token among them. *)
Lemma updateInstructionPoolSymbolTable_loop_skip
    (poolIdentifier : string) (table : SymbolTable.t)
    (errors : list message) (suffix : list TypedToken.t) :
  forall (tokens done : list TypedToken.t) (fuel : nat)
         (indexedInstructionCount : Z),
    declares_nothing tokens (head suffix) = true ->
    Parser.updateInstructionPoolSymbolTable_loop (length tokens + fuel)
      (length done) indexedInstructionCount
      (InstructionPool.mk poolIdentifier (done ++ tokens ++ suffix) table)
      errors
    = Parser.updateInstructionPoolSymbolTable_loop fuel
        (length done + length tokens)
        (indexedInstructionCount + countEndTokens tokens)
        (InstructionPool.mk poolIdentifier (done ++ tokens ++ suffix) table)
        errors.
Proof.
  induction tokens as [|current tokens IH];
    intros done fuel indexedInstructionCount Hplain.
  - cbn [length countEndTokens Nat.add]. now rewrite Nat.add_0_r, Z.add_0_r.
  - cbn [declares_nothing] in Hplain.
    apply andb_prop in Hplain as [Hcurrent Hplain].
    cbn [length Nat.add Parser.updateInstructionPoolSymbolTable_loop
         InstructionPool.tokenStream].
    change (done ++ (current :: tokens) ++ suffix)
      with (done ++ current :: (tokens ++ suffix)) at 1.
    rewrite (list_lookup_middle done (tokens ++ suffix) current
               (length done) eq_refl).
    assert (Hnext : forall count,
      Parser.updateInstructionPoolSymbolTable_loop (length tokens + fuel)
        (S (length done)) count
        (InstructionPool.mk poolIdentifier
           (done ++ (current :: tokens) ++ suffix) table) errors
      = Parser.updateInstructionPoolSymbolTable_loop fuel
          (length done + S (length tokens)) (count + countEndTokens tokens)
          (InstructionPool.mk poolIdentifier
             (done ++ (current :: tokens) ++ suffix) table) errors).
    { intros count.
      replace (done ++ (current :: tokens) ++ suffix)
        with ((done ++ [current]) ++ tokens ++ suffix)
        by (rewrite <- app_assoc; reflexivity).
      replace (S (length done)) with (length (done ++ [current]))
        by (rewrite length_app; cbn [length]; lia).
      rewrite (IH (done ++ [current]) fuel count Hplain).
      f_equal. rewrite length_app. cbn [length]. lia. }
    cbn [countEndTokens]. unfold TypedToken.is_kind in *.
    destruct (TypedToken.tokenType current) eqn:Hkind;
      cbn [TypedToken.kind_eqb negb orb] in *;
      try (rewrite Hnext; f_equal; lia).
    unfold Parser.updateSymbolTableFromLabel.
    cbn [InstructionPool.tokenStream]. unfold list_item.
    replace ((done ++ (current :: tokens) ++ suffix) !! (length done + 1)%nat)
      with (match tokens with
            | after :: _ => Some after
            | [] => head suffix
            end).
    2:{ rewrite lookup_app_r by lia.
        replace (length done + 1 - length done)%nat with 1%nat by lia.
        destruct tokens; [now destruct suffix | reflexivity]. }
    destruct (match tokens with
              | after :: _ => Some after
              | [] => head suffix
              end) as [after|]; [| discriminate].
    cbn [rbind].
    apply negb_true_iff in Hcurrent. rewrite Hcurrent. cbn [rbind fst snd].
    rewrite Hnext. f_equal; lia.
Qed.

(** The entry the classification pass makes for a label that stands
    before an instruction and is not yet in the symbol table. *)
Lemma updateSymbolTableFromLabel_branch
    (poolIdentifier : string) (table : SymbolTable.t)
    (errors : list message)
    (before after : list TypedToken.t) (label instruction : TypedToken.t)
    (indexedInstructionCount : Z) :
  TypedToken.tokenType label = TypedToken.LABEL ->
  TypedToken.tokenType instruction = TypedToken.INSTRUCTION ->
  SymbolTable.get table (TypedToken.tokenValue label) = None ->
  Parser.updateSymbolTableFromLabel (length before)
    (InstructionPool.mk poolIdentifier
       (before ++ label :: instruction :: after) table)
    indexedInstructionCount errors
  = Ok (InstructionPool.mk poolIdentifier
          (before ++ label :: instruction :: after)
          (SymbolTable.assign
             (SymbolTable.insert table (TypedToken.tokenValue label) (-1)
                (-1))
             (TypedToken.tokenValue label) indexedInstructionCount
             SymbolTable.BRANCH_LABEL),
        errors).
Proof.
  intros Hlabel Hinstruction Hnew.
  unfold Parser.updateSymbolTableFromLabel.
  cbn [InstructionPool.tokenStream InstructionPool.symbolTable].
  unfold list_item.
  replace ((before ++ label :: instruction :: after)
             !! (length before + 1)%nat) with (Some instruction).
  2:{ rewrite lookup_app_r by lia.
      now replace (length before + 1 - length before)%nat with 1%nat by lia. }
  cbn [rbind]. rewrite Hinstruction.
  cbn [TypedToken.kind_in existsb TypedToken.kind_eqb orb].
  rewrite (list_lookup_middle before (instruction :: after) label
             (length before) eq_refl).
  cbn [rbind]. unfold Parser.parseLabel. rewrite Hnew. reflexivity.
Qed.

(** C5, on the code.  In a pool where nothing but the labelled instruction
    [label instruction] declares a label, the classification pass enters
    [label] as a BRANCH label whose value is the number of END tokens before
    it, because its counter goes up at every END token.  A label alone on
    its line has an END token of its own, so it does advance the counter,
    and the value differs from the number of INSTRUCTION tokens before the
    label, which is where the code generator lays the instruction out. *)
Theorem bare_label_shifts_branch_labels
    (poolIdentifier : string) (table : SymbolTable.t)
    (errors : list message)
    (before after : list TypedToken.t) (label instruction : TypedToken.t) :
  declares_nothing before (Some label) = true ->
  TypedToken.is_kind TypedToken.LABEL label = true ->
  TypedToken.is_kind TypedToken.INSTRUCTION instruction = true ->
  declares_nothing after None = true ->
  SymbolTable.get table (TypedToken.tokenValue label) = None ->
  let tokens := before ++ label :: instruction :: after in
  exists table',
    Parser.updateInstructionPoolSymbolTable
      (InstructionPool.mk poolIdentifier tokens table) errors
    = Ok (InstructionPool.mk poolIdentifier tokens table', errors)
    /\ SymbolTable.get table' (TypedToken.tokenValue label)
       = Some (SymbolTable.mkEntry (TypedToken.tokenValue label)
                 (countEndTokens before) SymbolTable.BRANCH_LABEL).
Proof.
  intros Hbefore Hlabel Hinstruction Hafter Hnew tokens. subst tokens.
  assert (Hlabel' : TypedToken.tokenType label = TypedToken.LABEL).
  { unfold TypedToken.is_kind in Hlabel.
    now destruct (TypedToken.tokenType label). }
  assert (Hinstruction' :
    TypedToken.tokenType instruction = TypedToken.INSTRUCTION).
  { unfold TypedToken.is_kind in Hinstruction.
    now destruct (TypedToken.tokenType instruction). }
  set (table' :=
         SymbolTable.assign
           (SymbolTable.insert table (TypedToken.tokenValue label) (-1) (-1))
           (TypedToken.tokenValue label) (0 + countEndTokens before)
           SymbolTable.BRANCH_LABEL).
  exists table'. split.
  - unfold Parser.updateInstructionPoolSymbolTable.
    cbn [InstructionPool.tokenStream].
    replace (length (before ++ label :: instruction :: after))
      with (length before + S (S (length after)))%nat
      by (rewrite length_app; reflexivity).
    pose proof (updateInstructionPoolSymbolTable_loop_skip poolIdentifier
                  table errors (label :: instruction :: after) before []
                  (S (S (length after))) 0 Hbefore) as Hskip.
    cbn [app length Nat.add] in Hskip. rewrite Hskip. clear Hskip.
    remember (S (length after)) as fuel eqn:Hfuel.
    cbn [Parser.updateInstructionPoolSymbolTable_loop
         InstructionPool.tokenStream].
    subst fuel.
    rewrite (list_lookup_middle before (instruction :: after) label
               (length before) eq_refl).
    rewrite Hlabel'.
    rewrite (updateSymbolTableFromLabel_branch poolIdentifier table errors
               before after label instruction (0 + countEndTokens before)
               Hlabel' Hinstruction' Hnew).
    cbn [rbind fst snd]. fold table'.
    pose proof (updateInstructionPoolSymbolTable_loop_skip poolIdentifier
                  table' errors [] (instruction :: after) (before ++ [label])
                  0 (0 + countEndTokens before)) as Hskip.
    rewrite app_nil_r in Hskip. rewrite <- app_assoc in Hskip.
    rewrite length_app in Hskip.
    cbn [app length Nat.add head] in Hskip.
    replace (length before + 1)%nat with (S (length before)) in Hskip by lia.
    replace (length after + 0)%nat with (length after) in Hskip by lia.
    rewrite Hskip.
    2:{ cbn [declares_nothing]. unfold TypedToken.is_kind at 1.
        rewrite Hinstruction'. exact Hafter. }
    cbn [Parser.updateInstructionPoolSymbolTable_loop
         InstructionPool.tokenStream].
    rewrite lookup_ge_None_2; [reflexivity |].
    rewrite length_app. cbn [length]. lia.
  - subst table'. unfold SymbolTable.assign, SymbolTable.insert,
      SymbolTable.get.
    rewrite get_set, String.eqb_refl, get_set, String.eqb_refl.
    rewrite Z.add_0_l. reflexivity.
Qed.

Lemma bare_label_shifts_branch_labels_witness :
  exists table',
    Parser.updateInstructionPoolSymbolTable
      (InstructionPool.mk Defaults.GLOBAL_INSTRUCTION_POOL_IDENTIFIER
         ([token TypedToken.LABEL "A"; token TypedToken.END "/"]
          ++ token TypedToken.LABEL "B"
             :: token TypedToken.INSTRUCTION "HLT"
             :: [token TypedToken.END "/"])
         SymbolTable.empty) []
    = Ok (InstructionPool.mk Defaults.GLOBAL_INSTRUCTION_POOL_IDENTIFIER
            ([token TypedToken.LABEL "A"; token TypedToken.END "/"]
             ++ token TypedToken.LABEL "B"
                :: token TypedToken.INSTRUCTION "HLT"
                :: [token TypedToken.END "/"])
            table', [])
    /\ SymbolTable.get table' "B"
       = Some (SymbolTable.mkEntry "B" 1 SymbolTable.BRANCH_LABEL)
    /\ countNumberOfInstructions
         [token TypedToken.LABEL "A"; token TypedToken.END "/"] = 0.
Proof.
  destruct (bare_label_shifts_branch_labels
              Defaults.GLOBAL_INSTRUCTION_POOL_IDENTIFIER SymbolTable.empty []
              [token TypedToken.LABEL "A"; token TypedToken.END "/"]
              [token TypedToken.END "/"]
              (token TypedToken.LABEL "B")
              (token TypedToken.INSTRUCTION "HLT")
              eq_refl eq_refl eq_refl eq_refl eq_refl)
    as (table' & Hrun & Hget).
  exists table'. split; [exact Hrun |]. split; [exact Hget | reflexivity].
Defined.

(** ** The operand of a branch instruction *)

(** C6, evaluated on the code.  In [branch_source] the global pool declares
    the variable [X] and the procedures [P] and [Q].  The analysis of a
    branch operand looks the label up in the local pool alone and never
    reads its type: [BRA X] in the global pool records no error although
    [X] is a VARIABLE label, and [BRA Q] inside the procedure [P] records
    "Attempting to branch to non-existent location" although [Q] is a
    PROCEDURE label of the global pool.  The analysis of a [CALL] operand
    does look [Q] up in the global pool. *)
Theorem branch_operand_local_lookup_only :
  exists pools globalInstructionPool poolP,
    branch_pools = Ok (pools, globalInstructionPool)
    /\ SymbolTable.labelType
         <$> SymbolTable.get
               (InstructionPool.symbolTable globalInstructionPool) "X"
       = Some SymbolTable.VARIABLE_LABEL
    /\ SemanticAnalyser.analyseBranchOperand (direct_label "X")
         globalInstructionPool [] = []
    /\ PyDict.get pools "P" = Some poolP
    /\ SymbolTable.get (InstructionPool.symbolTable poolP) "Q" = None
    /\ SymbolTable.labelType
         <$> SymbolTable.get
               (InstructionPool.symbolTable globalInstructionPool) "Q"
       = Some SymbolTable.PROCEDURE_LABEL
    /\ SemanticAnalyser.analyseBranchOperand (direct_label "Q") poolP []
       = [Located "Invalid Branch Error" 1 1
            "Attempting to branch to non-existent location"]
    /\ SemanticAnalyser.analyseCallInstruction globalInstructionPool
         (direct_label "Q") poolP [] = [].
Proof.
  eexists _, _, _.
  split; [vm_compute; reflexivity |].
  repeat split; vm_compute; reflexivity.
Qed.

(** ** The end of the token stream *)

Lemma tokenise_blank_examples :
  Lexer.lex " " Defaults.COMMENT_PREFIX = Raise IndexError
  /\ Lexer.lex "; a comment" Defaults.COMMENT_PREFIX = Raise IndexError
  /\ Lexer.lex newline Defaults.COMMENT_PREFIX = Raise IndexError
  /\ (forall fuel,
        Lexer.tokeniseSourceCode (S fuel) ";" " " = Raise IndexError).
Proof.
  split; [vm_compute; reflexivity |].
  split; [vm_compute; reflexivity |].
  split; [vm_compute; reflexivity |].
  intros fuel. destruct fuel; reflexivity.
Qed.

Lemma skipOverComment_shorter_blank (commentPrefix : ascii) (rest : string)
    (column : Z) :
  PyStr.mem commentPrefix KeyWords.LINE_BREAK_CHARACTERS = false ->
  blank commentPrefix true rest = true ->
  blank commentPrefix false (fst (Lexer.skipOverComment rest column)) = true
  /\ (String.length (fst (Lexer.skipOverComment rest column))
      <= String.length rest)%nat.
Proof.
  intros Hprefix. revert column.
  induction rest as [|c rest IH]; intros column Hblank.
  - split; [reflexivity | simpl; lia].
  - cbn [Lexer.skipOverComment]. cbn [blank] in Hblank.
    destruct (PyStr.mem c KeyWords.LINE_BREAK_CHARACTERS) eqn:Hbreak;
      cbn [negb] in Hblank.
    + cbn [fst]. split; [| lia]. cbn [blank].
      destruct (Ascii.eqb c commentPrefix) eqn:Hcomment.
      { apply Ascii.eqb_eq in Hcomment. subst c. congruence. }
      rewrite Hbreak, orb_true_r. exact Hblank.
    + destruct (IH (column + 1) Hblank) as [Hrest Hlength].
      split; [exact Hrest |]. cbn [String.length]. lia.
Qed.

(** On a text without a token the scan ends with the stream of tokens it
    started with. *)
Lemma tokenise_loop_blank (commentPrefix : ascii) (fuel : nat) :
  PyStr.mem commentPrefix KeyWords.LINE_BREAK_CHARACTERS = false ->
  forall (rest : string) (st : Lexer.state),
    (String.length rest <= fuel)%nat ->
    blank commentPrefix false rest = true ->
    Lexer.generatedStreamOfTokens st = [] ->
    exists st',
      Lexer.tokenise_loop fuel commentPrefix rest st = Ok st'
      /\ Lexer.generatedStreamOfTokens st' = [].
Proof.
  intros Hprefix. induction fuel as [|fuel IH];
    intros rest st Hfuel Hblank Hst.
  - destruct rest; [| cbn [String.length] in Hfuel; lia]. now exists st.
  - destruct rest as [|c rest]; [now exists st |].
    cbn [String.length] in Hfuel. cbn [Lexer.tokenise_loop].
    cbn [blank] in Hblank.
    destruct (Ascii.eqb c commentPrefix) eqn:Hcomment.
    { apply Ascii.eqb_eq in Hcomment. subst c.
      cbn [Lexer.skipOverComment]. rewrite Hprefix.
      destruct (skipOverComment_shorter_blank commentPrefix rest
                  (Lexer.column st + 1) Hprefix Hblank) as [Hrest Hlength].
      apply IH; [lia | exact Hrest | exact Hst]. }
    destruct (PyStr.mem c KeyWords.WHITE_SPACE_CHARACTERS) eqn:Hwhite.
    { apply IH; [lia | exact Hblank | exact Hst]. }
    destruct (PyStr.mem c KeyWords.LINE_BREAK_CHARACTERS) eqn:Hbreak;
      [| discriminate].
    rewrite Hst. cbn [last]. apply IH; [lia | exact Hblank | reflexivity].
Qed.

(** C9, on the code.  On every source text that is not empty and holds
    white space, line breaks and comments only (so no token), the scan ends
    with an empty token stream, and the test for a final END token reads
    its last element: the lexer raises [IndexError]. *)
Theorem tokenise_blank_source_raises (commentPrefix : ascii)
    (commentPrefixRest sourceCode : string) :
  PyStr.mem commentPrefix KeyWords.LINE_BREAK_CHARACTERS = false ->
  sourceCode <> EmptyString ->
  blank commentPrefix false sourceCode = true ->
  Lexer.lex sourceCode (String commentPrefix commentPrefixRest)
  = Raise IndexError.
Proof.
  intros Hprefix Hsource Hblank.
  destruct (tokenise_loop_blank commentPrefix (String.length sourceCode)
              Hprefix sourceCode (Lexer.mkState [] [] 1 1))
    as (st & Hscan & Hst); [lia | exact Hblank | reflexivity |].
  unfold Lexer.lex, Lexer.tokeniseSourceCode.
  destruct sourceCode as [|c sourceCode]; [congruence |].
  rewrite Hscan. cbn [rbind]. unfold Lexer.lastIsEnd. rewrite Hst.
  reflexivity.
Qed.

Lemma tokenise_blank_source_raises_witness :
  Lexer.lex " ; a comment" Defaults.COMMENT_PREFIX = Raise IndexError.
Proof.
  apply (tokenise_blank_source_raises ";" EmptyString " ; a comment").
  - reflexivity.
  - discriminate.
  - reflexivity.
Defined.

(** ** The split into instruction pools *)

Lemma list_pop_snoc {A : Type} (l : list A) (a : A) :
  list_pop (l ++ [a]) = Ok (a, l).
Proof.
  unfold list_pop. rewrite reverse_snoc. now rewrite reverse_involutive.
Qed.

Lemma getInstructionPools_loop_nil (fuel : nat)
    (globalTokens : list TypedToken.t) (instructionPools : Parser.pools) :
  Parser.getInstructionPools_loop fuel [] globalTokens instructionPools
  = Ok (globalTokens, instructionPools).
Proof. destruct fuel; reflexivity. Qed.

Lemma getProcedureTokens_loop_body
    (body rest procedureTokens : list TypedToken.t) (brace : TypedToken.t) :
  no_kind TypedToken.RIGHT_BRACE body ->
  TypedToken.is_kind TypedToken.RIGHT_BRACE brace = true ->
  Parser.getProcedureTokens_loop (body ++ brace :: rest) procedureTokens
  = Ok (procedureTokens ++ body, rest).
Proof.
  intros Hbody Hbrace. revert procedureTokens.
  induction Hbody as [|token body Htoken _ IH]; intros procedureTokens; simpl.
  - rewrite Hbrace. now rewrite app_nil_r.
  - rewrite Htoken, IH. now rewrite <- app_assoc.
Qed.

(** Tokens other than a left brace go to the global pool, one unit of fuel
    each. *)
Lemma getInstructionPools_loop_global
    (tokens rest : list TypedToken.t) (instructionPools : Parser.pools) :
  no_kind TypedToken.LEFT_BRACE tokens ->
  forall (fuel : nat) (globalTokens : list TypedToken.t),
    (length tokens <= fuel)%nat ->
    Parser.getInstructionPools_loop fuel (tokens ++ rest) globalTokens
      instructionPools
    = Parser.getInstructionPools_loop (fuel - length tokens) rest
        (globalTokens ++ tokens) instructionPools.
Proof.
  induction 1 as [|token tokens Htoken _ IH]; intros fuel globalTokens Hfuel.
  - simpl. rewrite Nat.sub_0_r. now rewrite app_nil_r.
  - destruct fuel as [|fuel]; [simpl in Hfuel; lia |].
    simpl in Hfuel. simpl.
    unfold TypedToken.is_kind in Htoken.
    destruct (TypedToken.tokenType token); try discriminate Htoken;
      (rewrite IH by lia; now rewrite <- app_assoc).
Qed.

(** At a left brace the label is taken back from the global pool and the
    body becomes the pool of that name. *)
Lemma getInstructionPools_loop_definition (name : string)
    (d : procedure_text) (fuel : nat) (rest globalTokens : list TypedToken.t)
    (instructionPools : Parser.pools) :
  defines name d ->
  Parser.getInstructionPools_loop (S fuel)
    (text_left_brace d :: text_after_left_brace d :: text_body d
     ++ text_right_brace d :: text_after_right_brace d :: rest)
    (globalTokens ++ text_label d :: text_separator d) instructionPools
  = Parser.getInstructionPools_loop fuel rest globalTokens
      (PyDict.set instructionPools name
         (InstructionPool.mk name (text_body d) SymbolTable.empty)).
Proof.
  intros (Hlabel & Hname & Hsep & Hleft & Hbody & Hright).
  assert (Hnot_end :
    TypedToken.is_kind TypedToken.END (text_label d) = false).
  { unfold TypedToken.is_kind in *.
    destruct (TypedToken.tokenType (text_label d)); try discriminate Hlabel;
      reflexivity. }
  cbn [Parser.getInstructionPools_loop].
  unfold TypedToken.is_kind in Hleft.
  destruct (TypedToken.tokenType (text_left_brace d)) eqn:Hkind;
    try discriminate Hleft.
  assert (Hbody' := getProcedureTokens_loop_body (text_body d)
                      (text_after_right_brace d :: rest) []
                      (text_right_brace d) Hbody Hright).
  destruct Hsep as [-> | (token & -> & Hend)].
  - rewrite list_pop_snoc. cbn [rbind fst snd]. rewrite Hnot_end.
    cbn [rbind fst snd drop]. unfold Parser.getProcedureTokens.
    rewrite ?drop_0, Hbody'. cbn [rbind fst snd app]. simpl drop.
    now rewrite Hname.
  - replace (globalTokens ++ [text_label d; token])
      with ((globalTokens ++ [text_label d]) ++ [token])
      by now rewrite <- app_assoc.
    rewrite list_pop_snoc. cbn [rbind fst snd]. rewrite Hend.
    rewrite list_pop_snoc. cbn [rbind fst snd drop].
    unfold Parser.getProcedureTokens.
    rewrite ?drop_0, Hbody'. cbn [rbind fst snd app]. simpl drop.
    now rewrite Hname.
Qed.

(** A definition after tokens of the global pool: the tokens are kept, the
    definition becomes a pool, and the fuel left covers the rest. *)
Lemma getInstructionPools_loop_text (name : string) (d : procedure_text)
    (pre rest globalTokens : list TypedToken.t)
    (instructionPools : Parser.pools) (fuel : nat) :
  defines name d ->
  no_kind TypedToken.LEFT_BRACE pre ->
  (length (pre ++ tokens_of d ++ rest) <= fuel)%nat ->
  exists fuel',
    (length rest <= fuel')%nat
    /\ Parser.getInstructionPools_loop fuel (pre ++ tokens_of d ++ rest)
         globalTokens instructionPools
       = Parser.getInstructionPools_loop fuel' rest (globalTokens ++ pre)
           (PyDict.set instructionPools name
              (InstructionPool.mk name (text_body d) SymbolTable.empty)).
Proof.
  intros Hd Hpre Hfuel.
  pose proof Hd as (Hlabel & _ & Hsep & _ & _ & _).
  assert (Hglobal :
    no_kind TypedToken.LEFT_BRACE (pre ++ text_label d :: text_separator d)).
  { apply Forall_app. split; [exact Hpre |].
    apply Forall_cons. split.
    - unfold TypedToken.is_kind in *.
      destruct (TypedToken.tokenType (text_label d));
        try discriminate Hlabel; reflexivity.
    - destruct Hsep as [-> | (token & -> & Hend)]; [constructor |].
      repeat constructor. unfold TypedToken.is_kind in *.
      destruct (TypedToken.tokenType token); try discriminate Hend;
        reflexivity. }
  assert (Hshape :
    pre ++ tokens_of d ++ rest
    = (pre ++ text_label d :: text_separator d)
      ++ text_left_brace d :: text_after_left_brace d :: text_body d
      ++ text_right_brace d :: text_after_right_brace d :: rest).
  { unfold tokens_of. rewrite <- !app_assoc. simpl.
    rewrite <- !app_assoc. reflexivity. }
  rewrite Hshape in Hfuel |- *.
  rewrite !length_app in Hfuel. simpl in Hfuel.
  rewrite length_app in Hfuel. simpl in Hfuel.
  rewrite getInstructionPools_loop_global
    by (try exact Hglobal; rewrite length_app; simpl; lia).
  rewrite length_app. simpl length.
  destruct (fuel - (length pre + S (length (text_separator d))))%nat
    as [|fuel'] eqn:Hleft; [lia |].
  exists fuel'. split; [lia |].
  rewrite app_assoc.
  now rewrite (getInstructionPools_loop_definition name).
Qed.

Lemma getInstructionPools_loop_end (tokens globalTokens : list TypedToken.t)
    (instructionPools : Parser.pools) (fuel : nat) :
  no_kind TypedToken.LEFT_BRACE tokens ->
  (length tokens <= fuel)%nat ->
  Parser.getInstructionPools_loop fuel tokens globalTokens instructionPools
  = Ok (globalTokens ++ tokens, instructionPools).
Proof.
  intros Htokens Hfuel.
  rewrite <- (app_nil_r tokens) at 1.
  rewrite getInstructionPools_loop_global by assumption.
  apply getInstructionPools_loop_nil.
Qed.

Lemma set_set_same {V : Type} (name : string) (v1 v2 : V) :
  PyDict.set (PyDict.set [] name v1) name v2 = [(name, v2)].
Proof. simpl. now rewrite String.eqb_refl. Qed.

(** When the two definitions of the procedure [name] are the only ones of
    the stream, the split gives what it gives for the stream without the
    earlier definition, so the symbol-table pass that follows sees the same
    pools and records the same errors as if the procedure had been defined
    once. *)
Lemma redefinition_splits_as_single_definition (name : string)
    (earlier later : procedure_text) (pre mid post : list TypedToken.t) :
  defines name earlier -> defines name later ->
  no_kind TypedToken.LEFT_BRACE pre ->
  no_kind TypedToken.LEFT_BRACE mid ->
  no_kind TypedToken.LEFT_BRACE post ->
  let twice := pre ++ tokens_of earlier ++ mid ++ tokens_of later ++ post in
  let once := pre ++ mid ++ tokens_of later ++ post in
  Parser.getInstructionPools twice
  = Ok (pre ++ mid ++ post,
        [(name, InstructionPool.mk name (text_body later) SymbolTable.empty)])
  /\ Parser.getInstructionPools once = Parser.getInstructionPools twice
  /\ Parser.splitAndClassify once = Parser.splitAndClassify twice.
Proof.
  intros Hearlier Hlater Hpre Hmid Hpost twice once.
  assert (Htwice :
    Parser.getInstructionPools twice
    = Ok (pre ++ mid ++ post,
          [(name,
            InstructionPool.mk name (text_body later) SymbolTable.empty)])).
  { unfold Parser.getInstructionPools, twice.
    destruct (getInstructionPools_loop_text name earlier pre
                (mid ++ tokens_of later ++ post) [] []
                (length (pre ++ tokens_of earlier ++ mid
                         ++ tokens_of later ++ post))
                Hearlier Hpre (Nat.le_refl _)) as (fuel1 & Hfuel1 & ->).
    destruct (getInstructionPools_loop_text name later mid post
                ([] ++ pre)
                (PyDict.set [] name
                   (InstructionPool.mk name (text_body earlier)
                      SymbolTable.empty))
                fuel1 Hlater Hmid Hfuel1)
      as (fuel2 & Hfuel2 & ->).
    rewrite getInstructionPools_loop_end by assumption.
    rewrite set_set_same. simpl. now rewrite <- app_assoc. }
  assert (Honce :
    Parser.getInstructionPools once
    = Ok (pre ++ mid ++ post,
          [(name,
            InstructionPool.mk name (text_body later) SymbolTable.empty)])).
  { unfold Parser.getInstructionPools, once.
    rewrite (app_assoc pre mid).
    destruct (getInstructionPools_loop_text name later (pre ++ mid) post
                [] [] (length ((pre ++ mid) ++ tokens_of later ++ post))
                Hlater ltac:(apply Forall_app; split; assumption)
                (Nat.le_refl _)) as (fuel1 & Hfuel1 & ->).
    rewrite getInstructionPools_loop_end by assumption.
    simpl. now rewrite <- app_assoc. }
  split; [exact Htwice |]. split; [now rewrite Honce, Htwice |].
  unfold Parser.splitAndClassify. now rewrite Honce, Htwice.
Qed.



(** The lexer reads [redefinition_source] as [redefinition_tokens], the
    pre-parse accepts it, and the whole parse ends without an error. *)
Lemma redefinition_source_parses :
  exists tokens pools globalInstructionPool,
    Lexer.lex redefinition_source Defaults.COMMENT_PREFIX = Ok tokens
    /\ unplaced <$> tokens = unplaced <$> redefinition_tokens
    /\ Parser.preparse tokens = Ok []
    /\ Parser.parse tokens = Ok (pools, globalInstructionPool)
    /\ unplaced <$> InstructionPool.tokenStream globalInstructionPool
       = unplaced <$> before_definitions ++ between_definitions
    /\ (fun pool => unplaced <$> InstructionPool.tokenStream (snd pool))
         <$> pools
       = [unplaced <$> text_body later_definition].
Proof.
  eexists _, _, _.
  split; [vm_compute; reflexivity |].
  split; [vm_compute; reflexivity |].
  split; [vm_compute; reflexivity |].
  split; [vm_compute; reflexivity |].
  split; vm_compute; reflexivity.
Qed.


(** *** Any number of definitions *)


Lemma keys_set {V : Type} (d : list (string * V)) (k : string) (v : V) :
  PyDict.keys (PyDict.set d k v)
  = if PyDict.contains d k then PyDict.keys d else PyDict.keys d ++ [k].
Proof.
  unfold PyDict.contains.
  induction d as [|[k0 v0] d IH]; simpl; [reflexivity |].
  destruct (String.eqb k k0) eqn:Hk; simpl; [reflexivity |].
  unfold PyDict.keys in *. rewrite IH.
  destruct (PyDict.get d k); reflexivity.
Qed.

Lemma get_None_keys {V : Type} (d : list (string * V)) (k : string) :
  PyDict.get d k = None -> k ∉ PyDict.keys d.
Proof.
  induction d as [|[k0 v0] d IH]; simpl; intros H.
  - apply not_elem_of_nil.
  - destruct (String.eqb k k0) eqn:Hk; [discriminate |].
    apply String.eqb_neq in Hk. apply not_elem_of_cons. split; auto.
Qed.

(** Assigning to a key keeps the keys of a dictionary distinct. *)
Lemma NoDup_keys_set {V : Type} (d : list (string * V)) (k : string) (v : V) :
  NoDup (PyDict.keys d) -> NoDup (PyDict.keys (PyDict.set d k v)).
Proof.
  intros Hd. rewrite keys_set. unfold PyDict.contains.
  destruct (PyDict.get d k) eqn:Hget; [exact Hd |].
  apply NoDup_app. split; [exact Hd |]. split.
  - intros x Hx Hk. apply list_elem_of_singleton in Hk. subst x.
    now apply (get_None_keys d k Hget).
  - apply NoDup_singleton.
Qed.






(** ** The scan of the lexer *)

Lemma mem_app (c : ascii) (s t : string) :
  PyStr.mem c (s +:+ t) = PyStr.mem c s || PyStr.mem c t.
Proof.
  induction s as [|d s IH]; [reflexivity |].
  rewrite str_app_cons. simpl. destruct (Ascii.eqb c d); [reflexivity | exact IH].
Qed.

Lemma no_double_end_snoc (tokens : list TypedToken.t) (token : TypedToken.t) :
  no_double_end (tokens ++ [token])
  = no_double_end tokens
    && negb (ends_with_end tokens
             && TypedToken.is_kind TypedToken.END token).
Proof.
  induction tokens as [|a tokens IH]; [reflexivity |].
  destruct tokens as [|b tokens].
  - simpl. unfold ends_with_end. simpl.
    now rewrite andb_true_r.
  - change (no_double_end ((a :: b :: tokens) ++ [token]))
      with (negb (TypedToken.is_kind TypedToken.END a
                  && TypedToken.is_kind TypedToken.END b)
            && no_double_end ((b :: tokens) ++ [token])).
    rewrite IH.
    change (no_double_end (a :: b :: tokens))
      with (negb (TypedToken.is_kind TypedToken.END a
                  && TypedToken.is_kind TypedToken.END b)
            && no_double_end (b :: tokens)).
    unfold ends_with_end. rewrite (last_cons_cons a b tokens).
    now rewrite andb_assoc.
Qed.

Lemma ends_with_end_snoc (tokens : list TypedToken.t) (token : TypedToken.t) :
  ends_with_end (tokens ++ [token])
  = TypedToken.is_kind TypedToken.END token.
Proof. unfold ends_with_end. now rewrite last_snoc. Qed.

Lemma no_double_end_snoc_other (tokens : list TypedToken.t)
    (token : TypedToken.t) :
  TypedToken.is_kind TypedToken.END token = false ->
  no_double_end tokens = true ->
  no_double_end (tokens ++ [token]) = true.
Proof.
  intros Htoken Htokens. rewrite no_double_end_snoc, Htokens, Htoken.
  now rewrite andb_false_r.
Qed.

Lemma skipOverComment_length (rest : string) (column : Z) :
  (String.length (fst (Lexer.skipOverComment rest column))
   <= String.length rest)%nat.
Proof.
  revert column. induction rest as [|c rest IH]; intros column.
  - simpl. lia.
  - cbn [Lexer.skipOverComment].
    destruct (PyStr.mem c KeyWords.LINE_BREAK_CHARACTERS).
    + cbn [fst]. lia.
    + specialize (IH (column + 1)). cbn [String.length]. lia.
Qed.

Lemma skipOverComment_shorter (commentPrefix : ascii) (rest : string)
    (column : Z) :
  PyStr.mem commentPrefix KeyWords.LINE_BREAK_CHARACTERS = false ->
  (String.length
     (fst (Lexer.skipOverComment (String commentPrefix rest) column))
   <= String.length rest)%nat.
Proof.
  intros Hprefix. cbn [Lexer.skipOverComment]. rewrite Hprefix.
  apply skipOverComment_length.
Qed.

Lemma takeUntil_length (terminators rest : string) :
  (String.length (Lexer.takeUntil terminators rest) <= String.length rest)%nat.
Proof.
  induction rest as [|c rest IH]; [simpl; lia |].
  cbn [Lexer.takeUntil]. destruct (PyStr.mem c terminators);
    cbn [String.length]; lia.
Qed.

Lemma upper_length (s : string) :
  String.length (PyStr.upper s) = String.length s.
Proof.
  induction s as [|c s IH]; [reflexivity |].
  cbn [PyStr.upper String.length]. now rewrite IH.
Qed.

Lemma drop_length (n : nat) (s : string) :
  String.length (PyStr.drop n s) = (String.length s - n)%nat.
Proof.
  revert s. induction n as [|n IH]; intros s.
  - destruct s; simpl; lia.
  - destruct s as [|c s]; [reflexivity |].
    cbn [PyStr.drop String.length]. rewrite IH. lia.
Qed.

Lemma splitTrailingDigits_non_digit (c : ascii) (s : string) :
  PyStr.is_digit c = false ->
  exists keyword suffix,
    Lexer.splitTrailingDigits (String c s) = Some (keyword, suffix).
Proof.
  intros Hc. cbn [Lexer.splitTrailingDigits].
  destruct (Lexer.splitTrailingDigits s) as [[keyword suffix]|].
  - now exists (String c keyword), suffix.
  - rewrite Hc. now exists (String c EmptyString), s.
Qed.

Lemma beginning_of_value_digit (c : ascii) :
  PyStr.mem c KeyWords.BEGINNING_OF_VALUE_CHARACTERS = false ->
  PyStr.is_digit c = false.
Proof.
  unfold PyStr.is_digit.
  change KeyWords.BEGINNING_OF_VALUE_CHARACTERS
    with ("+-" +:+ "1234567890").
  rewrite mem_app. intros H. now apply orb_false_elim in H.
Qed.

(** A token substring that is not empty always yields one more token, and
    that token is never an END token. *)
Lemma processTokenSubstring_appends (c : ascii) (s : string)
    (st : Lexer.state) (tokenRow tokenColumn : Z) :
  exists token errors,
    Lexer.processTokenSubstring (String c s) st tokenRow tokenColumn
    = Ok (Lexer.mkState (Lexer.generatedStreamOfTokens st ++ [token]) errors
            (Lexer.row st) (Lexer.column st))
    /\ TypedToken.is_kind TypedToken.END token = false.
Proof.
  unfold Lexer.processTokenSubstring.
  destruct (PyStr.mem c KeyWords.BEGINNING_OF_VALUE_CHARACTERS) eqn:Hvalue.
  - unfold Lexer.generateValueToken. cbn [rbind fst snd].
    eexists _, _. split; [reflexivity | reflexivity].
  - destruct (splitTrailingDigits_non_digit c s
                (beginning_of_value_digit c Hvalue))
      as (keyword & suffix & Hsplit).
    unfold Lexer.determineTypeOfRegisterKeyword. rewrite Hsplit.
    assert (Hrest : forall register,
      exists token errors,
        (if negb (String.eqb register EmptyString)
         then Ok (Lexer.append st
                    (TypedToken.mk TypedToken.REGISTER register tokenRow
                       tokenColumn))
         else
           match Lexer.determineTokenType (String c s) with
           | TypedToken.ADDRESSING_MODE =>
               symbol <-- PyDict.getitem KeyWords.ADDRESSING_MODES
                            (String c s) ;;
               Ok (Lexer.append st
                     (TypedToken.mk
                        (Lexer.determineTokenType (String c s)) symbol
                        tokenRow tokenColumn))
           | TypedToken.LABEL =>
               te <-- Lexer.generateLabelToken (String c s) tokenRow
                        tokenColumn (Lexer.lexingErrors st) ;;
               Ok (Lexer.mkState
                     (Lexer.generatedStreamOfTokens st ++ [fst te]) (snd te)
                     (Lexer.row st) (Lexer.column st))
           | _ =>
               Ok (Lexer.append st
                     (TypedToken.mk
                        (Lexer.determineTokenType (String c s)) (String c s)
                        tokenRow tokenColumn))
           end)
        = Ok (Lexer.mkState (Lexer.generatedStreamOfTokens st ++ [token])
                errors (Lexer.row st) (Lexer.column st))
        /\ TypedToken.is_kind TypedToken.END token = false).
    { intros register.
      destruct (negb (String.eqb register EmptyString)).
      { eexists _, _. split; reflexivity. }
      unfold Lexer.determineTokenType.
      destruct (PyDict.contains KeyWords.INSTRUCTION_SET (String c s)).
      { eexists _, _. split; reflexivity. }
      destruct (PyDict.contains KeyWords.SPECIAL_PURPOSE_REGISTERS
                  (String c s)).
      { eexists _, _. split; reflexivity. }
      destruct (PyDict.contains KeyWords.ADDRESSING_MODES (String c s))
        eqn:Hmode.
      { unfold PyDict.contains in Hmode. unfold PyDict.getitem.
        destruct (PyDict.get KeyWords.ADDRESSING_MODES (String c s));
          [| discriminate].
        eexists _, _. split; reflexivity. }
      destruct (PyDict.contains KeyWords.ASSEMBLY_DIRECTIVES (String c s)).
      { eexists _, _. split; reflexivity. }
      unfold Lexer.generateLabelToken. cbn [rbind fst snd].
      eexists _, _. split; reflexivity. }
    destruct (PyDict.contains KeyWords.GENERAL_PURPOSE_REGISTER keyword
              && negb (String.eqb suffix EmptyString));
      cbn [rbind]; apply Hrest.
Qed.

Lemma addressing_mode_character (c : ascii) :
  PyStr.mem c KeyWords.ADDRESSING_MODE_CHARACTERS = true ->
  exists symbol,
    PyDict.getitem KeyWords.ADDRESSING_MODES (String c EmptyString)
    = Ok symbol.
Proof.
  intros Hc.
  change KeyWords.ADDRESSING_MODE_CHARACTERS with "#@>%"%string in Hc.
  cbn [PyStr.mem] in Hc.
  destruct (Ascii.eqb c "#") eqn:H1;
    [apply Ascii.eqb_eq in H1; subst c; now eexists |].
  destruct (Ascii.eqb c "@") eqn:H2;
    [apply Ascii.eqb_eq in H2; subst c; now eexists |].
  destruct (Ascii.eqb c ">") eqn:H3;
    [apply Ascii.eqb_eq in H3; subst c; now eexists |].
  destruct (Ascii.eqb c "%") eqn:H4;
    [apply Ascii.eqb_eq in H4; subst c; now eexists |].
  discriminate.
Qed.

Lemma getTokenSubstring_cons (commentPrefix c : ascii) (rest : string) :
  PyStr.mem c (Lexer.tokenTerminatingCharacters commentPrefix) = false ->
  exists s,
    Lexer.getTokenSubstring commentPrefix (String c rest) = String (PyStr.upper_char c) s
    /\ (String.length s <= String.length rest)%nat.
Proof.
  intros Hc. unfold Lexer.getTokenSubstring, Defaults.convertToCasing.
  cbn [Lexer.takeUntil]. rewrite Hc. cbn [PyStr.upper].
  eexists. split; [reflexivity |].
  rewrite upper_length. apply takeUntil_length.
Qed.

Section Scan.

Variable commentPrefix : ascii.
Hypothesis comment_prefix_is_no_line_break :
  PyStr.mem commentPrefix KeyWords.LINE_BREAK_CHARACTERS = false.

(** The scan comes to its end within one unit of fuel per character, never
    raises, only appends to the stream, and never puts an END token behind
    another one. *)
Lemma tokenise_loop_total (fuel : nat) :
  forall (rest : string) (st : Lexer.state),
    (String.length rest <= fuel)%nat ->
    no_double_end (Lexer.generatedStreamOfTokens st) = true ->
    exists st',
      Lexer.tokenise_loop fuel commentPrefix rest st = Ok st'
      /\ no_double_end (Lexer.generatedStreamOfTokens st') = true
      /\ exists more,
           Lexer.generatedStreamOfTokens st'
           = Lexer.generatedStreamOfTokens st ++ more.
Proof.
  induction fuel as [|fuel IH]; intros rest st Hfuel Hst.
  - destruct rest as [|c rest]; [| simpl in Hfuel; lia].
    exists st. repeat split; [exact Hst |]. exists []. now rewrite app_nil_r.
  - destruct rest as [|c rest].
    { exists st. repeat split; [exact Hst |]. exists [].
      now rewrite app_nil_r. }
    cbn [String.length] in Hfuel.
    cbn [Lexer.tokenise_loop].
    assert (Hkeep : forall errors row column rest',
      (String.length rest' <= fuel)%nat ->
      exists st',
        Lexer.tokenise_loop fuel commentPrefix rest'
          (Lexer.mkState (Lexer.generatedStreamOfTokens st) errors row
             column) = Ok st'
        /\ no_double_end (Lexer.generatedStreamOfTokens st') = true
        /\ exists more,
             Lexer.generatedStreamOfTokens st'
             = Lexer.generatedStreamOfTokens st ++ more).
    { intros errors row column rest' Hrest'.
      apply (IH rest'
               (Lexer.mkState (Lexer.generatedStreamOfTokens st) errors row
                  column) Hrest' Hst). }
    destruct (Ascii.eqb c commentPrefix) eqn:Hcomment.
    { apply Ascii.eqb_eq in Hcomment. subst c.
      apply Hkeep.
      pose proof (skipOverComment_shorter commentPrefix rest
                    (Lexer.column st) comment_prefix_is_no_line_break).
      lia. }
    destruct (PyStr.mem c KeyWords.WHITE_SPACE_CHARACTERS) eqn:Hwhite.
    { apply Hkeep. lia. }
    destruct (PyStr.mem c KeyWords.LINE_BREAK_CHARACTERS) eqn:Hbreak.
    { destruct (last (Lexer.generatedStreamOfTokens st)) as [token|]
        eqn:Hlast; [| apply Hkeep; lia].
      destruct (TypedToken.is_kind TypedToken.END token) eqn:Hend;
        cbn [negb]; [apply Hkeep; lia |].
      destruct (IH rest
                  (Lexer.mkState
                     (Lexer.generatedStreamOfTokens st ++
                        [Lexer.generateEndToken Defaults.LINE_BREAK_SYMBOL
                           (Lexer.row st) (Lexer.column st)])
                     (Lexer.lexingErrors st) (Lexer.row st + 1) 1))
        as (st' & Hrun & Hinv & more & Hmore); [lia | |].
      { cbn [Lexer.generatedStreamOfTokens].
        rewrite no_double_end_snoc, Hst. unfold ends_with_end.
        rewrite Hlast, Hend. reflexivity. }
      exists st'. repeat split; [exact Hrun | exact Hinv |].
      eexists. rewrite Hmore. cbn [Lexer.generatedStreamOfTokens].
      rewrite <- app_assoc. reflexivity. }
    assert (Hstep : forall token errors column,
      TypedToken.is_kind TypedToken.END token = false ->
      forall rest', (String.length rest' <= fuel)%nat ->
      exists st',
        Lexer.tokenise_loop fuel commentPrefix rest'
          (Lexer.mkState (Lexer.generatedStreamOfTokens st ++ [token])
             errors (Lexer.row st) column) = Ok st'
        /\ no_double_end (Lexer.generatedStreamOfTokens st') = true
        /\ exists more,
             Lexer.generatedStreamOfTokens st'
             = Lexer.generatedStreamOfTokens st ++ more).
    { intros token errors column Htoken rest' Hrest'.
      destruct (IH rest'
                  (Lexer.mkState (Lexer.generatedStreamOfTokens st ++ [token])
                     errors (Lexer.row st) column))
        as (st' & Hrun & Hinv & more & Hmore); [exact Hrest' | |].
      { cbn [Lexer.generatedStreamOfTokens].
        now apply no_double_end_snoc_other. }
      exists st'. repeat split; [exact Hrun | exact Hinv |].
      eexists. rewrite Hmore. cbn [Lexer.generatedStreamOfTokens].
      rewrite <- app_assoc. reflexivity. }
    destruct (PyStr.mem c KeyWords.BLOCK_SCOPE_CHARACTERS) eqn:Hblock.
    { apply Hstep; [| lia]. unfold Lexer.generateBlockScopeToken.
      now destruct (PyStr.mem c KeyWords.LEFT_SCOPE_CHARACTERS). }
    destruct (PyStr.mem c KeyWords.OPERAND_SEPERATOR_CHARACTERS) eqn:Hcomma.
    { apply Hstep; [reflexivity | lia]. }
    destruct (PyStr.mem c KeyWords.ADDRESSING_MODE_CHARACTERS) eqn:Hmode.
    { destruct (addressing_mode_character c Hmode) as (symbol & Hsymbol).
      unfold Lexer.generateAddressingModeToken. rewrite Hsymbol.
      cbn [rbind]. apply Hstep; [reflexivity | lia]. }
    assert (Hterminator :
      PyStr.mem c (Lexer.tokenTerminatingCharacters commentPrefix) = false).
    { unfold Lexer.tokenTerminatingCharacters. rewrite !mem_app.
      rewrite Hwhite, Hbreak, Hcomma, Hblock, Hmode. cbn [PyStr.mem orb].
      now rewrite Hcomment. }
    destruct (getTokenSubstring_cons commentPrefix c rest Hterminator)
      as (s & Hsubstring & Hlength).
    cbv zeta. rewrite Hsubstring.
    destruct (processTokenSubstring_appends (PyStr.upper_char c) s st
                (Lexer.row st) (Lexer.column st))
      as (token & errors & Hprocess & Htoken).
    rewrite Hprocess. cbn [rbind].
    cbn [Lexer.generatedStreamOfTokens Lexer.lexingErrors Lexer.row
         Lexer.column].
    apply Hstep; [exact Htoken |].
    rewrite drop_length. cbn [String.length]. lia.
Qed.

End Scan.

(** Extra (lexer, see C9).  On a source text that is not empty, with a
    comment prefix that is no line break, the scan of [tokeniseSourceCode]
    always comes to its end within the fuel given by the length of the
    source.  When the scan produced no token the function raises
    [IndexError]; when it produced one, the function returns a stream that
    ends with an END token and holds no two END tokens in a row. *)
Theorem tokeniseSourceCode_ends_with_one_end (commentPrefix : ascii)
    (sourceCode : string) :
  PyStr.mem commentPrefix KeyWords.LINE_BREAK_CHARACTERS = false ->
  sourceCode <> EmptyString ->
  exists scanned,
    Lexer.tokenise_loop (String.length sourceCode) commentPrefix sourceCode
      (Lexer.mkState [] [] 1 1) = Ok scanned
    /\ match Lexer.generatedStreamOfTokens scanned with
       | [] =>
           Lexer.tokeniseSourceCode (String.length sourceCode) commentPrefix
             sourceCode = Raise IndexError
       | _ :: _ =>
           exists st,
             Lexer.tokeniseSourceCode (String.length sourceCode)
               commentPrefix sourceCode = Ok st
             /\ ends_with_end (Lexer.generatedStreamOfTokens st) = true
             /\ no_double_end (Lexer.generatedStreamOfTokens st) = true
       end.
Proof.
  intros Hprefix Hsource.
  destruct (tokenise_loop_total commentPrefix Hprefix
              (String.length sourceCode) sourceCode (Lexer.mkState [] [] 1 1))
    as (scanned & Hscan & Hinv & _); [lia | reflexivity |].
  exists scanned. split; [exact Hscan |].
  unfold Lexer.tokeniseSourceCode. rewrite Hscan. cbn [rbind].
  destruct sourceCode as [|c sourceCode]; [congruence |].
  unfold Lexer.lastIsEnd, ends_with_end in *.
  destruct (Lexer.generatedStreamOfTokens scanned) as [|first tokens] eqn:Htokens.
  { reflexivity. }
  destruct (last (first :: tokens)) as [token|] eqn:Hlast.
  2:{ apply last_None in Hlast. discriminate. }
  cbn [rbind]. destruct (TypedToken.is_kind TypedToken.END token) eqn:Hend;
    cbn [negb].
  - exists scanned. rewrite Htokens, Hlast. auto.
  - eexists. split; [reflexivity |].
    unfold Lexer.append. cbn [Lexer.generatedStreamOfTokens].
    rewrite Htokens, last_snoc, no_double_end_snoc, Hinv.
    split; [reflexivity |]. unfold ends_with_end. now rewrite Hlast, Hend.
Qed.

Lemma tokeniseSourceCode_ends_with_one_end_witness :
  exists st,
    Lexer.tokeniseSourceCode 7 ";" "HLT ; x"
    = Ok st
    /\ ends_with_end (Lexer.generatedStreamOfTokens st) = true
    /\ no_double_end (Lexer.generatedStreamOfTokens st) = true.
Proof.
  assert (Hprefix : PyStr.mem ";" KeyWords.LINE_BREAK_CHARACTERS = false)
    by reflexivity.
  assert (Hsource : "HLT ; x"%string <> EmptyString) by discriminate.
  destruct (tokeniseSourceCode_ends_with_one_end ";" "HLT ; x" Hprefix
              Hsource) as (scanned & Hscan & Hstream).
  vm_compute in Hscan. injection Hscan as <-. exact Hstream.
Defined.

(** ** The fuel of the parser's loops *)

Lemma out_of_fuel_rbind {A B : Type} (r : result A) (k : A -> result B) :
  out_of_fuel r = false ->
  (forall a, r = Ok a -> out_of_fuel (k a) = false) ->
  out_of_fuel (rbind r k) = false.
Proof.
  intros Hr Hk. destruct r as [a|e|]; cbn [rbind].
  - now apply Hk.
  - reflexivity.
  - discriminate.
Qed.

Lemma out_of_fuel_list_item {A : Type} (l : list A) (i : nat) :
  out_of_fuel (list_item l i) = false.
Proof. unfold list_item. now destruct (l !! i). Qed.

Lemma out_of_fuel_list_pop {A : Type} (l : list A) :
  out_of_fuel (list_pop l) = false.
Proof. unfold list_pop. now destruct (reverse l). Qed.

Lemma out_of_fuel_getitem {V : Type} (d : list (string * V)) (k : string) :
  out_of_fuel (PyDict.getitem d k) = false.
Proof. unfold PyDict.getitem. now destruct (PyDict.get d k). Qed.

Lemma out_of_fuel_digits_acc (s : string) (acc : Z) :
  out_of_fuel (PyStr.digits_acc acc s) = false.
Proof.
  revert acc. induction s as [|c s IH]; intros acc; [reflexivity |].
  cbn [PyStr.digits_acc]. destruct (PyStr.is_digit c); [apply IH | reflexivity].
Qed.

Lemma out_of_fuel_digits (s : string) : out_of_fuel (PyStr.digits s) = false.
Proof. destruct s; [reflexivity | apply out_of_fuel_digits_acc]. Qed.

Lemma out_of_fuel_int (s : string) : out_of_fuel (PyStr.int s) = false.
Proof.
  unfold PyStr.int.
  assert (Hneg : forall s',
    out_of_fuel (v <-- PyStr.digits s' ;; Ok (- v)) = false).
  { intros s'. apply out_of_fuel_rbind; [apply out_of_fuel_digits |].
    reflexivity. }
  destruct s as [|c s]; [reflexivity |].
  destruct c as [[] [] [] [] [] [] [] []];
    first [apply out_of_fuel_digits | apply Hneg].
Qed.

Lemma getProcedureTokens_loop_shorter (rest procedureTokens body after :
    list TypedToken.t) :
  Parser.getProcedureTokens_loop rest procedureTokens = Ok (body, after) ->
  (length after < length rest)%nat.
Proof.
  revert procedureTokens. induction rest as [|token rest IH];
    intros procedureTokens Hloop; [discriminate |].
  cbn [Parser.getProcedureTokens_loop] in Hloop.
  destruct (TypedToken.is_kind TypedToken.RIGHT_BRACE token).
  - injection Hloop as _ <-. cbn [length]. lia.
  - apply IH in Hloop. cbn [length]. lia.
Qed.

Lemma out_of_fuel_getProcedureTokens_loop (rest procedureTokens :
    list TypedToken.t) :
  out_of_fuel (Parser.getProcedureTokens_loop rest procedureTokens) = false.
Proof.
  revert procedureTokens. induction rest as [|token rest IH];
    intros procedureTokens; [reflexivity |].
  cbn [Parser.getProcedureTokens_loop].
  destruct (TypedToken.is_kind TypedToken.RIGHT_BRACE token);
    [reflexivity | apply IH].
Qed.

(** One unit of fuel for each token is enough for the loop that splits the
    stream into pools. *)
Lemma out_of_fuel_getInstructionPools_loop (fuel : nat) :
  forall (rest globalTokens : list TypedToken.t)
         (instructionPools : Parser.pools),
    (length rest <= fuel)%nat ->
    out_of_fuel
      (Parser.getInstructionPools_loop fuel rest globalTokens
         instructionPools) = false.
Proof.
  induction fuel as [|fuel IH]; intros rest globalTokens instructionPools
    Hfuel.
  - destruct rest; [reflexivity | cbn [length] in Hfuel; lia].
  - destruct rest as [|currentToken rest]; [reflexivity |].
    cbn [length] in Hfuel. cbn [Parser.getInstructionPools_loop].
    assert (Hother :
      out_of_fuel
        (Parser.getInstructionPools_loop fuel rest
           (globalTokens ++ [currentToken]) instructionPools) = false)
      by (apply IH; lia).
    destruct (TypedToken.tokenType currentToken); try exact Hother.
    apply out_of_fuel_rbind; [apply out_of_fuel_list_pop |].
    intros popped _.
    apply out_of_fuel_rbind.
    { destruct (TypedToken.is_kind TypedToken.END (fst popped));
        [apply out_of_fuel_list_pop | reflexivity]. }
    intros popped' _.
    unfold Parser.getProcedureTokens.
    destruct (Parser.getProcedureTokens_loop (drop 1 rest) [])
      as [[body after]| |] eqn:Hbody; cbn [rbind fst snd];
      [| reflexivity |].
    + apply IH. apply getProcedureTokens_loop_shorter in Hbody.
      rewrite length_drop in *. lia.
    + pose proof (out_of_fuel_getProcedureTokens_loop (drop 1 rest) [])
        as Hnot. now rewrite Hbody in Hnot.
Qed.

Lemma dropStatement_length (rest rest' : list TypedToken.t) :
  Parser.dropStatement rest = Ok rest' -> (length rest' <= length rest)%nat.
Proof.
  induction rest as [|token rest IH]; intros Hdrop; [discriminate |].
  cbn [Parser.dropStatement] in Hdrop.
  destruct (TypedToken.is_kind TypedToken.END token).
  - now injection Hdrop as <-.
  - apply IH in Hdrop. cbn [length]. lia.
Qed.

Lemma out_of_fuel_dropStatement (rest : list TypedToken.t) :
  out_of_fuel (Parser.dropStatement rest) = false.
Proof.
  induction rest as [|token rest IH]; [reflexivity |].
  cbn [Parser.dropStatement].
  now destruct (TypedToken.is_kind TypedToken.END token).
Qed.

Lemma removeVariable_length (beginningIndex : nat)
    (tokenStream tokenStream' : list TypedToken.t) :
  Parser.removeVariable beginningIndex tokenStream = Ok tokenStream' ->
  (length tokenStream' <= length tokenStream)%nat.
Proof.
  unfold Parser.removeVariable. intros Hremove.
  destruct (Parser.dropStatement (drop beginningIndex tokenStream))
    as [rest| |] eqn:Hdrop; [| discriminate | discriminate].
  cbn [rbind] in Hremove. injection Hremove as <-.
  apply dropStatement_length in Hdrop.
  rewrite length_app, length_take. rewrite length_drop in Hdrop. lia.
Qed.

Lemma updateSymbolTableFromLabel_length (currentIndex : nat)
    (instructionPool instructionPool' : InstructionPool.t)
    (indexedInstructionCount : Z) (errors errors' : list message) :
  Parser.updateSymbolTableFromLabel currentIndex instructionPool
    indexedInstructionCount errors = Ok (instructionPool', errors') ->
  (length (InstructionPool.tokenStream instructionPool')
   <= length (InstructionPool.tokenStream instructionPool))%nat.
Proof.
  unfold Parser.updateSymbolTableFromLabel. intros Hupdate.
  destruct (list_item (InstructionPool.tokenStream instructionPool)
              (currentIndex + 1)) as [tokenAfter| |];
    cbn [rbind] in Hupdate; [| discriminate | discriminate].
  destruct (TypedToken.kind_in (TypedToken.tokenType tokenAfter)
              [TypedToken.ASSEMBLY_DIRECTIVE; TypedToken.INSTRUCTION]).
  2:{ now injection Hupdate as <- _. }
  destruct (list_item (InstructionPool.tokenStream instructionPool)
              currentIndex) as [labelToken| |];
    cbn [rbind] in Hupdate; [| discriminate | discriminate].
  destruct (TypedToken.tokenType tokenAfter);
    try (injection Hupdate as <- _; reflexivity).
  destruct (list_item (InstructionPool.tokenStream instructionPool)
              (currentIndex + 2)) as [valueToken| |];
    cbn [rbind] in Hupdate; [| discriminate | discriminate].
  destruct (if TypedToken.is_kind TypedToken.VALUE valueToken
            then PyStr.int (TypedToken.tokenValue valueToken)
            else PyStr.int Defaults.DEFAULT_VARIABLE_VALUE) as [labelValue| |];
    cbn [rbind] in Hupdate; [| discriminate | discriminate].
  destruct (Parser.removeVariable currentIndex
              (InstructionPool.tokenStream instructionPool))
    as [tokenStream| |] eqn:Hremove;
    cbn [rbind] in Hupdate; [| discriminate | discriminate].
  injection Hupdate as <- _. cbn [InstructionPool.tokenStream].
  now apply removeVariable_length in Hremove.
Qed.

Lemma out_of_fuel_updateSymbolTableFromLabel (currentIndex : nat)
    (instructionPool : InstructionPool.t) (indexedInstructionCount : Z)
    (errors : list message) :
  out_of_fuel
    (Parser.updateSymbolTableFromLabel currentIndex instructionPool
       indexedInstructionCount errors) = false.
Proof.
  unfold Parser.updateSymbolTableFromLabel.
  apply out_of_fuel_rbind; [apply out_of_fuel_list_item |].
  intros tokenAfter _.
  destruct (TypedToken.kind_in (TypedToken.tokenType tokenAfter)
              [TypedToken.ASSEMBLY_DIRECTIVE; TypedToken.INSTRUCTION]);
    [| reflexivity].
  apply out_of_fuel_rbind; [apply out_of_fuel_list_item |].
  intros labelToken _.
  destruct (TypedToken.tokenType tokenAfter); try reflexivity.
  apply out_of_fuel_rbind; [apply out_of_fuel_list_item |].
  intros valueToken _.
  apply out_of_fuel_rbind.
  { destruct (TypedToken.is_kind TypedToken.VALUE valueToken);
      apply out_of_fuel_int. }
  intros labelValue _.
  apply out_of_fuel_rbind; [| reflexivity].
  unfold Parser.removeVariable.
  apply out_of_fuel_rbind; [apply out_of_fuel_dropStatement | reflexivity].
Qed.

(** One unit of fuel for each token of the pool is enough for the loop that
    fills its symbol table: the index grows at every turn and the stream
    never does. *)
Lemma out_of_fuel_updateInstructionPoolSymbolTable_loop (fuel : nat) :
  forall (currentIndex : nat) (indexedInstructionCount : Z)
         (instructionPool : InstructionPool.t) (errors : list message),
    (length (InstructionPool.tokenStream instructionPool)
     <= currentIndex + fuel)%nat ->
    out_of_fuel
      (Parser.updateInstructionPoolSymbolTable_loop fuel currentIndex
         indexedInstructionCount instructionPool errors) = false.
Proof.
  induction fuel as [|fuel IH];
    intros currentIndex indexedInstructionCount instructionPool errors Hfuel.
  - cbn [Parser.updateInstructionPoolSymbolTable_loop].
    destruct (InstructionPool.tokenStream instructionPool !! currentIndex)
      eqn:Hlookup; [| reflexivity].
    apply lookup_lt_Some in Hlookup. lia.
  - cbn [Parser.updateInstructionPoolSymbolTable_loop].
    destruct (InstructionPool.tokenStream instructionPool !! currentIndex)
      as [token|]; [| reflexivity].
    assert (Hnext : forall count,
      out_of_fuel
        (Parser.updateInstructionPoolSymbolTable_loop fuel (S currentIndex)
           count instructionPool errors) = false)
      by (intros count; apply IH; lia).
    destruct (TypedToken.tokenType token); try apply Hnext.
    destruct (Parser.updateSymbolTableFromLabel currentIndex instructionPool
                indexedInstructionCount errors)
      as [[instructionPool' errors']| |] eqn:Hupdate; cbn [rbind fst snd];
      [| reflexivity |].
    + apply IH. apply updateSymbolTableFromLabel_length in Hupdate. lia.
    + pose proof (out_of_fuel_updateSymbolTableFromLabel currentIndex
                    instructionPool indexedInstructionCount errors) as Hnot.
      now rewrite Hupdate in Hnot.
Qed.

Lemma out_of_fuel_updateInstructionPoolSymbolTable
    (instructionPool : InstructionPool.t) (errors : list message) :
  out_of_fuel
    (Parser.updateInstructionPoolSymbolTable instructionPool errors) = false.
Proof.
  apply out_of_fuel_updateInstructionPoolSymbolTable_loop. lia.
Qed.

Lemma out_of_fuel_updateProcedurePools (keys : list string) :
  forall (instructionPools : Parser.pools) (errors : list message),
    out_of_fuel
      (Parser.updateProcedurePools keys instructionPools errors) = false.
Proof.
  induction keys as [|key keys IH]; intros instructionPools errors;
    [reflexivity |].
  cbn [Parser.updateProcedurePools].
  apply out_of_fuel_rbind; [apply out_of_fuel_getitem |]. intros pool _.
  apply out_of_fuel_rbind;
    [apply out_of_fuel_updateInstructionPoolSymbolTable |].
  intros pe _. apply IH.
Qed.

Lemma out_of_fuel_preparse_loop (rest : list TypedToken.t) :
  forall (previousToken : TypedToken.t)
         (previousBlockScopeToken : option TypedToken.t)
         (errors : list message),
    out_of_fuel
      (Parser.preparse_loop rest previousToken previousBlockScopeToken
         errors) = false.
Proof.
  induction rest as [|currentToken rest IH];
    intros previousToken previousBlockScopeToken errors; [reflexivity |].
  cbn [Parser.preparse_loop].
  apply out_of_fuel_rbind.
  { unfold Parser.generateNextValidToken.
    now destruct (TypedToken.tokenType previousToken). }
  intros nextValidTokens _. apply IH.
Qed.

(** Extra (parser).  The fuel the model gives to the loops of the parser,
    one unit for each token of the stream they walk, is always enough:
    [parse] answers with a value or with an exception of the source on every
    stream of tokens. *)
Theorem parse_within_fuel (streamOfTokens : list TypedToken.t) :
  out_of_fuel (Parser.parse streamOfTokens) = false.
Proof.
  unfold Parser.parse.
  apply out_of_fuel_rbind.
  { unfold Parser.preparse.
    apply out_of_fuel_rbind; [apply out_of_fuel_preparse_loop |].
    intros se _. now destruct (fst se). }
  intros errors _.
  apply out_of_fuel_rbind; [now destruct errors |]. intros _ _.
  apply out_of_fuel_rbind.
  { unfold Parser.splitAndClassify.
    apply out_of_fuel_rbind.
    { apply out_of_fuel_getInstructionPools_loop. lia. }
    intros gp _. unfold Parser.updateSymbolTables.
    apply out_of_fuel_rbind;
      [apply out_of_fuel_updateInstructionPoolSymbolTable |].
    intros ge _.
    apply out_of_fuel_rbind; [apply out_of_fuel_updateProcedurePools |].
    reflexivity. }
  intros pge _.
  apply out_of_fuel_rbind; [| reflexivity].
  now destruct (snd pge).
Qed.

(** ** The fuel of the argument processor *)

Lemma takeRun_length (terminators rest : string) :
  (String.length (snd (ArgumentProcessor.takeRun terminators rest))
   <= String.length rest)%nat.
Proof.
  induction rest as [|c rest IH]; [simpl; lia |].
  cbn [ArgumentProcessor.takeRun].
  destruct (PyStr.mem c terminators); cbn [snd String.length]; lia.
Qed.

Lemma out_of_fuel_getTokens (fuel : nat) :
  forall (rest terminators : string) (row column : Z)
         (generatedStreamOfTokens : list UntypedToken.t),
    (String.length rest <= fuel)%nat ->
    out_of_fuel
      (ArgumentProcessor.getTokens fuel rest terminators row column
         generatedStreamOfTokens) = false.
Proof.
  induction fuel as [|fuel IH];
    intros rest terminators row column generatedStreamOfTokens Hfuel.
  - destruct rest; [reflexivity | cbn [String.length] in Hfuel; lia].
  - destruct rest as [|c rest]; [reflexivity |].
    cbn [String.length] in Hfuel. cbn [ArgumentProcessor.getTokens].
    destruct (PyStr.mem c terminators) eqn:Hc; cbn [negb].
    + apply IH. lia.
    + cbv zeta. apply IH. cbn [ArgumentProcessor.takeRun]. rewrite Hc.
      cbn [snd]. pose proof (takeRun_length terminators rest). lia.
Qed.

Lemma out_of_fuel_tokeniseArgument (directivePrefix tokenDelimiter : ascii)
    (currentArgument : string) (row column : Z) :
  out_of_fuel
    (ArgumentProcessor.tokeniseArgument directivePrefix tokenDelimiter
       currentArgument row column) = false.
Proof.
  unfold ArgumentProcessor.tokeniseArgument.
  destruct currentArgument as [|c0 rest]; [reflexivity |].
  destruct (Ascii.eqb c0 directivePrefix);
    apply out_of_fuel_getTokens; lia.
Qed.

Lemma out_of_fuel_parseTokenStream (minimumValuesTable : gmap string Z)
    (streamOfTokens : list UntypedToken.t) (table : gmap string Z)
    (errors : list message) :
  out_of_fuel
    (ArgumentProcessor.parseTokenStream minimumValuesTable streamOfTokens
       table errors) = false.
Proof.
  unfold ArgumentProcessor.parseTokenStream.
  destruct (negb (fst (ArgumentProcessor.isValidNumberOfTokens
                         streamOfTokens errors))); [reflexivity |].
  destruct streamOfTokens as [|option [|value [|third rest]]];
    try reflexivity.
  destruct (negb (fst (ArgumentProcessor.isValidConfigurationOption table
                         option _))); [reflexivity |].
  apply out_of_fuel_rbind.
  { unfold ArgumentProcessor.containsNoSign.
    destruct (UntypedToken.tokenValue value) as [|c s]; [reflexivity |].
    destruct c as [[] [] [] [] [] [] [] []]; reflexivity. }
  intros se _. destruct (negb (fst se)); [reflexivity |].
  destruct (negb (fst (ArgumentProcessor.isValidConfigurationValue value _)));
    [reflexivity |].
  unfold ArgumentProcessor.updateSystemConfigurationTable.
  apply out_of_fuel_rbind; [apply out_of_fuel_int |]. intros v _.
  apply out_of_fuel_rbind.
  { unfold getitem. now destruct (minimumValuesTable !! _). }
  intros minimum _. now destruct (v <? minimum).
Qed.

(** Extra (argument processor).  The fuel the model gives to the tokeniser
    of an argument, one unit for each of its characters, is always enough:
    [argumentProcess] answers with a table or with an exception of the
    source on every list of arguments. *)
Theorem argumentProcess_within_fuel (listOfArguments : list string)
    (directivePrefix tokenDelimiter : string)
    (systemConfigurationTable minimumValuesTable : gmap string Z) :
  out_of_fuel
    (ArgumentProcessor.argumentProcess listOfArguments directivePrefix
       tokenDelimiter systemConfigurationTable minimumValuesTable) = false.
Proof.
  unfold ArgumentProcessor.argumentProcess.
  destruct directivePrefix as [|prefix ?]; [reflexivity |].
  destruct tokenDelimiter as [|delimiter ?]; [reflexivity |].
  apply out_of_fuel_rbind.
  - generalize (ArgumentProcessor.mkState systemConfigurationTable [] 1 1).
    induction listOfArguments as [|argument rest IH]; intros st;
      [reflexivity |].
    cbn [ArgumentProcessor.argumentProcess_loop].
    apply out_of_fuel_rbind; [apply out_of_fuel_tokeniseArgument |].
    intros tc _.
    apply out_of_fuel_rbind; [apply out_of_fuel_parseTokenStream |].
    intros te _. apply IH.
  - intros st _. apply out_of_fuel_rbind; [| reflexivity].
    now destruct (ArgumentProcessor.processingErrors st).
Qed.

(** * Further properties of the code *)

(** ** binarystring.py: the two encoders *)

Lemma is_binary_app (s t : string) :
  is_binary (s +:+ t) = is_binary s && is_binary t.
Proof.
  induction s as [|c s IH]; [reflexivity |].
  rewrite str_app_cons. cbn [is_binary]. rewrite IH. now rewrite andb_assoc.
Qed.

Lemma is_binary_zeros (n : nat) : is_binary (PyStr.repeat_nat "0" n) = true.
Proof.
  induction n as [|n IH]; [reflexivity |].
  rewrite repeat_nat_S. cbn [is_binary]. exact IH.
Qed.

Lemma is_binary_pos_digits (p : positive) :
  is_binary (BinaryString.pos_digits p) = true.
Proof.
  induction p as [p IH | p IH |]; cbn [BinaryString.pos_digits];
    [| | reflexivity]; rewrite is_binary_app, IH; reflexivity.
Qed.

Lemma is_binary_bin (k : Z) : is_binary (BinaryString.bin k) = true.
Proof. destruct k; try reflexivity. apply is_binary_pos_digits. Qed.

Lemma int2_acc_is_binary (s : string) (acc k : Z) :
  BinaryString.int2_acc acc s = Ok k -> is_binary s = true.
Proof.
  revert acc. induction s as [|c s IH]; intros acc H; [reflexivity |].
  cbn [BinaryString.int2_acc] in H. cbn [is_binary].
  destruct (Ascii.eqb c "0"); [exact (IH _ H) |].
  destruct (Ascii.eqb c "1"); [exact (IH _ H) | discriminate].
Qed.

Lemma is_binary_int2_acc (s : string) (acc : Z) :
  is_binary s = true -> exists k, BinaryString.int2_acc acc s = Ok k.
Proof.
  revert acc. induction s as [|c s IH]; intros acc H; [now exists acc |].
  cbn [is_binary] in H. apply andb_prop in H as [Hc Hs].
  cbn [BinaryString.int2_acc].
  destruct (Ascii.eqb c "0"); [now apply IH |].
  destruct (Ascii.eqb c "1"); [now apply IH | discriminate].
Qed.

(** The padded binary digits of a number below [2^n]: [n] characters. *)
Lemma padBinary_bin_word (k n : Z) :
  1 <= n -> 0 <= k < 2 ^ n ->
  let word :=
    BinaryString.padBinary (BinaryString.bin k)
      (n - PyStr.len (BinaryString.bin k)) "0" in
  PyStr.len word = n /\ is_binary word = true
  /\ BinaryString.int2 word = Ok k.
Proof.
  intros Hn Hk word. subst word.
  pose proof (bin_len k n Hn Hk) as Hlen.
  split; [| split].
  - unfold BinaryString.padBinary. rewrite len_app, len_repeat by lia. lia.
  - unfold BinaryString.padBinary, PyStr.repeat.
    now rewrite is_binary_app, is_binary_zeros, is_binary_bin.
  - apply int2_padded. lia.
Qed.

Lemma unsignedInteger_word (n W : Z) :
  PyStr.len (BinaryString.unsignedInteger n W) = Z.max 1 W
  /\ is_binary (BinaryString.unsignedInteger n W) = true
  /\ BinaryString.int2 (BinaryString.unsignedInteger n W)
     = Ok (n mod 2 ^ Z.max 1 W).
Proof.
  unfold BinaryString.unsignedInteger, BinaryString.toBinary.
  assert (HW : (if W <? 1 then 1 else W) = Z.max 1 W).
  { destruct (W <? 1) eqn:H; [apply Z.ltb_lt in H | apply Z.ltb_ge in H];
      lia. }
  rewrite HW.
  assert (Hpow : 0 < 2 ^ Z.max 1 W) by (apply Z.pow_pos_nonneg; lia).
  pose proof (Z.mod_pos_bound n (2 ^ Z.max 1 W) Hpow) as Hb.
  rewrite Z.abs_eq by lia.
  apply (padBinary_bin_word (n mod 2 ^ Z.max 1 W) (Z.max 1 W)); lia.
Qed.

Lemma signedInteger_shape (n W : Z) :
  exists magnitude,
    BinaryString.signedInteger n W
    = (if n <? 0 then "1" else "0") +:+ magnitude
    /\ PyStr.len magnitude = Z.max 2 W - 1
    /\ is_binary magnitude = true
    /\ BinaryString.int2 magnitude = Ok (Z.abs n mod 2 ^ (Z.max 2 W - 1)).
Proof.
  unfold BinaryString.signedInteger, BinaryString.toBinary.
  assert (HW : (if W <? 2 then 2 else W) = Z.max 2 W).
  { destruct (W <? 2) eqn:H; [apply Z.ltb_lt in H | apply Z.ltb_ge in H];
      lia. }
  rewrite HW.
  assert (Habs : (if n <? 0 then Z.abs n else n) = Z.abs n).
  { destruct (n <? 0) eqn:H; [reflexivity |]. apply Z.ltb_ge in H. lia. }
  rewrite Habs.
  assert (Hpow : 0 < 2 ^ (Z.max 2 W - 1)) by (apply Z.pow_pos_nonneg; lia).
  pose proof (Z.mod_pos_bound (Z.abs n) (2 ^ (Z.max 2 W - 1)) Hpow) as Hb.
  rewrite (Z.abs_eq (Z.abs n mod 2 ^ (Z.max 2 W - 1))) by lia.
  eexists. split; [reflexivity |].
  replace (Z.max 2 W - PyStr.len (BinaryString.bin
                                   (Z.abs n mod 2 ^ (Z.max 2 W - 1))) - 1)
    with (Z.max 2 W - 1
          - PyStr.len (BinaryString.bin (Z.abs n mod 2 ^ (Z.max 2 W - 1))))
    by lia.
  apply (padBinary_bin_word (Z.abs n mod 2 ^ (Z.max 2 W - 1))
           (Z.max 2 W - 1)); lia.
Qed.

Lemma signedInteger_word (n W : Z) :
  PyStr.len (BinaryString.signedInteger n W) = Z.max 2 W
  /\ is_binary (BinaryString.signedInteger n W) = true.
Proof.
  destruct (signedInteger_shape n W) as (magnitude & -> & Hlen & Hbin & _).
  rewrite len_app, is_binary_app, Hlen, Hbin.
  destruct (n <? 0); split; try reflexivity;
    rewrite len_cons, len_nil; lia.
Qed.

(** The value a signed word reads back as. *)
Lemma signedInteger_value (n W : Z) :
  BinaryString.readSignedInteger (BinaryString.signedInteger n W)
  = Ok (Z.sgn n * (Z.abs n mod 2 ^ (Z.max 2 W - 1))).
Proof.
  destruct (signedInteger_shape n W) as (magnitude & -> & Hlen & _ & Hread).
  unfold BinaryString.readSignedInteger.
  destruct (n <? 0) eqn:Hn.
  - apply Z.ltb_lt in Hn. rewrite str_app_cons, str_app_nil_l.
    cbn [PyStr.first PyStr.tail rbind]. rewrite Hread. cbn [rbind].
    rewrite (Z.sgn_neg n) by lia. reflexivity.
  - apply Z.ltb_ge in Hn. rewrite str_app_cons, str_app_nil_l.
    cbn [PyStr.first PyStr.tail rbind]. rewrite Hread. cbn [rbind].
    destruct (Z.eq_dec n 0) as [-> | Hne].
    + rewrite Z.mod_0_l; [reflexivity |].
      apply Z.pow_nonzero; lia.
    + rewrite (Z.sgn_pos n) by lia. reflexivity.
Qed.

(** Extra (binarystring.py).  For every integer [n] and every requested
    width [W], [unsignedInteger n W] is a string of exactly [max 1 W]
    binary digits, and [readUnsignedInteger] reads it back as [n] reduced
    modulo [2 ^ max 1 W]: a value that fits its width makes the round trip
    unchanged, a negative value comes back as its two's complement. *)
Theorem readUnsignedInteger_unsignedInteger (n W : Z) :
  PyStr.len (BinaryString.unsignedInteger n W) = Z.max 1 W
  /\ is_binary (BinaryString.unsignedInteger n W) = true
  /\ BinaryString.readUnsignedInteger (BinaryString.unsignedInteger n W)
     = Ok (n mod 2 ^ Z.max 1 W)
  /\ (0 <= n < 2 ^ Z.max 1 W ->
      BinaryString.readUnsignedInteger (BinaryString.unsignedInteger n W)
      = Ok n).
Proof.
  destruct (unsignedInteger_word n W) as (Hlen & Hbin & Hread).
  repeat split; try assumption.
  intros Hn. unfold BinaryString.readUnsignedInteger. rewrite Hread.
  now rewrite Z.mod_small.
Qed.

(** Extra (binarystring.py).  For every integer [n] and every requested
    width [W], [signedInteger n W] is a string of exactly [max 2 W] binary
    digits whose first digit is ['1'] exactly when [n] is negative; a
    value whose magnitude fits [max 2 W - 1] bits is read back unchanged
    by [readSignedInteger]. *)
Theorem signedInteger_is_a_word (n W : Z) :
  PyStr.len (BinaryString.signedInteger n W) = Z.max 2 W
  /\ is_binary (BinaryString.signedInteger n W) = true
  /\ PyStr.first (BinaryString.signedInteger n W)
     = Ok (if n <? 0 then "1" else "0")
  /\ (Z.abs n < 2 ^ (Z.max 2 W - 1) ->
      BinaryString.readSignedInteger (BinaryString.signedInteger n W)
      = Ok n).
Proof.
  destruct (signedInteger_word n W) as (Hlen & Hbin).
  repeat split; try assumption.
  - destruct (signedInteger_shape n W) as (magnitude & -> & _).
    now destruct (n <? 0).
  - intros Hn. rewrite signedInteger_value.
    rewrite Z.mod_small by lia. f_equal.
    rewrite Z.mul_comm. apply Z.abs_sgn.
Qed.

(** ** binarystring.py: what the shifts do to the value of a word *)

Lemma snoc_decompose (s : string) :
  s <> EmptyString ->
  exists t c, s = t +:+ String c EmptyString.
Proof.
  induction s as [|d s IH]; [congruence |]. intros _.
  destruct s as [|e s].
  - now exists EmptyString, d.
  - destruct IH as (t & c & Ht); [discriminate |].
    exists (String d t), c. rewrite str_app_cons. now rewrite <- Ht.
Qed.

Lemma int2_nonempty (s : string) :
  s <> EmptyString -> BinaryString.int2 s = BinaryString.int2_acc 0 s.
Proof. destruct s; [congruence | reflexivity]. Qed.


Lemma int2_acc_bound (s : string) (k : Z) :
  BinaryString.int2_acc 0 s = Ok k -> 0 <= k < 2 ^ PyStr.len s.
Proof.
  revert k. induction s as [|c s IH]; intros k H.
  - cbn in H. injection H as <-. rewrite len_nil. cbn. lia.
  - cbn [BinaryString.int2_acc] in H. rewrite len_cons.
    assert (Hpow : 2 ^ (1 + PyStr.len s) = 2 * 2 ^ PyStr.len s).
    { rewrite Z.pow_add_r by (pose proof (len_nonneg s); lia). lia. }
    destruct (Ascii.eqb c "0").
    + change (2 * 0) with 0 in H. apply IH in H. lia.
    + destruct (Ascii.eqb c "1"); [| discriminate].
      rewrite int2_acc_from in H.
      destruct (BinaryString.int2_acc 0 s) as [k0| |] eqn:Hk0;
        [| discriminate | discriminate].
      cbn [rbind] in H. injection H as <-.
      specialize (IH k0 eq_refl). lia.
Qed.

(** The last digit of a binary string and the digits before it. *)
Lemma int2_acc_snoc (t : string) (c : ascii) (v : Z) :
  BinaryString.int2_acc 0 (t +:+ String c EmptyString) = Ok v ->
  exists a,
    BinaryString.int2_acc 0 t = Ok a
    /\ String c EmptyString = bit (v mod 2) /\ a = v / 2.
Proof.
  rewrite int2_acc_app. intros H.
  destruct (BinaryString.int2_acc 0 t) as [a| |]; [| discriminate..].
  cbn [rbind BinaryString.int2_acc] in H. exists a. split; [reflexivity |].
  destruct (Ascii.eqb c "0") eqn:H0.
  - apply Ascii.eqb_eq in H0. subst c. injection H as <-.
    replace (2 * a) with (a * 2) by lia.
    rewrite Z.mod_mul, Z.div_mul by lia. now split.
  - destruct (Ascii.eqb c "1") eqn:H1; [| discriminate].
    apply Ascii.eqb_eq in H1. subst c. injection H as <-.
    replace (2 * a + 1) with (1 + a * 2) by lia.
    rewrite Z.mod_add, Z.div_add by lia. now split.
Qed.






Lemma is_binary_first (c : ascii) (t : string) :
  is_binary (String c t) = true ->
  (c = "0"%char \/ c = "1"%char) /\ is_binary t = true.
Proof.
  cbn [is_binary]. intros H. apply andb_prop in H as [Hc Ht].
  split; [| exact Ht]. apply orb_prop in Hc as [Hc | Hc];
    apply Ascii.eqb_eq in Hc; auto.
Qed.

(** Extra (binarystring.py).  On a word of two binary digits or more that
    [readSignedInteger] reads as [v], the arithmetic shift right keeps the
    width and the sign digit and hands the last digit out as the carry.  It
    halves the value of a word whose sign digit is ['0']; on a word whose
    sign digit is ['1'] it copies the sign digit into the magnitude, so the
    result reads as [-(2 ^ (width - 2) + |v| / 2)].  The arithmetic shift
    left hands the second digit out as the carry and rotates the word
    exactly like the circular shift left: the sign digit goes to the end. *)
Theorem arithmetic_shifts_on_sign_magnitude (s : string) (v : Z) :
  is_binary s = true ->
  2 <= PyStr.len s ->
  BinaryString.readSignedInteger s = Ok v ->
  exists sign carry s' carry' rotated,
    PyStr.first s = Ok sign
    /\ BinaryString.arithmeticShiftRight s = Ok (carry, s')
    /\ PyStr.last s = Ok carry
    /\ PyStr.len s' = PyStr.len s
    /\ PyStr.first s' = Ok sign
    /\ BinaryString.readSignedInteger s'
       = Ok (if String.eqb sign "0" then v / 2
             else - (2 ^ (PyStr.len s - 2) + (- v) / 2))
    /\ BinaryString.arithmeticShiftLeft s = Ok (carry', rotated)
    /\ PyStr.second s = Ok carry'
    /\ BinaryString.circularShiftLeft s = Ok rotated.
Proof.
  intros Hbin Hlen Hread.
  destruct s as [|c t]; [rewrite len_nil in Hlen; lia |].
  destruct (is_binary_first c t Hbin) as [Hc Ht].
  rewrite len_cons in Hlen.
  assert (Hne : t <> EmptyString).
  { intros ->. rewrite len_nil in Hlen. lia. }
  destruct (snoc_decompose t Hne) as (u & d & ->).
  unfold BinaryString.readSignedInteger in Hread.
  cbn [PyStr.first PyStr.tail rbind] in Hread.
  rewrite int2_nonempty in Hread by exact Hne.
  destruct (BinaryString.int2_acc 0 (u +:+ String d EmptyString))
    as [k| |] eqn:Hk; [| discriminate..].
  cbn [rbind] in Hread.
  destruct (int2_acc_snoc u d k Hk) as (a & Ha & Hd & ->).
  pose proof (int2_acc_bound _ _ Hk) as Hkb.
  assert (Hlast : PyStr.last (String c (u +:+ String d EmptyString))
                  = Ok (String d EmptyString)).
  { change (String c (u +:+ String d EmptyString))
      with (String c u +:+ String d EmptyString).
    apply last_app_char. }
  assert (Hinit : PyStr.init (String c (u +:+ String d EmptyString))
                  = String c u).
  { change (String c (u +:+ String d EmptyString))
      with (String c u +:+ String d EmptyString).
    apply init_app_char. }
  assert (Hsecond : exists e,
            PyStr.second (String c (u +:+ String d EmptyString))
            = Ok (String e EmptyString)).
  { destruct u; [now exists d | eexists; reflexivity]. }
  destruct Hsecond as (e & Hsecond).
  exists (String c EmptyString), (String d EmptyString), (String c (String c u)),
    (String e EmptyString),
    ((u +:+ String d EmptyString) +:+ String c EmptyString).
  split; [reflexivity |].
  split.
  { unfold BinaryString.arithmeticShiftRight. rewrite Hlast, Hinit.
    reflexivity. }
  split; [exact Hlast |].
  split.
  { rewrite !len_cons, len_app, len_cons, len_nil. lia. }
  split; [reflexivity |].
  split.
  { unfold BinaryString.readSignedInteger.
    cbn [PyStr.first PyStr.tail rbind].
    rewrite int2_nonempty by discriminate.
    rewrite len_cons, len_app, len_cons, len_nil.
    replace (1 + (PyStr.len u + (1 + 0)) - 2) with (PyStr.len u) by lia.
    destruct Hc as [-> | ->].
    - change (String.eqb "0" "0") with true in *. cbv iota in *.
      injection Hread as <-.
      change (BinaryString.int2_acc 0 (String "0" u))
        with (BinaryString.int2_acc 0 u).
      rewrite Ha. cbn [rbind]. f_equal. rewrite !Z.mul_1_l. reflexivity.
    - change (String.eqb "1" "0") with false in *. cbv iota in *.
      injection Hread as <-.
      change (BinaryString.int2_acc 0 (String "1" u))
        with (BinaryString.int2_acc (2 * 0 + 1) u).
      rewrite (int2_acc_from u (2 * 0 + 1)), Ha. cbn [rbind]. f_equal.
      replace (- (-1 * k)) with k by lia. lia. }
  split.
  { unfold BinaryString.arithmeticShiftLeft. rewrite Hsecond.
    reflexivity. }
  split; [exact Hsecond | reflexivity].
Qed.

Lemma arithmetic_shifts_on_sign_magnitude_witness :
  exists sign carry s' carry' rotated,
    PyStr.first "10000010" = Ok sign
    /\ BinaryString.arithmeticShiftRight "10000010" = Ok (carry, s')
    /\ PyStr.last "10000010" = Ok carry
    /\ PyStr.len s' = PyStr.len "10000010"
    /\ PyStr.first s' = Ok sign
    /\ BinaryString.readSignedInteger s'
       = Ok (if String.eqb sign "0" then (-2) / 2
             else - (2 ^ (PyStr.len "10000010" - 2) + (- -2) / 2))
    /\ BinaryString.arithmeticShiftLeft "10000010" = Ok (carry', rotated)
    /\ PyStr.second "10000010" = Ok carry'
    /\ BinaryString.circularShiftLeft "10000010" = Ok rotated.
Proof.
  apply (arithmetic_shifts_on_sign_magnitude "10000010" (-2)).
  - reflexivity.
  - vm_compute. discriminate.
  - reflexivity.
Defined.

(** ** machineoperations.py: the circular shifts *)

Lemma circularShiftLeft_snoc (c : ascii) (t : string) :
  BinaryString.circularShiftLeft (String c t)
  = Ok (t +:+ String c EmptyString).
Proof. reflexivity. Qed.

Lemma circularShiftRight_snoc (t : string) (c : ascii) :
  BinaryString.circularShiftRight (t +:+ String c EmptyString)
  = Ok (String c t).
Proof.
  unfold BinaryString.circularShiftRight.
  now rewrite last_app_char, init_app_char.
Qed.

Lemma circularLoop_snoc (step : string -> result string) (n : nat)
    (value : string) :
  MachineOperations.circularLoop step (S n) value
  = rbind (MachineOperations.circularLoop step n value) step.
Proof.
  revert value. induction n as [|n IH]; intros value.
  - cbn [MachineOperations.circularLoop rbind].
    now destruct (step value).
  - change (MachineOperations.circularLoop step (S (S n)) value)
      with (rbind (step value)
              (fun v => MachineOperations.circularLoop step (S n) v)).
    change (MachineOperations.circularLoop step (S n) value)
      with (rbind (step value)
              (fun v => MachineOperations.circularLoop step n v)).
    destruct (step value) as [v| |]; cbn [rbind]; [apply IH | reflexivity..].
Qed.

(** [n] circular shifts to the left, then [n] to the right. *)
Lemma circularLoop_left_right (n : nat) (value : string) :
  value <> EmptyString ->
  exists shifted,
    MachineOperations.circularLoop BinaryString.circularShiftLeft n value
    = Ok shifted
    /\ shifted <> EmptyString
    /\ PyStr.len shifted = PyStr.len value
    /\ MachineOperations.circularLoop BinaryString.circularShiftRight n
         shifted = Ok value.
Proof.
  revert value. induction n as [|n IH]; intros value Hne.
  - exists value. repeat split; auto.
  - destruct value as [|c t]; [congruence |].
    destruct (IH (t +:+ String c EmptyString) (app_char_not_nil t c))
      as (shifted & Hleft & Hshifted & Hlen & Hright).
    exists shifted. split; [| split; [exact Hshifted | split]].
    + cbn [MachineOperations.circularLoop].
      rewrite circularShiftLeft_snoc. exact Hleft.
    + rewrite Hlen, len_app, !len_cons, len_nil. lia.
    + rewrite circularLoop_snoc, Hright. cbn [rbind].
      apply circularShiftRight_snoc.
Qed.

Lemma circularLoop_right_left (n : nat) (value : string) :
  value <> EmptyString ->
  exists shifted,
    MachineOperations.circularLoop BinaryString.circularShiftRight n value
    = Ok shifted
    /\ shifted <> EmptyString
    /\ PyStr.len shifted = PyStr.len value
    /\ MachineOperations.circularLoop BinaryString.circularShiftLeft n
         shifted = Ok value.
Proof.
  revert value. induction n as [|n IH]; intros value Hne.
  - exists value. repeat split; auto.
  - destruct (snoc_decompose value Hne) as (t & c & ->).
    destruct (IH (String c t) ltac:(discriminate))
      as (shifted & Hright & Hshifted & Hlen & Hleft).
    exists shifted. split; [| split; [exact Hshifted | split]].
    + cbn [MachineOperations.circularLoop].
      rewrite circularShiftRight_snoc. exact Hright.
    + rewrite Hlen, len_app, !len_cons, len_nil. lia.
    + rewrite circularLoop_snoc, Hleft. cbn [rbind].
      apply circularShiftLeft_snoc.
Qed.

(** As many circular shifts to the left as the first part has characters
    bring that part to the end. *)
Lemma circularLoop_rotate (front back : string) :
  MachineOperations.circularLoop BinaryString.circularShiftLeft
    (String.length front) (front +:+ back) = Ok (back +:+ front).
Proof.
  revert back. induction front as [|c front IH]; intros back.
  - now rewrite str_app_nil_r.
  - cbn [String.length MachineOperations.circularLoop].
    rewrite str_app_cons, circularShiftLeft_snoc. cbn [rbind].
    rewrite str_app_assoc, IH, str_app_assoc. reflexivity.
Qed.

Lemma with_pool_same (m : MachineOperations.t) :
  MachineOperations.with_pool m (MachineOperations.memoryPool m) = m.
Proof. now destruct m. Qed.

Lemma with_pool_twice (m : MachineOperations.t) (pool pool' : gmap Z string) :
  MachineOperations.with_pool (MachineOperations.with_pool m pool) pool'
  = MachineOperations.with_pool m pool'.
Proof. reflexivity. Qed.

(** Extra (machineoperations.py, binarystring.py).  [CSR] undoes [CSL] and
    [CSL] undoes [CSR]: on a destination cell that is not empty, shifting
    [n] times one way and then [n] times the other way gives the machine
    back as it was.  [CSL] by the width of the cell is the identity. *)
Theorem circular_shifts_undo_each_other (m : MachineOperations.t)
    (destinationOperand n : Z) (cell : string) :
  MachineOperations.memoryPool m !! destinationOperand = Some cell ->
  cell <> EmptyString ->
  (exists m1,
     MachineOperations.CSL m (PInt n) destinationOperand = Ok m1
     /\ MachineOperations.CSR m1 (PInt n) destinationOperand = Ok m)
  /\ (exists m1,
        MachineOperations.CSR m (PInt n) destinationOperand = Ok m1
        /\ MachineOperations.CSL m1 (PInt n) destinationOperand = Ok m)
  /\ MachineOperations.CSL m (PInt (PyStr.len cell)) destinationOperand
     = Ok m.
Proof.
  intros Hcell Hne.
  assert (Hback : forall shifted,
    MachineOperations.with_pool
      (MachineOperations.with_pool m
         (<[destinationOperand := shifted]> (MachineOperations.memoryPool m)))
      (<[destinationOperand := cell]>
         (<[destinationOperand := shifted]> (MachineOperations.memoryPool m)))
    = m).
  { intros shifted. rewrite with_pool_twice, insert_insert_eq.
    rewrite (insert_id _ _ _ Hcell). apply with_pool_same. }
  unfold MachineOperations.CSL, MachineOperations.CSR,
    MachineOperations.circularShift, getitem.
  rewrite Hcell. cbn [rbind as_int].
  split; [| split].
  - destruct (circularLoop_left_right (Z.to_nat n) cell Hne)
      as (shifted & Hleft & _ & _ & Hright).
    rewrite Hleft. cbn [rbind]. eexists. split; [reflexivity |].
    cbn [MachineOperations.memoryPool MachineOperations.with_pool].
    rewrite lookup_insert_eq. cbn [rbind]. rewrite Hright. cbn [rbind].
    f_equal. apply Hback.
  - destruct (circularLoop_right_left (Z.to_nat n) cell Hne)
      as (shifted & Hright & _ & _ & Hleft).
    rewrite Hright. cbn [rbind]. eexists. split; [reflexivity |].
    cbn [MachineOperations.memoryPool MachineOperations.with_pool].
    rewrite lookup_insert_eq. cbn [rbind]. rewrite Hleft. cbn [rbind].
    f_equal. apply Hback.
  - unfold PyStr.len. rewrite Nat2Z.id.
    pose proof (circularLoop_rotate cell EmptyString) as Hrotate.
    rewrite str_app_nil_r in Hrotate. cbn in Hrotate.
    rewrite Hrotate. cbn [rbind]. f_equal.
    rewrite (insert_id _ _ _ Hcell). apply with_pool_same.
Qed.

Lemma circular_shifts_undo_each_other_witness :
  (exists m1,
     MachineOperations.CSL small_machine (PInt 3) (-1) = Ok m1
     /\ MachineOperations.CSR m1 (PInt 3) (-1) = Ok small_machine)
  /\ (exists m1,
        MachineOperations.CSR small_machine (PInt 3) (-1) = Ok m1
        /\ MachineOperations.CSL m1 (PInt 3) (-1) = Ok small_machine)
  /\ MachineOperations.CSL small_machine (PInt (PyStr.len "10000001")) (-1)
     = Ok small_machine.
Proof.
  apply (circular_shifts_undo_each_other small_machine (-1) 3 "10000001").
  - reflexivity.
  - discriminate.
Defined.

(** ** machineoperations.py: calls and returns, arithmetic *)

Lemma register_addresses_differ (m : MachineOperations.t) :
  MachineOperations.programCounterAddress m
  <> MachineOperations.returnRegisterAddress m
  /\ MachineOperations.programCounterAddress m
     <> MachineOperations.flagRegisterAddress m
  /\ MachineOperations.returnRegisterAddress m
     <> MachineOperations.flagRegisterAddress m.
Proof.
  unfold MachineOperations.programCounterAddress,
    MachineOperations.returnRegisterAddress,
    MachineOperations.flagRegisterAddress.
  change KeyWords.PROGRAM_COUNTER_OFFSET with 2.
  change KeyWords.RETURN_REGISTER_OFFSET with 3.
  change KeyWords.FLAGS_REGISTER_OFFSET with 4.
  lia.
Qed.

(** Extra (machineoperations.py).  [CALL] saves the Program Counter cell in
    the Return Register and loads the target into the Program Counter;
    [RET] after it puts the saved cell back.  After the pair the memory
    pool is the one from before the call, but for the Return Register,
    which holds the return address. *)
Theorem call_then_ret_comes_back (m : MachineOperations.t)
    (target destinationOperand destinationOperand' : Z)
    (sourceOperand' : pyval) (pc : string) :
  MachineOperations.memoryPool m !! MachineOperations.programCounterAddress m
  = Some pc ->
  exists m1 m2,
    MachineOperations.CALL m (PInt target) destinationOperand = Ok m1
    /\ MachineOperations.memoryPool m1
         !! MachineOperations.programCounterAddress m
       = Some (BinaryString.signedInteger target
                 (MachineOperations.totalNumberOfBits m))
    /\ MachineOperations.memoryPool m1
         !! MachineOperations.returnRegisterAddress m = Some pc
    /\ MachineOperations.RET m1 sourceOperand' destinationOperand' = Ok m2
    /\ MachineOperations.memoryPool m2
       = <[MachineOperations.returnRegisterAddress m := pc]>
           (MachineOperations.memoryPool m).
Proof.
  intros Hpc.
  destruct (register_addresses_differ m) as (Hne & _ & _).
  unfold MachineOperations.CALL, getitem. rewrite Hpc. cbn [rbind as_int].
  eexists _, _. split; [reflexivity |].
  cbn [MachineOperations.memoryPool MachineOperations.with_pool].
  split; [apply lookup_insert_eq |].
  split.
  { rewrite lookup_insert_ne by exact Hne. apply lookup_insert_eq. }
  unfold MachineOperations.RET, getitem.
  change (MachineOperations.returnRegisterAddress
            (MachineOperations.with_pool m _))
    with (MachineOperations.returnRegisterAddress m).
  change (MachineOperations.programCounterAddress
            (MachineOperations.with_pool m _))
    with (MachineOperations.programCounterAddress m).
  cbn [MachineOperations.memoryPool MachineOperations.with_pool].
  rewrite lookup_insert_ne by exact Hne. rewrite lookup_insert_eq.
  cbn [rbind]. split; [reflexivity |].
  rewrite insert_insert_eq. apply insert_id.
  rewrite lookup_insert_ne by congruence. exact Hpc.
Qed.

Lemma call_then_ret_comes_back_witness :
  exists m1 m2,
    MachineOperations.CALL small_machine (PInt 3) 0 = Ok m1
    /\ MachineOperations.memoryPool m1
         !! MachineOperations.programCounterAddress small_machine
       = Some (BinaryString.signedInteger 3
                 (MachineOperations.totalNumberOfBits small_machine))
    /\ MachineOperations.memoryPool m1
         !! MachineOperations.returnRegisterAddress small_machine
       = Some "00000010"
    /\ MachineOperations.RET m1 (PInt 0) 0 = Ok m2
    /\ MachineOperations.memoryPool m2
       = <[MachineOperations.returnRegisterAddress small_machine
             := "00000010"]>
           (MachineOperations.memoryPool small_machine).
Proof.
  apply (call_then_ret_comes_back small_machine 3 0 0 (PInt 0) "00000010").
  reflexivity.
Defined.

(** Extra (machineoperations.py).  [ADD], [SUB], [AND], [OR] and [XOR]
    read the destination cell as a signed number, combine it with the
    source operand and write the result back as a signed word: the new cell
    reads as the result when its magnitude fits the width less one digit,
    and as the result's magnitude reduced modulo [2 ^ (width - 1)], with
    the sign kept, when it does not.  No other cell changes. *)
Theorem arithmetic_instructions_store_the_result
    (operation : MachineOperations.t -> pyval -> Z -> result MachineOperations.t)
    (op : Z -> Z -> Z) (m : MachineOperations.t)
    (sourceOperand destinationOperand old : Z) (cell : string) :
  In (operation, op) arithmetic_instructions ->
  MachineOperations.memoryPool m !! destinationOperand = Some cell ->
  BinaryString.readSignedInteger cell = Ok old ->
  let W := MachineOperations.totalNumberOfBits m in
  let r := op old sourceOperand in
  exists m',
    operation m (PInt sourceOperand) destinationOperand = Ok m'
    /\ MachineOperations.memoryPool m'
       = <[destinationOperand := BinaryString.signedInteger r W]>
           (MachineOperations.memoryPool m)
    /\ BinaryString.readSignedInteger (BinaryString.signedInteger r W)
       = Ok (Z.sgn r * (Z.abs r mod 2 ^ (Z.max 2 W - 1)))
    /\ (Z.abs r < 2 ^ (Z.max 2 W - 1) ->
        BinaryString.readSignedInteger (BinaryString.signedInteger r W)
        = Ok r).
Proof.
  intros Hin Hcell Hold W r.
  assert (Hop : operation = MachineOperations.arithmetic op).
  { unfold arithmetic_instructions in Hin. cbn [In] in Hin.
    destruct Hin as [H | [H | [H | [H | [H | []]]]]];
      injection H as <- <-; reflexivity. }
  subst operation. unfold MachineOperations.arithmetic, getitem.
  rewrite Hcell. cbn [rbind]. rewrite Hold. cbn [rbind as_int].
  eexists. split; [reflexivity |]. split; [reflexivity |].
  split; [apply signedInteger_value |].
  intros Hfits. rewrite signedInteger_value.
  rewrite Z.mod_small by lia. f_equal.
  rewrite Z.mul_comm. apply Z.abs_sgn.
Qed.

Lemma arithmetic_instructions_store_the_result_witness :
  exists m',
    MachineOperations.SUB small_machine (PInt 7) (-2) = Ok m'
    /\ MachineOperations.memoryPool m'
       = <[-2 := BinaryString.signedInteger (5 - 7) 8]>
           (MachineOperations.memoryPool small_machine)
    /\ BinaryString.readSignedInteger (BinaryString.signedInteger (5 - 7) 8)
       = Ok (Z.sgn (5 - 7) * (Z.abs (5 - 7) mod 2 ^ (Z.max 2 8 - 1)))
    /\ (Z.abs (5 - 7) < 2 ^ (Z.max 2 8 - 1) ->
        BinaryString.readSignedInteger (BinaryString.signedInteger (5 - 7) 8)
        = Ok (5 - 7)).
Proof.
  apply (arithmetic_instructions_store_the_result MachineOperations.SUB Z.sub
           small_machine 7 (-2) 5 "00000101").
  - right. left. reflexivity.
  - reflexivity.
  - reflexivity.
Defined.

(** ** machineoperations.py: every cell stays a word *)

Lemma word_signedInteger (n W : Z) :
  2 <= W -> word W (BinaryString.signedInteger n W).
Proof.
  intros HW. destruct (signedInteger_word n W) as [Hlen Hbin].
  split; [rewrite Hlen; lia | exact Hbin].
Qed.

Lemma word_unsignedInteger (n W : Z) :
  1 <= W -> word W (BinaryString.unsignedInteger n W).
Proof.
  intros HW. destruct (unsignedInteger_word n W) as (Hlen & Hbin & _).
  split; [rewrite Hlen; lia | exact Hbin].
Qed.

Lemma words_insert (W : Z) (pool : gmap Z string) (address : Z)
    (cell : string) :
  word W cell -> words W pool -> words W (<[address := cell]> pool).
Proof. intros Hcell Hpool. now apply map_Forall_insert_2. Qed.

Lemma words_lookup (W : Z) (pool : gmap Z string) (address : Z)
    (cell : string) :
  words W pool -> pool !! address = Some cell -> word W cell.
Proof. intros Hpool Hcell. exact (Hpool address cell Hcell). Qed.

Lemma word_cons (W : Z) (c : ascii) (t : string) :
  word W (String c t) <->
  (c = "0"%char \/ c = "1"%char) /\ word (W - 1) t.
Proof.
  unfold word. rewrite len_cons. split.
  - intros [Hlen Hbin]. apply is_binary_first in Hbin as [Hc Ht].
    split; [exact Hc |]. split; [lia | exact Ht].
  - intros [Hc [Hlen Hbin]]. split; [lia |]. cbn [is_binary].
    rewrite Hbin. destruct Hc as [-> | ->]; reflexivity.
Qed.

Lemma word_snoc (W : Z) (t : string) (c : ascii) :
  word W (t +:+ String c EmptyString) <->
  (c = "0"%char \/ c = "1"%char) /\ word (W - 1) t.
Proof.
  unfold word. rewrite len_app, len_cons, len_nil, is_binary_app. split.
  - intros [Hlen Hbin]. apply andb_prop in Hbin as [Ht Hc].
    apply is_binary_first in Hc as [Hc _].
    split; [exact Hc |]. split; [lia | exact Ht].
  - intros [Hc [Hlen Hbin]]. split; [lia |]. rewrite Hbin.
    destruct Hc as [-> | ->]; reflexivity.
Qed.

Lemma word_digit (c : ascii) :
  word 1 (String c EmptyString) <-> c = "0"%char \/ c = "1"%char.
Proof.
  rewrite word_cons. split; [now intros [Hc _] |].
  intros Hc. split; [exact Hc |]. now split.
Qed.

Lemma word_one (flag : string) :
  word 1 flag ->
  exists c, flag = String c EmptyString
            /\ (c = "0"%char \/ c = "1"%char).
Proof.
  intros Hflag. destruct (len_one flag (proj1 Hflag)) as (c & ->).
  exists c. split; [reflexivity |]. now apply word_digit.
Qed.

(** A word of one digit or more: its first and its last digit. *)
Lemma word_front (W : Z) (value : string) :
  1 <= W -> word W value ->
  exists c t, value = String c t
              /\ (c = "0"%char \/ c = "1"%char) /\ word (W - 1) t.
Proof.
  intros HW Hvalue. destruct value as [|c t].
  - destruct Hvalue as [Hlen _]. rewrite len_nil in Hlen. lia.
  - exists c, t. split; [reflexivity |]. now apply word_cons.
Qed.

Lemma word_back (W : Z) (value : string) :
  1 <= W -> word W value ->
  exists t c, value = t +:+ String c EmptyString
              /\ (c = "0"%char \/ c = "1"%char) /\ word (W - 1) t.
Proof.
  intros HW Hvalue.
  assert (Hne : value <> EmptyString).
  { intros ->. destruct Hvalue as [Hlen _]. rewrite len_nil in Hlen. lia. }
  destruct (snoc_decompose value Hne) as (t & c & ->).
  exists t, c. split; [reflexivity |]. now apply word_snoc.
Qed.

Lemma logicalShiftLeft_word (W : Z) :
  1 <= W -> word_step W (fun v _ => BinaryString.logicalShiftLeft v).
Proof.
  intros HW value flag Hvalue _.
  destruct (word_front W value HW Hvalue) as (c & t & -> & Hc & Ht).
  eexists _, _. split; [reflexivity |].
  split; [now apply word_digit |].
  cbn [PyStr.tail]. apply word_snoc. split; [now left | exact Ht].
Qed.

Lemma logicalShiftRight_word (W : Z) :
  1 <= W -> word_step W (fun v _ => BinaryString.logicalShiftRight v).
Proof.
  intros HW value flag Hvalue _.
  destruct (word_back W value HW Hvalue) as (t & c & -> & Hc & Ht).
  unfold BinaryString.logicalShiftRight.
  rewrite last_app_char, init_app_char. cbn [rbind].
  eexists _, _. split; [reflexivity |].
  split; [now apply word_digit |].
  rewrite str_app_cons, str_app_nil_l. apply word_cons.
  split; [now left | exact Ht].
Qed.

Lemma arithmeticShiftLeft_word (W : Z) :
  2 <= W -> word_step W (fun v _ => BinaryString.arithmeticShiftLeft v).
Proof.
  intros HW value flag Hvalue _.
  destruct (word_front W value ltac:(lia) Hvalue)
    as (c & t & -> & Hc & Ht).
  destruct (word_front (W - 1) t ltac:(lia) Ht)
    as (d & u & -> & Hd & Hu).
  eexists _, _. split; [reflexivity |].
  split; [now apply word_digit |].
  cbn [PyStr.tail]. apply word_snoc. split; [exact Hc | exact Ht].
Qed.

Lemma arithmeticShiftRight_word (W : Z) :
  1 <= W -> word_step W (fun v _ => BinaryString.arithmeticShiftRight v).
Proof.
  intros HW value flag Hvalue _.
  destruct (word_front W value HW Hvalue) as (c & t & Hfront & Hc & _).
  destruct (word_back W value HW Hvalue) as (u & d & -> & Hd & Hu).
  unfold BinaryString.arithmeticShiftRight.
  rewrite last_app_char, init_app_char. cbn [rbind].
  rewrite Hfront. cbn [PyStr.first rbind].
  eexists _, _. split; [reflexivity |].
  split; [now apply word_digit |].
  rewrite str_app_cons, str_app_nil_l. apply word_cons.
  split; [exact Hc | exact Hu].
Qed.

Lemma circularShiftLeftWithCarry_word (W : Z) :
  1 <= W -> word_step W BinaryString.circularShiftLeftWithCarry.
Proof.
  intros HW value flag Hvalue Hflag.
  destruct (word_front W value HW Hvalue) as (c & t & -> & Hc & Ht).
  destruct (word_one flag Hflag) as (k & -> & Hk).
  eexists _, _. split; [reflexivity |].
  split; [now apply word_digit |].
  cbn [PyStr.tail]. apply word_snoc. split; [exact Hk | exact Ht].
Qed.

Lemma circularShiftRightWithCarry_word (W : Z) :
  1 <= W -> word_step W BinaryString.circularShiftRightWithCarry.
Proof.
  intros HW value flag Hvalue Hflag.
  destruct (word_back W value HW Hvalue) as (t & c & -> & Hc & Ht).
  destruct (word_one flag Hflag) as (k & -> & Hk).
  unfold BinaryString.circularShiftRightWithCarry.
  rewrite last_app_char, init_app_char. cbn [rbind PyStr.last].
  eexists _, _. split; [reflexivity |].
  split; [now apply word_digit |].
  rewrite str_app_cons, str_app_nil_l. apply word_cons.
  split; [exact Hk | exact Ht].
Qed.

Lemma shiftLoop_word (W : Z)
    (step : string -> string -> result (string * string)) :
  word_step W step ->
  forall (n : nat) (flag value : string),
    word 1 flag -> word W value ->
    exists carry value',
      MachineOperations.shiftLoop step n flag value = Ok (carry, value')
      /\ word 1 carry /\ word W value'.
Proof.
  intros Hstep. induction n as [|n IH]; intros flag value Hflag Hvalue.
  - now exists flag, value.
  - destruct (Hstep value flag Hvalue Hflag) as (c & v & Hs & Hc & Hv).
    destruct (IH c v Hc Hv) as (c' & v' & Hloop & Hc' & Hv').
    exists c', v'. cbn [MachineOperations.shiftLoop]. rewrite Hs.
    cbn [rbind fst snd]. now rewrite Hloop.
Qed.

Lemma circularLoop_word (W : Z) (step : string -> result string) :
  (forall value, word W value ->
     exists value', step value = Ok value' /\ word W value') ->
  forall (n : nat) (value : string),
    word W value ->
    exists value',
      MachineOperations.circularLoop step n value = Ok value'
      /\ word W value'.
Proof.
  intros Hstep. induction n as [|n IH]; intros value Hvalue.
  - now exists value.
  - destruct (Hstep value Hvalue) as (v & Hs & Hv).
    destruct (IH v Hv) as (v' & Hloop & Hv').
    exists v'. cbn [MachineOperations.circularLoop]. rewrite Hs.
    cbn [rbind]. now rewrite Hloop.
Qed.

Lemma circularShiftLeft_word (W : Z) (value : string) :
  1 <= W -> word W value ->
  exists value',
    BinaryString.circularShiftLeft value = Ok value' /\ word W value'.
Proof.
  intros HW Hvalue.
  destruct (word_front W value HW Hvalue) as (c & t & -> & Hc & Ht).
  eexists. split; [reflexivity |]. cbn [PyStr.tail].
  apply word_snoc. now split.
Qed.

Lemma circularShiftRight_word (W : Z) (value : string) :
  1 <= W -> word W value ->
  exists value',
    BinaryString.circularShiftRight value = Ok value' /\ word W value'.
Proof.
  intros HW Hvalue.
  destruct (word_back W value HW Hvalue) as (t & c & -> & Hc & Ht).
  rewrite circularShiftRight_snoc. eexists. split; [reflexivity |].
  apply word_cons. now split.
Qed.

Lemma digits_acc_raises (s : string) (acc : Z) (e : pyerr) :
  PyStr.digits_acc acc s = Raise e -> e = ValueError.
Proof.
  revert acc. induction s as [|c s IH]; intros acc H; [discriminate |].
  cbn [PyStr.digits_acc] in H. destruct (PyStr.is_digit c).
  - exact (IH _ H).
  - now injection H as <-.
Qed.

Lemma digits_raises (s : string) (e : pyerr) :
  PyStr.digits s = Raise e -> e = ValueError.
Proof.
  destruct s; [intros H; now injection H as <- | apply digits_acc_raises].
Qed.

(** [int] raises nothing but [ValueError]. *)
Lemma int_raises (s : string) (e : pyerr) :
  PyStr.int s = Raise e -> e = ValueError.
Proof.
  unfold PyStr.int.
  assert (Hneg : forall s',
    (v <-- PyStr.digits s' ;; Ok (- v)) = Raise e -> e = ValueError).
  { intros s' H. destruct (PyStr.digits s') as [v| e' |] eqn:Hd;
      [discriminate | | discriminate].
    cbn [rbind] in H. injection H as <-. exact (digits_raises _ _ Hd). }
  destruct s as [|c s]; [apply digits_raises |].
  destruct c as [[] [] [] [] [] [] [] []];
    first [apply digits_raises | apply Hneg].
Qed.

Lemma readSignedInteger_word (W : Z) (cell : string) :
  2 <= W -> word W cell ->
  exists v, BinaryString.readSignedInteger cell = Ok v.
Proof.
  intros HW Hcell.
  destruct (word_front W cell ltac:(lia) Hcell) as (c & t & -> & _ & Ht).
  destruct (word_front (W - 1) t ltac:(lia) Ht) as (d & u & -> & _ & _).
  destruct (is_binary_int2_acc (String d u) 0 (proj2 Ht)) as (k & Hk).
  unfold BinaryString.readSignedInteger.
  cbn [PyStr.first PyStr.tail rbind BinaryString.int2].
  rewrite Hk. cbn [rbind]. eauto.
Qed.

Lemma keeps_words_insert (m : MachineOperations.t) (address : Z)
    (cell : string) :
  words (MachineOperations.totalNumberOfBits m)
    (MachineOperations.memoryPool m) ->
  word (MachineOperations.totalNumberOfBits m) cell ->
  keeps_words m
    (MachineOperations.with_pool m
       (<[address := cell]> (MachineOperations.memoryPool m))).
Proof.
  intros Hpool Hcell. split; [| split; reflexivity].
  cbn [MachineOperations.memoryPool MachineOperations.with_pool].
  now apply words_insert.
Qed.

Lemma keeps_words_refl (m : MachineOperations.t) :
  words (MachineOperations.totalNumberOfBits m)
    (MachineOperations.memoryPool m) ->
  keeps_words m m.
Proof. intros Hpool. now split. Qed.

Section WordOutcome.

Variable opcode : Z.
Variable m : MachineOperations.t.
Variable sourceOperand : pyval.
Variable destinationOperand : Z.

Hypothesis width_is_two_or_more :
  2 <= MachineOperations.totalNumberOfBits m.
Hypothesis pool_of_words :
  words (MachineOperations.totalNumberOfBits m)
    (MachineOperations.memoryPool m).

Lemma arithmetic_outcome (op : Z -> Z -> Z) :
  word_outcome opcode m
    (MachineOperations.arithmetic op m sourceOperand destinationOperand).
Proof.
  unfold MachineOperations.arithmetic, getitem.
  destruct (MachineOperations.memoryPool m !! destinationOperand)
    as [cell|] eqn:Hcell; [| exact I].
  cbn [rbind].
  destruct (readSignedInteger_word _ cell width_is_two_or_more
              (words_lookup _ _ _ _ pool_of_words Hcell)) as (old & ->).
  cbn [rbind]. destruct sourceOperand; cbn [as_int rbind]; try exact I.
  apply keeps_words_insert; [exact pool_of_words |].
  now apply word_signedInteger.
Qed.

Lemma STA_outcome :
  word_outcome opcode m
    (MachineOperations.STA m sourceOperand destinationOperand).
Proof.
  unfold MachineOperations.STA, getitem.
  destruct (MachineOperations.memoryPool m !! destinationOperand)
    as [cell|] eqn:Hcell; [| exact I].
  cbn [rbind]. destruct sourceOperand; cbn [as_int rbind]; try exact I.
  apply keeps_words_insert; [exact pool_of_words |].
  exact (words_lookup _ _ _ _ pool_of_words Hcell).
Qed.

Lemma LDA_outcome :
  word_outcome opcode m
    (MachineOperations.LDA m sourceOperand destinationOperand).
Proof.
  unfold MachineOperations.LDA.
  destruct sourceOperand; cbn [as_int rbind]; try exact I.
  apply keeps_words_insert; [exact pool_of_words |].
  now apply word_signedInteger.
Qed.

Lemma branch_outcome :
  word_outcome opcode m (MachineOperations.branch m sourceOperand).
Proof.
  unfold MachineOperations.branch.
  destruct sourceOperand; cbn [as_int rbind]; try exact I.
  apply keeps_words_insert; [exact pool_of_words |].
  now apply word_signedInteger.
Qed.

Lemma conditional_branch_outcome (test : Z -> bool) :
  word_outcome opcode m
    (cell <-- getitem (MachineOperations.memoryPool m) destinationOperand ;;
     v <-- BinaryString.readSignedInteger cell ;;
     if test v then MachineOperations.branch m sourceOperand else Ok m).
Proof.
  unfold getitem.
  destruct (MachineOperations.memoryPool m !! destinationOperand)
    as [cell|] eqn:Hcell; [| exact I].
  cbn [rbind].
  destruct (readSignedInteger_word _ cell width_is_two_or_more
              (words_lookup _ _ _ _ pool_of_words Hcell)) as (v & ->).
  cbn [rbind]. destruct (test v); [apply branch_outcome |].
  now apply keeps_words_refl.
Qed.

Lemma INP_outcome :
  word_outcome opcode m
    (MachineOperations.INP m sourceOperand destinationOperand).
Proof.
  unfold MachineOperations.INP.
  destruct (MachineOperations.stdin m) as [|line rest]; [exact I |].
  pose proof (out_of_fuel_int line) as Hfuel.
  destruct (PyStr.int line) as [terminalInput| e |] eqn:Hline;
    [| rewrite (int_raises line e Hline); exact I | discriminate].
  destruct sourceOperand; cbn [as_int rbind]; try exact I.
  split; [| split; reflexivity].
  cbn [MachineOperations.memoryPool MachineOperations.with_pool
       MachineOperations.totalNumberOfBits].
  apply words_insert; [| exact pool_of_words].
  now apply word_signedInteger.
Qed.

Lemma print_outcome (p : printed) :
  word_outcome opcode m (Ok (MachineOperations.print m p)).
Proof. split; [exact pool_of_words | split; reflexivity]. Qed.

Lemma NOT_outcome :
  word_outcome opcode m
    (MachineOperations.NOT m sourceOperand destinationOperand).
Proof.
  unfold MachineOperations.NOT.
  destruct sourceOperand; cbn [as_int rbind]; try exact I.
  apply keeps_words_insert; [exact pool_of_words |].
  apply word_unsignedInteger. lia.
Qed.

Lemma carryShift_outcome
    (step : string -> string -> result (string * string)) :
  word_step (MachineOperations.totalNumberOfBits m) step ->
  word_outcome opcode m
    (MachineOperations.carryShift step m sourceOperand destinationOperand).
Proof.
  intros Hstep. unfold MachineOperations.carryShift, getitem.
  destruct (MachineOperations.memoryPool m
              !! MachineOperations.flagRegisterAddress m)
    as [flagCell|] eqn:Hflags; [| exact I].
  cbn [rbind].
  destruct (word_back (MachineOperations.totalNumberOfBits m) flagCell
              ltac:(lia) (words_lookup _ _ _ _ pool_of_words Hflags))
    as (t & c & -> & Hc & _).
  rewrite last_app_char. cbn [rbind].
  destruct (MachineOperations.memoryPool m !! destinationOperand)
    as [cell|] eqn:Hcell; [| exact I].
  cbn [rbind]. destruct sourceOperand as [count | |];
    cbn [as_int rbind]; try exact I.
  destruct (shiftLoop_word _ step Hstep (Z.to_nat count)
              (String c EmptyString) cell
              (proj2 (word_digit c) Hc)
              (words_lookup _ _ _ _ pool_of_words Hcell))
    as (carry & value' & -> & Hcarry & Hvalue').
  cbn [rbind fst snd]. split; [| split; reflexivity].
  cbn [MachineOperations.memoryPool MachineOperations.with_pool].
  apply words_insert; [exact Hvalue' |].
  apply words_insert; [| exact pool_of_words].
  destruct (word_one carry Hcarry) as (k & -> & Hk).
  unfold BinaryString.padBinary, PyStr.repeat. split.
  - rewrite len_app, len_cons, len_nil.
    change (PyStr.len (PyStr.repeat_nat "0"
              (Z.to_nat (MachineOperations.totalNumberOfBits m - 1))))
      with (PyStr.len (PyStr.repeat "0"
              (MachineOperations.totalNumberOfBits m - 1))).
    rewrite len_repeat by lia. lia.
  - rewrite is_binary_app, is_binary_zeros.
    destruct Hk as [-> | ->]; reflexivity.
Qed.

Lemma circularShift_outcome (step : string -> result string) :
  (forall value,
     word (MachineOperations.totalNumberOfBits m) value ->
     exists value',
       step value = Ok value'
       /\ word (MachineOperations.totalNumberOfBits m) value') ->
  word_outcome opcode m
    (MachineOperations.circularShift step m sourceOperand
       destinationOperand).
Proof.
  intros Hstep. unfold MachineOperations.circularShift, getitem.
  destruct (MachineOperations.memoryPool m !! destinationOperand)
    as [cell|] eqn:Hcell; [| exact I].
  cbn [rbind]. destruct sourceOperand as [count | |];
    cbn [as_int rbind]; try exact I.
  destruct (circularLoop_word _ step Hstep (Z.to_nat count) cell
              (words_lookup _ _ _ _ pool_of_words Hcell))
    as (value' & -> & Hvalue').
  cbn [rbind]. now apply keeps_words_insert.
Qed.

Lemma CALL_outcome :
  word_outcome opcode m
    (MachineOperations.CALL m sourceOperand destinationOperand).
Proof.
  unfold MachineOperations.CALL, getitem.
  destruct (MachineOperations.memoryPool m
              !! MachineOperations.programCounterAddress m)
    as [pc|] eqn:Hpc; [| exact I].
  cbn [rbind]. destruct sourceOperand; cbn [as_int rbind]; try exact I.
  split; [| split; reflexivity].
  cbn [MachineOperations.memoryPool MachineOperations.with_pool].
  apply words_insert; [now apply word_signedInteger |].
  apply words_insert; [| exact pool_of_words].
  exact (words_lookup _ _ _ _ pool_of_words Hpc).
Qed.

Lemma RET_outcome :
  word_outcome opcode m
    (MachineOperations.RET m sourceOperand destinationOperand).
Proof.
  unfold MachineOperations.RET, getitem.
  destruct (MachineOperations.memoryPool m
              !! MachineOperations.returnRegisterAddress m)
    as [rr|] eqn:Hrr; [| exact I].
  cbn [rbind]. apply keeps_words_insert; [exact pool_of_words |].
  exact (words_lookup _ _ _ _ pool_of_words Hrr).
Qed.

End WordOutcome.

Lemma instructionMapping_outcome (opcode : Z)
    (operation : MachineOperations.t -> pyval -> Z -> result MachineOperations.t)
    (m : MachineOperations.t) (sourceOperand : pyval)
    (destinationOperand : Z) :
  MachineOperations.instructionMapping opcode = Some operation ->
  2 <= MachineOperations.totalNumberOfBits m ->
  words (MachineOperations.totalNumberOfBits m)
    (MachineOperations.memoryPool m) ->
  word_outcome opcode m (operation m sourceOperand destinationOperand).
Proof.
  intros Hoperation HW Hpool.
  pose proof (arithmetic_outcome opcode m sourceOperand destinationOperand
                HW Hpool) as Harithmetic.
  pose proof (carryShift_outcome opcode m sourceOperand destinationOperand
                HW Hpool) as Hcarry.
  pose proof (circularShift_outcome opcode m sourceOperand
                destinationOperand Hpool) as Hcircular.
  unfold MachineOperations.instructionMapping in Hoperation.
  destruct opcode as [|p|p]; [| | discriminate].
  { injection Hoperation as <-. exact I. }
  do 5 (try destruct p as [p|p|]); try discriminate;
    injection Hoperation as <-;
    first
      [ apply Harithmetic
      | apply Hcarry;
        first [ apply logicalShiftLeft_word | apply logicalShiftRight_word
              | apply arithmeticShiftLeft_word
              | apply arithmeticShiftRight_word
              | apply circularShiftLeftWithCarry_word
              | apply circularShiftRightWithCarry_word ]; lia
      | apply Hcircular; intros value;
        first [apply circularShiftLeft_word | apply circularShiftRight_word];
        lia
      | now apply NOT_outcome
      | now apply STA_outcome
      | now apply LDA_outcome
      | now apply CALL_outcome
      | now apply RET_outcome
      | now apply INP_outcome
      | now apply branch_outcome
      | now apply print_outcome
      | now apply keeps_words_refl
      | exact (conditional_branch_outcome _ m sourceOperand
                 destinationOperand HW Hpool (fun v => v =? 0))
      | exact (conditional_branch_outcome _ m sourceOperand
                 destinationOperand HW Hpool (fun v => -1 <? v))
      | idtac ].
  unfold MachineOperations.OUTC.
  destruct sourceOperand as [z| |]; cbn [as_int rbind]; try exact I.
  destruct ((0 <=? z) && (z <? 1114112)); [| reflexivity].
  now apply print_outcome.
Qed.




(** ** virtualmachine.py: the instruction word and its fields *)

Lemma slice_app_front (front back : string) :
  PyStr.slice (front +:+ back) 0 (PyStr.len front) = front.
Proof.
  unfold PyStr.slice, PyStr.len. rewrite Z.sub_0_r, Nat2Z.id.
  change (Z.to_nat 0) with 0%nat.
  induction front as [|c front IH]; [now destruct back |].
  rewrite str_app_cons. cbn [String.length String.substring].
  now rewrite IH.
Qed.

Lemma slice_app_back (front back : string) (a b : Z) :
  0 <= a ->
  PyStr.slice (front +:+ back) (PyStr.len front + a) (PyStr.len front + b)
  = PyStr.slice back a b.
Proof.
  intros Ha. unfold PyStr.slice, PyStr.len.
  replace (Z.of_nat (String.length front) + b
           - (Z.of_nat (String.length front) + a)) with (b - a) by lia.
  rewrite Z2Nat.inj_add, Nat2Z.id by lia.
  induction front as [|c front IH]; [reflexivity |].
  rewrite str_app_cons. cbn [String.length Nat.add String.substring].
  exact IH.
Qed.

Lemma slice_whole (s : string) : PyStr.slice s 0 (PyStr.len s) = s.
Proof.
  rewrite <- (str_app_nil_r s) at 1. apply slice_app_front.
Qed.

(** The four fields of an instruction word, cut out where
    [executeInstruction] cuts them. *)
Lemma instruction_fields (operation mode source destination : string)
    (M A O : Z) :
  PyStr.len operation = M -> PyStr.len mode = A ->
  PyStr.len source = O -> PyStr.len destination = O ->
  let word := operation +:+ mode +:+ source +:+ destination in
  PyStr.slice word 0 M = operation
  /\ PyStr.slice word M (M + A) = mode
  /\ PyStr.slice word (M + A) (M + A + O) = source
  /\ PyStr.slice word (M + A + O) (M + A + O + O) = destination.
Proof.
  intros HM HA HO HO' word. subst word M A.
  assert (Hd : PyStr.len destination = PyStr.len source) by lia.
  clear HO'. subst O.
  pose proof (len_nonneg operation). pose proof (len_nonneg mode).
  pose proof (len_nonneg source).
  split; [| split; [| split]].
  - apply slice_app_front.
  - replace (PyStr.len operation) with (PyStr.len operation + 0) at 1
      by lia.
    rewrite slice_app_back by lia. apply slice_app_front.
  - replace (PyStr.len operation + PyStr.len mode + PyStr.len source)
      with (PyStr.len operation + (PyStr.len mode + PyStr.len source))
      by lia.
    replace (PyStr.len operation + PyStr.len mode)
      with (PyStr.len operation + (PyStr.len mode + 0)) by lia.
    rewrite !slice_app_back by lia. apply slice_app_front.
  - replace (PyStr.len operation + PyStr.len mode + PyStr.len source
             + PyStr.len source)
      with (PyStr.len operation
            + (PyStr.len mode + (PyStr.len source + PyStr.len destination)))
      by lia.
    replace (PyStr.len operation + PyStr.len mode + PyStr.len source)
      with (PyStr.len operation
            + (PyStr.len mode + (PyStr.len source + 0))) by lia.
    rewrite !slice_app_back by lia. apply slice_whole.
Qed.

Lemma instruction_opcode_bound (instruction : string) (opcode : Z) :
  PyDict.get KeyWords.INSTRUCTION_SET instruction = Some opcode ->
  0 <= opcode < 27.
Proof.
  unfold KeyWords.INSTRUCTION_SET. cbn [PyDict.get]. intros H.
  repeat match type of H with
         | (if ?b then _ else _) = _ =>
             destruct b; [injection H as <-; lia |]
         end.
  discriminate.
Qed.

Lemma addressing_mode_opcode_bound (mode : string) (opcode : Z) :
  PyDict.get KeyWords.ADDRESSING_MODE_TO_OPCODE mode = Some opcode ->
  0 <= opcode < 4.
Proof.
  unfold KeyWords.ADDRESSING_MODE_TO_OPCODE. cbn [PyDict.get]. intros H.
  repeat match type of H with
         | (if ?b then _ else _) = _ =>
             destruct b; [injection H as <-; lia |]
         end.
  discriminate.
Qed.

Lemma numberOfBits_positive (n : Z) : 1 <= BinaryString.numberOfBits n.
Proof.
  unfold BinaryString.numberOfBits, BinaryString.toBinary.
  pose proof (bin_not_nil (Z.abs n)) as Hne.
  destruct (BinaryString.bin (Z.abs n)); [congruence |].
  rewrite len_cons. pose proof (len_nonneg s). lia.
Qed.

(** The widths the code generator's constructor computes. *)
Lemma init_widths (configurationTable : gmap string Z)
    (w : CodeGenerator.widths) :
  CodeGenerator.init configurationTable = Ok w ->
  CodeGenerator.machineOperationBits w = 5
  /\ CodeGenerator.addressingModeBits w = 3
  /\ 2 <= CodeGenerator.operandBits w
  /\ CodeGenerator.totalNumberOfInstructionBits w
     = 5 + 3 + 2 * CodeGenerator.operandBits w.
Proof.
  unfold CodeGenerator.init. intros H.
  destruct (CodeGenerator.calculateNumberOfOperandBits configurationTable)
    as [O| |] eqn:HO; [| discriminate..].
  cbn [rbind] in H. injection H as <-.
  cbn [CodeGenerator.machineOperationBits CodeGenerator.addressingModeBits
       CodeGenerator.operandBits CodeGenerator.totalNumberOfInstructionBits].
  repeat split; try reflexivity.
  unfold CodeGenerator.calculateNumberOfOperandBits in HO.
  destruct (getitem configurationTable
              Defaults.REGISTERS_CONFIGURATION_OPTION) as [g| |];
    [| discriminate..].
  cbn [rbind] in HO.
  destruct (getitem configurationTable Defaults.MEMORY_CONFIGURATION_OPTION)
    as [n| |]; [| discriminate..].
  cbn [rbind] in HO. injection HO as <-.
  destruct (g + KeyWords.NUMBER_OF_SPECIAL_PURPOSE_REGISTERS <? n).
  - pose proof (numberOfBits_positive n). lia.
  - pose proof (numberOfBits_positive
                  (g + KeyWords.NUMBER_OF_SPECIAL_PURPOSE_REGISTERS)). lia.
Qed.

Lemma readSignedInteger_signedInteger_wrap (x bits : Z) :
  2 <= bits ->
  BinaryString.readSignedInteger (BinaryString.signedInteger x bits)
  = Ok (sign_magnitude_wrap bits x).
Proof.
  intros Hbits. rewrite signedInteger_value. unfold sign_magnitude_wrap.
  now rewrite Z.max_r by lia.
Qed.

(** Extra (codegenerator.py, virtualmachine.py).  A word that
    [convertToChadsemblyMachineCode] lays out for the widths of the code
    generator has exactly the total number of instruction bits, all binary
    digits.  Cut where [executeInstruction] cuts it, it reads back as the
    opcode of the instruction, the opcode of the addressing mode of the
    source operand, and the two operand values; an operand value whose
    magnitude does not fit the operand width less one digit comes back
    reduced modulo [2 ^ (operand width - 1)]. *)
Theorem generated_word_decodes (configurationTable : gmap string Z)
    (w : CodeGenerator.widths) (numberOfGeneralPurposeRegisters : Z)
    (globalInstructionPool instructionPool : InstructionPool.t)
    (chadsemblyInstruction : TypedToken.t)
    (sourceOperand destinationOperand : Operand.t)
    (instructionWord : string) :
  CodeGenerator.init configurationTable = Ok w ->
  CodeGenerator.convertToChadsemblyMachineCode w
    numberOfGeneralPurposeRegisters globalInstructionPool
    chadsemblyInstruction sourceOperand destinationOperand instructionPool
  = Ok instructionWord ->
  let M := CodeGenerator.machineOperationBits w in
  let A := CodeGenerator.addressingModeBits w in
  let O := CodeGenerator.operandBits w in
  exists opcode modeOpcode source destination,
    PyDict.get KeyWords.INSTRUCTION_SET
      (TypedToken.tokenValue chadsemblyInstruction) = Some opcode
    /\ PyDict.get KeyWords.ADDRESSING_MODE_TO_OPCODE
         (TypedToken.tokenValue (Operand.addressingMode sourceOperand))
       = Some modeOpcode
    /\ CodeGenerator.resolveOperand numberOfGeneralPurposeRegisters
         globalInstructionPool sourceOperand instructionPool
       = Ok (PInt source)
    /\ CodeGenerator.resolveOperand numberOfGeneralPurposeRegisters
         globalInstructionPool destinationOperand instructionPool
       = Ok (PInt destination)
    /\ word (CodeGenerator.totalNumberOfInstructionBits w) instructionWord
    /\ BinaryString.readUnsignedInteger (PyStr.slice instructionWord 0 M)
       = Ok opcode
    /\ BinaryString.readUnsignedInteger (PyStr.slice instructionWord M (M + A))
       = Ok modeOpcode
    /\ BinaryString.readSignedInteger
         (PyStr.slice instructionWord (M + A) (M + A + O))
       = Ok (sign_magnitude_wrap O source)
    /\ BinaryString.readSignedInteger
         (PyStr.slice instructionWord (M + A + O) (M + A + O + O))
       = Ok (sign_magnitude_wrap O destination).
Proof.
  intros Hinit Hword M A O.
  destruct (init_widths configurationTable w Hinit)
    as (HM & HA & HO & HW).
  unfold CodeGenerator.convertToChadsemblyMachineCode, PyDict.getitem
    in Hword.
  destruct (PyDict.get KeyWords.INSTRUCTION_SET
              (TypedToken.tokenValue chadsemblyInstruction))
    as [opcode|] eqn:Hopcode; [| discriminate].
  cbn [rbind] in Hword.
  destruct (PyDict.get KeyWords.ADDRESSING_MODE_TO_OPCODE
              (TypedToken.tokenValue (Operand.addressingMode sourceOperand)))
    as [modeOpcode|] eqn:Hmode; [| discriminate].
  cbn [rbind] in Hword.
  destruct (CodeGenerator.resolveOperand numberOfGeneralPurposeRegisters
              globalInstructionPool sourceOperand instructionPool)
    as [[source| |]| |] eqn:Hsource; try discriminate.
  cbn [rbind as_int] in Hword.
  destruct (CodeGenerator.resolveOperand numberOfGeneralPurposeRegisters
              globalInstructionPool destinationOperand instructionPool)
    as [[destination| |]| |] eqn:Hdestination; try discriminate.
  cbn [rbind as_int] in Hword. injection Hword as <-.
  exists opcode, modeOpcode, source, destination.
  do 4 (split; [reflexivity |]).
  pose proof (instruction_opcode_bound _ _ Hopcode) as Hob.
  pose proof (addressing_mode_opcode_bound _ _ Hmode) as Hmb.
  destruct (unsignedInteger_word opcode M) as (HlenM & HbinM & HreadM).
  destruct (unsignedInteger_word modeOpcode A) as (HlenA & HbinA & HreadA).
  destruct (signedInteger_word source O) as (HlenS & HbinS).
  destruct (signedInteger_word destination O) as (HlenD & HbinD).
  fold M A O. subst M A.
  rewrite HM in *. rewrite HA in *.
  change (Z.max 1 5) with 5 in *. change (Z.max 1 3) with 3 in *.
  rewrite Z.max_r in HlenS, HlenD by (subst O; lia).
  rewrite !str_app_assoc.
  destruct (instruction_fields
              (BinaryString.unsignedInteger opcode 5)
              (BinaryString.unsignedInteger modeOpcode 3)
              (BinaryString.signedInteger source O)
              (BinaryString.signedInteger destination O)
              5 3 O HlenM HlenA HlenS HlenD)
    as (-> & -> & -> & ->).
  split.
  { split.
    - rewrite !len_app, HlenM, HlenA, HlenS, HlenD, HW. subst O. lia.
    - now rewrite !is_binary_app, HbinM, HbinA, HbinS, HbinD. }
  unfold BinaryString.readUnsignedInteger.
  rewrite HreadM, HreadA.
  change (2 ^ 5) with 32. change (2 ^ 3) with 8.
  rewrite !Z.mod_small by lia.
  do 2 (split; [reflexivity |]).
  split; apply readSignedInteger_signedInteger_wrap; subst O; lia.
Qed.

Lemma generated_word_decodes_witness :
  exists opcode modeOpcode source destination,
    word 24 "001010111000000100001100"
    /\ BinaryString.readUnsignedInteger
         (PyStr.slice "001010111000000100001100" 0 5) = Ok opcode
    /\ BinaryString.readUnsignedInteger
         (PyStr.slice "001010111000000100001100" 5 (5 + 3)) = Ok modeOpcode
    /\ BinaryString.readSignedInteger
         (PyStr.slice "001010111000000100001100" (5 + 3) (5 + 3 + 8))
       = Ok (sign_magnitude_wrap 8 source)
    /\ BinaryString.readSignedInteger
         (PyStr.slice "001010111000000100001100" (5 + 3 + 8)
            (5 + 3 + 8 + 8))
       = Ok (sign_magnitude_wrap 8 destination).
Proof.
  assert (Hinit : CodeGenerator.init (configuration 100 10 0)
                  = Ok default_widths) by (vm_compute; reflexivity).
  assert (Hword : load_immediate "-1" "PC" = Ok "001010111000000100001100")
    by (vm_compute; reflexivity).
  destruct (generated_word_decodes (configuration 100 10 0) default_widths
              10 _ _ _ _ _ "001010111000000100001100" Hinit Hword)
    as (opcode & modeOpcode & source & destination & _ & _ & _ & _
        & Hwidth & Hfields).
  exists opcode, modeOpcode, source, destination.
  split; [exact Hwidth | exact Hfields].
Defined.

(** ** virtualmachine.py: the memory pool and the loader *)

Lemma lookup_foldl_insert {A : Type} (f : Z -> Z) (v : A) (l : list Z)
    (pool : gmap Z A) (a : Z) :
  foldl (fun pool i => <[f i := v]> pool) pool l !! a
  = if decide (a ∈ f <$> l) then Some v else pool !! a.
Proof.
  revert pool. induction l as [|i l IH]; intros pool.
  - cbn [foldl fmap list_fmap].
    destruct (decide (a ∈ [])) as [H | _]; [| reflexivity].
    now apply elem_of_nil in H.
  - cbn [foldl]. rewrite IH. rewrite fmap_cons.
    destruct (decide (a ∈ f <$> l)) as [Hin | Hnotin].
    + rewrite decide_True by (apply elem_of_cons; now right). reflexivity.
    + destruct (decide (a = f i)) as [-> | Hne].
      * rewrite decide_True by (apply elem_of_cons; now left).
        apply lookup_insert_eq.
      * rewrite decide_False.
        -- apply lookup_insert_ne. congruence.
        -- intros H. apply elem_of_cons in H as [H | H]; contradiction.
Qed.

Lemma generateMemoryPool_lookup (configurationTable : gmap string Z)
    (numberOfOperandBits totalNumberOfInstructionBits g : Z) :
  configurationTable !! Defaults.REGISTERS_CONFIGURATION_OPTION = Some g ->
  exists pool,
    VirtualMachine.generateMemoryPool configurationTable
      numberOfOperandBits totalNumberOfInstructionBits
    = Ok (<[Defaults.MEMORY_CONFIGURATION_OPTION
              := 2 ^ (numberOfOperandBits - 1)]> configurationTable,
          pool)
    /\ forall a,
         pool !! a
         = if ((- (g + 4) <=? a) && (a <? 0))
              || ((0 <=? a) && (a <? 2 ^ (numberOfOperandBits - 1)))
           then Some (PyStr.repeat "0" totalNumberOfInstructionBits)
           else None.
Proof.
  intros Hregisters.
  unfold VirtualMachine.generateMemoryPool, getitem.
  rewrite lookup_insert_ne by discriminate. rewrite Hregisters.
  cbn [rbind]. eexists. split; [reflexivity |]. intros a.
  change KeyWords.NUMBER_OF_SPECIAL_PURPOSE_REGISTERS with 4.
  rewrite (lookup_foldl_insert (fun register => register * -1)).
  rewrite (lookup_foldl_insert (fun index => index)).
  rewrite lookup_empty.
  destruct (decide (a ∈ (fun register => register * -1)
                          <$> reverse (seqZ 1 (g + 4)))) as [Hin | Hnotin].
  - apply list_elem_of_fmap in Hin as (r & -> & Hr).
    apply elem_of_reverse, elem_of_seqZ in Hr.
    replace ((- (g + 4) <=? r * -1) && (r * -1 <? 0)) with true;
      [reflexivity |].
    symmetry. apply andb_true_intro. split; [apply Z.leb_le | apply Z.ltb_lt];
      lia.
  - assert (Hregister : (- (g + 4) <=? a) && (a <? 0) = false).
    { apply not_true_is_false. intros H. apply andb_prop in H as [H1 H2].
      apply Z.leb_le in H1. apply Z.ltb_lt in H2. apply Hnotin.
      apply list_elem_of_fmap. exists (- a). split; [lia |].
      apply elem_of_reverse, elem_of_seqZ. lia. }
    rewrite Hregister. cbn [orb].
    destruct (decide (a ∈ (fun index => index)
                            <$> seqZ 0 (2 ^ (numberOfOperandBits - 1))))
      as [Hin | Hnotin'].
    + apply list_elem_of_fmap in Hin as (i & -> & Hi).
      apply elem_of_seqZ in Hi.
      replace ((0 <=? i) && (i <? 2 ^ (numberOfOperandBits - 1))) with true;
        [reflexivity |].
      symmetry. apply andb_true_intro.
      split; [apply Z.leb_le | apply Z.ltb_lt]; lia.
    + replace ((0 <=? a) && (a <? 2 ^ (numberOfOperandBits - 1))) with false;
        [reflexivity |].
      symmetry. apply not_true_is_false. intros H.
      apply andb_prop in H as [H1 H2].
      apply Z.leb_le in H1. apply Z.ltb_lt in H2. apply Hnotin'.
      apply list_elem_of_fmap. exists a. split; [reflexivity |].
      apply elem_of_seqZ. lia.
Qed.


Lemma lookup_load (code : list string) :
  forall (start : Z) (pool : gmap Z string) (a : Z),
    foldl (fun pool ic => <[fst ic := snd ic]> pool) pool
      (zip (seqZ start (Z.of_nat (length code))) code) !! a
    = match (if start <=? a then code !! Z.to_nat (a - start) else None) with
      | Some instruction => Some instruction
      | None => pool !! a
      end.
Proof.
  induction code as [|instruction code IH]; intros start pool a.
  - cbn [length zip_with foldl]. rewrite lookup_nil.
    now destruct (start <=? a).
  - rewrite seqZ_cons by (cbn [length]; lia).
    replace (Z.pred (Z.of_nat (length (instruction :: code))))
      with (Z.of_nat (length code)) by (cbn [length]; lia).
    cbn [zip_with foldl fst snd]. rewrite IH.
    destruct (Z.succ start <=? a) eqn:Hnext.
    + apply Z.leb_le in Hnext.
      replace (start <=? a) with true by (symmetry; apply Z.leb_le; lia).
      replace (Z.to_nat (a - start)) with (S (Z.to_nat (a - Z.succ start)))
        by lia.
      cbn [lookup list_lookup].
      destruct (code !! Z.to_nat (a - Z.succ start)); [reflexivity |].
      apply lookup_insert_ne. lia.
    + apply Z.leb_gt in Hnext.
      destruct (start <=? a) eqn:Hstart.
      * apply Z.leb_le in Hstart. assert (a = start) as -> by lia.
        rewrite Z.sub_diag. cbn. apply lookup_insert_eq.
      * apply Z.leb_gt in Hstart. apply lookup_insert_ne. lia.
Qed.

(** Extra (virtualmachine.py).  The loader raises [KeyError] when the
    configuration has no number of memory addresses, and ends the run with
    a runtime error message when the program has more words than there are
    memory addresses.  Otherwise it writes the words of the program to the
    addresses [0], [1], ... in their order and leaves every other cell,
    the registers among them, as it was. *)
Theorem loader_loads_the_program (vm : VirtualMachine.t) :
  let code := VirtualMachine.chadsemblyByteCode vm in
  match VirtualMachine.configurationTable vm
          !! Defaults.MEMORY_CONFIGURATION_OPTION with
  | None => VirtualMachine.loader vm = Raise KeyError
  | Some numberOfMemoryLocations =>
      if numberOfMemoryLocations <? Z.of_nat (length code)
      then exists text, VirtualMachine.loader vm = Raise (SysExitMsg text)
      else
        exists pool,
          VirtualMachine.loader vm = Ok (VirtualMachine.with_pool vm pool)
          /\ forall a,
               pool !! a
               = match (if 0 <=? a then code !! Z.to_nat a else None) with
                 | Some instruction => Some instruction
                 | None => VirtualMachine.memoryPool vm !! a
                 end
  end.
Proof.
  intros code. unfold VirtualMachine.loader, getitem.
  destruct (VirtualMachine.configurationTable vm
              !! Defaults.MEMORY_CONFIGURATION_OPTION)
    as [numberOfMemoryLocations|]; [| reflexivity].
  cbn [rbind]. fold code.
  destruct (numberOfMemoryLocations <? Z.of_nat (length code));
    [eexists; reflexivity |].
  eexists. split; [reflexivity |]. intros a.
  rewrite lookup_load. now rewrite Z.sub_0_r.
Qed.

(** ** virtualmachine.py: the fetch-decode-execute loop keeps the cells
    words *)

Lemma substring_binary (s : string) :
  forall n m, is_binary s = true -> is_binary (String.substring n m s) = true.
Proof.
  induction s as [|c s IH]; intros n m Hs.
  - now destruct n, m.
  - cbn [is_binary] in Hs. apply andb_prop in Hs as [Hc Hs].
    destruct n as [|n].
    + destruct m as [|m]; [reflexivity |].
      cbn [String.substring is_binary]. now rewrite Hc, IH.
    + cbn [String.substring]. now apply IH.
Qed.

Lemma substring_length (s : string) :
  forall n m,
    (n + m <= String.length s)%nat ->
    String.length (String.substring n m s) = m.
Proof.
  induction s as [|c s IH]; intros n m Hlen.
  - cbn [String.length] in Hlen. now destruct n, m; try lia.
  - cbn [String.length] in Hlen. destruct n as [|n].
    + destruct m as [|m]; [reflexivity |].
      cbn [String.substring String.length]. rewrite IH by lia. reflexivity.
    + cbn [String.substring]. apply IH. lia.
Qed.

Lemma word_slice (W : Z) (s : string) (a b : Z) :
  word W s -> 0 <= a <= b -> b <= W -> word (b - a) (PyStr.slice s a b).
Proof.
  intros [Hlen Hbin] Hab Hb. unfold PyStr.slice. split.
  - unfold PyStr.len in *. rewrite substring_length by lia. lia.
  - now apply substring_binary.
Qed.

Lemma readUnsignedInteger_word (W : Z) (cell : string) :
  1 <= W -> word W cell ->
  exists v, BinaryString.readUnsignedInteger cell = Ok v.
Proof.
  intros HW Hcell.
  destruct (word_front W cell HW Hcell) as (c & t & -> & _ & _).
  destruct (is_binary_int2_acc (String c t) 0 (proj2 Hcell)) as (k & Hk).
  exists k. exact Hk.
Qed.

Lemma vm_words_with_pool (vm : VirtualMachine.t) (pool : gmap Z string) :
  vm_words vm ->
  words (VirtualMachine.totalNumberOfInstructionBits vm) pool ->
  vm_words (VirtualMachine.with_pool vm pool)
  /\ same_format vm (VirtualMachine.with_pool vm pool).
Proof.
  intros (HM & HA & HO & HW & Hbits & _) Hpool.
  split; [| repeat split; reflexivity].
  unfold vm_words.
  split; [exact HM |]. split; [exact HA |]. split; [exact HO |].
  split; [exact HW |]. split; [exact Hbits | exact Hpool].
Qed.

Lemma same_format_trans (vm vm' vm'' : VirtualMachine.t) :
  same_format vm vm' -> same_format vm' vm'' -> same_format vm vm''.
Proof.
  unfold same_format.
  intros (H1 & H2 & H3 & H4 & H5 & H6) (G1 & G2 & G3 & G4 & G5 & G6).
  repeat split; congruence.
Qed.

Section Resolve.

Variable vm : VirtualMachine.t.
Hypothesis machine_of_words : vm_words vm.

Lemma read_cell (address : Z) :
  match (cell <-- getitem (VirtualMachine.memoryPool vm) address ;;
         BinaryString.readSignedInteger cell) with
  | Ok _ | Raise KeyError => True
  | _ => False
  end.
Proof.
  destruct machine_of_words as (HM & HA & HO & HW & _ & Hpool).
  unfold getitem.
  destruct (VirtualMachine.memoryPool vm !! address) as [cell|] eqn:Hcell;
    [| exact I].
  cbn [rbind].
  destruct (readSignedInteger_word
              (VirtualMachine.totalNumberOfInstructionBits vm) cell
              ltac:(lia) (words_lookup _ _ _ _ Hpool Hcell)) as (v & ->).
  exact I.
Qed.

(** Resolving a source operand answers with a value or raises [KeyError]
    (no such cell) or ends the run (no such opcode). *)
Lemma resolveSourceOperand_outcome
    (machineOperation addressingMode sourceOperand : Z) :
  match VirtualMachine.resolveSourceOperand vm machineOperation
          addressingMode sourceOperand with
  | Ok _ | Raise KeyError | Raise (SysExitMsg _) => True
  | _ => False
  end.
Proof.
  assert (Hread : forall address (k : Z -> result pyval),
    (forall v, match k v with
               | Ok _ | Raise KeyError | Raise (SysExitMsg _) => True
               | _ => False
               end) ->
    match (cell <-- getitem (VirtualMachine.memoryPool vm) address ;;
           v <-- BinaryString.readSignedInteger cell ;; k v) with
    | Ok _ | Raise KeyError | Raise (SysExitMsg _) => True
    | _ => False
    end).
  { intros address k Hk. pose proof (read_cell address) as Hcell.
    destruct (getitem (VirtualMachine.memoryPool vm) address) as [cell| e |];
      cbn [rbind] in *; [| destruct e; tauto | tauto].
    destruct (BinaryString.readSignedInteger cell) as [v| e |];
      cbn [rbind] in *; [apply Hk | destruct e; tauto | tauto]. }
  assert (Hcell : forall address (k : string -> result pyval),
    (forall v, match k v with
               | Ok _ | Raise KeyError | Raise (SysExitMsg _) => True
               | _ => False
               end) ->
    match (cell <-- getitem (VirtualMachine.memoryPool vm) address ;;
           k cell) with
    | Ok _ | Raise KeyError | Raise (SysExitMsg _) => True
    | _ => False
    end).
  { intros address k Hk. unfold getitem.
    destruct (VirtualMachine.memoryPool vm !! address); cbn [rbind];
      [apply Hk | exact I]. }
  unfold VirtualMachine.resolveSourceOperand.
  destruct (KeyWords.OPCODE_TO_INSTRUCTION machineOperation)
    as [chadsemblyInstruction|]; [| exact I].
  destruct (VirtualMachine.inContainers chadsemblyInstruction _).
  { unfold VirtualMachine.resolveForAddress.
    destruct (addressingMode =? VirtualMachine.INDIRECT_MODE).
    - apply Hread. intros v. exact I.
    - now destruct (addressingMode =? VirtualMachine.REGISTER_MODE). }
  destruct (String.eqb chadsemblyInstruction KeyWords.OUTB).
  { unfold VirtualMachine.resolveForBinary.
    destruct (addressingMode =? VirtualMachine.DIRECT_MODE).
    { apply Hcell. intros v. exact I. }
    destruct (addressingMode =? VirtualMachine.INDIRECT_MODE).
    { apply Hread. intros a. apply Hcell. intros v. exact I. }
    destruct (addressingMode =? VirtualMachine.REGISTER_MODE).
    { apply Hcell. intros v. exact I. }
    now destruct (addressingMode =? VirtualMachine.IMMEDIATE_MODE). }
  unfold VirtualMachine.resolveForValue.
  destruct (addressingMode =? VirtualMachine.DIRECT_MODE).
  { apply Hread. intros v. exact I. }
  destruct (addressingMode =? VirtualMachine.INDIRECT_MODE).
  { apply Hread. intros a. apply Hread. intros v. exact I. }
  destruct (addressingMode =? VirtualMachine.REGISTER_MODE).
  { apply Hread. intros v. exact I. }
  now destruct (addressingMode =? VirtualMachine.IMMEDIATE_MODE).
Qed.

End Resolve.

Lemma executeMachineOperation_outcome (vm : VirtualMachine.t)
    (machineOperation : Z) (sourceOperand : pyval)
    (destinationOperand : Z) :
  vm_words vm ->
  match VirtualMachine.executeMachineOperation vm machineOperation
          sourceOperand destinationOperand with
  | Ok vm' => vm_words vm' /\ same_format vm vm'
  | Raise IndexError => False
  | Raise ValueError =>
      Some machineOperation
      = PyDict.get KeyWords.INSTRUCTION_SET KeyWords.OUTC
  | Raise _ => True
  | OutOfFuel => False
  end.
Proof.
  intros (HM & HA & HO & HW & Hbits & Hpool).
  unfold VirtualMachine.executeMachineOperation.
  destruct (MachineOperations.instructionMapping machineOperation)
    as [operation|] eqn:Hoperation; [| exact I].
  pose proof (instructionMapping_outcome machineOperation operation
                (VirtualMachine.machineOperations vm) sourceOperand
                destinationOperand Hoperation) as Hout.
  rewrite Hbits in Hout. specialize (Hout ltac:(lia) Hpool).
  destruct (operation (VirtualMachine.machineOperations vm) sourceOperand
              destinationOperand) as [m'| e |]; cbn [rbind];
    [| exact Hout | exact Hout].
  destruct Hout as (Hpool' & Hbits' & _).
  split; [| repeat split; reflexivity].
  unfold vm_words.
  split; [exact HM |]. split; [exact HA |]. split; [exact HO |].
  split; [exact HW |].
  cbn [VirtualMachine.with_machine VirtualMachine.machineOperations
       VirtualMachine.totalNumberOfInstructionBits VirtualMachine.memoryPool].
  split; [congruence |]. rewrite <- Hbits. exact Hpool'.
Qed.

(** One instruction word on a machine of words. *)
Lemma executeInstruction_outcome (vm : VirtualMachine.t)
    (chadsemblyInstruction : string) :
  vm_words vm ->
  word (VirtualMachine.totalNumberOfInstructionBits vm)
    chadsemblyInstruction ->
  instruction_outcome vm chadsemblyInstruction
    (VirtualMachine.executeInstruction vm chadsemblyInstruction).
Proof.
  intros Hvm Hword.
  pose proof Hvm as (HM & HA & HO & HW & Hbits & Hpool).
  unfold VirtualMachine.executeInstruction.
  destruct (VirtualMachine.programCounterAddress vm)
    as [programCounterAddress| e |] eqn:Haddress; cbn [rbind].
  2:{ unfold VirtualMachine.programCounterAddress, getitem in Haddress.
      destruct (VirtualMachine.configurationTable vm !! _);
        cbn [rbind] in Haddress; [discriminate |].
      injection Haddress as <-. exact I. }
  2:{ unfold VirtualMachine.programCounterAddress, getitem in Haddress.
      destruct (VirtualMachine.configurationTable vm !! _);
        discriminate. }
  unfold getitem at 1.
  destruct (VirtualMachine.memoryPool vm !! programCounterAddress)
    as [pcCell|] eqn:HpcCell; [| exact I].
  cbn [rbind].
  destruct (readSignedInteger_word
              (VirtualMachine.totalNumberOfInstructionBits vm) pcCell
              ltac:(lia) (words_lookup _ _ _ _ Hpool HpcCell)) as (pc & ->).
  cbn [rbind].
  set (vm1 := VirtualMachine.with_pool vm
                (<[programCounterAddress :=
                     BinaryString.signedInteger (pc + 1)
                       (VirtualMachine.totalNumberOfInstructionBits vm)]>
                   (VirtualMachine.memoryPool vm))).
  destruct (vm_words_with_pool vm
              (<[programCounterAddress :=
                   BinaryString.signedInteger (pc + 1)
                     (VirtualMachine.totalNumberOfInstructionBits vm)]>
                 (VirtualMachine.memoryPool vm)) Hvm)
    as [Hvm1 Hsame1].
  { apply words_insert; [| exact Hpool].
    apply word_signedInteger. lia. }
  fold vm1 in Hvm1, Hsame1.
  change (VirtualMachine.numberOfMachineOperationBits vm1)
    with (VirtualMachine.numberOfMachineOperationBits vm).
  change (VirtualMachine.numberOfAddressingModeBits vm1)
    with (VirtualMachine.numberOfAddressingModeBits vm).
  change (VirtualMachine.numberOfOperandBits vm1)
    with (VirtualMachine.numberOfOperandBits vm).
  set (M := VirtualMachine.numberOfMachineOperationBits vm) in *.
  set (A := VirtualMachine.numberOfAddressingModeBits vm) in *.
  set (O := VirtualMachine.numberOfOperandBits vm) in *.
  destruct (readUnsignedInteger_word (M - 0)
              (PyStr.slice chadsemblyInstruction 0 M) ltac:(lia)
              (word_slice _ _ 0 M Hword ltac:(lia) ltac:(lia)))
    as (machineOperation & Hoperation).
  rewrite Hoperation. cbn [rbind].
  destruct (readUnsignedInteger_word (M + A - M)
              (PyStr.slice chadsemblyInstruction M (M + A)) ltac:(lia)
              (word_slice _ _ M (M + A) Hword ltac:(lia) ltac:(lia)))
    as (addressingMode & ->).
  cbn [rbind].
  destruct (readSignedInteger_word (M + A + O - (M + A))
              (PyStr.slice chadsemblyInstruction (M + A) (M + A + O))
              ltac:(lia)
              (word_slice _ _ (M + A) (M + A + O) Hword ltac:(lia)
                 ltac:(lia)))
    as (sourceOperand & ->).
  cbn [rbind].
  destruct (readSignedInteger_word (M + A + O + O - (M + A + O))
              (PyStr.slice chadsemblyInstruction (M + A + O) (M + A + O + O))
              ltac:(lia)
              (word_slice _ _ (M + A + O) (M + A + O + O) Hword ltac:(lia)
                 ltac:(lia)))
    as (destinationOperand & ->).
  cbn [rbind].
  pose proof (resolveSourceOperand_outcome vm1 Hvm1 machineOperation
                addressingMode sourceOperand) as Hresolve.
  destruct (VirtualMachine.resolveSourceOperand vm1 machineOperation
              addressingMode sourceOperand) as [resolved| e |];
    cbn [rbind]; [| destruct e; tauto | tauto].
  pose proof (executeMachineOperation_outcome vm1 machineOperation resolved
                (VirtualMachine.resolveDestinationOperand destinationOperand)
                Hvm1) as Hexecute.
  destruct (VirtualMachine.executeMachineOperation vm1 machineOperation
              resolved
              (VirtualMachine.resolveDestinationOperand destinationOperand))
    as [vm2| e |]; [| | exact Hexecute].
  - destruct Hexecute as [Hvm2 Hsame2]. split; [exact Hvm2 |].
    exact (same_format_trans _ _ _ Hsame1 Hsame2).
  - destruct e; try exact Hexecute.
    exists machineOperation. split; [exact Hoperation | exact Hexecute].
Qed.

(** The loop of [run] on a machine of words. *)
Lemma run_loop_outcome (fuel : nat) (programCounterAddress : Z)
    (numberOfMemoryAddresses : Z) :
  forall vm,
    vm_words vm ->
    run_outcome vm
      (VirtualMachine.run_loop fuel programCounterAddress
         numberOfMemoryAddresses vm).
Proof.
  induction fuel as [|fuel IH]; intros vm Hvm;
    pose proof Hvm as (HM & HA & HO & HW & Hbits & Hpool);
    cbn [VirtualMachine.run_loop]; unfold getitem at 1;
    (destruct (VirtualMachine.memoryPool vm !! programCounterAddress)
       as [pcCell|] eqn:HpcCell; [| exact I]);
    cbn [rbind];
    destruct (readSignedInteger_word
                (VirtualMachine.totalNumberOfInstructionBits vm) pcCell
                ltac:(lia) (words_lookup _ _ _ _ Hpool HpcCell))
      as (pc & ->);
    cbn [rbind];
    (destruct (pc <? numberOfMemoryAddresses);
       [| split; [exact Hvm | repeat split; reflexivity]]).
  - exact I.
  - unfold getitem at 1. rewrite HpcCell. cbn [rbind].
    destruct (readUnsignedInteger_word
                (VirtualMachine.totalNumberOfInstructionBits vm) pcCell
                ltac:(lia) (words_lookup _ _ _ _ Hpool HpcCell))
      as (programCounter & ->).
    cbn [rbind]. unfold getitem at 1.
    destruct (VirtualMachine.memoryPool vm !! programCounter)
      as [instruction|] eqn:Hinstruction; [| exact I].
    cbn [rbind].
    pose proof (executeInstruction_outcome vm instruction Hvm
                  (words_lookup _ _ _ _ Hpool Hinstruction)) as Hstep.
    destruct (VirtualMachine.executeInstruction vm instruction)
      as [vm'| e |]; cbn [rbind];
      [| destruct e; first [exact I | exact Hstep] | exact I].
    destruct Hstep as [Hvm' Hsame].
    specialize (IH vm' Hvm').
    destruct (VirtualMachine.run_loop fuel programCounterAddress
                numberOfMemoryAddresses vm') as [vm''| e |];
      [| exact IH | exact I].
    destruct IH as [Hvm'' Hsame']. split; [exact Hvm'' |].
    exact (same_format_trans _ _ _ Hsame Hsame').
Qed.

Lemma word_zeros (W : Z) : 0 <= W -> word W (PyStr.repeat "0" W).
Proof.
  intros HW. split; [now apply len_repeat |].
  unfold PyStr.repeat. apply is_binary_zeros.
Qed.

Lemma init_words (configurationTable : gmap string Z) (code : list string)
    (M A O W : Z) (stdin : list string) :
  1 <= M -> 1 <= A -> 2 <= O -> W = M + A + 2 * O ->
  match VirtualMachine.init configurationTable code M A O W stdin with
  | Ok vm =>
      vm_words vm
      /\ VirtualMachine.chadsemblyByteCode vm = code
      /\ VirtualMachine.totalNumberOfInstructionBits vm = W
      /\ VirtualMachine.configurationTable vm
           !! Defaults.MEMORY_CONFIGURATION_OPTION = Some (2 ^ (O - 1))
  | Raise KeyError => True
  | _ => False
  end.
Proof.
  intros HM HA HO HW. unfold VirtualMachine.init.
  destruct (configurationTable !! Defaults.REGISTERS_CONFIGURATION_OPTION)
    as [g|] eqn:Hregisters.
  - destruct (generateMemoryPool_lookup configurationTable O W g Hregisters)
      as (pool & -> & Hpool).
    cbn [rbind]. unfold getitem. rewrite Hregisters. cbn [rbind fst snd].
    split; [| split; [reflexivity | split; [reflexivity |]]].
    + unfold vm_words.
      cbn [VirtualMachine.numberOfMachineOperationBits
           VirtualMachine.numberOfAddressingModeBits
           VirtualMachine.numberOfOperandBits
           VirtualMachine.totalNumberOfInstructionBits
           VirtualMachine.machineOperations VirtualMachine.memoryPool
           MachineOperations.totalNumberOfBits
           MachineOperations.memoryPool].
      do 5 (split; [first [assumption | reflexivity] |]).
      intros a cell Hcell. rewrite Hpool in Hcell.
      destruct (_ || _) in Hcell; [| discriminate].
      injection Hcell as <-. apply word_zeros. lia.
    + cbn [VirtualMachine.configurationTable]. apply lookup_insert_eq.
  - unfold VirtualMachine.generateMemoryPool, getitem.
    rewrite lookup_insert_ne by discriminate. now rewrite Hregisters.
Qed.

Lemma loader_words (vm : VirtualMachine.t) :
  vm_words vm ->
  Forall (word (VirtualMachine.totalNumberOfInstructionBits vm))
    (VirtualMachine.chadsemblyByteCode vm) ->
  run_outcome vm (VirtualMachine.loader vm).
Proof.
  intros Hvm Hcode. pose proof Hvm as (_ & _ & _ & _ & _ & Hpool).
  unfold VirtualMachine.loader, getitem.
  destruct (VirtualMachine.configurationTable vm
              !! Defaults.MEMORY_CONFIGURATION_OPTION); [| exact I].
  cbn [rbind]. destruct (_ <? _); [exact I |].
  apply vm_words_with_pool; [exact Hvm |].
  intros a cell Hcell. rewrite lookup_load in Hcell.
  destruct (0 <=? a).
  - destruct (VirtualMachine.chadsemblyByteCode vm !! Z.to_nat (a - 0))
      as [instruction|] eqn:Hinstruction.
    + injection Hcell as <-.
      exact (proj1 (Forall_lookup _ _) Hcode _ _ Hinstruction).
    + exact (Hpool a cell Hcell).
  - exact (Hpool a cell Hcell).
Qed.

(** The outcome of a run from the constructor on. *)
Lemma run_from_init_outcome (configurationTable : gmap string Z)
    (code : list string) (M A O W : Z) (stdin : list string) (fuel : nat) :
  1 <= M -> 1 <= A -> 2 <= O -> W = M + A + 2 * O ->
  Forall (word W) code ->
  match (vm <-- VirtualMachine.init configurationTable code M A O W stdin ;;
         VirtualMachine.run fuel vm) with
  | Ok vm' => words W (VirtualMachine.memoryPool vm')
  | Raise IndexError => False
  | _ => True
  end.
Proof.
  intros HM HA HO HW Hcode.
  pose proof (init_words configurationTable code M A O W stdin HM HA HO HW)
    as Hinit.
  destruct (VirtualMachine.init configurationTable code M A O W stdin)
    as [vm| e |]; cbn [rbind]; [| destruct e; tauto | tauto].
  destruct Hinit as (Hvm & Hbytecode & Hbits & _).
  unfold VirtualMachine.run.
  pose proof (loader_words vm Hvm) as Hloader.
  rewrite Hbytecode, Hbits in Hloader. specialize (Hloader Hcode).
  destruct (VirtualMachine.loader vm) as [vm1| e |]; cbn [rbind];
    [| destruct e; first [exact I | exact Hloader] | exact I].
  destruct Hloader as [Hvm1 Hsame1].
  set (vm2 := VirtualMachine.with_machine vm1
                (MachineOperations.print (VirtualMachine.machineOperations vm1)
                   Banner)).
  assert (Hvm2 : vm_words vm2).
  { destruct Hvm1 as (H1 & H2 & H3 & H4 & H5 & H6).
    unfold vm_words.
    split; [exact H1 |]. split; [exact H2 |]. split; [exact H3 |].
    split; [exact H4 |]. split; [exact H5 | exact H6]. }
  assert (Hbits2 : VirtualMachine.totalNumberOfInstructionBits vm2 = W).
  { destruct Hsame1 as (_ & _ & _ & _ & _ & Hsame1).
    change (VirtualMachine.totalNumberOfInstructionBits vm2)
      with (VirtualMachine.totalNumberOfInstructionBits vm1).
    congruence. }
  destruct (VirtualMachine.programCounterAddress vm2)
    as [programCounterAddress| e |] eqn:Haddress; cbn [rbind].
  2:{ unfold VirtualMachine.programCounterAddress, getitem in Haddress.
      destruct (VirtualMachine.configurationTable vm2 !! _);
        cbn [rbind] in Haddress; [discriminate |].
      injection Haddress as <-. exact I. }
  2:{ exact I. }
  unfold getitem at 1.
  destruct (VirtualMachine.configurationTable vm2
              !! Defaults.MEMORY_CONFIGURATION_OPTION)
    as [numberOfMemoryAddresses|]; [| exact I].
  cbn [rbind]. unfold getitem at 1.
  destruct (VirtualMachine.configurationTable vm2
              !! Defaults.CLOCK_CONFIGURATION_OPTION); [| exact I].
  cbn [rbind].
  pose proof (run_loop_outcome fuel programCounterAddress
                numberOfMemoryAddresses vm2 Hvm2) as Hrun.
  destruct (VirtualMachine.run_loop fuel programCounterAddress
              numberOfMemoryAddresses vm2) as [vm3| e |];
    [| destruct e; first [exact I | exact Hrun] | exact I].
  destruct Hrun as [(_ & _ & _ & _ & _ & Hpool3) (_ & _ & _ & _ & _ & Hsame3)].
  rewrite Hsame3, Hbits2 in Hpool3. exact Hpool3.
Qed.

(** Extra (virtualmachine.py, machineoperations.py).  Let a machine be
    built by the constructor for an instruction format with room for its
    fields ([M], [A] of one digit or more, [O] of two or more,
    [W = M + A + 2 O]) and a program whose words have exactly [W] binary
    digits, and let it run.  Whatever the program does and however long it
    runs, the run never indexes a string out of its bounds: it does not
    raise [IndexError], and a run that ends leaves a pool in which every
    cell is still a word of [W] binary digits. *)
Theorem run_keeps_the_cells_words (configurationTable : gmap string Z)
    (code : list string) (M A O W : Z) (stdin : list string) (fuel : nat) :
  1 <= M -> 1 <= A -> 2 <= O -> W = M + A + 2 * O ->
  Forall (word W) code ->
  match (vm <-- VirtualMachine.init configurationTable code M A O W stdin ;;
         VirtualMachine.run fuel vm) with
  | Ok vm' => words W (VirtualMachine.memoryPool vm')
  | Raise IndexError => False
  | _ => True
  end.
Proof.
  intros HM HA HO HW Hcode.
  exact (run_from_init_outcome configurationTable code M A O W stdin fuel
           HM HA HO HW Hcode).
Qed.

Lemma run_keeps_the_cells_words_witness :
  match (vm <-- VirtualMachine.init (configuration 100 10 0)
                  ["001010100000010100000001"; "000000000000000000000000"]
                  5 3 8 24 [] ;;
         VirtualMachine.run 5 vm) with
  | Ok vm' => words 24 (VirtualMachine.memoryPool vm')
  | Raise IndexError => False
  | _ => True
  end.
Proof.
  apply (run_keeps_the_cells_words (configuration 100 10 0)
           ["001010100000010100000001"; "000000000000000000000000"]
           5 3 8 24 [] 5).
  - lia.
  - lia.
  - lia.
  - reflexivity.
  - apply Forall_cons. split; [split; reflexivity |].
    apply Forall_cons. split; [split; reflexivity |]. constructor.
Defined.

(** ** The symbol table *)

Lemma upper_char_cases (c : ascii) :
  PyStr.upper_char c = c
  \/ (is_letter c = true /\ is_letter (PyStr.upper_char c) = true).
Proof.
  destruct c as [[] [] [] [] [] [] [] []];
    first [left; reflexivity | right; split; reflexivity].
Qed.

Lemma upper_char_idempotent (c : ascii) :
  PyStr.upper_char (PyStr.upper_char c) = PyStr.upper_char c.
Proof. destruct c as [[] [] [] [] [] [] [] []]; reflexivity. Qed.

Lemma upper_idempotent (s : string) :
  PyStr.upper (PyStr.upper s) = PyStr.upper s.
Proof.
  induction s as [|c s IH]; [reflexivity |].
  cbn [PyStr.upper]. now rewrite upper_char_idempotent, IH.
Qed.

(** Extra (symboltable.py).  After [insert], [get] answers with the new
    entry for every spelling of the label that differs from the inserted
    one in the case of its letters alone, and with what the table held
    before for every other label.  [get] does not see the case of its
    argument.  The keys of the table stay free of duplicates and stay in
    upper case. *)
Theorem symbol_table_get_insert (table : SymbolTable.t)
    (labelIdentifier targetLabelIdentifier : string)
    (labelValue labelType : Z) :
  let table' :=
    SymbolTable.insert table labelIdentifier labelValue labelType in
  SymbolTable.get table' targetLabelIdentifier
  = (if String.eqb (PyStr.upper targetLabelIdentifier)
          (PyStr.upper labelIdentifier)
     then Some (SymbolTable.mkEntry labelIdentifier labelValue labelType)
     else SymbolTable.get table targetLabelIdentifier)
  /\ SymbolTable.get table' (PyStr.upper targetLabelIdentifier)
     = SymbolTable.get table' targetLabelIdentifier
  /\ (NoDup (SymbolTable.getLabels table) ->
      NoDup (SymbolTable.getLabels table'))
  /\ (Forall (fun label => PyStr.upper label = label)
        (SymbolTable.getLabels table) ->
      Forall (fun label => PyStr.upper label = label)
        (SymbolTable.getLabels table')).
Proof.
  cbn zeta. unfold SymbolTable.get, SymbolTable.insert,
    SymbolTable.getLabels, Defaults.convertToCasing.
  split; [apply get_set |].
  split; [now rewrite upper_idempotent |].
  split; [apply NoDup_keys_set |].
  rewrite keys_set. unfold PyDict.contains.
  destruct (PyDict.get table (PyStr.upper labelIdentifier));
    [intros H; exact H |].
  intros H. apply Forall_app. split; [exact H |].
  apply Forall_singleton. apply upper_idempotent.
Qed.

(** ** The lexer does not see the case of letters *)

Lemma is_letter_upper_char (c : ascii) :
  is_letter c = false -> PyStr.upper_char c = c.
Proof.
  intros H. destruct (upper_char_cases c) as [Heq | [Hc _]]; [exact Heq |].
  congruence.
Qed.

Lemma eqb_upper_char (c p : ascii) :
  is_letter p = false ->
  Ascii.eqb (PyStr.upper_char c) p = Ascii.eqb c p.
Proof.
  intros Hp. destruct (upper_char_cases c) as [Heq | [Hc Hu]];
    [now rewrite Heq |].
  destruct (Ascii.eqb_spec (PyStr.upper_char c) p) as [<- | _]; [congruence |].
  destruct (Ascii.eqb_spec c p) as [<- | _]; [congruence | reflexivity].
Qed.

Lemma mem_upper_char (c : ascii) (chars : string) :
  no_letters chars = true ->
  PyStr.mem (PyStr.upper_char c) chars = PyStr.mem c chars.
Proof.
  induction chars as [|d chars IH]; [reflexivity |].
  cbn [no_letters PyStr.mem]. intros H.
  apply andb_prop in H. destruct H as [Hd Hchars].
  apply negb_true_iff in Hd.
  now rewrite eqb_upper_char, IH.
Qed.

Lemma mem_no_letters (c : ascii) (chars : string) :
  no_letters chars = true -> PyStr.mem c chars = true ->
  PyStr.upper_char c = c.
Proof.
  induction chars as [|d chars IH]; [discriminate |].
  cbn [no_letters PyStr.mem]. intros H.
  apply andb_prop in H. destruct H as [Hd Hchars].
  apply negb_true_iff in Hd.
  destruct (Ascii.eqb_spec c d) as [-> | _]; [intros _ | now apply IH].
  now apply is_letter_upper_char.
Qed.

Lemma no_letters_app (a b : string) :
  no_letters (a +:+ b) = no_letters a && no_letters b.
Proof.
  induction a as [|c a IH]; [reflexivity |].
  change (String c a +:+ b)%string with (String c (a +:+ b)).
  cbn [no_letters]. rewrite IH. now rewrite andb_assoc.
Qed.

Lemma terminators_no_letters (commentPrefix : ascii) :
  is_letter commentPrefix = false ->
  no_letters (Lexer.tokenTerminatingCharacters commentPrefix) = true.
Proof.
  intros H. unfold Lexer.tokenTerminatingCharacters.
  rewrite !no_letters_app. cbn [no_letters]. rewrite H. reflexivity.
Qed.

Lemma skipOverComment_upper (rest : string) (column : Z) :
  Lexer.skipOverComment (PyStr.upper rest) column
  = (PyStr.upper (fst (Lexer.skipOverComment rest column)),
     snd (Lexer.skipOverComment rest column)).
Proof.
  revert column. induction rest as [|c rest IH]; intros column;
    [reflexivity |].
  cbn [PyStr.upper Lexer.skipOverComment].
  rewrite mem_upper_char by reflexivity.
  destruct (PyStr.mem c KeyWords.LINE_BREAK_CHARACTERS); [reflexivity |].
  apply IH.
Qed.

Lemma takeUntil_upper (terminators rest : string) :
  no_letters terminators = true ->
  Lexer.takeUntil terminators (PyStr.upper rest)
  = PyStr.upper (Lexer.takeUntil terminators rest).
Proof.
  intros H. induction rest as [|c rest IH]; [reflexivity |].
  cbn [PyStr.upper Lexer.takeUntil]. rewrite mem_upper_char by exact H.
  destruct (PyStr.mem c terminators); [reflexivity |].
  cbn [PyStr.upper]. now rewrite IH.
Qed.

Lemma drop_upper (n : nat) (s : string) :
  PyStr.drop n (PyStr.upper s) = PyStr.upper (PyStr.drop n s).
Proof.
  revert s. induction n as [|n IH]; intros [|c s]; try reflexivity.
  cbn [PyStr.upper PyStr.drop]. apply IH.
Qed.

Lemma getTokenSubstring_upper (commentPrefix : ascii) (rest : string) :
  is_letter commentPrefix = false ->
  Lexer.getTokenSubstring commentPrefix (PyStr.upper rest)
  = Lexer.getTokenSubstring commentPrefix rest.
Proof.
  intros H. unfold Lexer.getTokenSubstring, Defaults.convertToCasing.
  rewrite takeUntil_upper by now apply terminators_no_letters.
  apply upper_idempotent.
Qed.

Lemma tokenise_loop_upper (commentPrefix : ascii) (fuel : nat) :
  is_letter commentPrefix = false ->
  forall rest st,
    Lexer.tokenise_loop fuel commentPrefix (PyStr.upper rest) st
    = Lexer.tokenise_loop fuel commentPrefix rest st.
Proof.
  intros Hp. induction fuel as [|fuel IH]; intros [|c rest] st;
    try reflexivity.
  pose proof (getTokenSubstring_upper commentPrefix (String c rest) Hp)
    as Htoken.
  pose proof (skipOverComment_upper (String c rest) (Lexer.column st))
    as Hskip.
  cbn [PyStr.upper] in Htoken, Hskip.
  cbn [Lexer.tokenise_loop PyStr.upper].
  rewrite eqb_upper_char by exact Hp.
  rewrite !mem_upper_char by reflexivity.
  destruct (Ascii.eqb c commentPrefix).
  { rewrite Hskip. cbn [fst snd]. apply IH. }
  destruct (PyStr.mem c KeyWords.WHITE_SPACE_CHARACTERS); [apply IH |].
  destruct (PyStr.mem c KeyWords.LINE_BREAK_CHARACTERS); [apply IH |].
  destruct (PyStr.mem c KeyWords.BLOCK_SCOPE_CHARACTERS) eqn:Hblock.
  { rewrite (mem_no_letters c KeyWords.BLOCK_SCOPE_CHARACTERS eq_refl Hblock). apply IH. }
  destruct (PyStr.mem c KeyWords.OPERAND_SEPERATOR_CHARACTERS); [apply IH |].
  destruct (PyStr.mem c KeyWords.ADDRESSING_MODE_CHARACTERS) eqn:Hmode.
  { rewrite (mem_no_letters c KeyWords.ADDRESSING_MODE_CHARACTERS eq_refl Hmode).
    destruct (Lexer.generateAddressingModeToken _ _ _); try reflexivity.
    cbn [rbind]. apply IH. }
  rewrite Htoken.
  destruct (Lexer.processTokenSubstring _ _ _ _); try reflexivity.
  cbn [rbind].
  change (String (PyStr.upper_char c) (PyStr.upper rest))
    with (PyStr.upper (String c rest)).
  rewrite drop_upper. apply IH.
Qed.

(** Extra (lexer.py).  The lexer does not see the case of letters: when
    the comment prefix is not a letter, a source text and the same text in
    upper case give the same outcome, token for token, position for
    position and error for error. *)
Theorem lex_ignores_case (sourceCode : string) (commentPrefix : ascii)
    (commentPrefixRest : string) :
  is_letter commentPrefix = false ->
  Lexer.lex (PyStr.upper sourceCode) (String commentPrefix commentPrefixRest)
  = Lexer.lex sourceCode (String commentPrefix commentPrefixRest).
Proof.
  intros Hp. unfold Lexer.lex, Lexer.tokeniseSourceCode.
  destruct sourceCode as [|c sourceCode]; [reflexivity |].
  rewrite upper_length, tokenise_loop_upper by exact Hp.
  reflexivity.
Qed.

Lemma lex_ignores_case_witness :
  Lexer.lex (PyStr.upper "lda #5, %acc") ";"
  = Lexer.lex "lda #5, %acc" ";".
Proof.
  apply (lex_ignores_case "lda #5, %acc" ";" EmptyString). reflexivity.
Defined.

(** ** The numbers in the token stream *)














(** ** Register operands *)

Lemma numberOfBits_bound (n : Z) :
  0 <= n -> n < 2 ^ BinaryString.numberOfBits n.
Proof.
  intros Hn. rewrite numberOfBits_log2 by exact Hn.
  destruct (Z.eq_dec n 0) as [-> | Hne]; [reflexivity |].
  pose proof (Z.log2_spec n ltac:(lia)). lia.
Qed.

Lemma numberOfBits_le (n m : Z) :
  0 <= n <= m -> BinaryString.numberOfBits n <= BinaryString.numberOfBits m.
Proof.
  intros H. rewrite !numberOfBits_log2 by lia.
  pose proof (Z.log2_le_mono n m ltac:(lia)). lia.
Qed.

Lemma operand_bits_hold_registers (configurationTable : gmap string Z)
    (w : CodeGenerator.widths) (g : Z) :
  CodeGenerator.init configurationTable = Ok w ->
  configurationTable !! Defaults.REGISTERS_CONFIGURATION_OPTION = Some g ->
  0 <= g ->
  g + 4 < 2 ^ (CodeGenerator.operandBits w - 1).
Proof.
  unfold CodeGenerator.init, CodeGenerator.calculateNumberOfOperandBits,
    getitem.
  intros H Hg Hpos. rewrite Hg in H. cbn [rbind] in H.
  destruct (configurationTable !! Defaults.MEMORY_CONFIGURATION_OPTION)
    as [m |]; [| discriminate].
  cbn [rbind] in H. injection H as <-. cbn [CodeGenerator.operandBits].
  change KeyWords.NUMBER_OF_SPECIAL_PURPOSE_REGISTERS with 4.
  destruct (g + 4 <? m) eqn:Hm.
  - apply Z.ltb_lt in Hm.
    replace (BinaryString.numberOfBits m + 1 - 1)
      with (BinaryString.numberOfBits m) by lia.
    pose proof (numberOfBits_bound m ltac:(lia)). lia.
  - replace (BinaryString.numberOfBits (g + 4) + 1 - 1)
      with (BinaryString.numberOfBits (g + 4)) by lia.
    apply numberOfBits_bound. lia.
Qed.

Lemma special_purpose_offset (name : string) :
  PyDict.contains KeyWords.SPECIAL_PURPOSE_REGISTERS_OFFSET name = true ->
  PyDict.contains KeyWords.SPECIAL_PURPOSE_REGISTERS name = true
  /\ exists offset,
       PyDict.getitem KeyWords.SPECIAL_PURPOSE_REGISTERS_OFFSET name
       = Ok offset
       /\ 1 <= offset <= 4.
Proof.
  unfold PyDict.contains, PyDict.getitem.
  change KeyWords.SPECIAL_PURPOSE_REGISTERS_OFFSET
    with [("ACC"%string, 1); ("PC"%string, 2); ("RR"%string, 3);
          ("FR"%string, 4)].
  cbn [PyDict.get].
  destruct (String.eqb_spec name "ACC") as [-> | _];
    [intros _; split; [reflexivity | exists 1; split; [reflexivity | lia]] |].
  destruct (String.eqb_spec name "PC") as [-> | _];
    [intros _; split; [reflexivity | exists 2; split; [reflexivity | lia]] |].
  destruct (String.eqb_spec name "RR") as [-> | _];
    [intros _; split; [reflexivity | exists 3; split; [reflexivity | lia]] |].
  destruct (String.eqb_spec name "FR") as [-> | _];
    [intros _; split; [reflexivity | exists 4; split; [reflexivity | lia]] |].
  discriminate.
Qed.

Lemma special_purpose_not_a_number (name : string) (n : Z) :
  PyStr.int name = Ok n ->
  PyDict.contains KeyWords.SPECIAL_PURPOSE_REGISTERS name = false.
Proof.
  unfold PyDict.contains.
  change KeyWords.SPECIAL_PURPOSE_REGISTERS
    with [("ACCUMULATOR"%string, "ACC"%string); ("ACC"%string, "ACC"%string);
          ("RETURNREGISTER"%string, "RR"%string);
          ("RR"%string, "RR"%string);
          ("FLAGSREGISTER"%string, "FR"%string); ("FR"%string, "FR"%string);
          ("PROGRAMCOUNTER"%string, "PC"%string);
          ("PC"%string, "PC"%string)].
  cbn [PyDict.get]. intros H.
  repeat match goal with
  | |- context [String.eqb name ?k] =>
      destruct (String.eqb_spec name k) as [-> | _];
        [discriminate H |]
  end.
  reflexivity.
Qed.

Lemma resolveRegister_address (g : Z) (registerToken : TypedToken.t) :
  1 <= g ->
  PyDict.contains KeyWords.SPECIAL_PURPOSE_REGISTERS_OFFSET
    (TypedToken.tokenValue registerToken) = true
  \/ (exists n,
        PyStr.int (TypedToken.tokenValue registerToken) = Ok n /\ 1 <= n) ->
  exists address,
    CodeGenerator.resolveRegister g registerToken = Ok address
    /\ 1 <= address <= g + 4.
Proof.
  intros Hg [Hspecial | (n & Hn & Hpos)]; unfold CodeGenerator.resolveRegister.
  - destruct (special_purpose_offset _ Hspecial)
      as (-> & offset & -> & Hoffset).
    cbn [rbind]. eexists. split; [reflexivity | lia].
  - rewrite (special_purpose_not_a_number _ _ Hn), Hn. cbn [rbind].
    rewrite wrapAround_registers; [| lia | lia |].
    + eexists. split; [reflexivity |].
      pose proof (Z.mod_pos_bound (n - 1) g ltac:(lia)). lia.
    + rewrite Z2Nat.id by lia.
      assert ((n - 1) / g <= n - 1); [| lia].
      apply Z.div_le_upper_bound; nia.
Qed.

(** Extra (codegenerator.py, virtualmachine.py).  With one general
    purpose register or more, a register token that holds the short name
    of a special purpose register, or a number of one or more, resolves to
    an operand between [1] and [g + 4]; the operand survives the signed
    operand field of the instruction format, and the address the virtual
    machine makes of it is the address of a cell of the memory pool. *)
Theorem register_operands_reach_their_cells
    (configurationTable : gmap string Z) (w : CodeGenerator.widths)
    (g : Z) (registerToken : TypedToken.t) :
  CodeGenerator.init configurationTable = Ok w ->
  configurationTable !! Defaults.REGISTERS_CONFIGURATION_OPTION = Some g ->
  1 <= g ->
  PyDict.contains KeyWords.SPECIAL_PURPOSE_REGISTERS_OFFSET
    (TypedToken.tokenValue registerToken) = true
  \/ (exists n,
        PyStr.int (TypedToken.tokenValue registerToken) = Ok n /\ 1 <= n) ->
  exists address configurationTable' pool,
    CodeGenerator.resolveRegister g registerToken = Ok address
    /\ 1 <= address <= g + 4
    /\ BinaryString.readSignedInteger
         (BinaryString.signedInteger address (CodeGenerator.operandBits w))
       = Ok address
    /\ VirtualMachine.generateMemoryPool configurationTable
         (CodeGenerator.operandBits w)
         (CodeGenerator.totalNumberOfInstructionBits w)
       = Ok (configurationTable', pool)
    /\ pool !! VirtualMachine.resolveDestinationOperand address
       = Some (PyStr.repeat "0"
                 (CodeGenerator.totalNumberOfInstructionBits w)).
Proof.
  intros Hw Hregisters Hg Htoken.
  destruct (resolveRegister_address g registerToken Hg Htoken)
    as (address & Haddress & Hrange).
  destruct (generateMemoryPool_lookup configurationTable
              (CodeGenerator.operandBits w)
              (CodeGenerator.totalNumberOfInstructionBits w) g Hregisters)
    as (pool & Hpool & Hcells).
  pose proof (operand_bits_hold_registers _ _ _ Hw Hregisters ltac:(lia))
    as Hfits.
  destruct (init_widths _ _ Hw) as (_ & _ & Hbits & _).
  eexists address, _, pool. split; [exact Haddress |].
  split; [exact Hrange |]. split; [| split; [exact Hpool |]].
  - rewrite readSignedInteger_signedInteger_wrap by exact Hbits.
    unfold sign_magnitude_wrap.
    rewrite Z.sgn_pos, Z.abs_eq, Z.mod_small by lia. f_equal. lia.
  - rewrite Hcells. unfold VirtualMachine.resolveDestinationOperand.
    replace ((- (g + 4) <=? address * -1) && (address * -1 <? 0)) with true;
      [reflexivity |].
    symmetry. apply andb_true_iff. split; [apply Z.leb_le | apply Z.ltb_lt];
      lia.
Qed.

Lemma register_operands_reach_their_cells_witness :
  exists address configurationTable' pool,
    CodeGenerator.resolveRegister 10
      (TypedToken.mk TypedToken.REGISTER "13" 1 1) = Ok address
    /\ 1 <= address <= 10 + 4
    /\ BinaryString.readSignedInteger
         (BinaryString.signedInteger address
            (CodeGenerator.operandBits default_widths))
       = Ok address
    /\ VirtualMachine.generateMemoryPool (configuration 100 10 0)
         (CodeGenerator.operandBits default_widths)
         (CodeGenerator.totalNumberOfInstructionBits default_widths)
       = Ok (configurationTable', pool)
    /\ pool !! VirtualMachine.resolveDestinationOperand address
       = Some (PyStr.repeat "0"
                 (CodeGenerator.totalNumberOfInstructionBits default_widths)).
Proof.
  apply (register_operands_reach_their_cells (configuration 100 10 0)
           default_widths 10 (TypedToken.mk TypedToken.REGISTER "13" 1 1)).
  - reflexivity.
  - reflexivity.
  - lia.
  - right. exists 13. split; [reflexivity | lia].
Defined.

(** Extra (lexer.py, semanticanalyser.py, codegenerator.py).  The long
    names of the special purpose registers are keys of
    [SPECIAL_PURPOSE_REGISTERS] and not of
    [SPECIAL_PURPOSE_REGISTERS_OFFSET]: the lexer makes a REGISTER token
    of each, with the long name as its value, the analysis of a register
    operand records no error for it under the register addressing mode,
    and the code generator raises [KeyError] when it resolves it. *)
Theorem long_register_names_raise_KeyError (name : string)
    (st : Lexer.state) (tokenRow tokenColumn g : Z)
    (mode : TypedToken.t)
    (globalInstructionPool instructionPool : InstructionPool.t)
    (errors : list message) :
  In name ["ACCUMULATOR"; "RETURNREGISTER"; "FLAGSREGISTER";
           "PROGRAMCOUNTER"]%string ->
  let registerToken :=
    TypedToken.mk TypedToken.REGISTER name tokenRow tokenColumn in
  Lexer.processTokenSubstring name st tokenRow tokenColumn
  = Ok (Lexer.append st registerToken)
  /\ (TypedToken.tokenValue mode = KeyWords.REGISTER_ADDRESSING_MODE ->
      SemanticAnalyser.analyseRegisterOperand
        (Operand.mk mode registerToken) errors = errors)
  /\ CodeGenerator.resolveOperand g globalInstructionPool
       (Operand.mk mode registerToken) instructionPool
     = Raise KeyError.
Proof.
  intros Hname registerToken. subst registerToken.
  cbn [In] in Hname.
  destruct Hname as [<- | [<- | [<- | [<- | []]]]];
    (split; [reflexivity |]; split; [| reflexivity]);
    intros Hmode; unfold SemanticAnalyser.analyseRegisterOperand;
    cbn [Operand.addressingMode Operand.operandValue TypedToken.tokenValue];
    rewrite Hmode; reflexivity.
Qed.

Lemma long_register_names_raise_KeyError_witness :
  CodeGenerator.resolveOperand 10 empty_pool
    (Operand.mk (TypedToken.mk TypedToken.ADDRESSING_MODE "%" 1 5)
       (TypedToken.mk TypedToken.REGISTER "ACCUMULATOR" 1 6))
    empty_pool
  = Raise KeyError.
Proof.
  apply (long_register_names_raise_KeyError "ACCUMULATOR"
           (Lexer.mkState [] [] 1 6) 1 6 10
           (TypedToken.mk TypedToken.ADDRESSING_MODE "%" 1 5)
           empty_pool empty_pool []).
  left. reflexivity.
Defined.

(** ** The generated program *)











(** ** The semantic analysis only inserts tokens *)






































(** ** The operands of an analysed statement *)

Lemma getOperand_mode (before after : list TypedToken.t)
    (mode value : TypedToken.t) (instructionPool : InstructionPool.t) :
  InstructionPool.tokenStream instructionPool
  = before ++ mode :: value :: after ->
  TypedToken.is_kind TypedToken.ADDRESSING_MODE mode = true ->
  SemanticAnalyser.getOperand (length before) instructionPool
  = Ok (Operand.mk mode value,
        InstructionPool.with_tokens instructionPool
          (before ++ mode :: value :: after)).
Proof.
  intros Hstream Hmode. unfold SemanticAnalyser.getOperand.
  rewrite Hstream, drop_app_length.
  cbn [SemanticAnalyser.getOperand_from]. rewrite Hstream.
  unfold TypedToken.is_kind in Hmode.
  destruct (TypedToken.tokenType mode); try discriminate.
  unfold list_item.
  rewrite list_lookup_middle by reflexivity. cbn [rbind].
  replace (before ++ mode :: value :: after)
    with ((before ++ [mode]) ++ value :: after) at 1
    by now rewrite <- app_assoc.
  rewrite list_lookup_middle by (rewrite length_app; cbn; lia).
  reflexivity.
Qed.

Lemma getOperand_value (before after : list TypedToken.t)
    (value : TypedToken.t) (instructionPool : InstructionPool.t) :
  InstructionPool.tokenStream instructionPool = before ++ value :: after ->
  TypedToken.kind_in (TypedToken.tokenType value)
    [TypedToken.REGISTER; TypedToken.LABEL; TypedToken.VALUE] = true ->
  SemanticAnalyser.getOperand (length before) instructionPool
  = Ok (completed (None, value),
        InstructionPool.with_tokens instructionPool
          (before
           ++ Operand.addressingMode (completed (None, value))
           :: value :: after)).
Proof.
  intros Hstream Hvalue. unfold SemanticAnalyser.getOperand.
  rewrite Hstream, drop_app_length.
  cbn [SemanticAnalyser.getOperand_from]. rewrite Hstream.
  unfold SemanticAnalyser.list_insert.
  rewrite take_app_length, drop_app_length.
  set (mode := TypedToken.mk TypedToken.ADDRESSING_MODE
                 KeyWords.DIRECT_ADDRESSING_MODE (TypedToken.row value)
                 (TypedToken.column value)).
  assert (Hat :
    (mode0 <-- list_item (before ++ mode :: value :: after) (length before) ;;
     value0 <-- list_item (before ++ mode :: value :: after)
                  (length before + 1) ;;
     Ok (Operand.mk mode0 value0,
         InstructionPool.with_tokens instructionPool
           (before ++ mode :: value :: after)))
    = Ok (completed (None, value),
          InstructionPool.with_tokens instructionPool
            (before ++ mode :: value :: after))).
  { unfold list_item.
    rewrite list_lookup_middle by reflexivity. cbn [rbind].
    replace (before ++ mode :: value :: after)
      with ((before ++ [mode]) ++ value :: after) at 1
      by now rewrite <- app_assoc.
    rewrite list_lookup_middle by (rewrite length_app; cbn; lia).
    reflexivity. }
  destruct (TypedToken.tokenType value); try discriminate; exact Hat.
Qed.

Lemma getOperand_seperator (before after : list TypedToken.t)
    (seperator : TypedToken.t) (instructionPool : InstructionPool.t) :
  InstructionPool.tokenStream instructionPool
  = before ++ seperator :: after ->
  TypedToken.is_kind TypedToken.SEPERATOR seperator = true ->
  SemanticAnalyser.getOperand (length before) instructionPool
  = SemanticAnalyser.getOperand (length (before ++ [seperator]))
      instructionPool.
Proof.
  intros Hstream Hseperator. unfold SemanticAnalyser.getOperand.
  rewrite Hstream at 1. rewrite drop_app_length.
  cbn [SemanticAnalyser.getOperand_from].
  unfold TypedToken.is_kind in Hseperator.
  destruct (TypedToken.tokenType seperator); try discriminate.
  rewrite Hstream.
  replace (before ++ seperator :: after)
    with ((before ++ [seperator]) ++ after) by now rewrite <- app_assoc.
  rewrite drop_app_length. rewrite length_app, Nat.add_1_r. reflexivity.
Qed.

Lemma getOperand_end (before after : list TypedToken.t)
    (previous endToken : TypedToken.t) (instructionPool : InstructionPool.t) :
  InstructionPool.tokenStream instructionPool
  = (before ++ [previous]) ++ endToken :: after ->
  TypedToken.is_kind TypedToken.END endToken = true ->
  TypedToken.kind_in (TypedToken.tokenType previous)
    [TypedToken.REGISTER; TypedToken.LABEL; TypedToken.VALUE] = true ->
  let row := TypedToken.row endToken in
  let column := TypedToken.column endToken in
  let seperator :=
    TypedToken.mk TypedToken.SEPERATOR Defaults.INSTRUCTION_SEPERATOR_SYMBOL
      row column in
  let mode :=
    TypedToken.mk TypedToken.ADDRESSING_MODE
      KeyWords.REGISTER_ADDRESSING_MODE row column in
  let register :=
    TypedToken.mk TypedToken.REGISTER KeyWords.ACCUMULATOR row column in
  SemanticAnalyser.getOperand (length (before ++ [previous])) instructionPool
  = Ok (Operand.mk mode register,
        InstructionPool.with_tokens instructionPool
          ((before ++ [previous])
           ++ seperator :: mode :: register :: endToken :: after)).
Proof.
  intros Hstream Hend Hprevious row column seperator mode register.
  unfold SemanticAnalyser.getOperand.
  rewrite Hstream, drop_app_length.
  cbn [SemanticAnalyser.getOperand_from]. rewrite Hstream.
  unfold TypedToken.is_kind in Hend.
  destruct (TypedToken.tokenType endToken); try discriminate.
  fold row column. fold register mode.
  set (l := before ++ [previous]).
  unfold SemanticAnalyser.list_insert.
  repeat (rewrite take_app_length || rewrite drop_app_length).
  assert (Hprev : SemanticAnalyser.list_item_before
                    (l ++ mode :: register :: endToken :: after) (length l)
                  = Ok previous).
  { subst l. rewrite length_app, Nat.add_1_r.
    unfold SemanticAnalyser.list_item_before, list_item.
    rewrite <- !app_assoc. cbn [app].
    rewrite list_lookup_middle by reflexivity. reflexivity. }
  rewrite Hprev. cbn [rbind]. rewrite Hprevious.
  fold seperator.
  unfold list_item.
  replace (l ++ seperator :: mode :: register :: endToken :: after)
    with ((l ++ [seperator]) ++ mode :: register :: endToken :: after) at 1
    by now rewrite <- app_assoc.
  rewrite list_lookup_middle by (rewrite length_app; cbn; lia).
  cbn [rbind].
  replace (l ++ seperator :: mode :: register :: endToken :: after)
    with ((l ++ [seperator; mode]) ++ register :: endToken :: after) at 1
    by now rewrite <- app_assoc.
  rewrite list_lookup_middle by (rewrite length_app; cbn; lia).
  reflexivity.
Qed.

Ltac stream_equal :=
  cbn [InstructionPool.tokenStream InstructionPool.with_tokens
       Operand.addressingMode Operand.operandValue completed fst snd];
  repeat first [rewrite <- app_assoc | progress cbn [app]]; reflexivity.

Ltac stream_index :=
  repeat rewrite length_app; cbn [length]; lia.

Lemma getOperand_at_mode (b : nat) (before after : list TypedToken.t)
    (mode value : TypedToken.t) (instructionPool : InstructionPool.t) :
  InstructionPool.tokenStream instructionPool
  = before ++ mode :: value :: after ->
  b = length before ->
  TypedToken.is_kind TypedToken.ADDRESSING_MODE mode = true ->
  SemanticAnalyser.getOperand b instructionPool
  = Ok (completed (Some mode, value),
        InstructionPool.with_tokens instructionPool
          (before ++ mode :: value :: after)).
Proof. intros Hstream -> Hmode. now apply getOperand_mode. Qed.

Lemma getOperand_at_value (b : nat) (before after : list TypedToken.t)
    (value : TypedToken.t) (instructionPool : InstructionPool.t) :
  InstructionPool.tokenStream instructionPool = before ++ value :: after ->
  b = length before ->
  TypedToken.kind_in (TypedToken.tokenType value)
    [TypedToken.REGISTER; TypedToken.LABEL; TypedToken.VALUE] = true ->
  SemanticAnalyser.getOperand b instructionPool
  = Ok (completed (None, value),
        InstructionPool.with_tokens instructionPool
          (before
           ++ Operand.addressingMode (completed (None, value))
           :: value :: after)).
Proof. intros Hstream -> Hvalue. now apply getOperand_value. Qed.

(** [getOperand] on an operand of a statement, whatever its form. *)
Lemma getOperand_operand (b : nat) (before after : list TypedToken.t)
    (operand : option TypedToken.t * TypedToken.t)
    (instructionPool : InstructionPool.t) :
  InstructionPool.tokenStream instructionPool
  = before ++ operand_text operand ++ after ->
  b = length before ->
  well_formed_operand operand = true ->
  SemanticAnalyser.getOperand b instructionPool
  = Ok (completed operand,
        InstructionPool.with_tokens instructionPool
          (before
           ++ Operand.addressingMode (completed operand)
           :: Operand.operandValue (completed operand) :: after)).
Proof.
  destruct operand as [[mode|] value]; unfold well_formed_operand;
    cbn [fst snd operand_text app]; intros Hstream Hb Hwf;
    apply andb_prop in Hwf; destruct Hwf as [Hmode Hvalue].
  - now apply getOperand_at_mode.
  - now apply getOperand_at_value.
Qed.

Lemma well_formed_operand_value
    (operand : option TypedToken.t * TypedToken.t) :
  well_formed_operand operand = true ->
  TypedToken.kind_in
    (TypedToken.tokenType (Operand.operandValue (completed operand)))
    [TypedToken.REGISTER; TypedToken.LABEL; TypedToken.VALUE] = true.
Proof.
  unfold well_formed_operand. intros H. apply andb_prop in H. tauto.
Qed.

Lemma getOperands_statement (before after : list TypedToken.t)
    (s : statement) (instructionPool : InstructionPool.t) :
  InstructionPool.tokenStream instructionPool
  = before ++ statement_text s ++ after ->
  well_formed_statement s = true ->
  SemanticAnalyser.getOperands (length before + 1) instructionPool
  = Ok (completed (statementSource s), snd (destination_of s),
        InstructionPool.with_tokens instructionPool
          (before ++ analysed_text s ++ after)).
Proof.
  destruct s as [instruction source destination endToken].
  unfold well_formed_statement, statement_text, analysed_text,
    destination_of.
  cbn [statementInstruction statementSource statementDestination
       statementEnd].
  intros Hstream Hwf.
  apply andb_prop in Hwf. destruct Hwf as [Hwf Hend].
  apply andb_prop in Hwf. destruct Hwf as [Hsource Hwf].
  unfold SemanticAnalyser.getOperands.
  set (rest := match destination with
               | Some (seperator, operand) =>
                   seperator :: operand_text operand
               | None => []
               end ++ [endToken]) in *.
  rewrite (getOperand_operand (length before + 1) (before ++ [instruction])
             (rest ++ after) source instructionPool);
    [| rewrite Hstream; stream_equal | stream_index | exact Hsource].
  cbn [rbind fst snd].
  set (mode := Operand.addressingMode (completed source)).
  set (value := Operand.operandValue (completed source)).
  pose proof (well_formed_operand_value source Hsource) as Hvalue.
  fold value in Hvalue.
  set (pool1 := InstructionPool.with_tokens instructionPool _).
  subst rest. destruct destination as [[seperator operand]|].
  - apply andb_prop in Hwf. destruct Hwf as [Hseperator Hoperand].
    replace (length before + 1 + 2)%nat
      with (length (before ++ [instruction; mode; value]))
      by stream_index.
    rewrite (getOperand_seperator
               (before ++ [instruction; mode; value])
               (operand_text operand ++ endToken :: after) seperator pool1
               ltac:(subst pool1; stream_equal) Hseperator).
    rewrite (getOperand_operand _
               (before ++ [instruction; mode; value; seperator])
               (endToken :: after) operand pool1);
      [| subst pool1; stream_equal | stream_index | exact Hoperand].
    cbn [rbind fst snd]. subst pool1. f_equal. f_equal.
    cbn [InstructionPool.with_tokens InstructionPool.poolIdentifier
         InstructionPool.symbolTable]. f_equal.
    repeat first [rewrite <- app_assoc | progress cbn [app]]. reflexivity.
  - replace (length before + 1 + 2)%nat
      with (length ((before ++ [instruction; mode]) ++ [value]))
      by stream_index.
    rewrite (getOperand_end (before ++ [instruction; mode]) after value
               endToken pool1 ltac:(subst pool1; stream_equal) Hend Hvalue).
    cbn [rbind fst snd]. subst pool1. f_equal. f_equal.
    cbn [InstructionPool.with_tokens InstructionPool.poolIdentifier
         InstructionPool.symbolTable]. f_equal.
    repeat first [rewrite <- app_assoc | progress cbn [app]]. reflexivity.
Qed.

Lemma count_skip (token : TypedToken.t) (rest : list TypedToken.t) (n : Z) :
  TypedToken.kind_in (TypedToken.tokenType token)
    [TypedToken.INSTRUCTION; TypedToken.ADDRESSING_MODE;
     TypedToken.SEPERATOR] = true ->
  SemanticAnalyser.countNumberOfOperands_loop (token :: rest) n
  = SemanticAnalyser.countNumberOfOperands_loop rest n.
Proof.
  cbn [SemanticAnalyser.countNumberOfOperands_loop].
  unfold TypedToken.is_kind.
  destruct (TypedToken.tokenType token); try discriminate; reflexivity.
Qed.

Lemma count_value (token : TypedToken.t) (rest : list TypedToken.t) (n : Z) :
  TypedToken.kind_in (TypedToken.tokenType token)
    [TypedToken.REGISTER; TypedToken.LABEL; TypedToken.VALUE] = true ->
  SemanticAnalyser.countNumberOfOperands_loop (token :: rest) n
  = SemanticAnalyser.countNumberOfOperands_loop rest (n + 1).
Proof.
  cbn [SemanticAnalyser.countNumberOfOperands_loop].
  unfold TypedToken.is_kind.
  destruct (TypedToken.tokenType token); try discriminate; reflexivity.
Qed.

Lemma count_end (token : TypedToken.t) (rest : list TypedToken.t) (n : Z) :
  TypedToken.is_kind TypedToken.END token = true ->
  SemanticAnalyser.countNumberOfOperands_loop (token :: rest) n = Ok n.
Proof.
  cbn [SemanticAnalyser.countNumberOfOperands_loop]. now intros ->.
Qed.

Lemma kind_skip (a : TypedToken.kind) (token : TypedToken.t) :
  TypedToken.is_kind a token = true ->
  TypedToken.kind_in a
    [TypedToken.INSTRUCTION; TypedToken.ADDRESSING_MODE;
     TypedToken.SEPERATOR] = true ->
  TypedToken.kind_in (TypedToken.tokenType token)
    [TypedToken.INSTRUCTION; TypedToken.ADDRESSING_MODE;
     TypedToken.SEPERATOR] = true.
Proof.
  unfold TypedToken.is_kind.
  destruct a, (TypedToken.tokenType token); try discriminate; reflexivity.
Qed.

Lemma count_operand (operand : option TypedToken.t * TypedToken.t)
    (rest : list TypedToken.t) (n : Z) :
  well_formed_operand operand = true ->
  SemanticAnalyser.countNumberOfOperands_loop (operand_text operand ++ rest) n
  = SemanticAnalyser.countNumberOfOperands_loop rest (n + 1).
Proof.
  destruct operand as [[mode|] value]; unfold well_formed_operand;
    cbn [fst snd operand_text app]; intros Hwf;
    apply andb_prop in Hwf; destruct Hwf as [Hmode Hvalue].
  - rewrite count_skip by (now apply (kind_skip TypedToken.ADDRESSING_MODE)).
    now apply count_value.
  - now apply count_value.
Qed.

Lemma count_statement (s : statement) (after : list TypedToken.t) :
  well_formed_statement s = true ->
  TypedToken.is_kind TypedToken.INSTRUCTION (statementInstruction s) = true ->
  exists numberOfOperands,
    SemanticAnalyser.countNumberOfOperands_loop (statement_text s ++ after) 0
    = Ok numberOfOperands
    /\ numberOfOperands <= 2.
Proof.
  destruct s as [instruction source destination endToken].
  unfold well_formed_statement, statement_text.
  cbn [statementInstruction statementSource statementDestination
       statementEnd].
  intros Hwf Hinstruction.
  apply andb_prop in Hwf. destruct Hwf as [Hwf Hend].
  apply andb_prop in Hwf. destruct Hwf as [Hsource Hwf].
  cbn [app].
  rewrite count_skip by (now apply (kind_skip TypedToken.INSTRUCTION)).
  rewrite <- app_assoc. rewrite count_operand by exact Hsource.
  destruct destination as [[seperator operand]|].
  - apply andb_prop in Hwf. destruct Hwf as [Hseperator Hoperand].
    cbn [app].
    rewrite count_skip by (now apply (kind_skip TypedToken.SEPERATOR)).
    rewrite <- app_assoc. rewrite count_operand by exact Hoperand.
    cbn [app]. rewrite count_end by exact Hend.
    eexists. split; [reflexivity | lia].
  - cbn [app]. rewrite count_end by exact Hend.
    eexists. split; [reflexivity | lia].
Qed.

Lemma first_of_operand (operand : option TypedToken.t * TypedToken.t)
    (rest : list TypedToken.t) :
  well_formed_operand operand = true ->
  exists first rest',
    operand_text operand ++ rest = first :: rest'
    /\ TypedToken.is_kind TypedToken.END first = false.
Proof.
  destruct operand as [[mode|] value]; unfold well_formed_operand;
    cbn [fst snd operand_text app]; intros Hwf;
    apply andb_prop in Hwf; destruct Hwf as [Hmode Hvalue];
    eexists _, _; (split; [reflexivity |]); unfold TypedToken.is_kind in *.
  - destruct (TypedToken.tokenType mode); try discriminate; reflexivity.
  - destruct (TypedToken.tokenType value); try discriminate; reflexivity.
Qed.

(** Extra (semanticanalyser.py, codegenerator.py).  Let a token stream
    hold a statement of an instruction of two operands: the instruction,
    the source operand with or without an addressing mode, a separator and
    the destination operand or neither, and the END token.  The analysis of
    the instruction leaves in its place the seven tokens instruction, mode,
    value, separator, mode, value, END: an operand without a mode gets the
    direct mode, a missing destination becomes a separator and the
    accumulator in register mode, and the tokens before and after the
    statement stay as they are.  On the analysed pool the code generator
    reads the two operands at the places [+1], [+2] and [+4], [+5] and
    converts the instruction with exactly these operands. *)
Theorem analysed_statement_has_both_operands
    (globalInstructionPool instructionPool : InstructionPool.t)
    (errors : list message) (before after : list TypedToken.t)
    (s : statement) :
  InstructionPool.tokenStream instructionPool
  = before ++ statement_text s ++ after ->
  well_formed_statement s = true ->
  TypedToken.is_kind TypedToken.INSTRUCTION (statementInstruction s) = true ->
  PyDict.get KeyWords.NUMBER_OF_INSTRUCTION_OPERANDS
    (TypedToken.tokenValue (statementInstruction s)) = Some 2 ->
  let instructionPool' :=
    InstructionPool.with_tokens instructionPool
      (before ++ analysed_text s ++ after) in
  (exists errors',
     SemanticAnalyser.analyseInstruction globalInstructionPool
       (length before) instructionPool errors
     = Ok (instructionPool', errors'))
  /\ forall (w : CodeGenerator.widths) (numberOfGeneralPurposeRegisters : Z)
            (globalInstructionPool' : InstructionPool.t),
       CodeGenerator.generateChadsemblyInstruction w
         numberOfGeneralPurposeRegisters globalInstructionPool'
         (length before) instructionPool'
       = (instruction <-- CodeGenerator.convertToChadsemblyMachineCode w
                            numberOfGeneralPurposeRegisters
                            globalInstructionPool' (statementInstruction s)
                            (completed (statementSource s))
                            (snd (destination_of s)) instructionPool' ;;
          Ok (Some instruction)).
Proof.
  intros Hstream Hwf Hinstruction Hcount instructionPool'.
  split.
  - assert (Hat : list_item (InstructionPool.tokenStream instructionPool)
                    (length before) = Ok (statementInstruction s)).
    { unfold list_item. rewrite Hstream. unfold statement_text.
      cbn [app]. rewrite list_lookup_middle by reflexivity. reflexivity. }
    destruct (count_statement s after Hwf Hinstruction)
      as (numberOfOperands & Hoperands' & Hle).
    assert (Hnumber : SemanticAnalyser.countNumberOfOperands (length before)
                        instructionPool = Ok numberOfOperands).
    { unfold SemanticAnalyser.countNumberOfOperands.
      rewrite Hstream, drop_app_length. exact Hoperands'. }
    unfold SemanticAnalyser.analyseInstruction.
    rewrite Hat. cbn [rbind]. rewrite Hnumber.
    cbn [rbind]. unfold PyDict.getitem. rewrite Hcount. cbn [rbind].
    replace (2 <? numberOfOperands) with false
      by (symmetry; apply Z.ltb_ge; lia).
    cbn [Z.eqb Pos.eqb].
    unfold SemanticAnalyser.analyseDoubleOperandInstruction.
    assert (Hsource : well_formed_operand (statementSource s) = true).
    { unfold well_formed_statement in Hwf.
      apply andb_prop in Hwf. destruct Hwf as [Hwf _].
      apply andb_prop in Hwf. tauto. }
    destruct (first_of_operand (statementSource s)
                (match statementDestination s with
                 | Some (seperator, operand) =>
                     seperator :: operand_text operand
                 | None => []
                 end ++ [statementEnd s] ++ after) Hsource)
      as (first & rest' & Hfirst & Hkind).
    assert (Hitem : list_item (InstructionPool.tokenStream instructionPool)
                      (length before + 1) = Ok first).
    { unfold list_item. rewrite Hstream. unfold statement_text.
      replace (before
               ++ (statementInstruction s
                   :: operand_text (statementSource s)
                   ++ match statementDestination s with
                      | Some (seperator, operand) =>
                          seperator :: operand_text operand
                      | None => []
                      end ++ [statementEnd s]) ++ after)
        with ((before ++ [statementInstruction s]) ++ first :: rest').
      - rewrite list_lookup_middle by stream_index. reflexivity.
      - rewrite <- Hfirst.
        repeat first [rewrite <- app_assoc | progress cbn [app]].
        reflexivity. }
    rewrite Hitem. cbn [rbind]. cbn zeta. rewrite Hkind.
    pose proof (getOperands_statement before after s instructionPool
                  Hstream Hwf) as Hoperands.
    destruct (str_in _ KeyWords.BRANCH_INSTRUCTIONS).
    { unfold SemanticAnalyser.analyseBranchInstruction.
      rewrite Hoperands. cbn [rbind fst snd]. eexists. reflexivity. }
    destruct (str_in _ KeyWords.DATA_FLOW_INSTRUCTIONS).
    { unfold SemanticAnalyser.analyseDataFlowInstruction.
      rewrite Hoperands. cbn [rbind fst snd]. eexists. reflexivity. }
    unfold SemanticAnalyser.analyseGenericDoubleOperandInstruction.
    rewrite Hoperands. cbn [rbind fst snd]. eexists. reflexivity.
  - intros w numberOfGeneralPurposeRegisters globalInstructionPool'.
    unfold CodeGenerator.generateChadsemblyInstruction.
    change (InstructionPool.tokenStream instructionPool')
      with (before ++ analysed_text s ++ after).
    unfold analysed_text. cbn zeta. cbn [app].
    unfold list_item.
    rewrite list_lookup_middle by reflexivity. cbn [rbind].
    unfold PyDict.getitem. rewrite Hcount. cbn [rbind Z.eqb Pos.eqb].
    rewrite (lookup_app_r before) by lia.
    replace (length before + 1 - length before)%nat with 1%nat by lia.
    cbn [lookup list_lookup app rbind].
    rewrite (lookup_app_r before) by lia.
    replace (length before + 2 - length before)%nat with 2%nat by lia.
    cbn [lookup list_lookup app rbind].
    rewrite (lookup_app_r before) by lia.
    replace (length before + 4 - length before)%nat with 4%nat by lia.
    cbn [lookup list_lookup app rbind].
    rewrite (lookup_app_r before) by lia.
    replace (length before + 5 - length before)%nat with 5%nat by lia.
    cbn [lookup list_lookup app rbind].
    destruct (completed (statementSource s)) as [mode value].
    destruct (snd (destination_of s)) as [mode' value'].
    reflexivity.
Qed.

Lemma analysed_statement_has_both_operands_witness :
  exists errors',
    SemanticAnalyser.analyseInstruction empty_pool 0
      (InstructionPool.with_tokens empty_pool
         [TypedToken.mk TypedToken.INSTRUCTION "ADD" 1 1;
          TypedToken.mk TypedToken.VALUE "+5" 1 5;
          TypedToken.mk TypedToken.END "/" 1 6]) []
    = Ok (InstructionPool.with_tokens empty_pool
            [TypedToken.mk TypedToken.INSTRUCTION "ADD" 1 1;
             TypedToken.mk TypedToken.ADDRESSING_MODE "@" 1 5;
             TypedToken.mk TypedToken.VALUE "+5" 1 5;
             TypedToken.mk TypedToken.SEPERATOR "," 1 6;
             TypedToken.mk TypedToken.ADDRESSING_MODE "%" 1 6;
             TypedToken.mk TypedToken.REGISTER "ACC" 1 6;
             TypedToken.mk TypedToken.END "/" 1 6],
          errors').
Proof.
  exact (proj1 (analysed_statement_has_both_operands empty_pool
                  (InstructionPool.with_tokens empty_pool
                     (statement_text add_statement))
                  [] [] [] add_statement eq_refl eq_refl eq_refl eq_refl)).
Defined.

(** ** The configuration table of the argument processor *)















(** ** Variable declarations *)

Lemma parseLabel_table (labelToken : TypedToken.t) (table : SymbolTable.t)
    (labelContext : TypedToken.kind) (errors : list message) :
  let te := Parser.parseLabel labelToken table labelContext errors in
  errors `prefix_of` snd te
  /\ (exists entry,
        SymbolTable.get (fst te) (TypedToken.tokenValue labelToken)
        = Some entry)
  /\ forall other,
       PyStr.upper other <> PyStr.upper (TypedToken.tokenValue labelToken) ->
       SymbolTable.get (fst te) other = SymbolTable.get table other.
Proof.
  unfold Parser.parseLabel.
  destruct (SymbolTable.get table (TypedToken.tokenValue labelToken))
    as [labelSymbol|] eqn:Hget.
  - assert (Hsame : forall errors',
      errors `prefix_of` errors' ->
      let te := (table, errors') in
      errors `prefix_of` snd te
      /\ (exists entry,
            SymbolTable.get (fst te) (TypedToken.tokenValue labelToken)
            = Some entry)
      /\ forall other,
           PyStr.upper other
           <> PyStr.upper (TypedToken.tokenValue labelToken) ->
           SymbolTable.get (fst te) other = SymbolTable.get table other).
    { intros errors' Hprefix. cbn. split; [exact Hprefix |].
      split; [now exists labelSymbol | reflexivity]. }
    destruct labelContext;
      repeat match goal with
      | |- context [if ?b then _ else _] => destruct b
      end;
      apply Hsame; first [reflexivity | now apply prefix_app_r].
  - cbn [fst snd]. split; [reflexivity |].
    unfold SymbolTable.get, SymbolTable.insert, Defaults.convertToCasing.
    split.
    + eexists. rewrite get_set, String.eqb_refl. reflexivity.
    + intros other Hother. rewrite get_set.
      destruct (String.eqb_spec (PyStr.upper other)
                  (PyStr.upper (TypedToken.tokenValue labelToken)));
        [contradiction | reflexivity].
Qed.

Lemma assign_get (table : SymbolTable.t) (label : string)
    (labelValue labelType : Z) (entry : SymbolTable.SymbolTableEntry) :
  SymbolTable.get table label = Some entry ->
  SymbolTable.get (SymbolTable.assign table label labelValue labelType) label
  = Some (SymbolTable.mkEntry (SymbolTable.labelIdentifier entry)
            labelValue labelType)
  /\ forall other,
       PyStr.upper other <> PyStr.upper label ->
       SymbolTable.get (SymbolTable.assign table label labelValue labelType)
         other
       = SymbolTable.get table other.
Proof.
  intros Hget. unfold SymbolTable.assign. rewrite Hget.
  unfold SymbolTable.get, Defaults.convertToCasing. split.
  - now rewrite get_set, String.eqb_refl.
  - intros other Hother. rewrite get_set.
    destruct (String.eqb_spec (PyStr.upper other) (PyStr.upper label));
      [contradiction | reflexivity].
Qed.

(** Extra (parser.py).  On a declaration [label DAT value] or
    [label DAT], the update of the symbol table from the label removes the
    tokens of the declaration from the token stream, up to its END token,
    which stays, and enters the label as a variable: its entry has the type
    VARIABLE and the value of the declaration, [0] when there is none.
    The entries of all other labels stay as they are, whatever the case of
    their letters, and the errors of before open the list of errors. *)
Theorem declaration_enters_a_variable (instructionPool : InstructionPool.t)
    (before after : list TypedToken.t) (label directive : TypedToken.t)
    (value : option TypedToken.t) (endToken : TypedToken.t)
    (indexedInstructionCount initial : Z) (errors : list message) :
  InstructionPool.tokenStream instructionPool
  = before ++ declaration_text label directive value ++ endToken :: after ->
  TypedToken.is_kind TypedToken.LABEL label = true ->
  TypedToken.is_kind TypedToken.ASSEMBLY_DIRECTIVE directive = true ->
  TypedToken.is_kind TypedToken.END endToken = true ->
  (forall valueToken,
     value = Some valueToken ->
     TypedToken.is_kind TypedToken.VALUE valueToken = true) ->
  declared_value value = Ok initial ->
  exists instructionPool' errors' entry,
    Parser.updateSymbolTableFromLabel (length before) instructionPool
      indexedInstructionCount errors = Ok (instructionPool', errors')
    /\ InstructionPool.tokenStream instructionPool'
       = before ++ endToken :: after
    /\ InstructionPool.poolIdentifier instructionPool'
       = InstructionPool.poolIdentifier instructionPool
    /\ SymbolTable.get (InstructionPool.symbolTable instructionPool')
         (TypedToken.tokenValue label) = Some entry
    /\ SymbolTable.labelType entry = SymbolTable.VARIABLE_LABEL
    /\ SymbolTable.labelValue entry = initial
    /\ (forall other,
          PyStr.upper other <> PyStr.upper (TypedToken.tokenValue label) ->
          SymbolTable.get (InstructionPool.symbolTable instructionPool')
            other
          = SymbolTable.get (InstructionPool.symbolTable instructionPool)
              other)
    /\ errors `prefix_of` errors'.
Proof.
  intros Hstream Hlabel Hdirective Hend Hvalue Hinitial.
  unfold Parser.updateSymbolTableFromLabel. cbn zeta.
  unfold declaration_text in Hstream. cbn [app] in Hstream.
  assert (H0 : list_item (InstructionPool.tokenStream instructionPool)
                 (length before) = Ok label).
  { unfold list_item. rewrite Hstream.
    now rewrite list_lookup_middle by reflexivity. }
  assert (H1 : list_item (InstructionPool.tokenStream instructionPool)
                 (length before + 1) = Ok directive).
  { unfold list_item. rewrite Hstream.
    rewrite lookup_app_r by lia.
    replace (length before + 1 - length before)%nat with 1%nat by lia.
    reflexivity. }
  rewrite H1. cbn [rbind].
  unfold TypedToken.is_kind in Hdirective.
  destruct (TypedToken.tokenType directive) eqn:Hkind; try discriminate.
  cbn [TypedToken.kind_in existsb TypedToken.kind_eqb orb].
  rewrite H0. cbn [rbind].
  destruct (parseLabel_table label
              (InstructionPool.symbolTable instructionPool)
              TypedToken.ASSEMBLY_DIRECTIVE errors)
    as (Hprefix & (entry0 & Hentry0) & Hothers).
  set (te := Parser.parseLabel label
               (InstructionPool.symbolTable instructionPool)
               TypedToken.ASSEMBLY_DIRECTIVE errors) in *.
  assert (H2 : exists third,
    list_item (InstructionPool.tokenStream instructionPool)
      (length before + 2) = Ok third
    /\ (if TypedToken.is_kind TypedToken.VALUE third
        then PyStr.int (TypedToken.tokenValue third)
        else PyStr.int Defaults.DEFAULT_VARIABLE_VALUE) = Ok initial).
  { unfold list_item. rewrite Hstream.
    rewrite lookup_app_r by lia.
    replace (length before + 2 - length before)%nat with 2%nat by lia.
    destruct value as [valueToken|]; cbn [app lookup list_lookup].
    - exists valueToken. split; [reflexivity |].
      now rewrite (Hvalue valueToken eq_refl).
    - exists endToken. split; [reflexivity |].
      unfold TypedToken.is_kind in *.
      destruct (TypedToken.tokenType endToken); try discriminate.
      exact Hinitial. }
  destruct H2 as (third & H2a & H2b).
  rewrite H2a. cbn [rbind]. rewrite H2b. cbn [rbind].
  assert (H3 : Parser.removeVariable (length before)
                 (InstructionPool.tokenStream instructionPool)
               = Ok (before ++ endToken :: after)).
  { unfold Parser.removeVariable. rewrite Hstream.
    rewrite drop_app_length, take_app_length.
    unfold TypedToken.is_kind in *.
    cbn [Parser.dropStatement]. unfold TypedToken.is_kind.
    destruct (TypedToken.tokenType label); try discriminate.
    rewrite Hkind. cbn [TypedToken.kind_eqb].
    destruct value as [valueToken|]; cbn [app Parser.dropStatement].
    - specialize (Hvalue valueToken eq_refl).
      unfold TypedToken.is_kind in *.
      destruct (TypedToken.tokenType valueToken); try discriminate.
      cbn [TypedToken.kind_eqb].
      destruct (TypedToken.tokenType endToken); try discriminate.
      reflexivity.
    - unfold TypedToken.is_kind.
      destruct (TypedToken.tokenType endToken); try discriminate.
      reflexivity. }
  rewrite H3. cbn [rbind].
  destruct (assign_get (fst te) (TypedToken.tokenValue label) initial
              SymbolTable.VARIABLE_LABEL entry0 Hentry0)
    as [Hassigned Hothers'].
  eexists _, _, _. split; [reflexivity |].
  cbn [InstructionPool.tokenStream InstructionPool.poolIdentifier
       InstructionPool.symbolTable].
  split; [reflexivity |]. split; [reflexivity |].
  split; [exact Hassigned |]. split; [reflexivity |].
  split; [reflexivity |]. split; [| exact Hprefix].
  intros other Hother. rewrite Hothers' by exact Hother.
  now apply Hothers.
Qed.

Lemma declaration_enters_a_variable_witness :
  exists instructionPool' errors' entry,
    Parser.updateSymbolTableFromLabel 0
      (InstructionPool.with_tokens empty_pool
         [TypedToken.mk TypedToken.LABEL "X" 1 1;
          TypedToken.mk TypedToken.ASSEMBLY_DIRECTIVE "DAT" 1 3;
          TypedToken.mk TypedToken.VALUE "+5" 1 7;
          TypedToken.mk TypedToken.END "/" 1 8]) 0 []
    = Ok (instructionPool', errors')
    /\ InstructionPool.tokenStream instructionPool'
       = [TypedToken.mk TypedToken.END "/" 1 8]
    /\ SymbolTable.get (InstructionPool.symbolTable instructionPool') "x"
       = Some entry
    /\ SymbolTable.labelType entry = SymbolTable.VARIABLE_LABEL
    /\ SymbolTable.labelValue entry = 5.
Proof.
  destruct (declaration_enters_a_variable
              (InstructionPool.with_tokens empty_pool
                 [TypedToken.mk TypedToken.LABEL "X" 1 1;
                  TypedToken.mk TypedToken.ASSEMBLY_DIRECTIVE "DAT" 1 3;
                  TypedToken.mk TypedToken.VALUE "+5" 1 7;
                  TypedToken.mk TypedToken.END "/" 1 8])
              [] [] (TypedToken.mk TypedToken.LABEL "X" 1 1)
              (TypedToken.mk TypedToken.ASSEMBLY_DIRECTIVE "DAT" 1 3)
              (Some (TypedToken.mk TypedToken.VALUE "+5" 1 7))
              (TypedToken.mk TypedToken.END "/" 1 8) 0 5 []
              eq_refl eq_refl eq_refl eq_refl
              (fun valueToken H =>
                 match H in (_ = v) return
                   match v with
                   | Some t => TypedToken.is_kind TypedToken.VALUE t = true
                   | None => True
                   end with
                 | eq_refl => eq_refl
                 end)
              eq_refl)
    as (instructionPool' & errors' & entry & H1 & H2 & _ & H4 & H5 & H6 & _).
  exists instructionPool', errors', entry.
  split; [exact H1 |]. split; [exact H2 |].
  split; [exact H4 |]. split; [exact H5 | exact H6].
Defined.

(** ** The preprocessor *)

Lemma line_breaks_app (s t : string) :
  line_breaks (s +:+ t) = (line_breaks s + line_breaks t)%nat.
Proof.
  induction s as [|c s IH]; [reflexivity |].
  rewrite str_app_cons. cbn [line_breaks]. rewrite IH. lia.
Qed.

Lemma free_of_line_breaks (more text : string) :
  free_of (KeyWords.LINE_BREAK_CHARACTERS +:+ more) text = true ->
  line_breaks text = 0%nat.
Proof.
  induction text as [|c text IH]; [reflexivity |].
  cbn [free_of line_breaks]. rewrite mem_app.
  destruct (PyStr.mem c KeyWords.LINE_BREAK_CHARACTERS);
    [discriminate |].
  intros H. apply andb_true_iff in H as [_ H]. rewrite (IH H). reflexivity.
Qed.

Lemma takeRun_app (terminators rest : string) :
  rest = fst (ArgumentProcessor.takeRun terminators rest)
         +:+ snd (ArgumentProcessor.takeRun terminators rest).
Proof.
  induction rest as [|c rest IH]; [reflexivity |].
  cbn [ArgumentProcessor.takeRun].
  destruct (PyStr.mem c terminators); [reflexivity |].
  cbn [fst snd]. rewrite str_app_cons. now rewrite <- IH.
Qed.

Lemma takeRun_free_of (terminators rest : string) :
  free_of terminators (fst (ArgumentProcessor.takeRun terminators rest))
  = true.
Proof.
  induction rest as [|c rest IH]; [reflexivity |].
  cbn [ArgumentProcessor.takeRun].
  destruct (PyStr.mem c terminators) eqn:Hc; [reflexivity |].
  cbn [fst free_of]. now rewrite Hc, IH.
Qed.

Lemma skipOverComment_app (rest : string) :
  rest = fst (Preprocessor.skipOverComment rest)
         +:+ snd (Preprocessor.skipOverComment rest).
Proof.
  induction rest as [|c rest IH]; [reflexivity |].
  cbn [Preprocessor.skipOverComment].
  destruct (PyStr.mem c KeyWords.LINE_BREAK_CHARACTERS); [reflexivity |].
  cbn [fst snd]. rewrite str_app_cons. now rewrite <- IH.
Qed.

Lemma skipOverComment_line_breaks (rest : string) :
  line_breaks (fst (Preprocessor.skipOverComment rest)) = 0%nat.
Proof.
  induction rest as [|c rest IH]; [reflexivity |].
  cbn [Preprocessor.skipOverComment].
  destruct (PyStr.mem c KeyWords.LINE_BREAK_CHARACTERS) eqn:Hc;
    [reflexivity |].
  cbn [fst line_breaks]. now rewrite Hc, IH.
Qed.

Lemma advancePosition_row (row column : Z) (current : ascii) (text : string) :
  row = 1 + Z.of_nat (line_breaks text) ->
  fst (Preprocessor.advancePosition row column current 1)
  = 1 + Z.of_nat (line_breaks (text +:+ String current EmptyString)).
Proof.
  intros ->. unfold Preprocessor.advancePosition.
  rewrite line_breaks_app. cbn [line_breaks].
  destruct (PyStr.mem current KeyWords.LINE_BREAK_CHARACTERS); cbn [fst]; lia.
Qed.

Lemma extract_loop_outcome (commentPrefix directivePrefix : ascii)
    (fuel : nat) :
  PyStr.mem directivePrefix KeyWords.LINE_BREAK_CHARACTERS = false ->
  forall (kept rest : string) (st : Preprocessor.state) (consumed : string),
    (String.length rest <= fuel)%nat ->
    cut_out consumed (Preprocessor.listOfArguments st)
      (Preprocessor.listOfParallelPositions st) kept ->
    Preprocessor.row st = 1 + Z.of_nat (line_breaks consumed) ->
    line_breaks kept = line_breaks consumed ->
    Forall (directive_shape commentPrefix directivePrefix)
      (Preprocessor.listOfArguments st) ->
    exists kept' st',
      Preprocessor.extract_loop fuel commentPrefix directivePrefix kept rest
        st = Ok (kept', st')
      /\ cut_out (consumed +:+ rest) (Preprocessor.listOfArguments st')
           (Preprocessor.listOfParallelPositions st') kept'
      /\ line_breaks kept' = line_breaks (consumed +:+ rest)
      /\ Forall (directive_shape commentPrefix directivePrefix)
           (Preprocessor.listOfArguments st').
Proof.
  intros Hprefix.
  induction fuel as [|fuel IH]; intros kept rest st consumed Hfuel Hcut Hrow
    Hbreaks Hshape.
  { destruct rest as [|c rest]; [| cbn in Hfuel; lia].
    cbn [Preprocessor.extract_loop]. rewrite str_app_nil_r.
    now exists kept, st. }
  destruct rest as [|c rest].
  { cbn [Preprocessor.extract_loop]. rewrite str_app_nil_r.
    now exists kept, st. }
  assert (Htail : forall (kept1 rest1 : string) (st1 : Preprocessor.state)
                         (consumed1 : string),
    (String.length rest1 <= S fuel)%nat ->
    cut_out consumed1 (Preprocessor.listOfArguments st1)
      (Preprocessor.listOfParallelPositions st1) kept1 ->
    Preprocessor.row st1 = 1 + Z.of_nat (line_breaks consumed1) ->
    line_breaks kept1 = line_breaks consumed1 ->
    Forall (directive_shape commentPrefix directivePrefix)
      (Preprocessor.listOfArguments st1) ->
    exists kept' st',
      match rest1 with
      | EmptyString => Ok (kept1, st1)
      | String current rest'' =>
          let position :=
            Preprocessor.advancePosition (Preprocessor.row st1)
              (Preprocessor.column st1) current 1 in
          Preprocessor.extract_loop fuel commentPrefix directivePrefix
            (kept1 +:+ String current EmptyString) rest''
            (Preprocessor.mkState (Preprocessor.listOfArguments st1)
               (Preprocessor.listOfParallelPositions st1)
               (fst position) (snd position))
      end = Ok (kept', st')
      /\ cut_out (consumed1 +:+ rest1) (Preprocessor.listOfArguments st')
           (Preprocessor.listOfParallelPositions st') kept'
      /\ line_breaks kept' = line_breaks (consumed1 +:+ rest1)
      /\ Forall (directive_shape commentPrefix directivePrefix)
           (Preprocessor.listOfArguments st')).
  { intros kept1 rest1 st1 consumed1 Hfuel1 Hcut1 Hrow1 Hbreaks1 Hshape1.
    destruct rest1 as [|current rest''].
    { rewrite str_app_nil_r. now exists kept1, st1. }
    cbv zeta.
    replace (consumed1 +:+ String current rest'')
      with ((consumed1 +:+ String current EmptyString) +:+ rest'')
      by now rewrite str_app_assoc.
    apply IH; cbn [Preprocessor.listOfArguments
                   Preprocessor.listOfParallelPositions Preprocessor.row].
    - cbn in Hfuel1. lia.
    - now apply cut_text.
    - now apply advancePosition_row.
    - rewrite !line_breaks_app. now rewrite Hbreaks1.
    - exact Hshape1. }
  cbn [Preprocessor.extract_loop]. cbv zeta.
  destruct (Ascii.eqb c commentPrefix) eqn:Hcomment.
  - cbn [fst snd].
    pose proof (skipOverComment_app (String c rest)) as Happ.
    pose proof (skipOverComment_line_breaks (String c rest)) as Hnone.
    destruct (Preprocessor.skipOverComment (String c rest))
      as [comment after] eqn:Hskip.
    cbn [fst snd] in *. rewrite Happ. rewrite <- str_app_assoc.
    apply Htail.
    + rewrite Happ, str_length_app in Hfuel. lia.
    + now apply cut_text.
    + rewrite line_breaks_app, Hnone. rewrite Hrow. f_equal. lia.
    + rewrite !line_breaks_app. now rewrite Hbreaks.
    + exact Hshape.
  - destruct (Ascii.eqb c directivePrefix) eqn:Hdirective; cbn [fst snd].
    + apply Ascii.eqb_eq in Hdirective. subst c.
      unfold Preprocessor.getPreprocessorDirective. cbv zeta.
      set (terminators := KeyWords.LINE_BREAK_CHARACTERS
             +:+ String commentPrefix EmptyString
             +:+ String directivePrefix EmptyString).
      pose proof (takeRun_app terminators rest) as Happ.
      pose proof (takeRun_free_of terminators rest) as Hfree.
      destruct (ArgumentProcessor.takeRun terminators rest)
        as [body after] eqn:Hrun.
      cbn [fst snd] in *.
      assert (Hnone : line_breaks (String directivePrefix body) = 0%nat).
      { cbn [line_breaks]. rewrite Hprefix.
        now rewrite (free_of_line_breaks _ _ Hfree). }
      replace (consumed +:+ String directivePrefix rest)
        with ((consumed +:+ String directivePrefix body) +:+ after)
        by now rewrite str_app_assoc, str_app_cons, <- Happ.
      apply Htail; cbn [Preprocessor.listOfArguments
                        Preprocessor.listOfParallelPositions
                        Preprocessor.row].
      * cbn [String.length] in Hfuel.
        rewrite Happ, str_length_app in Hfuel. lia.
      * rewrite Hrow. now apply cut_directive.
      * rewrite line_breaks_app, Hnone. rewrite Hrow. f_equal. lia.
      * rewrite line_breaks_app, Hnone. lia.
      * apply Forall_app. split; [exact Hshape |].
        apply Forall_singleton. now exists body.
    + apply (Htail kept (String c rest) st consumed); assumption.
Qed.

Lemma extract_loop_returns (commentPrefix directivePrefix : ascii)
    (fuel : nat) :
  forall (kept rest : string) (st : Preprocessor.state),
    (String.length rest <= fuel)%nat ->
    exists kept' st',
      Preprocessor.extract_loop fuel commentPrefix directivePrefix kept rest
        st = Ok (kept', st')
      /\ (length (Preprocessor.listOfArguments st)
          = length (Preprocessor.listOfParallelPositions st) ->
          length (Preprocessor.listOfArguments st')
          = length (Preprocessor.listOfParallelPositions st'))
      /\ (PyStr.mem directivePrefix rest = false ->
          kept' = kept +:+ rest
          /\ Preprocessor.listOfArguments st'
             = Preprocessor.listOfArguments st).
Proof.
  induction fuel as [|fuel IH]; intros kept rest st Hfuel.
  { destruct rest as [|c rest]; [| cbn in Hfuel; lia].
    cbn [Preprocessor.extract_loop]. rewrite str_app_nil_r.
    now exists kept, st. }
  destruct rest as [|c rest].
  { cbn [Preprocessor.extract_loop]. rewrite str_app_nil_r.
    now exists kept, st. }
  assert (Htail : forall (kept1 rest1 : string) (st1 : Preprocessor.state),
    (String.length rest1 <= S fuel)%nat ->
    exists kept' st',
      match rest1 with
      | EmptyString => Ok (kept1, st1)
      | String current rest'' =>
          let position :=
            Preprocessor.advancePosition (Preprocessor.row st1)
              (Preprocessor.column st1) current 1 in
          Preprocessor.extract_loop fuel commentPrefix directivePrefix
            (kept1 +:+ String current EmptyString) rest''
            (Preprocessor.mkState (Preprocessor.listOfArguments st1)
               (Preprocessor.listOfParallelPositions st1)
               (fst position) (snd position))
      end = Ok (kept', st')
      /\ (length (Preprocessor.listOfArguments st1)
          = length (Preprocessor.listOfParallelPositions st1) ->
          length (Preprocessor.listOfArguments st')
          = length (Preprocessor.listOfParallelPositions st'))
      /\ (PyStr.mem directivePrefix rest1 = false ->
          kept' = kept1 +:+ rest1
          /\ Preprocessor.listOfArguments st'
             = Preprocessor.listOfArguments st1)).
  { intros kept1 rest1 st1 Hfuel1.
    destruct rest1 as [|current rest''].
    { rewrite str_app_nil_r. now exists kept1, st1. }
    cbv zeta.
    destruct (IH (kept1 +:+ String current EmptyString) rest''
                (Preprocessor.mkState (Preprocessor.listOfArguments st1)
                   (Preprocessor.listOfParallelPositions st1)
                   (fst (Preprocessor.advancePosition (Preprocessor.row st1)
                           (Preprocessor.column st1) current 1))
                   (snd (Preprocessor.advancePosition (Preprocessor.row st1)
                           (Preprocessor.column st1) current 1))))
      as (kept' & st' & Hloop & Hlength & Hsame).
    { cbn in Hfuel1. lia. }
    exists kept', st'. split; [exact Hloop |].
    split; [exact Hlength |].
    intros Hmem. cbn [PyStr.mem] in Hmem.
    destruct (Ascii.eqb directivePrefix current); [discriminate |].
    destruct (Hsame Hmem) as [-> ->].
    now rewrite str_app_assoc. }
  cbn [Preprocessor.extract_loop]. cbv zeta.
  destruct (Ascii.eqb c commentPrefix) eqn:Hcomment.
  - cbn [fst snd].
    pose proof (skipOverComment_app (String c rest)) as Happ.
    destruct (Preprocessor.skipOverComment (String c rest))
      as [comment after] eqn:Hskip.
    cbn [fst snd] in *.
    destruct (Htail (kept +:+ comment) after st)
      as (kept' & st' & Hloop & Hlength & Hsame).
    { rewrite Happ, str_length_app in Hfuel. lia. }
    exists kept', st'. split; [exact Hloop |].
    split; [exact Hlength |].
    rewrite Happ, mem_app. intros Hmem.
    apply orb_false_iff in Hmem as [_ Hmem].
    destruct (Hsame Hmem) as [-> ->].
    now rewrite str_app_assoc.
  - destruct (Ascii.eqb c directivePrefix) eqn:Hdirective; cbn [fst snd].
    + unfold Preprocessor.getPreprocessorDirective. cbv zeta.
      set (terminators := KeyWords.LINE_BREAK_CHARACTERS
             +:+ String commentPrefix EmptyString
             +:+ String directivePrefix EmptyString).
      pose proof (takeRun_app terminators rest) as Happ.
      destruct (ArgumentProcessor.takeRun terminators rest)
        as [body after] eqn:Hrun.
      cbn [fst snd] in *.
      destruct (Htail kept after
                  (Preprocessor.mkState
                     (Preprocessor.listOfArguments st ++ [String c body])
                     (Preprocessor.listOfParallelPositions st
                      ++ [(Preprocessor.row st, Preprocessor.column st)])
                     (Preprocessor.row st) (Preprocessor.column st)))
        as (kept' & st' & Hloop & Hlength & _).
      { cbn [String.length] in Hfuel.
        rewrite Happ, str_length_app in Hfuel. lia. }
      exists kept', st'. split; [exact Hloop |].
      cbn [Preprocessor.listOfArguments
           Preprocessor.listOfParallelPositions] in Hlength.
      split.
      * intros Hst. apply Hlength. rewrite !length_app, Hst. reflexivity.
      * cbn [PyStr.mem]. rewrite Ascii.eqb_sym, Hdirective. discriminate.
    + apply (Htail kept (String c rest) st). exact Hfuel.
Qed.


(** Extra (preprocessor.py).  With a directive prefix that is no
    line-break character, the extraction of the directives returns for every
    source text: the source is made of texts and of the extracted
    directives, in their order, and what stays is the texts, so nothing but
    directives is removed and nothing is moved.  Every extracted directive
    is the directive prefix followed by a text that holds no line break, no
    comment prefix and no directive prefix; the source keeps all its line
    breaks, and the row stored for a directive is the number of its line in
    the source that was given. *)
Theorem extraction_cuts_out_the_directives
    (commentPrefix directivePrefix : ascii) (sourceCode : string) :
  PyStr.mem directivePrefix KeyWords.LINE_BREAK_CHARACTERS = false ->
  exists kept st,
    Preprocessor.extractPreprocessorDirectives commentPrefix directivePrefix
      sourceCode = Ok (kept, st)
    /\ cut_out sourceCode (Preprocessor.listOfArguments st)
         (Preprocessor.listOfParallelPositions st) kept
    /\ line_breaks kept = line_breaks sourceCode
    /\ Forall (directive_shape commentPrefix directivePrefix)
         (Preprocessor.listOfArguments st).
Proof.
  intros Hprefix. unfold Preprocessor.extractPreprocessorDirectives.
  apply (extract_loop_outcome commentPrefix directivePrefix
           (String.length sourceCode) Hprefix EmptyString sourceCode
           (Preprocessor.mkState [] [] 1 1) EmptyString);
    cbn [Preprocessor.listOfArguments Preprocessor.listOfParallelPositions
         Preprocessor.row line_breaks];
    [lia | constructor | reflexivity | reflexivity | constructor].
Qed.

Lemma extraction_cuts_out_the_directives_witness :
  exists kept st,
    Preprocessor.extractPreprocessorDirectives ";" "!"
      (String "010" "!memory=50 ; small" +:+ String "010" "HLT")
    = Ok (kept, st)
    /\ cut_out (String "010" "!memory=50 ; small" +:+ String "010" "HLT")
         (Preprocessor.listOfArguments st)
         (Preprocessor.listOfParallelPositions st) kept
    /\ line_breaks kept
       = line_breaks
           (String "010" "!memory=50 ; small" +:+ String "010" "HLT")
    /\ Forall (directive_shape ";" "!") (Preprocessor.listOfArguments st).
Proof.
  apply (extraction_cuts_out_the_directives ";" "!"
           (String "010" "!memory=50 ; small" +:+ String "010" "HLT")).
  reflexivity.
Defined.


Lemma takeRun_stop (terminators body : string) (c : ascii) (text : string) :
  free_of terminators body = true ->
  PyStr.mem c terminators = true ->
  ArgumentProcessor.takeRun terminators (body +:+ String c text)
  = (body, String c text).
Proof.
  intros Hfree Hc. induction body as [|b body IH].
  - rewrite str_app_nil_l. cbn [ArgumentProcessor.takeRun]. now rewrite Hc.
  - cbn [free_of] in Hfree. apply andb_true_iff in Hfree as [Hb Hfree].
    apply negb_true_iff in Hb.
    rewrite str_app_cons. cbn [ArgumentProcessor.takeRun].
    rewrite Hb, (IH Hfree). reflexivity.
Qed.

Lemma extract_loop_text (commentPrefix directivePrefix : ascii)
    (text : string) :
  free_of (String commentPrefix (String directivePrefix EmptyString)) text
  = true ->
  forall (fuel : nat) (kept more : string) (st : Preprocessor.state),
    (String.length (text +:+ more) <= fuel)%nat ->
    exists st',
      Preprocessor.listOfArguments st' = Preprocessor.listOfArguments st
      /\ Preprocessor.extract_loop fuel commentPrefix directivePrefix kept
           (text +:+ more) st
         = Preprocessor.extract_loop (fuel - String.length text)
             commentPrefix directivePrefix (kept +:+ text) more st'.
Proof.
  induction text as [|c text IH]; intros Hfree fuel kept more st Hfuel.
  - exists st. rewrite str_app_nil_l, str_app_nil_r, Nat.sub_0_r.
    now split.
  - cbn [free_of PyStr.mem] in Hfree.
    apply andb_true_iff in Hfree as [Hc Hfree].
    apply negb_true_iff in Hc.
    destruct (Ascii.eqb c commentPrefix) eqn:Hcomment; [discriminate |].
    destruct (Ascii.eqb c directivePrefix) eqn:Hdirective; [discriminate |].
    rewrite str_app_cons in Hfuel |- *.
    destruct fuel as [|fuel]; [cbn in Hfuel; lia |].
    cbn [Preprocessor.extract_loop]. cbv zeta.
    rewrite Hcomment, Hdirective. cbn [fst snd].
    destruct (IH Hfree fuel (kept +:+ String c EmptyString) more
                (Preprocessor.mkState (Preprocessor.listOfArguments st)
                   (Preprocessor.listOfParallelPositions st)
                   (fst (Preprocessor.advancePosition (Preprocessor.row st)
                           (Preprocessor.column st) c 1))
                   (snd (Preprocessor.advancePosition (Preprocessor.row st)
                           (Preprocessor.column st) c 1))))
      as (st' & Harguments & Hloop).
    { cbn in Hfuel. lia. }
    exists st'. split; [exact Harguments |].
    rewrite Hloop. cbn [String.length Nat.sub].
    now rewrite str_app_assoc.
Qed.

(** Extra (preprocessor.py).  A directive that follows another
    directive without a line break between them is not extracted: after the
    first directive is cut out, the walk steps over the character that
    ended it, which is the prefix of the second one.  For a text [before]
    without comment prefix and directive prefix, a directive body [body]
    and a text [text] without directive prefix, the source
    [before ++ prefix body ++ prefix text] gives the one directive
    [prefix body], and [before ++ prefix text] stays as source. *)
Theorem directive_after_a_directive_stays
    (commentPrefix directivePrefix : ascii) (before body text : string) :
  Ascii.eqb directivePrefix commentPrefix = false ->
  free_of (String commentPrefix (String directivePrefix EmptyString)) before
  = true ->
  free_of (KeyWords.LINE_BREAK_CHARACTERS
           +:+ String commentPrefix EmptyString
           +:+ String directivePrefix EmptyString) body = true ->
  PyStr.mem directivePrefix text = false ->
  exists st,
    Preprocessor.extractPreprocessorDirectives commentPrefix directivePrefix
      (before +:+ String directivePrefix body
       +:+ String directivePrefix text)
    = Ok (before +:+ String directivePrefix text, st)
    /\ Preprocessor.listOfArguments st = [String directivePrefix body].
Proof.
  intros Hprefixes Hbefore Hbody Htext.
  unfold Preprocessor.extractPreprocessorDirectives.
  destruct (extract_loop_text commentPrefix directivePrefix before Hbefore
              (String.length
                 (before +:+ String directivePrefix body
                  +:+ String directivePrefix text))
              EmptyString
              (String directivePrefix body +:+ String directivePrefix text)
              (Preprocessor.mkState [] [] 1 1) ltac:(lia))
    as (st1 & Harguments & ->).
  cbn [Preprocessor.listOfArguments] in Harguments.
  rewrite str_length_app, str_app_nil_l.
  replace (String.length before
           + String.length
               (String directivePrefix body +:+ String directivePrefix text)
           - String.length before)%nat
    with (S (String.length (body +:+ String directivePrefix text)))
    by (rewrite str_app_cons; cbn [String.length]; lia).
  rewrite str_app_cons.
  cbn [Preprocessor.extract_loop]. cbv zeta.
  rewrite Hprefixes, Ascii.eqb_refl. cbn [fst snd].
  unfold Preprocessor.getPreprocessorDirective. cbv zeta.
  rewrite (takeRun_stop _ body directivePrefix text Hbody); cycle 1.
  { rewrite !mem_app. cbn [PyStr.mem]. rewrite Ascii.eqb_refl.
    now rewrite !orb_true_r. }
  cbn [fst snd Preprocessor.listOfArguments
       Preprocessor.listOfParallelPositions Preprocessor.row
       Preprocessor.column].
  destruct (extract_loop_returns commentPrefix directivePrefix
              (String.length (body +:+ String directivePrefix text))
              (before +:+ String directivePrefix EmptyString) text
              (Preprocessor.mkState
                 (Preprocessor.listOfArguments st1
                  ++ [String directivePrefix body])
                 (Preprocessor.listOfParallelPositions st1
                  ++ [(Preprocessor.row st1, Preprocessor.column st1)])
                 (fst (Preprocessor.advancePosition (Preprocessor.row st1)
                         (Preprocessor.column st1) directivePrefix 1))
                 (snd (Preprocessor.advancePosition (Preprocessor.row st1)
                         (Preprocessor.column st1) directivePrefix 1))))
    as (kept' & st' & -> & _ & Hsame).
  { rewrite str_length_app. cbn [String.length]. lia. }
  destruct (Hsame Htext) as [-> Hst'].
  cbn [Preprocessor.listOfArguments] in Hst'.
  exists st'. split.
  - now rewrite str_app_assoc.
  - now rewrite Hst', Harguments.
Qed.

Lemma directive_after_a_directive_stays_witness :
  exists st,
    Preprocessor.extractPreprocessorDirectives ";" "!"
      ("HLT " +:+ String "!" "memory=50"
       +:+ String "!" ("registers=4" +:+ String "010" "HLT"))
    = Ok ("HLT " +:+ String "!" ("registers=4" +:+ String "010" "HLT"), st)
    /\ Preprocessor.listOfArguments st = [String "!" "memory=50"].
Proof.
  apply (directive_after_a_directive_stays ";" "!" "HLT " "memory=50"
           ("registers=4" +:+ String "010" "HLT"));
    reflexivity.
Defined.

(** ** machineoperations.py: a branch after an arithmetic instruction *)

(** Extra (machineoperations.py).  A conditional branch on the cell that
    [ADD], [SUB], [AND], [OR] or [XOR] has just written tests the stored
    word, not the result: [BRZ] jumps exactly when the magnitude of the
    result is a multiple of [2 ^ (width - 1)], which for a result that fits
    the word is when the result is zero; [BRP] jumps exactly when the
    result is zero or more, or is a negative number whose magnitude is such
    a multiple (it is stored as negative zero).  A jump writes the target
    as a signed word to the Program Counter and changes no other cell;
    without a jump the machine stays as it is. *)
Theorem branches_test_the_stored_result
    (operation : MachineOperations.t -> pyval -> Z -> result MachineOperations.t)
    (op : Z -> Z -> Z) (m : MachineOperations.t)
    (sourceOperand destinationOperand old target : Z) (cell : string) :
  In (operation, op) arithmetic_instructions ->
  MachineOperations.memoryPool m !! destinationOperand = Some cell ->
  BinaryString.readSignedInteger cell = Ok old ->
  let W := MachineOperations.totalNumberOfBits m in
  let r := op old sourceOperand in
  let magnitude := Z.abs r mod 2 ^ (Z.max 2 W - 1) in
  exists m' jumped,
    operation m (PInt sourceOperand) destinationOperand = Ok m'
    /\ MachineOperations.BRA m' (PInt target) destinationOperand = Ok jumped
    /\ MachineOperations.memoryPool jumped
       = <[MachineOperations.programCounterAddress m
             := BinaryString.signedInteger target W]>
           (MachineOperations.memoryPool m')
    /\ MachineOperations.BRZ m' (PInt target) destinationOperand
       = Ok (if magnitude =? 0 then jumped else m')
    /\ MachineOperations.BRP m' (PInt target) destinationOperand
       = Ok (if (0 <=? r) || (magnitude =? 0) then jumped else m').
Proof.
  intros Hin Hcell Hold W r magnitude.
  assert (Hop : operation = MachineOperations.arithmetic op).
  { unfold arithmetic_instructions in Hin. cbn [In] in Hin.
    destruct Hin as [H | [H | [H | [H | [H | []]]]]];
      injection H as <- <-; reflexivity. }
  subst operation. unfold MachineOperations.arithmetic, getitem.
  rewrite Hcell. cbn [rbind]. rewrite Hold. cbn [rbind as_int].
  eexists. eexists. split; [reflexivity |].
  unfold MachineOperations.BRA, MachineOperations.BRZ, MachineOperations.BRP,
    MachineOperations.branch, getitem.
  cbn [as_int rbind MachineOperations.with_pool
       MachineOperations.memoryPool MachineOperations.totalNumberOfBits
       MachineOperations.programCounterAddress
       MachineOperations.numberOfGeneralPurposeRegisters].
  split; [reflexivity |]. split; [reflexivity |].
  rewrite lookup_insert_eq. cbn [rbind].
  rewrite signedInteger_value. cbn [rbind].
  fold W r magnitude.
  assert (Hmagnitude : 0 <= magnitude).
  { apply Z.mod_pos_bound. apply Z.pow_pos_nonneg; lia. }
  split.
  - replace (Z.sgn r * magnitude =? 0) with (magnitude =? 0);
      [now destruct (magnitude =? 0) |].
    destruct (Z.eqb_spec magnitude 0) as [-> | Hne].
    + symmetry. apply Z.eqb_eq. lia.
    + symmetry. apply Z.eqb_neq. intros Hzero.
      apply Z.mul_eq_0 in Hzero as [Hsgn | Hzero]; [| contradiction].
      apply (proj1 (Z.sgn_null_iff r)) in Hsgn. apply Hne. unfold magnitude.
      rewrite Hsgn. cbn [Z.abs]. apply Z.mod_0_l.
      apply Z.pow_nonzero; lia.
  - replace (-1 <? Z.sgn r * magnitude)
      with ((0 <=? r) || (magnitude =? 0));
      [now destruct ((0 <=? r) || (magnitude =? 0)) |].
    destruct (Z.leb_spec 0 r) as [Hr | Hr]; cbn [orb].
    + symmetry. apply Z.ltb_lt.
      assert (0 <= Z.sgn r) by (apply Z.sgn_nonneg; exact Hr). nia.
    + assert (Hsgn : Z.sgn r = -1) by (apply Z.sgn_neg; exact Hr).
      rewrite Hsgn.
      destruct (Z.eqb_spec magnitude 0) as [-> | Hne].
      * reflexivity.
      * symmetry. apply Z.ltb_ge. lia.
Qed.

Lemma branches_test_the_stored_result_witness :
  exists m' jumped,
    MachineOperations.SUB small_machine (PInt 5) (-2) = Ok m'
    /\ MachineOperations.BRA m' (PInt 3) (-2) = Ok jumped
    /\ MachineOperations.memoryPool jumped
       = <[MachineOperations.programCounterAddress small_machine
             := BinaryString.signedInteger 3 8]>
           (MachineOperations.memoryPool m')
    /\ MachineOperations.BRZ m' (PInt 3) (-2)
       = Ok (if Z.abs (5 - 5) mod 2 ^ (Z.max 2 8 - 1) =? 0
             then jumped else m')
    /\ MachineOperations.BRP m' (PInt 3) (-2)
       = Ok (if (0 <=? 5 - 5)
                || (Z.abs (5 - 5) mod 2 ^ (Z.max 2 8 - 1) =? 0)
             then jumped else m').
Proof.
  apply (branches_test_the_stored_result MachineOperations.SUB Z.sub
           small_machine 5 (-2) 5 3 "00000101").
  - right. left. reflexivity.
  - reflexivity.
  - reflexivity.
Defined.
